(* ===== verification/_CoqProject ===== *)
-Q . S2P
Prelude.v
Config.v
Posix.v
PageStore.v
Disk.v
Replacer.v
BufferPool.v
PoolSpec.v
PoolRuns.v
Bitmap.v
Record.v
RecordPage.v
RecordSpec.v
RecordScan.v
RecordRuns.v
IxKey.v
IxNode.v
IxNodeSpec.v
IxTree.v
IxTreeSpec.v
IxTreeSplit.v
IxTreeInsert.v
IxInsert.v
IxFile.v
IxBuild.v
IxDelete.v
IxMerge.v
IxRebalance.v
IxLinks.v
IxHistory.v
IxPool.v
IxRange.v
RWLatch.v
Printer.v
Meta.v
Catalog.v
Query.v
QuerySpec.v
Executor.v
Txn.v
Log.v
Ast.v
Interp.v
Regex.v
Lexer.v
LexerSpec.v
LexText.v
Parser.v
ParserSpec.v
ParserText.v
AstPrinter.v
Server.v
Listener.v
ExecSql.v
Logger.v
