(* ===== verification/Prelude.v ===== *)
(** * RucBase: a verified model of the database server

    RucBase is a small relational database: a server that accepts SQL from
    clients, keeps each table in a file of records and each index in a B+ tree,
    and reads and writes both through one buffer pool.  Its sources are the
    C++ files of [src/src/].

    ** The program and its parts

    From the bottom up: the disk manager reads and writes pages of files; the
    buffer pool keeps pages in frames and asks a replacer which frame to give
    up; the record manager lays records out in pages with a bitmap and links
    the pages that have room; the index manager keeps B+ trees whose nodes are
    pages; the system manager has the catalogue of tables and columns and the
    open files; the query manager checks and places conditions and builds
    executors; the scanner and the parser turn text into syntax trees; the
    interpreter runs a statement inside a transaction;
    [client_handler] serves a connection.  The lock manager, the log and the
    reader-writer latch stand beside these.

    ** Files of the development

    - [Prelude] (this file): outcomes and the state monad, machine integers,
      bytes, hint databases and the tactics [mstep], [mstop] and [munfold].
      [Config]: [common/config.h], [defs.h], [errors.h], the exceptions.
    - [Posix]: the system calls, a class [Posix] with their documented behaviour
      and an in-memory instance [MemFS]; [Disk]: [storage/disk_manager.*] over
      any [Posix].
    - [PageStore]: what the pool needs of a disk (a class with laws); [Disk]
      has the instance.  [Replacer]: the class of [replacer/replacer.h], the
      LRU replacer and the clock replacer's stub.
    - [BufferPool]: [storage/page.h], [storage/buffer_pool_manager.*], over any
      [PageStore] and [Replacer]; [PoolSpec]: its specification as a store of
      pages, the invariant and the refinement; [PoolRuns]: instances.
    - [Bitmap]: [record/bitmap.h]; [Record]: [record/rm_defs.h],
      [rm_file_handle.*], [rm_scan.*], [rm_manager.h]; [RecordPage]: a page as a
      table of slots; [RecordSpec]: the file as a map from [Rid] to records;
      [RecordScan]: whole scans; [RecordRuns]: instances.
    - [IxKey], [IxNode]: keys and nodes of [index/ix_node_handle.*]; [IxNodeSpec]:
      a node as a sorted association list; [IxTree]: [index/ix_index_handle.*] and
      [ix_scan.*]; [IxTreeSpec], [IxTreeSplit], [IxTreeInsert], [IxInsert],
      [IxBuild]: the tree as a map, from one split to any sequence of
      insertions (the invariant has two switches, [mode]: whether first
      separators are exact, and whether the slots past the end of a page are
      clean); [IxDelete]: deletion from a leaf that keeps enough entries;
      [IxMerge]: what moving an entry between two neighbouring leaves, or joining
      them, does to the tree; [IxRebalance]: deletion with both; [IxLinks]: the
      leaf list and the pin counts through insertions; [IxHistory]: the life of an
      index from its creation; [IxPool]: the tree over a pool that fails, and the
      dirty flags it reports; [IxRange]: range scans; [IxFile]:
      [index/ix_manager.h] and the bytes of a node page.
    - [Printer]: [record_printer.h] and the reply buffer; [Meta]:
      [system/sm_meta.h]; [Catalog]: [system/sm_manager.*].
    - [Query]: [execution/execution_manager.*], the abstract executor and the
      predicates; [QuerySpec]: its theorems; [Executor]: the executors at run
      time.
    - [Txn]: [transaction/]; [Log]: [recovery/], log records, the log manager with
      its flush thread, recovery and checkpoints; [RWLatch]: [common/rwlatch.*]; [Interp]: [interp.h].
    - [Ast]: [parser/ast.h]; [AstPrinter]: [parser/ast_printer.h].  [Regex]:
      regular expressions, their matches and derivatives; [Lexer]: [parser/lex.l],
      its patterns, rules, start conditions, conversions and locations;
      [LexerSpec]: the scanner against the relation [lexes]; [LexText]: how tokens
      are spelled, and scanning what was spelled.  [Parser]: [parser/yacc.y], the
      productions as relations [g_*] with their actions and an executable parser
      [p_*]; [ParserSpec]: the parser decides the grammar; [ParserText]: writing a
      tree and reading it back.
    - [Server]: [client_handler] of [rucbase.cpp], over the scanner, the parser,
      the interpreter and the reply buffer; [Listener]: [start_server], the
      handler of Ctrl-C and [main], with the answers of the system calls and the
      progress of threads as a sequence of events.
    - [ExecSql]: the driver [execution/exec_sql.cpp] and [interp_test.h]; [Logger]:
      [common/logger.h].

    ** How the code is modelled

    An object is a record with the source's members.  A method is a computation
    [M S A] on its state: it returns, throws an exception of [errors.h], or
    crashes (failed [assert], null dereference, access outside an object,
    unset value, missing [return]); the state survives an exception as the C++
    object does.  An [int] is a [Z] with [wrap32] where the source can
    overflow; a page is a list of 4096 bytes, and the structs in it are read
    and written at their offsets, little-endian.  Pointers to frames are frame
    numbers, so that two handles on one page alias.  A method that
    takes the object's latch is one step.  The reader-writer latch, where
    interleaving matters, is a step relation over threads with condition
    variables.

    ** What is proved

    - Storage.  The disk manager's two tables stay inverse to each other, and name
      each file once while only plain names are opened in a directory without
      links; a page below number 2^19 that was written is the page read, when it
      can be read, and no other page changes; the log reads what was written.  The LRU replacer refines the policy "least recently
      unpinned first".  The buffer pool refines a store of pages that never
      loses a write to a page while it follows the protocol of [PoolSpec], held
      pages are in distinct frames, [NewPage] fails exactly when all frames are
      pinned, and after [FlushAllPages] the disk has the current bytes.
    - Records.  The layout fits the page for every record size that is allowed;
      insert, delete, update and get act on the map as their names say and keep
      the free list and the counts; a scan terminates and reads every record
      once, in order.  They fail only when the disk does or when every frame is
      pinned.
    - Indexes.  Node search is a linear scan's result, insert and remove are those
      of a sorted map; [GetValue] finds exactly the bindings of the tree;
      [insert_entry] keeps the tree invariant and adds the one binding, and a
      sequence of insertions into a new index, the smallest key first, gives the
      map it describes, for keys that differ from the all-zero key and from the
      uninitialised bytes [create_index] writes;
      [delete_entry] takes away the one binding and keeps the tree invariant, with
      separators replaced up to the root, an entry taken from the neighbouring
      leaf, or two leaves joined and the root removed, as long as the index keeps a
      key, no inner page has to be merged in turn, and the key is bound or no
      deletion has left keys behind; so an index that is created, filled and emptied in
      part answers like the list of its pairs without the deleted keys; a range
      scan delivers the bindings from a key on, in order; node and file headers
      survive on disk.  These are theorems over a pool that does not fail; over
      any pool the operations do the same or are stopped by a call that failed,
      and no page they change is left unpinned without having been reported dirty
      ([IxPool]).
    - Catalogue and queries.  The catalogue's text form reads back;
      [create_table] keeps the catalogue's invariant, for column lengths that are
      not negative and add up to an [int]; listings print what they should;
      conditions on fields of the same type and width are turned and pushed down
      without changing what a query means and evaluate without leaving the
      record; columns without a table are resolved or refused.
    - Text.  The scanner returns the token of the longest match, the earlier rule
      on a tie, and keeps line and column; the parser accepts exactly the texts
      whose tokens begin with a derivation of [start], computes its value, and
      otherwise reports the first token that fits no statement; the trees of
      statements are characterised, and each, however it is spelled and laid
      out, is parsed back to itself; the listing of the tree printer determines
      the tree up to [float]s that print alike.
    - Statements.  Through the command-line driver every text of a [create table]
      makes the table it describes, and every text of [show tables] or [desc] then
      lists it.  The server answers what needs no transaction; a statement that
      needs one follows the null pointer [Begin] answers ([interp_sql_idle]),
      since [Begin] is a stub.
      Every client thread belongs to a connection of its own, and serves it when
      every thread starts before the next answer of [accept].
      Lock ids are distinct below stated bounds; a table name survives in a log
      record; the latch excludes writers from everyone and loses no wake-up
      with at most [MAX_READERS] threads.

    Hypotheses on code that is not in the repository: the laws of [Posix] (with
    the instance [MemFS]), [chdir] and [ifstream] in [Catalog].

    ** Fuel and bounds

    Loops with a bound in the source recurse on that bound.  The descent and
    the splits of the B+ tree have fuel, and the theorems give the fuel that is
    enough in terms of the height.  The scanner has one unit of fuel more than
    characters are left and the lists of the grammar one more than tokens are
    left, which the theorems show to be enough for every text; a scan needs one round more than the file
    has records, a plan the depth of its left spine in addition.  Theorems that
    pin pages ask for pin counts below [INT_MAX], since the source never
    unpins the pages of a scan.

    ** Not modelled

    - [parser/lex.yy.c] and [yacc.tab.c] are generated from older versions of
      [lex.l] and [yacc.y]; the build makes its own from the latter, which are
      what is modelled.  Of bison's parser the text of the error message and the
      limit on the stack are left out.
    - What is written to the server's console.
    - Checkpoints, recovery and [RunFlushThread] have empty bodies, as have
      [create_db], [close_db], [drop_table], [Begin], [Commit], [Abort] and the
      lock methods, which are modelled as they are.
    - [create_index], [drop_index], where clauses and index scans are modelled up
      to the uninitialised iterator or member they use, after which the
      language gives the code no meaning.
    - A running transaction: nothing in the source makes one, so no theorem
      supposes one.
    - The system's side of sockets, threads and signals; latches other than
      [ReaderWriterLatch] are taken as making a method atomic.
    - Merging inner pages: the source looks for their neighbours through the links
      that only leaves have ([deep_delete_reads_file_header] of [IxBuild]), so the
      theorem on deletion excludes it. *)
From stdpp Require Export base tactics numbers option list list_numbers sorting gmap fin_maps fin_sets strings.

Global Open Scope Z_scope.

(** ** Outcomes

    A C++ function returns, throws, or leaves the defined behaviour of the
    language (a failed [assert], a null dereference, an access outside an
    object, a value never set, a function with a result that ends without
    [return]).  [OutOfFuel] is a loop that has not ended in the rounds allowed.  The three are kept apart: [Crash] is never caught. *)

Inductive crash : Set :=
  | AssertFail
  | NullDeref
  | OutOfBounds
  | Uninitialised
  | NoReturn
  | OutOfFuel.

Inductive outcome (E A : Type) : Type :=
  | Ok (a : A)
  | Throw (e : E)
  | Crash (c : crash).

Arguments Ok {E A} a.
Arguments Throw {E A} e.
Arguments Crash {E A} c.

(** A stateful computation that may throw: the state survives the exception,
    as the C++ objects do. *)
Definition st (E S A : Type) : Type := S → outcome E A * S.

Section Monad.
Context {E S : Type}.

Definition st_ret {A} (a : A) : st E S A := λ s, (Ok a, s).

Definition st_bind {A B} (m : st E S A) (k : A → st E S B) : st E S B := λ s,
  match m s with
  | (Ok a, s') => k a s'
  | (Throw e, s') => (Throw e, s')
  | (Crash c, s') => (Crash c, s')
  end.

Definition throw {A} (e : E) : st E S A := λ s, (Throw e, s).
Definition crash_with {A} (c : crash) : st E S A := λ s, (Crash c, s).
Definition get_st : st E S S := λ s, (Ok s, s).
Definition put_st (s' : S) : st E S unit := λ _, (Ok tt, s').
Definition gets {A} (f : S → A) : st E S A := λ s, (Ok (f s), s).
Definition modify (f : S → S) : st E S unit := λ s, (Ok tt, f s).

(** C's [assert(b)]. *)
Definition assert_ (b : bool) : st E S unit :=
  if b then st_ret tt else crash_with AssertFail.
End Monad.

(** Programs are written with stdpp's notations, read in the development's own
    scope as the monad above. *)
Declare Scope db_scope.
Delimit Scope db_scope with db.
Notation "x ← m ; k" := (st_bind m (λ x, k)) : db_scope.
Notation "' x ← m ; k" := (st_bind m (λ x, k)) : db_scope.
Notation "m ;; k" := (st_bind m (λ _, k)) : db_scope.
Abbreviation ret := st_ret.
Global Open Scope db_scope.

(** Run a computation on a component of the state. *)
Definition zoom {E S T A} (get : S → T) (set : T → S → S) (m : st E T A) : st E S A := λ s,
  let '(r, t) := m (get s) in (r, set t s).

(** [try { m } catch ...]. *)
Definition st_catch {E S A} (m : st E S A) (h : E → st E S A) : st E S A := λ s,
  match m s with (Throw e, s') => h e s' | o => o end.

(** A computation on the whole list, left to right. *)
Fixpoint st_iter {E S A} (f : A → st E S unit) (l : list A) : st E S unit :=
  match l with
  | [] => ret tt
  | x :: l' => f x ;; st_iter f l'
  end.

(** Reading back a run: what [m; k] did is what [m] did and then [k]. *)
Lemma st_bind_ok {E S A B} (m : st E S A) (k : A → st E S B) s a s1 :
  m s = (Ok a, s1) → (st_bind m k) s = k a s1.
Proof. intros H. unfold st_bind. by rewrite H. Qed.

Lemma st_bind_throw {E S A B} (m : st E S A) (k : A → st E S B) s e s1 :
  m s = (Throw e, s1) → (st_bind m k) s = (Throw e, s1).
Proof. intros H. unfold st_bind. by rewrite H. Qed.

Lemma st_bind_crash {E S A B} (m : st E S A) (k : A → st E S B) s c s1 :
  m s = (Crash c, s1) → (st_bind m k) s = (Crash c, s1).
Proof. intros H. unfold st_bind. by rewrite H. Qed.

Lemma st_get_bind {E S A} (k : S → st E S A) s : (st_bind get_st k) s = k s s.
Proof. done. Qed.

Lemma st_bind_assoc {E S A B C} (m : st E S A) (k : A → st E S B) (j : B → st E S C) s :
  (st_bind (st_bind m k) j) s = (st_bind m (λ a, st_bind (k a) j)) s.
Proof. unfold st_bind. by destruct (m s) as [[]]. Qed.

(** Two continuations that agree on what the first computation delivers. *)
Lemma st_bind_ext {E S A B} (m : st E S A) (k k' : A → st E S B) s :
  (∀ a s', k a s' = k' a s') → (st_bind m k) s = (st_bind m k') s.
Proof. intros H. unfold st_bind. by destruct (m s) as [[]]. Qed.

Lemma st_bind_inv {E S A B} (m : st E S A) (k : A → st E S B) s r s' :
  (st_bind m k) s = (r, s') →
  (∃ a s1, m s = (Ok a, s1) ∧ k a s1 = (r, s')) ∨
  (∃ e, m s = (Throw e, s') ∧ r = Throw e) ∨
  (∃ c, m s = (Crash c, s') ∧ r = Crash c).
Proof.
  unfold st_bind. destruct (m s) as [[a|e|c] s1]; intros H.
  - left. eauto.
  - right; left. injection H as <- <-. eauto.
  - right; right. injection H as <- <-. eauto.
Qed.

(** Unfold the monad's plumbing. *)
Ltac munfold :=
  unfold st_bind, st_ret, gets, modify, get_st, put_st, throw, crash_with, assert_, zoom in *.

(** One step of a run: the first computation is known to have returned. *)
Tactic Notation "mstep" constr(H) := rewrite (st_bind_ok _ _ _ _ _ H).
Tactic Notation "mstep" constr(H) "in" hyp(K) := rewrite (st_bind_ok _ _ _ _ _ H) in K.

(** The first computation is known to have thrown or crashed: so has the run. *)
Tactic Notation "mstop" constr(H) :=
  first [rewrite (st_bind_throw _ _ _ _ _ H) | rewrite (st_bind_crash _ _ _ _ _ H)].

Definition returns {E A} (o : outcome E A) : Prop := ∃ a, o = Ok a.

(** ** Machine integers

    An [int] is a [Z] in [[-2^31, 2^31)]; arithmetic that the source lets
    wrap is written with [wrap32]. *)

Definition int_min : Z := -2147483648.
Definition int_max : Z := 2147483647.
Definition wrap32 (z : Z) : Z := (z + 2147483648) `mod` 4294967296 - 2147483648.
Definition wrap64 (z : Z) : Z :=
  (z + 9223372036854775808) `mod` 18446744073709551616 - 9223372036854775808.
Definition is_int (z : Z) : Prop := int_min ≤ z ≤ int_max.

#[global] Instance is_int_dec z : Decision (is_int z).
Proof. unfold is_int; apply _. Defined.

Lemma wrap32_id z : is_int z → wrap32 z = z.
Proof. unfold is_int, wrap32, int_min, int_max. intros. rewrite Z.mod_small; lia. Qed.

Lemma wrap32_is_int z : is_int (wrap32 z).
Proof.
  unfold is_int, wrap32, int_min, int_max.
  pose proof (Z.mod_pos_bound (z + 2147483648) 4294967296 ltac:(lia)). lia.
Qed.

(** [auto with ints]: a value is in an [int]'s range by construction, or by
    computation. *)
Create HintDb ints.
#[export] Hint Resolve wrap32_is_int : ints.
#[export] Hint Extern 2 (is_int _) => by unfold is_int, int_min, int_max; lia : ints.

(** [autorewrite with lens]: the length of what is built from bytes. *)
Create Rewrite HintDb lens.
#[export] Hint Rewrite @length_app @length_replicate @length_take @length_drop @length_fmap : lens.

Lemma wrap32_mod z : wrap32 (z `mod` 4294967296) = wrap32 z.
Proof.
  unfold wrap32. f_equal. rewrite Z.add_mod_idemp_l; lia.
Qed.

(** ** Bytes *)

Abbreviation byte := Z (only parsing).
Abbreviation bytes := (list Z).

Definition byte_ok (b : byte) : Prop := 0 ≤ b < 256.
Abbreviation bytes_ok := (Forall byte_ok).

#[global] Instance byte_ok_dec b : Decision (byte_ok b).
Proof. unfold byte_ok; apply _. Defined.

Definition zeros (n : nat) : bytes := replicate n 0.

(** [slice off n bs] is what [memcpy(dst, bs + off, n)] reads. *)
Definition slice {A} (off n : nat) (bs : list A) : list A := take n (drop off bs).

(** [splice off src dst] is the memory [dst] after [memcpy(dst + off, src)]. *)
Definition splice {A} (off : nat) (src dst : list A) : list A :=
  take off dst ++ src ++ drop (off + length src) dst.

Lemma length_slice {A} off n (bs : list A) :
  (off + n ≤ length bs)%nat → length (slice off n bs) = n.
Proof. unfold slice. rewrite length_take, length_drop. lia. Qed.

Lemma length_splice {A} off (src dst : list A) :
  (off + length src ≤ length dst)%nat → length (splice off src dst) = length dst.
Proof.
  unfold splice. rewrite !length_app, length_take, length_drop. lia.
Qed.

Lemma lookup_slice {A} off n (bs : list A) i :
  (i < n)%nat → slice off n bs !! i = bs !! (off + i)%nat.
Proof. intros. unfold slice. by rewrite lookup_take_lt, lookup_drop by lia. Qed.

Lemma lookup_slice_ge {A} off n (bs : list A) i :
  (n ≤ i)%nat → slice off n bs !! i = None.
Proof. intros. unfold slice. apply lookup_take_ge. lia. Qed.

Lemma lookup_splice_in {A} off (src dst : list A) i :
  (off + length src ≤ length dst)%nat → (off ≤ i < off + length src)%nat →
  splice off src dst !! i = src !! (i - off)%nat.
Proof.
  intros. unfold splice.
  rewrite lookup_app_r; rewrite length_take; [|lia].
  rewrite lookup_app_l by lia. f_equal. lia.
Qed.

Lemma lookup_splice_out {A} off (src dst : list A) i :
  (off + length src ≤ length dst)%nat → (i < off ∨ off + length src ≤ i)%nat →
  splice off src dst !! i = dst !! i.
Proof.
  intros. unfold splice.
  destruct (decide (i < off)%nat).
  - rewrite lookup_app_l by (rewrite length_take; lia). by rewrite lookup_take_lt.
  - rewrite lookup_app_r; rewrite length_take; [|lia].
    rewrite lookup_app_r by lia. rewrite lookup_drop. f_equal. lia.
Qed.

Lemma slice_splice_same {A} off (src dst : list A) :
  (off + length src ≤ length dst)%nat → slice off (length src) (splice off src dst) = src.
Proof.
  intros. apply list_eq. intros i.
  destruct (decide (i < length src)%nat).
  - rewrite lookup_slice, lookup_splice_in by lia. f_equal. lia.
  - rewrite lookup_slice_ge by lia. symmetry. apply lookup_ge_None. lia.
Qed.

Lemma slice_splice_disjoint {A} off off' n (src dst : list A) :
  (off + length src ≤ length dst)%nat → (off' + n ≤ off ∨ off + length src ≤ off')%nat →
  slice off' n (splice off src dst) = slice off' n dst.
Proof.
  intros. apply list_eq. intros i.
  destruct (decide (i < n)%nat).
  - rewrite !lookup_slice, lookup_splice_out by lia. done.
  - by rewrite !lookup_slice_ge by lia.
Qed.

Lemma bytes_ok_splice off src dst :
  bytes_ok src → bytes_ok dst → bytes_ok (splice off src dst).
Proof.
  intros. unfold splice. rewrite !Forall_app. auto using Forall_take, Forall_drop.
Qed.

(** Little-endian [int]s in memory. *)
Definition le32 (z : Z) : bytes := Z_to_little_endian 4 8 z.
Definition of_le32 (bs : bytes) : Z := wrap32 (little_endian_to_Z 8 bs).

Lemma length_le32 z : length (le32 z) = 4%nat.
Proof.
  unfold le32. pose proof (length_Z_to_little_endian 4 8 z ltac:(lia)). lia.
Qed.

#[export] Hint Rewrite length_le32 : lens.

Lemma bytes_ok_le32 z : bytes_ok (le32 z).
Proof. exact (Z_to_little_endian_bound 4 8 z ltac:(lia) ltac:(lia)). Qed.

Lemma of_le32_le32 z : of_le32 (le32 z) = wrap32 z.
Proof.
  unfold of_le32, le32. rewrite little_endian_to_Z_to_little_endian by lia.
  change (2 ^ (4 * 8)) with 4294967296. apply wrap32_mod.
Qed.

Lemma of_le32_le32_id z : is_int z → of_le32 (le32 z) = z.
Proof. intros. rewrite of_le32_le32. by apply wrap32_id. Qed.

Definition get_int (off : nat) (bs : bytes) : Z := of_le32 (slice off 4 bs).
Definition set_int (off : nat) (z : Z) (bs : bytes) : bytes := splice off (le32 z) bs.

Lemma get_set_int off z bs :
  (off + 4 ≤ length bs)%nat → is_int z → get_int off (set_int off z bs) = z.
Proof.
  intros. unfold get_int, set_int.
  pose proof (slice_splice_same off (le32 z) bs) as Hs. rewrite length_le32 in Hs.
  rewrite Hs by lia. by apply of_le32_le32_id.
Qed.

Lemma get_set_int_ne off off' z bs :
  (off + 4 ≤ length bs)%nat → (off' + 4 ≤ off ∨ off + 4 ≤ off')%nat →
  get_int off' (set_int off z bs) = get_int off' bs.
Proof.
  intros. unfold get_int, set_int.
  rewrite slice_splice_disjoint; rewrite ?length_le32; auto; lia.
Qed.

Lemma length_set_int off z bs :
  (off + 4 ≤ length bs)%nat → length (set_int off z bs) = length bs.
Proof. intros. unfold set_int. apply length_splice. rewrite length_le32. lia. Qed.

(** Reading a struct of [int]s back field by field. *)
Lemma get_int_head z rest : is_int z → get_int 0 (le32 z ++ rest) = z.
Proof.
  intros. unfold get_int, slice. rewrite drop_0, take_app_length' by (by rewrite length_le32). by apply of_le32_le32_id.
Qed.

Lemma get_int_last z : is_int z → get_int 0 (le32 z) = z.
Proof. intros. rewrite <- (app_nil_r (le32 z)). by apply get_int_head. Qed.

Lemma get_int_tail off z rest : get_int (4 + off) (le32 z ++ rest) = get_int off rest.
Proof.
  unfold get_int, slice. rewrite drop_app_ge by (rewrite length_le32; lia). rewrite length_le32.
  by replace (4 + off - 4)%nat with off by lia.
Qed.

Ltac read_ints :=
  repeat match goal with
  | |- context [get_int 0 (le32 ?z ++ ?r)] => rewrite (get_int_head z r) by done
  | |- context [get_int 0 (le32 ?z)] => rewrite (get_int_last z) by done
  | |- context [get_int ?o (le32 ?z ++ ?r)] =>
      let o' := eval vm_compute in (o - 4)%nat in
      change (get_int o (le32 z ++ r)) with (get_int (4 + o') (le32 z ++ r)); rewrite (get_int_tail o' z r)
  end.

(** ** Counting *)

Fixpoint count {A} (g : A → bool) (l : list A) : nat :=
  match l with
  | [] => 0
  | x :: l' => (if g x then 1 else 0) + count g l'
  end.

Lemma count_ext {A} (g g' : A → bool) l : (∀ x, x ∈ l → g' x = g x) → count g' l = count g l.
Proof.
  induction l as [|x l IH]; intros H; simpl; [done|].
  rewrite H by (by left). f_equal. apply IH. intros y Hy. apply H. by right.
Qed.

(** One element more. *)
Lemma count_add {A} (g g' : A → bool) l x :
  NoDup l → x ∈ l → g x = false → g' x = true → (∀ y, y ∈ l → y ≠ x → g' y = g y) →
  count g' l = S (count g l).
Proof.
  induction l as [|y l IH]; intros Hnd Hin H0 H1 Hoff; [by apply not_elem_of_nil in Hin|].
  apply NoDup_cons in Hnd as [Hy Hnd]. simpl. apply elem_of_cons in Hin as [->|Hin].
  - rewrite H0, H1. simpl. f_equal. apply count_ext. intros z Hz. apply Hoff; [by right|]. by intros ->.
  - assert (y ≠ x) by (by intros ->). rewrite Hoff by (done || by left).
    rewrite (IH Hnd Hin H0 H1); [lia|]. intros z Hz. apply Hoff. by right.
Qed.

Lemma count_le {A} (g : A → bool) l : (count g l ≤ length l)%nat.
Proof. induction l as [|x l IH]; simpl; [lia|]. destruct (g x); lia. Qed.

Lemma count_lt {A} (g : A → bool) l : (count g l < length l)%nat → ∃ x, x ∈ l ∧ g x = false.
Proof.
  induction l as [|x l IH]; simpl; [lia|]. destruct (g x) eqn:E; intros H.
  - destruct IH as (y & ? & ?); [lia|]. exists y. split; [by right|done].
  - exists x. split; [by left|done].
Qed.

Lemma count_zero {A} (g : A → bool) l : count g l = 0%nat → ∀ x, x ∈ l → g x = false.
Proof.
  induction l as [|x l IH]; simpl; intros H y; [by intros ?%not_elem_of_nil|].
  intros [->|Hy]%elem_of_cons; destruct (g _) eqn:E; try lia; try done. apply IH; [lia|done].
Qed.

(** Slicing around an updated element. *)
Lemma slice_insert_ne {A} off n (bs : list A) k b :
  (k < off ∨ off + n ≤ k)%nat → slice off n (<[k := b]> bs) = slice off n bs.
Proof.
  intros Hk. apply list_eq. intros i. destruct (decide (i < n)%nat).
  - rewrite !lookup_slice by lia. apply list_lookup_insert_ne. lia.
  - by rewrite !lookup_slice_ge by lia.
Qed.

Lemma slice_ext {A} off n (x y : list A) off' n' :
  slice off n x = slice off n y → (off ≤ off' ∧ off' + n' ≤ off + n)%nat →
  slice off' n' x = slice off' n' y.
Proof.
  intros H Hr. apply list_eq. intros i. destruct (decide (i < n')%nat).
  - rewrite !lookup_slice by lia. replace (off' + i)%nat with (off + (off' - off + i))%nat by lia.
    rewrite <- !(lookup_slice off n) by lia. by rewrite H.
  - by rewrite !lookup_slice_ge by lia.
Qed.

(** An element inserted in the middle of a list. *)
Lemma lookup_put_lt {A} (a i : nat) (y : A) l : (i < a ≤ length l)%nat → (take a l ++ y :: drop a l) !! i = l !! i.
Proof. intros H. rewrite lookup_app_l by (rewrite length_take; lia). by rewrite lookup_take_lt by lia. Qed.

Lemma lookup_put_eq {A} (a : nat) (y : A) l : (a ≤ length l)%nat → (take a l ++ y :: drop a l) !! a = Some y.
Proof. intros H. rewrite lookup_app_r; rewrite length_take; [|lia]. by replace (a - a `min` length l)%nat with O by lia. Qed.

Lemma lookup_put_gt {A} (a i : nat) (y : A) l :
  (a ≤ i)%nat → (a ≤ length l)%nat → (take a l ++ y :: drop a l) !! S i = l !! i.
Proof.
  intros Hi H. rewrite lookup_app_r; rewrite length_take; [|lia].
  replace (S i - a `min` length l)%nat with (S (i - a)) by lia. simpl. rewrite lookup_drop. f_equal. lia.
Qed.
