(* ===== verification/Config.v ===== *)
(** Constants, identifiers and exceptions shared by every layer.

    Models [common/config.h] (sizes and invalid ids), [defs.h] ([Rid],
    [ColType]), the [PageId] of [storage/page.h], the exception hierarchy of
    [errors.h] with its messages, and the abort reasons of
    [transaction/txn_defs.h], which travel as exceptions too. *)
From Stdlib Require Import Ascii String.
From stdpp Require Import pretty.
From S2P Require Import Prelude.

(** ** config.h *)

Definition INVALID_FRAME_ID : Z := -1.
Definition INVALID_PAGE_ID : Z := -1.
Definition INVALID_TXN_ID : Z := -1.
Definition INVALID_TIMESTAMP : Z := -1.
Definition INVALID_LSN : Z := -1.
Definition HEADER_PAGE_ID : Z := 0.
Definition PAGE_SIZE : Z := 4096.
Definition BUFFER_POOL_SIZE : Z := 65536.
Definition LOG_BUFFER_SIZE : Z := (BUFFER_POOL_SIZE + 1) * PAGE_SIZE.
Definition BUCKET_SIZE : Z := 50.
Definition LOG_FILE_NAME : string := "db.log".
Definition REPLACER_TYPE : string := "LRU".

(** [PAGE_SIZE] as a length. Kept opaque to [simpl]: it is a large numeral. *)
Definition page_len : nat := Z.to_nat PAGE_SIZE.
Arguments page_len : simpl never.

(** ** defs.h *)

Record Rid : Set := MkRid { rid_page_no : Z; rid_slot_no : Z }.

#[global] Instance Rid_eq_dec : EqDecision Rid.
Proof. solve_decision. Defined.

#[global] Instance Rid_countable : Countable Rid.
Proof.
  apply (inj_countable' (λ r, (rid_page_no r, rid_slot_no r)) (λ p, MkRid p.1 p.2)).
  by intros [].
Defined.

(** [operator==] on [Rid]. *)
Definition Rid_eqb (x y : Rid) : bool :=
  (rid_page_no x =? rid_page_no y) && (rid_slot_no x =? rid_slot_no y).

Lemma Rid_eqb_eq x y : Rid_eqb x y = true ↔ x = y.
Proof.
  destruct x, y. unfold Rid_eqb. simpl.
  rewrite andb_true_iff, !Z.eqb_eq. split; [by intros [-> ->] | by intros [=]].
Qed.

Inductive ColType : Set := TYPE_INT | TYPE_FLOAT | TYPE_STRING.

#[global] Instance ColType_eq_dec : EqDecision ColType.
Proof. solve_decision. Defined.

(** [operator<<] and [operator>>] on an enum go through its [int] value. *)
Definition ColType_to_int (t : ColType) : Z :=
  match t with TYPE_INT => 0 | TYPE_FLOAT => 1 | TYPE_STRING => 2 end.

Definition ColType_of_int (z : Z) : option ColType :=
  if z =? 0 then Some TYPE_INT else if z =? 1 then Some TYPE_FLOAT
  else if z =? 2 then Some TYPE_STRING else None.

Lemma ColType_of_to_int t : ColType_of_int (ColType_to_int t) = Some t.
Proof. by destruct t. Qed.

Definition coltype2str (t : ColType) : string :=
  match t with TYPE_INT => "INT" | TYPE_FLOAT => "FLOAT" | TYPE_STRING => "STRING" end.

(** ** PageId (page.h) *)

Record PageId : Set := MkPageId { pid_fd : Z; pid_no : Z }.

#[global] Instance PageId_eq_dec : EqDecision PageId.
Proof. solve_decision. Defined.

#[global] Instance PageId_countable : Countable PageId.
Proof.
  apply (inj_countable' (λ p, (pid_fd p, pid_no p)) (λ p, MkPageId p.1 p.2)).
  by intros [].
Defined.

(** ** errors.h *)

Inductive RedBaseError : Set :=
  | InternalError (msg : string)
  | UnixError
  | FileNotOpenError (fd : Z)
  | FileNotClosedError (filename : string)
  | FileExistsError (filename : string)
  | FileNotFoundError (filename : string)
  | RecordNotFoundError (page_no slot_no : Z)
  | InvalidRecordSizeError (record_size : Z)
  | InvalidColLengthError (col_len : Z)
  | IndexEntryNotFoundError
  | DatabaseNotFoundError (db_name : string)
  | DatabaseExistsError (db_name : string)
  | TableNotFoundError (tab_name : string)
  | TableExistsError (tab_name : string)
  | ColumnNotFoundError (col_name : string)
  | IndexNotFoundError (tab_name col_name : string)
  | IndexExistsError (tab_name col_name : string)
  | InvalidValueCountError
  | StringOverflowError
  | IncompatibleTypeError (lhs rhs : string)
  | AmbiguousColumnError (col_name : string)
  | PageNotExistError (table_name : string) (page_no : Z).

#[global] Instance RedBaseError_eq_dec : EqDecision RedBaseError.
Proof. solve_decision. Defined.

(** ["\n"]. *)
Definition newline : string := String "010"%char EmptyString.

(** The characters of a string. *)
Definition chars (s : string) : list ascii := list_ascii_of_string s.
Arguments chars : simpl never.

Lemma chars_app a b : chars (a +:+ b) = chars a ++ chars b.
Proof. unfold chars. induction a as [|c a IH]; [done|]. exact (f_equal (cons c) IH). Qed.

Lemma chars_string_of l : chars (string_of_list_ascii l) = l.
Proof. apply list_ascii_of_string_of_list_ascii. Qed.

Lemma string_of_chars s : string_of_list_ascii (chars s) = s.
Proof. apply string_of_list_ascii_of_string. Qed.

(** [std::to_string] on an [int]. *)
Definition to_string (z : Z) : string := pretty z.

(** The text after ["Error: "]; [strerror_errno] is [strerror(errno)]. *)
Definition error_msg (strerror_errno : string) (e : RedBaseError) : string :=
  match e with
  | InternalError msg => msg
  | UnixError => strerror_errno
  | FileNotOpenError fd => "Invalid file descriptor: " +:+ to_string fd
  | FileNotClosedError f => "File is opened: " +:+ f
  | FileExistsError f => "File already exists: " +:+ f
  | FileNotFoundError f => "File not found: " +:+ f
  | RecordNotFoundError p s =>
      "Record not found: (" +:+ to_string p +:+ "," +:+ to_string s +:+ ")"
  | InvalidRecordSizeError n => "Invalid record size: " +:+ to_string n
  | InvalidColLengthError n => "Invalid column length: " +:+ to_string n
  | IndexEntryNotFoundError => "Index entry not found"
  | DatabaseNotFoundError d => "Database not found: " +:+ d
  | DatabaseExistsError d => "Database already exists: " +:+ d
  | TableNotFoundError t => "Table not found: " +:+ t
  | TableExistsError t => "Table already exists: " +:+ t
  | ColumnNotFoundError c => "Column not found: " +:+ c
  | IndexNotFoundError t c => "Index not found: " +:+ t +:+ "." +:+ c
  | IndexExistsError t c => "Index already exists: " +:+ t +:+ "." +:+ c
  | InvalidValueCountError => "Invalid value count"
  | StringOverflowError => "String is too long"
  | IncompatibleTypeError l r => "Incompatible type error: lhs " +:+ l +:+ ", rhs " +:+ r
  | AmbiguousColumnError c => "Ambiguous column: " +:+ c
  | PageNotExistError t p => "Page " +:+ to_string p +:+ " in table " +:+ t +:+ "not exits"
  end.

(** [RedBaseError::what()]. *)
Definition what (strerror_errno : string) (e : RedBaseError) : string :=
  "Error: " +:+ error_msg strerror_errno e.

(** ** Exceptions *)

Inductive AbortReason : Set := LOCK_ON_SHIRINKING | UPGRADE_CONFLICT | DEADLOCK_PREVENTION.

#[global] Instance AbortReason_eq_dec : EqDecision AbortReason.
Proof. solve_decision. Defined.

(** What a [catch] clause can see: the project's errors, the transaction
    aborts, and [std::out_of_range] from a container's [at]. *)
Inductive exn : Set :=
  | RedBase (e : RedBaseError)
  | TransactionAbortException (txn_id : Z) (reason : AbortReason)
  | StdOutOfRange
  | StdLengthError.

#[global] Instance exn_eq_dec : EqDecision exn.
Proof. solve_decision. Defined.

(** [TransactionAbortException::GetInfo]. *)
Definition GetInfo (txn_id : Z) (reason : AbortReason) : string :=
  match reason with
  | LOCK_ON_SHIRINKING =>
      "Transaction " +:+ to_string txn_id
        +:+ " aborted because it cannot request locks on SHRINKING phase" +:+ newline
  | UPGRADE_CONFLICT =>
      "Transaction " +:+ to_string txn_id
        +:+ " aborted because another transaction is waiting for upgrading" +:+ newline
  | DEADLOCK_PREVENTION =>
      "Transaction " +:+ to_string txn_id
        +:+ " aborted for deadlock prevention" +:+ newline
  end.

Abbreviation M S := (st exn S).

Definition throw_db {S A} (e : RedBaseError) : M S A := throw (RedBase e).
