(* ===== verification/Posix.v ===== *)
(** The file-system calls [DiskManager] makes.

    The kernel is not part of the repository: it is a parameter of the model,
    the class [Posix].  An operating-system state is observed through
    [fs_view] (path resolution, directory entries, file contents, open
    descriptors), and each call the sources make ([stat], [open], [close],
    [unlink], [lseek], [write], [read], [system]) is described by what POSIX
    documents: which results are possible and how the view changes.  A path is
    resolved to a directory entry before it is looked up, so two spellings may
    name one file.  [open], [unlink], [write] and [read] may fail, [write] and
    [read] may be short; [stat] of an entry that exists is taken to succeed.
    [MemFS] is an executable in-memory instance. *)
From Stdlib Require Import Ascii.
From S2P Require Import Prelude Config.

Inductive file_type : Set := RegularFile | Directory.
Inductive whence : Set := SEEK_SET | SEEK_END.

Record fs_view : Type := MkFs {
  v_entry : string → string;       (* path resolution: the entry a path leads to *)
  v_names : gmap string Z;         (* entry -> inode of a regular file *)
  v_dirs : gset string;            (* entries that are directories *)
  v_data : gmap Z bytes;           (* inode -> contents *)
  v_fds : gmap Z (Z * nat)         (* descriptor -> inode, file offset *)
}.

Definition set_fds (f : gmap Z (Z * nat) → gmap Z (Z * nat)) (v : fs_view) : fs_view :=
  MkFs (v_entry v) (v_names v) (v_dirs v) (v_data v) (f (v_fds v)).
Definition set_data (f : gmap Z bytes → gmap Z bytes) (v : fs_view) : fs_view :=
  MkFs (v_entry v) (v_names v) (v_dirs v) (f (v_data v)) (v_fds v).
Definition set_names (f : gmap string Z → gmap string Z) (v : fs_view) : fs_view :=
  MkFs (v_entry v) (f (v_names v)) (v_dirs v) (v_data v) (v_fds v).

(** The inode of the regular file a path leads to. *)
Definition named (v : fs_view) (path : string) : option Z := v_names v !! v_entry v path.

(** A name of one component, as the database uses for tables, indexes and the log. *)
Definition plain_name (path : string) : bool :=
  negb (existsb (λ c, bool_decide (c = "/"%char)) (String.list_ascii_of_string path)) &&
  negb (bool_decide (path ∈ [""; "."; ".."])).

(** A working directory without links: plain names lead to entries of their own
    (no symbolic links), and no two entries share a file (no hard links). *)
Record plain_dir (v : fs_view) : Prop := {
  pd_entry p1 p2 : plain_name p1 = true → plain_name p2 = true → v_entry v p1 = v_entry v p2 → p1 = p2;
  pd_links e1 e2 ino : v_names v !! e1 = Some ino → v_names v !! e2 = Some ino → e1 = e2
}.

Definition contents (v : fs_view) (ino : Z) : bytes := default [] (v_data v !! ino).

(** The contents after writing [bs] at offset [off]; a hole reads as zeros. *)
Definition write_at (off : nat) (bs data : bytes) : bytes :=
  take off data ++ zeros (off - length data) ++ bs ++ drop (off + length bs) data.

Inductive stat_spec (v : fs_view) (path : string) : option (file_type * Z) → Prop :=
  | stat_regular ino :
      named v path = Some ino →
      stat_spec v path (Some (RegularFile, Z.of_nat (length (contents v ino))))
  | stat_dir size :
      named v path = None → v_entry v path ∈ v_dirs v →
      stat_spec v path (Some (Directory, size))
  | stat_absent :
      named v path = None → v_entry v path ∉ v_dirs v → stat_spec v path None.

Inductive open_spec (v : fs_view) (path : string) (creat : bool) : Z → fs_view → Prop :=
  | open_fails fd : fd < 0 → open_spec v path creat fd v
  | open_existing ino fd :
      named v path = Some ino → 0 ≤ fd → v_fds v !! fd = None →
      open_spec v path creat fd (set_fds <[fd := (ino, 0%nat)]> v)
  | open_creates ino fd :
      creat = true → named v path = None → v_entry v path ∉ v_dirs v →
      v_data v !! ino = None → (∀ p, v_names v !! p ≠ Some ino) →
      (∀ fd' e, v_fds v !! fd' = Some e → e.1 ≠ ino) →
      0 ≤ fd → v_fds v !! fd = None →
      open_spec v path creat fd
        (set_fds <[fd := (ino, 0%nat)]> (set_names <[v_entry v path := ino]> (set_data <[ino := []]> v))).

Inductive unlink_spec (v : fs_view) (path : string) : Z → fs_view → Prop :=
  | unlink_fails r : r < 0 → unlink_spec v path r v
  | unlink_ok ino : named v path = Some ino → unlink_spec v path 0 (set_names (delete (v_entry v path)) v).

Inductive lseek_spec (v : fs_view) (fd off : Z) (w : whence) : Z → fs_view → Prop :=
  | lseek_set ino pos :
      v_fds v !! fd = Some (ino, pos) → w = SEEK_SET → 0 ≤ off →
      lseek_spec v fd off w off (set_fds <[fd := (ino, Z.to_nat off)]> v)
  | lseek_end ino pos :
      v_fds v !! fd = Some (ino, pos) → w = SEEK_END → off = 0 →
      lseek_spec v fd off w (Z.of_nat (length (contents v ino)))
        (set_fds <[fd := (ino, length (contents v ino))]> v)
  | lseek_inval r : r < 0 → off < 0 ∨ v_fds v !! fd = None → lseek_spec v fd off w r v.

Inductive write_spec (v : fs_view) (fd : Z) (bs : bytes) : Z → fs_view → Prop :=
  | write_fails r : r < 0 → write_spec v fd bs r v
  | write_some ino pos (n : nat) :
      v_fds v !! fd = Some (ino, pos) → (n ≤ length bs)%nat →
      write_spec v fd bs (Z.of_nat n)
        (set_fds <[fd := (ino, pos + n)%nat]>
           (set_data <[ino := write_at pos (take n bs) (contents v ino)]> v)).

(** [read] fails (a bad descriptor, [EIO], [EINTR]) or delivers a beginning of
    what is there. *)
Inductive read_spec (v : fs_view) (fd : Z) (n : nat) : Z → bytes → fs_view → Prop :=
  | read_fails r : r < 0 → read_spec v fd n r [] v
  | read_some ino pos m :
      v_fds v !! fd = Some (ino, pos) → (m ≤ n)%nat →
      let got := slice pos m (contents v ino) in
      read_spec v fd n (Z.of_nat (length got)) got
        (set_fds <[fd := (ino, pos + length got)%nat]> v).

(** The interface the operating system offers, and what it promises. *)
Class Posix (OS : Type) := {
  os_view : OS → fs_view;
  os_stat : OS → string → option (file_type * Z);
  os_open : OS → string → bool → Z * OS;
  os_close : OS → Z → OS;
  os_unlink : OS → string → Z * OS;
  os_lseek : OS → Z → Z → whence → Z * OS;
  os_write : OS → Z → bytes → Z * OS;
  os_read : OS → Z → nat → Z * bytes * OS;
  os_system : OS → string → Z * OS;
  os_stat_ok s path : stat_spec (os_view s) path (os_stat s path);
  os_open_ok s path creat r s' :
    os_open s path creat = (r, s') → open_spec (os_view s) path creat r (os_view s');
  os_close_ok s fd : os_view (os_close s fd) = set_fds (delete fd) (os_view s);
  os_unlink_ok s path r s' :
    os_unlink s path = (r, s') → unlink_spec (os_view s) path r (os_view s');
  os_lseek_ok s fd off w r s' :
    (w = SEEK_END → off = 0) →
    os_lseek s fd off w = (r, s') → lseek_spec (os_view s) fd off w r (os_view s');
  os_write_ok s fd bs r s' :
    os_write s fd bs = (r, s') → write_spec (os_view s) fd bs r (os_view s');
  os_read_ok s fd n r bs s' :
    os_read s fd n = (r, bs, s') → read_spec (os_view s) fd n r bs (os_view s')
}.

(** ** An in-memory file system *)

Module MemFS.

Definition max_key {V} (m : gmap Z V) : Z := foldr Z.max 2 ((map_to_list m).*1).

Lemma max_key_le {V} (m : gmap Z V) k v : m !! k = Some v → k ≤ max_key m.
Proof.
  intros Hk. unfold max_key.
  assert (Hin : k ∈ (map_to_list m).*1).
  { apply list_elem_of_fmap. exists (k, v). split; [done|]. by apply elem_of_map_to_list. }
  revert Hin. generalize ((map_to_list m).*1) as l. induction l as [|x l IH]; simpl.
  - by intros ?%not_elem_of_nil.
  - intros [->|?%IH]%elem_of_cons; lia.
Qed.

Lemma max_key_ge {V} (m : gmap Z V) : 2 ≤ max_key m.
Proof. unfold max_key. induction ((map_to_list m).*1); simpl; lia. Qed.

Definition unused {V} (m : gmap Z V) : Z := 1 + max_key m.

Lemma unused_None {V} (m : gmap Z V) : m !! unused m = None.
Proof.
  unfold unused. destruct (m !! _) eqn:E; [|done]. apply max_key_le in E. lia.
Qed.

Lemma unused_nonneg {V} (m : gmap Z V) : 0 ≤ unused m.
Proof. unfold unused. pose proof (max_key_ge m). lia. Qed.

(** An inode above every one that is named, stored or open. *)
Definition fresh_ino (v : fs_view) : Z :=
  1 + Z.max (max_key (v_data v))
        (Z.max (foldr Z.max 0 ((map_to_list (v_names v)).*2))
               (foldr Z.max 0 ((map_to_list (v_fds v)).*2.*1))).

Lemma foldr_max_le (l : list Z) x : x ∈ l → x ≤ foldr Z.max 0 l.
Proof.
  induction l as [|y l IH]; simpl; [by intros ?%not_elem_of_nil|].
  intros [->|?%IH]%elem_of_cons; lia.
Qed.

Definition stat (v : fs_view) (path : string) : option (file_type * Z) :=
  match named v path with
  | Some ino => Some (RegularFile, Z.of_nat (length (contents v ino)))
  | None => if decide (v_entry v path ∈ v_dirs v) then Some (Directory, 4096) else None
  end.

Definition open (v : fs_view) (path : string) (creat : bool) : Z * fs_view :=
  let fd := unused (v_fds v) in
  match named v path with
  | Some ino => (fd, set_fds <[fd := (ino, 0%nat)]> v)
  | None =>
      if creat && negb (bool_decide (v_entry v path ∈ v_dirs v)) then
        let ino := fresh_ino v in
        (fd, set_fds <[fd := (ino, 0%nat)]> (set_names <[v_entry v path := ino]> (set_data <[ino := []]> v)))
      else (-1, v)
  end.

Definition close (v : fs_view) (fd : Z) : fs_view := set_fds (delete fd) v.

Definition unlink (v : fs_view) (path : string) : Z * fs_view :=
  match named v path with
  | Some _ => (0, set_names (delete (v_entry v path)) v)
  | None => (-1, v)
  end.

Definition lseek (v : fs_view) (fd off : Z) (w : whence) : Z * fs_view :=
  match v_fds v !! fd with
  | Some (ino, _) =>
      let target := match w with
                    | SEEK_SET => off
                    | SEEK_END => Z.of_nat (length (contents v ino)) + off
                    end in
      if target <? 0 then (-1, v) else (target, set_fds <[fd := (ino, Z.to_nat target)]> v)
  | None => (-1, v)
  end.

Definition write (v : fs_view) (fd : Z) (bs : bytes) : Z * fs_view :=
  match v_fds v !! fd with
  | Some (ino, pos) =>
      (Z.of_nat (length bs),
       set_fds <[fd := (ino, pos + length bs)%nat]>
         (set_data <[ino := write_at pos bs (contents v ino)]> v))
  | None => (-1, v)
  end.

Definition read (v : fs_view) (fd : Z) (n : nat) : Z * bytes * fs_view :=
  match v_fds v !! fd with
  | Some (ino, pos) =>
      let got := slice pos n (contents v ino) in
      (Z.of_nat (length got), got, set_fds <[fd := (ino, pos + length got)%nat]> v)
  | None => (-1, [], v)
  end.

(** The instance runs no shell: [system] succeeds and changes nothing (the laws
    leave it unconstrained). *)
Definition system (v : fs_view) (cmd : string) : Z * fs_view := (0, v).

Lemma open_refines v path creat r v' :
  open v path creat = (r, v') → open_spec v path creat r v'.
Proof.
  unfold open. destruct (named v path) as [ino|] eqn:Hn.
  - intros [= <- <-]. apply open_existing; auto using unused_nonneg, unused_None.
  - destruct creat; simpl; [|intros [= <- <-]; by apply open_fails].
    case_bool_decide as Hd; simpl; [intros [= <- <-]; by apply open_fails|].
    intros [= <- <-]. apply open_creates; auto using unused_nonneg, unused_None.
    + destruct (v_data v !! _) eqn:E; [|done]. apply max_key_le in E. unfold fresh_ino in E. lia.
    + intros p Hp. assert (fresh_ino v ∈ (map_to_list (v_names v)).*2) as Hin.
      { apply list_elem_of_fmap. exists (p, fresh_ino v). by rewrite elem_of_map_to_list. }
      apply foldr_max_le in Hin. unfold fresh_ino in Hin at 1. lia.
    + intros fd' [i o] Hfd' Hi. simpl in Hi. subst i.
      assert (fresh_ino v ∈ (map_to_list (v_fds v)).*2.*1) as Hin.
      { apply list_elem_of_fmap. exists (fresh_ino v, o). split; [done|].
        apply list_elem_of_fmap. exists (fd', (fresh_ino v, o)). by rewrite elem_of_map_to_list. }
      apply foldr_max_le in Hin. unfold fresh_ino in Hin at 1. lia.
Qed.

Lemma lseek_refines v fd off w r v' :
  (w = SEEK_END → off = 0) → lseek v fd off w = (r, v') → lseek_spec v fd off w r v'.
Proof.
  unfold lseek. intros Hw. destruct (v_fds v !! fd) as [[ino pos]|] eqn:Hfd.
  - destruct w.
    + destruct (Z.ltb_spec off 0); intros [= <- <-].
      * apply lseek_inval; [lia|auto].
      * eapply lseek_set; eauto.
    + rewrite (Hw eq_refl). rewrite Z.add_0_r.
      destruct (Z.ltb_spec (Z.of_nat (length (contents v ino))) 0); [lia|].
      rewrite Nat2Z.id. intros [= <- <-]. eapply lseek_end; eauto.
  - intros [= <- <-]. apply lseek_inval; [lia|auto].
Qed.

Lemma write_refines v fd bs r v' : write v fd bs = (r, v') → write_spec v fd bs r v'.
Proof.
  unfold write. destruct (v_fds v !! fd) as [[ino pos]|] eqn:Hfd.
  - intros [= <- <-]. pose proof (write_some v fd bs ino pos (length bs) Hfd ltac:(lia)) as H.
    by rewrite firstn_all in H.
  - intros [= <- <-]. by apply write_fails.
Qed.

#[export] Instance mem_posix : Posix fs_view.
Proof.
  refine {| os_view := id; os_stat := stat; os_open := open; os_close := close;
            os_unlink := unlink; os_lseek := lseek; os_write := write; os_read := read;
            os_system := system |}; unfold id.
  - intros v path. unfold stat. destruct (named v path) eqn:Hn.
    + by apply stat_regular.
    + case_decide; [by apply stat_dir | by apply stat_absent].
  - apply open_refines.
  - done.
  - intros v path r v'. unfold unlink. destruct (named v path) eqn:Hn; intros [= <- <-].
    + by eapply unlink_ok.
    + by apply unlink_fails.
  - apply lseek_refines.
  - apply write_refines.
  - intros v fd n r bs v'. unfold read. destruct (v_fds v !! fd) as [[ino pos]|] eqn:Hfd; intros [= <- <- <-].
    + by apply (read_some v fd n ino pos n).
    + by apply read_fails.
Defined.

(** An empty disk on which every path is its own entry. *)
Definition empty_fs : fs_view := MkFs id ∅ ∅ ∅ ∅.

(** The same where a leading [./] is dropped. *)
Definition drop_dot (path : string) : string :=
  match path with
  | String a (String b rest) => if bool_decide (a = "."%char ∧ b = "/"%char) then rest else path
  | _ => path
  end.
Definition dotted_fs : fs_view := MkFs drop_dot ∅ ∅ ∅ ∅.

Lemma empty_plain : plain_dir empty_fs.
Proof. by split. Qed.

End MemFS.
