(* ===== verification/PageStore.v ===== *)
(** What the buffer pool needs from the disk manager.

    [PageStore] is the interface between [storage/disk_manager.h] and
    [storage/buffer_pool_manager.h]: reading, writing and allocating whole
    pages, with the promises the buffer pool relies on.  [Disk.disk_store] shows that the modelled
    [DiskManager] keeps them over any [Posix] system. *)
From S2P Require Import Prelude Config.

Class PageStore (D : Type) := {
  ps_inv : D → Prop;
  (** the page belongs to an open file and its offset is representable *)
  ps_valid : D → PageId → Prop;
  (** the page's bytes on disk, when the file holds the whole page *)
  ps_page : D → PageId → option bytes;
  (** the next page number of a file, and whether the file has a counter *)
  ps_next : D → Z → Z;
  ps_fd_ok : Z → Prop;
  ps_write : PageId → bytes → M D unit;
  ps_read : PageId → M (D * bytes) unit;
  ps_alloc : Z → M D Z;
  ps_dealloc : Z → M D unit;

  ps_page_len d p bs : ps_page d p = Some bs → length bs = page_len;

  ps_write_ok d p bs r d' :
    ps_inv d → ps_valid d p → length bs = page_len → ps_write p bs d = (r, d') →
    ps_inv d' ∧ (∀ q, ps_valid d' q ↔ ps_valid d q) ∧ (∀ fd, ps_next d' fd = ps_next d fd) ∧
    (r = Ok tt ∧ ps_page d' p = Some bs ∨ r = Throw (RedBase UnixError)) ∧
    (∀ q x, q ≠ p → ps_valid d q → ps_page d q = Some x → ps_page d' q = Some x);

  ps_read_ok d p buf r d' buf' :
    ps_inv d → ps_valid d p → length buf = page_len → ps_read p (d, buf) = (r, (d', buf')) →
    ps_inv d' ∧ (∀ q, ps_valid d' q ↔ ps_valid d q) ∧ (∀ fd, ps_next d' fd = ps_next d fd) ∧
    (∀ q, ps_page d' q = ps_page d q) ∧ length buf' = page_len ∧
    (r = Ok tt ∧ ps_page d p = Some buf' ∨ r = Throw (RedBase UnixError));

  ps_alloc_ok d fd r d' :
    ps_inv d → ps_fd_ok fd → ps_alloc fd d = (r, d') →
    ps_inv d' ∧ (∀ q, ps_valid d' q ↔ ps_valid d q) ∧ (∀ q, ps_page d' q = ps_page d q) ∧
    r = Ok (ps_next d fd) ∧ ps_next d' fd = wrap32 (ps_next d fd + 1) ∧
    (∀ fd', fd' ≠ fd → ps_next d' fd' = ps_next d fd');

  ps_dealloc_ok page_no d : ps_dealloc page_no d = (Ok tt, d)
}.
