(* ===== verification/Disk.v ===== *)
(** The disk manager: [storage/disk_manager.h] and [storage/disk_manager.cpp].

    [DiskManager] is the C++ object (its two open-file tables, the log
    descriptor, the page counters) together with the operating-system state it
    acts on.  Every method is a computation in the exception monad.  An
    out-parameter buffer is part of the state, because [read] fills it even
    when the method then throws.

    The theorems: the open-file tables stay mutually inverse and name open
    descriptors of distinct files ([disk_inv]), a page that was written is the
    page that is read back, writing one page leaves the others alone, and the
    log is an append-only file. *)
From S2P Require Import Prelude Config Posix PageStore.

Definition MAX_FD : Z := 8192.

Record DiskManager {OS : Type} : Type := MkDisk {
  dm_os : OS;
  path2fd_ : gmap string Z;
  fd2path_ : gmap Z string;
  log_fd_ : Z;
  fd2pageno_ : gmap Z Z             (* an array of MAX_FD counters; absent = 0 *)
}.
Arguments DiskManager : clear implicits.

Section Disk.
Context {OS : Type} {PX : Posix OS}.

Abbreviation D := (DiskManager OS).

Definition set_os (s : OS) (d : D) : D :=
  MkDisk _ s (path2fd_ d) (fd2path_ d) (log_fd_ d) (fd2pageno_ d).
Definition set_tables (p : gmap string Z) (f : gmap Z string) (d : D) : D :=
  MkDisk _ (dm_os d) p f (log_fd_ d) (fd2pageno_ d).
Definition SetLogFd (fd : Z) (d : D) : D :=
  MkDisk _ (dm_os d) (path2fd_ d) (fd2path_ d) fd (fd2pageno_ d).
Definition set_pagenos (m : gmap Z Z) (d : D) : D :=
  MkDisk _ (dm_os d) (path2fd_ d) (fd2path_ d) (log_fd_ d) m.

(** The constructor: all counters are zeroed, no file is open. *)
Definition new_DiskManager (s : OS) : D := MkDisk _ s ∅ ∅ (-1) ∅.

(** A system call. *)
Definition sys {A} (call : OS → A * OS) : M D A := λ d,
  let '(r, s') := call (dm_os d) in (Ok r, set_os s' d).

(** The byte offset handed to [lseek]: [int] arithmetic, wrapping. *)
Definition page_offset (page_no : Z) : Z := wrap32 (page_no * PAGE_SIZE).

Definition write_page (fd page_no : Z) (offset : bytes) (num_bytes : Z) : M D unit :=
  _ ← sys (λ s, os_lseek s fd (page_offset page_no) SEEK_SET);
  bytes_written ← sys (λ s, os_write s fd (take (Z.to_nat num_bytes) offset));
  if bytes_written =? num_bytes then ret tt else throw_db UnixError.

(** [read(fd, buf, n)]: the bytes obtained overwrite the front of [buf]. *)
Definition sys_read (fd n : Z) : M (D * bytes) Z := λ '(d, buf),
  let '(r, got, s') := os_read (dm_os d) fd (Z.to_nat n) in
  (Ok r, (set_os s' d, splice 0 got buf)).

Definition on_disk {A} (m : M D A) : M (D * bytes) A := zoom fst (λ d s, (d, s.2)) m.

Definition read_page (fd page_no num_bytes : Z) : M (D * bytes) unit :=
  _ ← on_disk (sys (λ s, os_lseek s fd (page_offset page_no) SEEK_SET));
  bytes_read ← sys_read fd num_bytes;
  if bytes_read =? num_bytes then ret tt else throw_db UnixError.

Definition get_fd2pageno (fd : Z) : M D Z := λ d,
  if (0 <=? fd) && (fd <? MAX_FD) then (Ok (default 0 (fd2pageno_ d !! fd)), d)
  else (Crash OutOfBounds, d).

Definition set_fd2pageno (fd start_page_no : Z) : M D unit := λ d,
  if (0 <=? fd) && (fd <? MAX_FD) then (Ok tt, set_pagenos (<[fd := start_page_no]> (fd2pageno_ d)) d)
  else (Crash OutOfBounds, d).

(** [return fd2pageno_[fd]++]. *)
Definition AllocatePage (fd : Z) : M D Z :=
  n ← get_fd2pageno fd;
  set_fd2pageno fd (wrap32 (n + 1)) ;;
  ret n.

Definition DeallocatePage (page_id : Z) : M D unit := ret tt.

Definition is_dir (path : string) : M D bool :=
  gets (λ d, match os_stat (dm_os d) path with Some (Directory, _) => true | _ => false end).

Definition is_file (path : string) : M D bool :=
  gets (λ d, match os_stat (dm_os d) path with Some (RegularFile, _) => true | _ => false end).

Definition create_dir (path : string) : M D unit :=
  r ← sys (λ s, os_system s ("mkdir " +:+ path));
  if r <? 0 then throw_db UnixError else ret tt.

Definition destroy_dir (path : string) : M D unit :=
  r ← sys (λ s, os_system s ("rm -r " +:+ path));
  if r <? 0 then throw_db UnixError else ret tt.

Definition create_file (path : string) : M D unit :=
  b ← is_file path;
  if negb b then
    fd ← sys (λ s, os_open s path true);
    if fd <? 0 then throw_db UnixError
    else sys (λ s, (tt, os_close s fd))
  else throw_db (FileExistsError path).

Definition destroy_file (path : string) : M D unit :=
  b ← is_file path;
  if b then
    r ← sys (λ s, os_unlink s path);
    if r <? 0 then throw_db UnixError else ret tt
  else throw_db (FileNotFoundError path).

Definition open_file (path : string) : M D Z :=
  b ← is_file path;
  d ← get_st;
  if b && negb (bool_decide (is_Some (path2fd_ d !! path))) then
    fd ← sys (λ s, os_open s path false);
    if fd <? 0 then throw_db UnixError
    else
      modify (λ d, set_tables (<[path := fd]> (path2fd_ d)) (<[fd := path]> (fd2path_ d)) d) ;;
      ret fd
  else throw_db (FileNotFoundError path).

Definition close_file (fd : Z) : M D unit :=
  d ← get_st;
  match fd2path_ d !! fd with
  | Some path =>
      if 0 <=? fd then
        sys (λ s, (tt, os_close s fd)) ;;
        modify (λ d, set_tables (delete path (path2fd_ d)) (delete fd (fd2path_ d)) d)
      else ret tt
  | None => ret tt
  end.

(** [rc == 0 ? st_size : -1], narrowed to [int]. *)
Definition GetFileSize (file_name : string) : M D Z :=
  gets (λ d, match os_stat (dm_os d) file_name with Some (_, size) => wrap32 size | None => -1 end).

Definition GetFileName (fd : Z) : M D string :=
  d ← get_st;
  match fd2path_ d !! fd with
  | Some path => ret path
  | None => throw_db (FileNotOpenError fd)
  end.

Definition GetFileFd (file_name : string) : M D Z :=
  d ← get_st;
  match path2fd_ d !! file_name with
  | Some fd => ret fd
  | None => open_file file_name
  end.

(** [if (log_fd_ == -1) log_fd_ = open_file(LOG_FILE_NAME)]. *)
Definition ensure_log_open : M D unit :=
  d ← get_st;
  if log_fd_ d =? -1 then
    fd ← open_file LOG_FILE_NAME;
    modify (SetLogFd fd)
  else ret tt.

Definition ReadLog (size offset prev_log_end : Z) : M (D * bytes) bool :=
  on_disk ensure_log_open ;;
  let offset := wrap32 (offset + prev_log_end) in
  file_size ← on_disk (GetFileSize LOG_FILE_NAME);
  if file_size <=? offset then ret false
  else
    let size := Z.min size (wrap32 (file_size - offset)) in
    fd ← on_disk (gets log_fd_);
    _ ← on_disk (sys (λ s, os_lseek s fd offset SEEK_SET));
    bytes_read ← sys_read fd size;
    if bytes_read =? size then ret true else throw_db UnixError.

Definition WriteLog (log_data : bytes) (size : Z) : M D unit :=
  ensure_log_open ;;
  fd ← gets log_fd_;
  _ ← sys (λ s, os_lseek s fd 0 SEEK_END);
  bytes_write ← sys (λ s, os_write s fd (take (Z.to_nat size) log_data));
  if bytes_write =? size then ret tt else throw_db UnixError.

(** ** Observations *)

Definition dview (d : D) : fs_view := os_view (dm_os d).

(** The [n] bytes of page [p] as they are in the file, if the file has them. *)
Definition file_page (n : nat) (d : D) (p : PageId) : option bytes :=
  match v_fds (dview d) !! pid_fd p with
  | Some (ino, _) =>
      let off := Z.to_nat (page_offset (pid_no p)) in
      if decide (off + n ≤ length (contents (dview d) ino))%nat
      then Some (slice off n (contents (dview d) ino))
      else None
  | None => None
  end.

(** A page number whose byte offset fits in an [int]. *)
Definition page_no_ok (page_no : Z) : Prop := 0 ≤ page_no < 524288.

#[export] Instance page_no_ok_dec n : Decision (page_no_ok n).
Proof. unfold page_no_ok. apply _. Defined.

Lemma page_offset_ok n : page_no_ok n → page_offset n = n * 4096 ∧ 0 ≤ n * 4096 ≤ int_max.
Proof.
  intros [? ?]. unfold page_offset, PAGE_SIZE.
  assert (is_int (n * 4096)) by auto with ints.
  rewrite wrap32_id by done. unfold int_max. lia.
Qed.

(** Two page numbers a whole [2^20] apart share their offset: the offset is
    computed in 32 bits. *)
Lemma page_offset_alias n : page_offset (n + 1048576) = page_offset n.
Proof.
  unfold page_offset, PAGE_SIZE, wrap32. f_equal.
  replace ((n + 1048576) * 4096 + 2147483648) with (n * 4096 + 2147483648 + 1 * 4294967296) by lia.
  apply Z.mod_add. lia.
Qed.

(** ** Contents of a file under [write_at] *)

Lemma length_write_at off bs data :
  length (write_at off bs data) = Nat.max (length data) (off + length bs)%nat.
Proof.
  unfold write_at, zeros.
  rewrite !length_app, length_take, length_replicate, length_drop. lia.
Qed.

Lemma lookup_write_at_in off bs data i :
  (off ≤ i < off + length bs)%nat → write_at off bs data !! i = bs !! (i - off)%nat.
Proof.
  intros. unfold write_at, zeros. rewrite app_assoc.
  rewrite lookup_app_r; rewrite length_app, length_take, length_replicate; [|lia].
  rewrite lookup_app_l by lia. f_equal. lia.
Qed.

Lemma lookup_write_at_out off bs data i :
  (i < length data)%nat → (i < off ∨ off + length bs ≤ i)%nat →
  write_at off bs data !! i = data !! i.
Proof.
  intros. unfold write_at, zeros. destruct (decide (i < off)%nat).
  - rewrite lookup_app_l by (rewrite length_take; lia). by rewrite lookup_take_lt.
  - rewrite app_assoc.
    rewrite lookup_app_r; rewrite length_app, length_take, length_replicate; [|lia].
    rewrite lookup_app_r by lia. rewrite lookup_drop. f_equal. lia.
Qed.

Lemma slice_write_at_same off bs data :
  slice off (length bs) (write_at off bs data) = bs.
Proof.
  apply list_eq. intros i. destruct (decide (i < length bs)%nat).
  - rewrite lookup_slice, lookup_write_at_in by lia. f_equal. lia.
  - rewrite lookup_slice_ge by lia. symmetry. apply lookup_ge_None. lia.
Qed.

Lemma slice_write_at_other off off' n bs data :
  (off' + n ≤ length data)%nat → (off' + n ≤ off ∨ off + length bs ≤ off')%nat →
  slice off' n (write_at off bs data) = slice off' n data.
Proof.
  intros. apply list_eq. intros i. destruct (decide (i < n)%nat).
  - rewrite !lookup_slice, lookup_write_at_out by lia. done.
  - by rewrite !lookup_slice_ge by lia.
Qed.

Lemma write_at_end bs data : write_at (length data) bs data = data ++ bs.
Proof.
  unfold write_at, zeros. rewrite firstn_all, Nat.sub_diag. simpl.
  rewrite drop_ge by lia. by rewrite app_nil_r.
Qed.

(** ** The effect of one call on the view *)

Definition same_tables (d d' : D) : Prop :=
  path2fd_ d' = path2fd_ d ∧ fd2path_ d' = fd2path_ d ∧
  log_fd_ d' = log_fd_ d ∧ fd2pageno_ d' = fd2pageno_ d.

Definition fd_inode (v : fs_view) (fd : Z) : option Z := fst <$> v_fds v !! fd.

(** [d'] differs from [d] at most in descriptor offsets and in the contents
    of the file [ino]. *)
Record touches (ino : Z) (d d' : D) : Prop := {
  touches_tables : same_tables d d';
  touches_entry : v_entry (dview d') = v_entry (dview d);
  touches_names : v_names (dview d') = v_names (dview d);
  touches_inodes fd : fd_inode (dview d') fd = fd_inode (dview d) fd;
  touches_contents j : j ≠ ino → contents (dview d') j = contents (dview d) j
}.

Lemma sys_lseek_set fd off d ino pos :
  v_fds (dview d) !! fd = Some (ino, pos) → 0 ≤ off →
  ∃ d', sys (λ s, os_lseek s fd off SEEK_SET) d = (Ok off, d') ∧ same_tables d d' ∧
        dview d' = set_fds <[fd := (ino, Z.to_nat off)]> (dview d).
Proof.
  intros Hfd Hoff. unfold sys.
  destruct (os_lseek (dm_os d) fd off SEEK_SET) as [r s'] eqn:Hs.
  apply os_lseek_ok in Hs; [|done].
  inversion Hs as [i p Hi Hw Ho Hr Hv | | r' Hr' [Ho|Hn] Hr Hv]; subst; try lia; try done.
  - assert (i = ino) as -> by (unfold dview in *; congruence).
    exists (set_os s' d). split; [done|]. split; [by repeat split|]. unfold dview at 1. simpl. done.
  - unfold dview in *; congruence.
Qed.

Lemma sys_lseek_end fd d ino pos :
  v_fds (dview d) !! fd = Some (ino, pos) →
  ∃ r d', sys (λ s, os_lseek s fd 0 SEEK_END) d = (Ok r, d') ∧ same_tables d d' ∧
        dview d' = set_fds <[fd := (ino, length (contents (dview d) ino))]> (dview d).
Proof.
  intros Hfd. unfold sys.
  destruct (os_lseek (dm_os d) fd 0 SEEK_END) as [r s'] eqn:Hs.
  apply os_lseek_ok in Hs; [|done].
  inversion Hs as [| i p Hi Hw Ho Hr Hv | r' Hr' [Ho|Hn] Hr Hv]; subst; try lia; try done.
  - assert (i = ino) as -> by (unfold dview in *; congruence).
    eexists _, (set_os s' d). split; [done|]. split; [by repeat split|]. unfold dview at 1. simpl. done.
  - unfold dview in *; congruence.
Qed.

Lemma sys_write_spec fd bs d r d' ino pos :
  v_fds (dview d) !! fd = Some (ino, pos) →
  sys (λ s, os_write s fd bs) d = (r, d') →
  touches ino d d' ∧
  ((∃ k, r = Ok k ∧ k < 0 ∧ contents (dview d') ino = contents (dview d) ino) ∨
   (∃ m, r = Ok (Z.of_nat m) ∧ (m ≤ length bs)%nat ∧
         contents (dview d') ino = write_at pos (take m bs) (contents (dview d) ino))).
Proof.
  intros Hfd. unfold sys.
  destruct (os_write (dm_os d) fd bs) as [k s'] eqn:Hs. intros [= <- <-].
  apply os_write_ok in Hs.
  inversion Hs as [k' Hk Hr Hv | i p m Hi Hm Hr Hv]; subst.
  - split; [|left; exists k; unfold dview; simpl; by rewrite <- Hv].
    split; [by repeat split| | | |]; unfold dview; simpl; by rewrite <- Hv.
  - assert (i = ino ∧ p = pos) as [-> ->] by (unfold dview in *; naive_solver congruence).
    split; [|right; exists m; split; [done|]; split; [done|];
             unfold dview, contents; simpl; rewrite <- Hv; simpl; by rewrite lookup_insert_eq].
    split; [by repeat split| | | |]; unfold dview, fd_inode, contents; simpl; rewrite <- Hv; simpl; [done|done| |].
    + intros fd'. destruct (decide (fd = fd')) as [<-|].
      * rewrite lookup_insert_eq. unfold dview in Hfd. by rewrite Hfd.
      * by rewrite lookup_insert_ne.
    + intros j Hj. by rewrite lookup_insert_ne.
Qed.

(** ** Invariant of the open-file tables *)

(** The two tables agree, and what they name is open. *)
Record tables_ok (d : D) : Prop := {
  tbl_inverse path fd : path2fd_ d !! path = Some fd ↔ fd2path_ d !! fd = Some path;
  tbl_open fd path : fd2path_ d !! fd = Some path → 0 ≤ fd ∧ is_Some (fd_inode (dview d) fd)
}.

(** The files they name are of plain names in a directory without links, and each
    has one descriptor. *)
Record disk_inv (d : D) : Prop := {
  inv_ok : tables_ok d;
  inv_dir : plain_dir (dview d);
  inv_plain fd path : fd2path_ d !! fd = Some path → plain_name path = true;
  inv_inode fd path ino :
    fd2path_ d !! fd = Some path → fd_inode (dview d) fd = Some ino →
    named (dview d) path = Some ino ∨ ∀ e, v_names (dview d) !! e ≠ Some ino;
  inv_distinct fd1 fd2 ino :
    is_Some (fd2path_ d !! fd1) → is_Some (fd2path_ d !! fd2) →
    fd_inode (dview d) fd1 = Some ino → fd_inode (dview d) fd2 = Some ino → fd1 = fd2
}.

Lemma inv_open d fd path : disk_inv d → fd2path_ d !! fd = Some path → 0 ≤ fd ∧ is_Some (fd_inode (dview d) fd).
Proof. intros [[_ H] _ _ _ _]. apply H. Qed.

Record stable (d d' : D) : Prop := {
  stable_p2f : path2fd_ d' = path2fd_ d;
  stable_f2p : fd2path_ d' = fd2path_ d;
  stable_entry : v_entry (dview d') = v_entry (dview d);
  stable_names : v_names (dview d') = v_names (dview d);
  stable_inodes fd : fd_inode (dview d') fd = fd_inode (dview d) fd
}.

Lemma tables_ok_stable d d' : stable d d' → tables_ok d → tables_ok d'.
Proof. intros [Hp Hf He Hn Hi] [I1 I2]. split; intros *; rewrite ?Hp, ?Hf, ?Hi; eauto. Qed.

Lemma plain_dir_same v v' : v_entry v' = v_entry v → v_names v' = v_names v → plain_dir v → plain_dir v'.
Proof. intros He Hn [P1 P2]. split; intros *; rewrite ?He, ?Hn; eauto. Qed.

Lemma disk_inv_stable d d' : stable d d' → disk_inv d → disk_inv d'.
Proof.
  intros St [I1 I2 I3 I4 I5]. pose proof (tables_ok_stable _ _ St I1) as J1. destruct St as [Hp Hf He Hn Hi].
  split; [done|by eapply plain_dir_same|..]; intros *; unfold named; rewrite ?Hf, ?He, ?Hn, ?Hi; eauto.
Qed.

Lemma touches_stable ino d d' : touches ino d d' → stable d d'.
Proof. intros [(Hp & Hf & _) He Hn Hi _]. by split. Qed.

Lemma disk_inv_touches ino d d' : touches ino d d' → disk_inv d → disk_inv d'.
Proof. intros T. by eapply disk_inv_stable, touches_stable. Qed.

Lemma touches_trans ino d1 d2 d3 : touches ino d1 d2 → touches ino d2 d3 → touches ino d1 d3.
Proof.
  intros [(?&?&?&?) E1 N1 I1 C1] [(?&?&?&?) E2 N2 I2 C2].
  split; [repeat split; congruence | congruence | congruence | |].
  - intros fd. by rewrite I2, I1.
  - intros j Hj. by rewrite C2, C1.
Qed.

(** Moving a descriptor's offset touches no contents at all. *)
Lemma touches_seek d d' fd ino pos pos' :
  v_fds (dview d) !! fd = Some (ino, pos) → same_tables d d' →
  dview d' = set_fds <[fd := (ino, pos')]> (dview d) →
  touches ino d d' ∧ contents (dview d') ino = contents (dview d) ino.
Proof.
  intros Hfd Ht Hv. unfold contents. rewrite Hv. simpl. split; [|done].
  split; [done| by rewrite Hv | by rewrite Hv | | ].
  - intros fd'. unfold fd_inode. rewrite Hv. simpl. destruct (decide (fd = fd')) as [<-|].
    + by rewrite lookup_insert_eq, Hfd.
    + by rewrite lookup_insert_ne.
  - intros j _. unfold contents. by rewrite Hv.
Qed.

(** [write_page] in range: it returns or throws [UnixError]; a prefix of the
    bytes has reached the file, all of them when it returns. *)
Lemma write_page_effect fd page_no bs d r d' ino :
  fd_inode (dview d) fd = Some ino → page_no_ok page_no →
  write_page fd page_no bs (Z.of_nat (length bs)) d = (r, d') →
  touches ino d d' ∧
  (r = Ok tt ∧ contents (dview d') ino
               = write_at (Z.to_nat (page_offset page_no)) bs (contents (dview d) ino) ∨
   r = Throw (RedBase UnixError) ∧
     (contents (dview d') ino = contents (dview d) ino ∨
      ∃ m, (m < length bs)%nat ∧
           contents (dview d') ino
           = write_at (Z.to_nat (page_offset page_no)) (take m bs) (contents (dview d) ino))).
Proof.
  intros Hino Hok. unfold fd_inode in Hino. apply fmap_Some in Hino as ([i pos] & Hfd & Hi).
  simpl in Hi. subst i.
  pose proof (page_offset_ok _ Hok) as [Hoff ?].
  destruct (sys_lseek_set fd (page_offset page_no) d ino pos Hfd ltac:(lia)) as (d1 & H1 & Ht & Hv1).
  unfold write_page. rewrite (st_bind_ok _ _ _ _ _ H1).
  destruct (touches_seek _ _ _ _ _ _ Hfd Ht Hv1) as [T1 C1].
  assert (Hfd1 : v_fds (dview d1) !! fd = Some (ino, Z.to_nat (page_offset page_no))).
  { rewrite Hv1. simpl. apply lookup_insert_eq. }
  rewrite Nat2Z.id, firstn_all.
  destruct (sys (λ s, os_write s fd bs) d1) as [rw d2] eqn:H2.
  destruct (sys_write_spec _ _ _ _ _ _ _ Hfd1 H2) as [T2 [(k & -> & Hk & C2)|(m & -> & Hm & C2)]];
    rewrite (st_bind_ok _ _ _ _ _ H2); rewrite C1 in C2; intros H3;
    (assert (touches ino d d2) by (eapply touches_trans; eassumption)).
  - destruct (Z.eqb_spec k (Z.of_nat (length bs))); [lia|].
    injection H3 as <- <-. split; [done|]. right. split; [done|]. by left.
  - destruct (Z.eqb_spec (Z.of_nat m) (Z.of_nat (length bs))) as [E|E]; injection H3 as <- <-;
      (split; [done|]).
    + left. split; [done|]. apply Nat2Z.inj in E. subst m. by rewrite firstn_all in C2.
    + right. split; [done|]. right. exists m. split; [lia|done].
Qed.

(** [read_page] in range: it fills the buffer with the page, which the file then
    holds whole, or throws [UnixError]. *)
Lemma read_page_effect fd page_no n buf d r d' buf' ino :
  fd_inode (dview d) fd = Some ino → page_no_ok page_no → length buf = n → (0 < n)%nat →
  read_page fd page_no (Z.of_nat n) (d, buf) = (r, (d', buf')) →
  touches ino d d' ∧ contents (dview d') ino = contents (dview d) ino ∧ length buf' = n ∧
  (r = Ok tt ∧ file_page n d (MkPageId fd page_no) = Some buf' ∨ r = Throw (RedBase UnixError)).
Proof.
  intros Hino Hok Hbuf Hn0. unfold fd_inode in Hino. apply fmap_Some in Hino as ([i pos] & Hfd & Hi).
  simpl in Hi. subst i.
  pose proof (page_offset_ok _ Hok) as [Hoff ?].
  destruct (sys_lseek_set fd (page_offset page_no) d ino pos Hfd ltac:(lia)) as (d1 & H1 & Ht & Hv1).
  assert (H1' : on_disk (sys (λ s, os_lseek s fd (page_offset page_no) SEEK_SET)) (d, buf)
                = (Ok (page_offset page_no), (d1, buf))).
  { unfold on_disk, zoom. simpl. by rewrite H1. }
  unfold read_page. rewrite (st_bind_ok _ _ _ _ _ H1').
  destruct (touches_seek _ _ _ _ _ _ Hfd Ht Hv1) as [T1 C1].
  unfold st_bind, sys_read. destruct (os_read (dm_os d1) fd (Z.to_nat (Z.of_nat n))) as [[k got] s2] eqn:H2.
  rewrite Nat2Z.id in H2. apply os_read_ok in H2. fold (dview d1) in H2.
  inversion H2 as [k' Hk Hr Hg Hv | i p m Hi Hm gt Hr Hg Hv]; subst.
  { assert (V2 : dview (set_os s2 d1) = dview d1) by (unfold dview at 1; simpl; by rewrite <- Hv).
    assert (T2 : touches ino d1 (set_os s2 d1)) by (split; intros; rewrite ?V2; try done; by repeat split).
    destruct (Z.eqb_spec k (Z.of_nat (length buf))); [lia|]. intros [= <- <- <-]. rewrite V2, C1.
    split; [by eapply touches_trans|]. split; [done|]. split; [apply length_splice; simpl; lia|by right]. }
  assert (i = ino ∧ p = Z.to_nat (page_offset page_no)) as [-> ->].
  { rewrite Hv1 in Hi. simpl in Hi. rewrite lookup_insert_eq in Hi. by injection Hi. }
  set (off := Z.to_nat (page_offset page_no)) in *.
  assert (Hgt : gt = slice off m (contents (dview d) ino)) by (unfold gt; by rewrite C1).
  clearbody gt. subst gt. set (got := slice off m (contents (dview d) ino)) in *.
  assert (Hgot : (length got ≤ length buf)%nat) by (unfold got, slice; rewrite length_take; lia).
  assert (T2 : touches ino d1 (set_os s2 d1) ∧ contents (dview (set_os s2 d1)) ino = contents (dview d1) ino).
  { eapply touches_seek; [exact Hi | by repeat split |]. unfold dview at 1. simpl. by rewrite <- Hv. }
  destruct T2 as [T2 C2].
  assert (Hlen : length (splice 0 got buf) = length buf) by (apply length_splice; lia).
  destruct (Z.eqb_spec (Z.of_nat (length got)) (Z.of_nat (length buf))) as [E|E]; intros [= <- <- <-];
    (split; [by eapply touches_trans|]); (split; [congruence|]); (split; [done|]); [left|by right].
  split; [done|]. apply Nat2Z.inj in E. unfold splice. simpl. rewrite drop_ge, app_nil_r by lia.
  unfold file_page. simpl. rewrite Hfd. fold off.
  assert (m = length buf ∧ (off + m ≤ length (contents (dview d) ino))%nat) as [<- Hle].
  { unfold got, slice in E. rewrite length_take, length_drop in E. lia. }
  by rewrite decide_True.
Qed.

(** ** Pages *)

Definition fd_known (d : D) (p : PageId) : Prop :=
  is_Some (fd2path_ d !! pid_fd p) ∧ page_no_ok (pid_no p).

Lemma fd_known_inode d p : disk_inv d → fd_known d p → ∃ ino, fd_inode (dview d) (pid_fd p) = Some ino.
Proof. intros Hinv [[path Hp] _]. destruct (inv_open _ _ _ Hinv Hp) as [_ [ino ?]]. eauto. Qed.

Lemma file_page_contents n d p ino :
  fd_inode (dview d) (pid_fd p) = Some ino →
  file_page n d p =
    let off := Z.to_nat (page_offset (pid_no p)) in
    if decide (off + n ≤ length (contents (dview d) ino))%nat
    then Some (slice off n (contents (dview d) ino)) else None.
Proof.
  unfold fd_inode, file_page. intros ([i pos] & -> & Hi)%fmap_Some. simpl in Hi. by subst i.
Qed.

Lemma file_page_same n d d' p :
  (∀ fd, fd_inode (dview d') fd = fd_inode (dview d) fd) →
  (∀ j, contents (dview d') j = contents (dview d) j) →
  file_page n d' p = file_page n d p.
Proof.
  intros Hi Hc. destruct (fd_inode (dview d) (pid_fd p)) as [ino|] eqn:E.
  - rewrite !(file_page_contents _ _ _ ino) by (by rewrite ?Hi). by rewrite Hc.
  - pose proof (Hi (pid_fd p)) as E'. rewrite E in E'. unfold fd_inode, file_page in *.
    apply fmap_None in E, E'. by rewrite E, E'.
Qed.

(** Page [q] survives a (possibly partial) write inside page [p ≠ q]. *)
Lemma file_page_other d d' p q ino m bs :
  disk_inv d → fd_known d p → fd_known d q → q ≠ p →
  touches ino d d' → fd_inode (dview d) (pid_fd p) = Some ino → length bs = page_len →
  contents (dview d') ino
    = write_at (Z.to_nat (page_offset (pid_no p))) (take m bs) (contents (dview d) ino) →
  ∀ x, file_page page_len d q = Some x → file_page page_len d' q = Some x.
Proof.
  intros Hinv [Hkp Hp] Hkq' Hne T Hino Hlen Hc x.
  destruct (fd_known_inode _ _ Hinv Hkq') as [j Hj]. destruct Hkq' as [Hkq Hq].
  assert (Hj' : fd_inode (dview d') (pid_fd q) = Some j) by (by rewrite (touches_inodes _ _ _ T)).
  rewrite (file_page_contents _ d q j Hj), (file_page_contents _ d' q j Hj').
  destruct (decide (j = ino)) as [->|Hji]; [|by rewrite (touches_contents _ _ _ T) by done].
  assert (pid_fd q = pid_fd p) as Hfd by (eapply (inv_distinct _ Hinv); eauto).
  assert (pid_no q ≠ pid_no p) as Hno by (destruct p, q; simpl in *; congruence).
  destruct (page_offset_ok _ Hp) as [Ep ?]. destruct (page_offset_ok _ Hq) as [-> ?].
  rewrite Ep in Hc.
  rewrite Hc. cbv zeta. case_decide as Hle; [|done]. intros [= <-].
  rewrite decide_True by (rewrite length_write_at; lia).
  f_equal. apply slice_write_at_other; [done|]. rewrite length_take.
  unfold page_len in *. change (Z.to_nat PAGE_SIZE) with (Z.to_nat 4096) in *. lia.
Qed.

(** C: the page just written is the page in the file. *)
Lemma file_page_written n d d' p ino bs :
  fd_inode (dview d') (pid_fd p) = Some ino → length bs = n →
  contents (dview d') ino = write_at (Z.to_nat (page_offset (pid_no p))) bs (contents (dview d) ino) →
  file_page n d' p = Some bs.
Proof.
  intros Hino <- Hc. rewrite (file_page_contents _ _ _ ino Hino), Hc. cbv zeta.
  rewrite decide_True by (rewrite length_write_at; lia).
  by rewrite slice_write_at_same.
Qed.

(** Bytes written at the start of a page are read back. *)
Lemma write_read_bytes d d1 p bs buf ino :
  fd_inode (dview d) (pid_fd p) = Some ino → page_no_ok (pid_no p) → bs ≠ [] → length buf = length bs →
  write_page (pid_fd p) (pid_no p) bs (Z.of_nat (length bs)) d = (Ok tt, d1) →
  ∃ r d2 buf', read_page (pid_fd p) (pid_no p) (Z.of_nat (length bs)) (d1, buf) = (r, (d2, buf')) ∧ same_tables d1 d2 ∧
    (r = Ok tt ∧ buf' = bs ∨ r = Throw (RedBase UnixError)).
Proof.
  intros Hino Hk Hne Hbuf Hw.
  destruct (write_page_effect _ _ _ _ _ _ _ Hino Hk Hw) as [[Ht He Hn Hi Hc] [[_ C]|[? _]]]; [|done].
  destruct (read_page (pid_fd p) (pid_no p) (Z.of_nat (length bs)) (d1, buf)) as [r [d2 buf']] eqn:Hr.
  assert (Hino1 : fd_inode (dview d1) (pid_fd p) = Some ino) by (by rewrite Hi).
  assert (0 < length bs)%nat by (destruct bs; simpl; [done|lia]).
  destruct (read_page_effect _ _ _ _ _ _ _ _ _ Hino1 Hk Hbuf ltac:(done) Hr) as ([Ht2 _ _ _ _] & _ & _ & Hm).
  exists r, d2, buf'. split; [done|]. split; [done|]. destruct Hm as [[-> Hp]|Hm]; [left|by right].
  destruct p as [fd n]. simpl in Hp. rewrite (file_page_written _ d d1 (MkPageId fd n) ino bs Hino1 eq_refl C) in Hp.
  by injection Hp.
Qed.

Definition store_write (p : PageId) (bs : bytes) : M D unit :=
  write_page (pid_fd p) (pid_no p) bs PAGE_SIZE.
Definition store_read (p : PageId) : M (D * bytes) unit :=
  read_page (pid_fd p) (pid_no p) PAGE_SIZE.

Lemma page_len_Z : PAGE_SIZE = Z.of_nat page_len.
Proof. unfold page_len, PAGE_SIZE. lia. Qed.

Lemma same_tables_known d d' q : same_tables d d' → fd_known d' q ↔ fd_known d q.
Proof. intros (_ & Hf & _). unfold fd_known. by rewrite Hf. Qed.

Lemma store_write_ok d p bs r d' :
  disk_inv d → fd_known d p → length bs = page_len → store_write p bs d = (r, d') →
  disk_inv d' ∧ same_tables d d' ∧
  (r = Ok tt ∧ file_page page_len d' p = Some bs ∨ r = Throw (RedBase UnixError)) ∧
  (∀ q x, q ≠ p → fd_known d q → file_page page_len d q = Some x → file_page page_len d' q = Some x).
Proof.
  intros Hinv Hk Hlen Hw. destruct (fd_known_inode _ _ Hinv Hk) as [ino Hino].
  unfold store_write in Hw. rewrite page_len_Z, <- Hlen in Hw.
  destruct (write_page_effect _ _ _ _ _ _ _ Hino (proj2 Hk) Hw) as [T HH].
  split; [by eapply disk_inv_touches|]. split; [apply T|].
  assert (Hino' : fd_inode (dview d') (pid_fd p) = Some ino) by (by rewrite (touches_inodes _ _ _ T)).
  destruct HH as [[-> Hc]|[-> Hc]].
  - split; [left; split; [done|]; by eapply file_page_written|].
    intros q x Hne Hq. eapply (file_page_other d d' p q ino (length bs) bs); eauto.
    by rewrite firstn_all.
  - split; [by right|]. intros q x Hne Hq.
    destruct Hc as [Hc|(m & _ & Hc)]; [|by eapply (file_page_other d d' p q ino m bs)].
    intros Hx. rewrite <- Hx. apply file_page_same; [apply T|].
    intros j. destruct (decide (j = ino)) as [->|]; [done|]. by apply T.
Qed.

Lemma store_read_ok d p buf r d' buf' :
  disk_inv d → fd_known d p → length buf = page_len → store_read p (d, buf) = (r, (d', buf')) →
  disk_inv d' ∧ same_tables d d' ∧ (∀ q, file_page page_len d' q = file_page page_len d q) ∧
  length buf' = page_len ∧
  (r = Ok tt ∧ file_page page_len d p = Some buf' ∨ r = Throw (RedBase UnixError)).
Proof.
  intros Hinv Hk Hlen Hr. destruct (fd_known_inode _ _ Hinv Hk) as [ino Hino].
  unfold store_read in Hr. rewrite page_len_Z in Hr.
  destruct (read_page_effect _ _ _ _ _ _ _ _ _ Hino (proj2 Hk) Hlen ltac:(unfold page_len, PAGE_SIZE; lia) Hr)
    as (T & Hc & Hlen' & Hm).
  split; [by eapply disk_inv_touches|]. split; [apply T|]. split; [|split; [done|by destruct p]].
  intros q. apply file_page_same; [apply T|].
  intros j. destruct (decide (j = ino)) as [->|]; [done|]. by apply T.
Qed.

Definition fd_in_range (fd : Z) : Prop := 0 ≤ fd < MAX_FD.
Definition next_page_no (d : D) (fd : Z) : Z := default 0 (fd2pageno_ d !! fd).

Lemma AllocatePage_run d fd :
  fd_in_range fd →
  AllocatePage fd d
  = (Ok (next_page_no d fd), set_pagenos (<[fd := wrap32 (next_page_no d fd + 1)]> (fd2pageno_ d)) d).
Proof.
  intros [? ?]. unfold AllocatePage, get_fd2pageno, set_fd2pageno, st_bind, st_ret.
  rewrite (proj2 (Z.leb_le 0 fd)), (proj2 (Z.ltb_lt fd MAX_FD)) by done. done.
Qed.

#[export] Instance disk_store : PageStore D.
Proof.
  refine {| ps_inv := disk_inv; ps_valid := fd_known; ps_page := file_page page_len;
            ps_next := next_page_no; ps_fd_ok := fd_in_range;
            ps_write := store_write; ps_read := store_read;
            ps_alloc := AllocatePage; ps_dealloc := DeallocatePage |}.
  - intros d p bs. unfold file_page. destruct (v_fds (dview d) !! pid_fd p) as [[ino pos]|]; [|done].
    cbv zeta. case_decide; [|done]. intros [= <-]. by apply length_slice.
  - intros d p bs r d' Hinv Hk Hlen Hw.
    destruct (store_write_ok _ _ _ _ _ Hinv Hk Hlen Hw) as (?&Ht&?&?).
    split_and!; try done; [intros; by apply same_tables_known|].
    intros fd. unfold next_page_no. by destruct Ht as (_&_&_&->).
  - intros d p buf r d' buf' Hinv Hk Hlen Hr.
    destruct (store_read_ok _ _ _ _ _ _ Hinv Hk Hlen Hr) as (?&Ht&?&?&?).
    split_and!; try done; [intros; by apply same_tables_known|].
    intros fd. unfold next_page_no. by destruct Ht as (_&_&_&->).
  - intros d fd r d' Hinv Hfd. rewrite AllocatePage_run by done. intros [= <- <-].
    split_and!; try done.
    + revert Hinv. by apply disk_inv_stable.
    + unfold next_page_no at 1. simpl. by rewrite lookup_insert_eq.
    + intros fd' ?. unfold next_page_no. simpl. by rewrite lookup_insert_ne.
  - done.
Defined.

(** ** Every call preserves the invariant *)

Lemma stable_refl d : stable d d.
Proof. by split. Qed.

Lemma stable_trans d1 d2 d3 : stable d1 d2 → stable d2 d3 → stable d1 d3.
Proof.
  intros [A1 B1 E1 C1 I1] [A2 B2 E2 C2 I2].
  split; [congruence.. |]. intros fd. by rewrite I2.
Qed.

Lemma fd_inode_move v fd ino pos pos' fd' :
  v_fds v !! fd = Some (ino, pos) →
  fd_inode (set_fds <[fd := (ino, pos')]> v) fd' = fd_inode v fd'.
Proof.
  intros H. unfold fd_inode. simpl. destruct (decide (fd = fd')) as [<-|].
  - by rewrite lookup_insert_eq, H.
  - by rewrite lookup_insert_ne.
Qed.

Lemma stable_lseek fd off w d r d' :
  (w = SEEK_END → off = 0) → sys (λ s, os_lseek s fd off w) d = (r, d') →
  stable d d' ∧ (∃ k, r = Ok k).
Proof.
  intros Hw. unfold sys. destruct (os_lseek (dm_os d) fd off w) as [k s'] eqn:Hs.
  intros [= <- <-]. split; [|eauto]. apply os_lseek_ok in Hs; [|done].
  inversion Hs as [i p Hi ? ? Hr Hv | i p Hi ? ? Hr Hv | k' ? ? Hr Hv]; subst;
    (split; [done|done|unfold dview; simpl; by rewrite <- Hv..|]);
    intros fd'; unfold dview; simpl; rewrite <- Hv; eauto using fd_inode_move.
Qed.

Lemma stable_write fd bs d r d' :
  sys (λ s, os_write s fd bs) d = (r, d') → stable d d' ∧ (∃ k, r = Ok k).
Proof.
  unfold sys. destruct (os_write (dm_os d) fd bs) as [k s'] eqn:Hs.
  intros [= <- <-]. split; [|eauto]. apply os_write_ok in Hs.
  inversion Hs as [k' Hk Hr Hv | i p m Hi Hm Hr Hv]; subst;
    (split; [done|done|unfold dview; simpl; by rewrite <- Hv..|]);
    intros fd'; unfold dview; simpl; rewrite <- Hv; [done|].
  exact (fd_inode_move (os_view (dm_os d)) fd i p _ fd' Hi).
Qed.

Lemma stable_read fd n d buf r d' buf' :
  sys_read fd n (d, buf) = (r, (d', buf')) → stable d d' ∧ (∃ k, r = Ok k).
Proof.
  unfold sys_read. destruct (os_read (dm_os d) fd (Z.to_nat n)) as [[k got] s'] eqn:Hs.
  intros [= <- <- <-]. split; [|eauto]. apply os_read_ok in Hs.
  inversion Hs as [k' Hk Hr Hg Hv | i p m Hi Hm gt Hr Hg Hv]; subst;
    (split; [done|done|unfold dview; simpl; by rewrite <- Hv..|]);
    intros fd'; unfold dview; simpl; rewrite <- Hv; [done|]; eauto using fd_inode_move.
Qed.

Lemma write_page_stable fd page_no bs n d r d' :
  write_page fd page_no bs n d = (r, d') → stable d d'.
Proof.
  unfold write_page. intros H.
  destruct (sys (λ s, os_lseek s fd (page_offset page_no) SEEK_SET) d) as [r1 d1] eqn:H1.
  destruct (stable_lseek fd (page_offset page_no) SEEK_SET d r1 d1 ltac:(done) H1) as [S1 [k1 ->]].
  rewrite (st_bind_ok _ _ _ _ _ H1) in H.
  destruct (sys (λ s, os_write s fd (take (Z.to_nat n) bs)) d1) as [r2 d2] eqn:H2.
  destruct (stable_write _ _ _ _ _ H2) as [S2 [k2 ->]].
  rewrite (st_bind_ok _ _ _ _ _ H2) in H.
  assert (d' = d2) as -> by (case_match; by injection H). eauto using stable_trans.
Qed.

Lemma read_page_stable fd page_no n d buf r d' buf' :
  read_page fd page_no n (d, buf) = (r, (d', buf')) → stable d d'.
Proof.
  unfold read_page, on_disk, zoom, st_bind. simpl.
  destruct (sys (λ s, os_lseek s fd (page_offset page_no) SEEK_SET) d) as [r1 d1] eqn:H1.
  destruct (stable_lseek fd (page_offset page_no) SEEK_SET d r1 d1 ltac:(done) H1) as [S1 [k1 ->]].
  destruct (sys_read fd n (d1, buf)) as [r2 [d2 buf2]] eqn:H2.
  destruct (stable_read _ _ _ _ _ _ _ H2) as [S2 [k2 ->]].
  intros H. assert (d' = d2) as -> by (case_match; by injection H). eauto using stable_trans.
Qed.

Lemma is_file_run path d :
  is_file path d = (Ok (bool_decide (is_Some (named (dview d) path))), d).
Proof.
  unfold is_file, gets. f_equal. f_equal.
  pose proof (os_stat_ok (dm_os d) path) as Hs. fold (dview d) in Hs.
  inversion Hs as [ino Hn E | size Hn Hd E | Hn Hd E]; rewrite Hn.
  - by rewrite bool_decide_true by eauto.
  - by rewrite bool_decide_false by (by intros []).
  - by rewrite bool_decide_false by (by intros []).
Qed.

(** How [create_file], [destroy_file] and [open_file] end: nothing has changed, or
    the file has been made, unnamed, opened. *)
Lemma create_file_cases path d r d' :
  create_file path d = (r, d') →
  stable d d' ∨
  ∃ ino, path2fd_ d' = path2fd_ d ∧ fd2path_ d' = fd2path_ d ∧ named (dview d) path = None ∧
    (∀ e, v_names (dview d) !! e ≠ Some ino) ∧ (∀ fd, fd_inode (dview d) fd ≠ Some ino) ∧
    dview d' = set_names <[v_entry (dview d) path := ino]> (set_data <[ino := []]> (dview d)).
Proof.
  unfold create_file. rewrite (st_bind_ok _ _ _ _ _ (is_file_run path d)).
  case_bool_decide as Hn; simpl; [intros [= <- <-]; left; apply stable_refl|].
  unfold st_bind, sys. destruct (os_open (dm_os d) path true) as [fd s'] eqn:Hs.
  apply os_open_ok in Hs. fold (dview d) in Hs.
  inversion Hs as [fd' Hneg Hr Hv | ino fd' Hn' ? Hfd Hr Hv | ino fd' ? Hn' Hdir Hdat Hfr Hfr2 Hpos Hfd Hr Hv];
    subst.
  - rewrite (proj2 (Z.ltb_lt fd 0)) by done. intros [= <- <-]. left.
    split; try done; intros; unfold dview at 1; simpl; by rewrite <- Hv.
  - by destruct Hn.
  - rewrite (proj2 (Z.ltb_ge fd 0)) by done. simpl. intros [= <- <-]. right. exists ino.
    split_and!; try done.
    + intros fd' (e & He & Ei)%fmap_Some. by apply (Hfr2 fd' e).
    + unfold dview at 1. simpl. rewrite os_close_ok, <- Hv. unfold set_fds, set_names, set_data. simpl.
      by rewrite delete_insert_id.
Qed.

Lemma destroy_file_cases path d r d' :
  destroy_file path d = (r, d') →
  stable d d' ∨
  path2fd_ d' = path2fd_ d ∧ fd2path_ d' = fd2path_ d ∧
    dview d' = set_names (delete (v_entry (dview d) path)) (dview d).
Proof.
  unfold destroy_file. rewrite (st_bind_ok _ _ _ _ _ (is_file_run path d)).
  case_bool_decide as Hn; simpl; [|intros [= <- <-]; left; apply stable_refl].
  unfold st_bind, sys. destruct (os_unlink (dm_os d) path) as [k s'] eqn:Hs.
  apply os_unlink_ok in Hs. fold (dview d) in Hs.
  inversion Hs as [k' Hk Hr Hv | ino Hn' Hr Hv]; subst.
  - rewrite (proj2 (Z.ltb_lt k 0)) by done. intros [= <- <-]. left.
    split; try done; intros; unfold dview at 1; simpl; by rewrite <- Hv.
  - simpl. intros [= <- <-]. by right.
Qed.

Lemma open_file_cases path d r d' :
  open_file path d = (r, d') →
  (stable d d' ∧ ∀ fd, r ≠ Ok fd) ∨
  ∃ fd ino, r = Ok fd ∧ named (dview d) path = Some ino ∧ 0 ≤ fd ∧ v_fds (dview d) !! fd = None ∧
    path2fd_ d !! path = None ∧ path2fd_ d' = <[path := fd]> (path2fd_ d) ∧ fd2path_ d' = <[fd := path]> (fd2path_ d) ∧
    dview d' = set_fds <[fd := (ino, 0%nat)]> (dview d).
Proof.
  unfold open_file. rewrite (st_bind_ok _ _ _ _ _ (is_file_run path d)).
  unfold st_bind at 1, get_st.
  destruct (bool_decide (is_Some (named _ _)) && negb (bool_decide (is_Some (path2fd_ d !! path)))) eqn:B;
    [|intros [= <- <-]; left; split; [apply stable_refl|done]].
  apply andb_prop in B as [B1%bool_decide_eq_true B2%negb_true_iff%bool_decide_eq_false].
  unfold st_bind, sys. destruct (os_open (dm_os d) path false) as [fd s'] eqn:Hs.
  apply os_open_ok in Hs. fold (dview d) in Hs.
  inversion Hs as [fd' Hneg Hr Hv | ino fd' Hn' Hpos Hfd Hr Hv | ino fd' ? Hn' Hdir Hdat Hfr Hfr2 Hpos Hfd Hr Hv];
    subst; [| |done].
  - rewrite (proj2 (Z.ltb_lt fd 0)) by done. intros [= <- <-]. left. split; [|done].
    split; try done; intros; unfold dview at 1; simpl; by rewrite <- Hv.
  - rewrite (proj2 (Z.ltb_ge fd 0)) by done. unfold modify, st_ret. intros [= <- <-]. right. exists fd, ino.
    split_and!; try done. by apply eq_None_not_Some.
Qed.

Lemma close_file_cases fd d r d' :
  close_file fd d = (r, d') →
  r = Ok tt ∧
  (d' = d ∧ (fd2path_ d !! fd = None ∨ fd < 0) ∨
   ∃ path, fd2path_ d !! fd = Some path ∧ path2fd_ d' = delete path (path2fd_ d) ∧
     fd2path_ d' = delete fd (fd2path_ d) ∧ dview d' = set_fds (delete fd) (dview d)).
Proof.
  unfold close_file. unfold st_bind at 1, get_st. intros H.
  destruct (fd2path_ d !! fd) as [path|] eqn:E; [|injection H as <- <-; eauto].
  destruct (Z.leb_spec 0 fd); [|injection H as <- <-; eauto].
  unfold st_bind, sys, modify in H. injection H as <- <-. split; [done|]. right. exists path. split_and!; try done.
  unfold dview at 1; simpl; apply os_close_ok.
Qed.

Lemma fd_inode_open v fd ino fd' :
  fd_inode (set_fds <[fd := (ino, 0%nat)]> v) fd' = if decide (fd = fd') then Some ino else fd_inode v fd'.
Proof. unfold fd_inode. simpl. rewrite lookup_insert. by case_decide. Qed.

Lemma fd_inode_close v fd fd' : fd ≠ fd' → fd_inode (set_fds (delete fd) v) fd' = fd_inode v fd'.
Proof. intros ?. unfold fd_inode. simpl. by rewrite lookup_delete_ne. Qed.

(** *** The tables *)

Lemma create_file_tables path d r d' : create_file path d = (r, d') → tables_ok d → tables_ok d'.
Proof.
  intros [?|(ino & Hp & Hf & _ & _ & _ & V)]%create_file_cases; [by apply tables_ok_stable|].
  intros [I1 I2]. split; intros *; rewrite ?Hp, ?Hf, ?V; [apply I1|apply I2].
Qed.

Lemma destroy_file_tables path d r d' : destroy_file path d = (r, d') → tables_ok d → tables_ok d'.
Proof.
  intros [?|(Hp & Hf & V)]%destroy_file_cases; [by apply tables_ok_stable|].
  intros [I1 I2]. split; intros *; rewrite ?Hp, ?Hf, ?V; [apply I1|apply I2].
Qed.

Lemma open_file_tables path d r d' : open_file path d = (r, d') → tables_ok d → tables_ok d'.
Proof.
  intros [[? _]|(fd & ino & _ & _ & Hpos & Hfd & Hun & Hp & Hf & V)]%open_file_cases; [by apply tables_ok_stable|].
  intros [I1 I2].
  assert (Hnf : fd2path_ d !! fd = None).
  { destruct (fd2path_ d !! fd) eqn:E; [|done]. apply I2 in E as [_ [j E]]. unfold fd_inode in E. by rewrite Hfd in E. }
  split; intros *; rewrite ?Hp, ?Hf, ?V, ?fd_inode_open, ?lookup_insert; repeat case_decide; naive_solver.
Qed.

Lemma close_file_tables fd d r d' : close_file fd d = (r, d') → tables_ok d → tables_ok d'.
Proof.
  intros [_ [[-> _]|(path & E & Hp & Hf & V)]]%close_file_cases; [done|]. intros [I1 I2]. apply I1 in E as E'.
  split; intros *; rewrite ?Hp, ?Hf, ?V, ?lookup_delete.
  - repeat case_decide; subst; [done| | |apply I1]; split; try done; intros Hx%I1; congruence.
  - case_decide; [done|]. rewrite fd_inode_close by done. apply I2.
Qed.

(** *** One descriptor to a file *)

Lemma create_file_inv path d r d' : create_file path d = (r, d') → disk_inv d → disk_inv d'.
Proof.
  intros H Hinv. pose proof (create_file_tables _ _ _ _ H (inv_ok _ Hinv)) as T'.
  apply create_file_cases in H as [?|(ino & Hp & Hf & Hnone & Hfr & Hfr2 & V)]; [by eapply disk_inv_stable|].
  destruct Hinv as [I1 [P1 P2] I3 I4 I5]. split; rewrite ?Hf, ?V; try done.
  - split; simpl; [done|]. intros e1 e2 j. rewrite !lookup_insert. repeat case_decide; naive_solver.
  - intros fd path' j Hpath Hi. change (fd_inode (dview d) fd = Some j) in Hi. unfold named. simpl.
    assert (j ≠ ino) as Hj by (intros ->; by apply Hfr2 in Hi).
    destruct (I4 fd path' j Hpath Hi) as [Hname|Hname].
    + left. rewrite lookup_insert_ne; [done|]. intros E. unfold named in *. congruence.
    + right. intros e. rewrite lookup_insert. case_decide; naive_solver.
Qed.

Lemma destroy_file_inv path d r d' : destroy_file path d = (r, d') → disk_inv d → disk_inv d'.
Proof.
  intros H Hinv. pose proof (destroy_file_tables _ _ _ _ H (inv_ok _ Hinv)) as T'.
  apply destroy_file_cases in H as [?|(Hp & Hf & V)]; [by eapply disk_inv_stable|].
  destruct Hinv as [I1 [P1 P2] I3 I4 I5]. split; rewrite ?Hf, ?V; try done.
  - split; simpl; [done|]. intros e1 e2 j. rewrite !lookup_delete. repeat case_decide; naive_solver.
  - intros fd path' j Hpath Hi. change (fd_inode (dview d) fd = Some j) in Hi. unfold named. simpl.
    destruct (I4 fd path' j Hpath Hi) as [Hname|Hname]; unfold named in *.
    + destruct (decide (v_entry (dview d) path = v_entry (dview d) path')) as [E|].
      * right. intros e. rewrite lookup_delete. case_decide as Ee; [done|]. intros He. by rewrite (P2 _ _ _ He Hname) in Ee.
      * left. by rewrite lookup_delete_ne.
    + right. intros e. rewrite lookup_delete. case_decide; naive_solver.
Qed.

Lemma open_file_inv path d r d' :
  open_file path d = (r, d') → plain_name path = true → disk_inv d →
  disk_inv d' ∧ (∀ fd, r = Ok fd → fd2path_ d' !! fd = Some path).
Proof.
  intros H Hpl Hinv. pose proof (open_file_tables _ _ _ _ H (inv_ok _ Hinv)) as T'.
  apply open_file_cases in H as [[S Hne]|(fd & ino & -> & Hname & Hpos & Hfd & Hun & Hp & Hf & V)].
  { split; [by eapply disk_inv_stable|]. intros fd ->. by destruct (Hne fd). }
  split; [|intros ? [= <-]; rewrite Hf; apply lookup_insert_eq].
  destruct Hinv as [[I1 I2] [P1 P2] I3 I4 I5].
  assert (Hlink : ∀ fd' path', fd2path_ d !! fd' = Some path' → fd_inode (dview d) fd' = Some ino → False).
  { intros fd' path' Hp' Hi. destruct (I4 _ _ _ Hp' Hi) as [Hn|Hn]; [|by apply Hn in Hname].
    assert (path' = path) as -> by (apply P1; [by eapply I3|done|by eapply P2]). apply I1 in Hp'. congruence. }
  split; [done| |..]; rewrite ?V.
  - by split.
  - intros f p. rewrite Hf, lookup_insert. case_decide; [by intros [= <-]|apply I3].
  - intros f p j. rewrite Hf, fd_inode_open, lookup_insert. case_decide as E; [|exact (I4 f p j)].
    intros [= <-] [= <-]. by left.
  - intros f1 f2 j. rewrite Hf, !fd_inode_open, !lookup_insert. repeat case_decide; subst; [done| | |by eauto].
    + intros _ [p Hp'] [= <-] Hi. destruct (Hlink f2 p Hp' Hi).
    + intros [p Hp'] _ Hi [= <-]. destruct (Hlink f1 p Hp' Hi).
Qed.

Lemma close_file_inv fd d r d' :
  close_file fd d = (r, d') → disk_inv d → disk_inv d' ∧ r = Ok tt ∧ fd2path_ d' !! fd = None.
Proof.
  intros H Hinv. pose proof (close_file_tables _ _ _ _ H (inv_ok _ Hinv)) as T'.
  apply close_file_cases in H as [-> [[-> Hn]|(path & E & Hp & Hf & V)]].
  { split_and!; try done. destruct Hn as [|Hn]; [done|]. destruct (fd2path_ d !! fd) eqn:E; [|done].
    destruct (inv_open _ _ _ Hinv E). lia. }
  split_and!; [|done|rewrite Hf; apply lookup_delete_eq].
  destruct Hinv as [I1 [P1 P2] I3 I4 I5]. split; [done| |..]; rewrite ?V.
  - by split.
  - intros f p. rewrite Hf, lookup_delete. case_decide; [done|apply I3].
  - intros f p j. rewrite Hf, lookup_delete. case_decide; [done|]. rewrite fd_inode_close by done. apply I4.
  - intros f1 f2 j. rewrite Hf, !lookup_delete. repeat case_decide; try (by intros []).
    rewrite !fd_inode_close by done. apply I5.
Qed.

(** A file opened by name: the descriptor is on the file of that name. *)
Lemma open_file_ok path d fd d' :
  open_file path d = (Ok fd, d') →
  ∃ ino, named (dview d) path = Some ino ∧ fd_inode (dview d') fd = Some ino ∧
    named (dview d') path = named (dview d) path ∧ ∀ j, contents (dview d') j = contents (dview d) j.
Proof.
  intros [[_ Hne]|(fd' & ino & [= <-] & Hname & _ & _ & _ & _ & _ & V)]%open_file_cases; [by destruct (Hne fd)|].
  exists ino. rewrite V. unfold fd_inode. simpl. rewrite lookup_insert_eq. by split_and!.
Qed.

Lemma close_file_ok fd d r d' :
  close_file fd d = (r, d') →
  (∀ path, named (dview d') path = named (dview d) path) ∧ ∀ j, contents (dview d') j = contents (dview d) j.
Proof. intros [_ [[-> _]|(path & _ & _ & _ & V)]]%close_file_cases; [done|]. by rewrite V. Qed.

(** The log's name is a plain one. *)
Lemma log_plain : plain_name LOG_FILE_NAME = true.
Proof. by vm_compute. Qed.

Lemma ensure_log_open_cases d r d' :
  ensure_log_open d = (r, d') →
  d' = d ∨ ∃ r1 d1, open_file LOG_FILE_NAME d = (r1, d1) ∧ (d' = d1 ∨ ∃ fd, d' = SetLogFd fd d1).
Proof.
  unfold ensure_log_open. unfold st_bind at 1, get_st.
  destruct (log_fd_ d =? -1); [|intros [= <- <-]; by left]. intros H. right.
  apply st_bind_inv in H as [(fd & s1 & E & H)|[(e & E & ->)|(c & E & ->)]]; [|by eauto..].
  unfold modify in H. injection H as <- <-. eexists _, s1. split; [done|]. right. by exists fd.
Qed.

Lemma ensure_log_open_tables d r d' : ensure_log_open d = (r, d') → tables_ok d → tables_ok d'.
Proof.
  intros [-> |(r1 & d1 & H & Hd)]%ensure_log_open_cases T; [done|]. apply (open_file_tables _ _ _ _ H) in T.
  destruct Hd as [-> |[fd ->]]; [done|by destruct T].
Qed.

Lemma ensure_log_open_inv d r d' : ensure_log_open d = (r, d') → disk_inv d → disk_inv d'.
Proof.
  intros [-> |(r1 & d1 & H & Hd)]%ensure_log_open_cases T; [done|].
  destruct (open_file_inv _ _ _ _ H log_plain T) as [T1 _].
  destruct Hd as [-> |[fd ->]]; [done|]. revert T1. by apply disk_inv_stable.
Qed.

(** Past the opening of the log, reading and writing it leave the tables alone. *)
Lemma WriteLog_stable bs size d r d' :
  WriteLog bs size d = (r, d') → ∃ r1 d1, ensure_log_open d = (r1, d1) ∧ stable d1 d'.
Proof.
  unfold WriteLog. intros H.
  apply st_bind_inv in H as [(u & d1 & H1 & H)|[(e & H1 & _)|(c & H1 & _)]]; [|by eauto using stable_refl..].
  eexists _, d1. split; [done|]. unfold st_bind at 1, gets in H. set (fd := log_fd_ d1) in *.
  destruct (sys (λ s, os_lseek s fd 0 SEEK_END) d1) as [r2 d2] eqn:H2.
  destruct (stable_lseek fd 0 SEEK_END d1 r2 d2 ltac:(done) H2) as [S2 [k2 ->]].
  rewrite (st_bind_ok _ _ _ _ _ H2) in H.
  destruct (sys (λ s, os_write s fd (take (Z.to_nat size) bs)) d2) as [r3 d3] eqn:H3.
  destruct (stable_write _ _ _ _ _ H3) as [S3 [k3 ->]].
  rewrite (st_bind_ok _ _ _ _ _ H3) in H.
  assert (d' = d3) as -> by (case_match; by injection H). by eapply stable_trans.
Qed.

Lemma ReadLog_stable size off prev d buf r d' buf' :
  ReadLog size off prev (d, buf) = (r, (d', buf')) → ∃ r1 d1, ensure_log_open d = (r1, d1) ∧ stable d1 d'.
Proof.
  unfold ReadLog. intros H.
  unfold st_bind at 1, on_disk at 1, zoom at 1 in H. simpl in H.
  destruct (ensure_log_open d) as [r1 d1] eqn:H1. exists r1, d1. split; [done|].
  destruct r1; [|injection H as <- <- <-; apply stable_refl..].
  unfold on_disk, zoom, gets, GetFileSize, st_bind in H. simpl in H.
  destruct (_ <=? _); [injection H as <- <- <-; apply stable_refl|].
  set (o := wrap32 (off + prev)) in *. cbn [fst snd] in H.
  set (fd := log_fd_ d1) in *. set (sz := size `min` _) in H.
  destruct (sys (λ s, os_lseek s fd o SEEK_SET) d1) as [r2 d2] eqn:H2.
  destruct (stable_lseek fd o SEEK_SET d1 r2 d2 ltac:(done) H2) as [S2 [k2 ->]].
  destruct (sys_read fd sz (d2, buf)) as [r3 [d3 buf3]] eqn:H3.
  destruct (stable_read _ _ _ _ _ _ _ H3) as [S3 [k3 ->]].
  assert (d' = d3) as -> by (case_match; by injection H). by eapply stable_trans.
Qed.

(** The calls a client can make, and the state each one leaves behind, whether
    it returns or throws. *)
Inductive disk_call : Type :=
  | DCreateFile (path : string)
  | DDestroyFile (path : string)
  | DOpenFile (path : string)
  | DCloseFile (fd : Z)
  | DGetFileFd (path : string)
  | DWritePage (fd page_no : Z) (buf : bytes) (num_bytes : Z)
  | DReadPage (fd page_no num_bytes : Z) (buf : bytes)
  | DAllocatePage (fd : Z)
  | DSetFd2PageNo (fd page_no : Z)
  | DSetLogFd (fd : Z)
  | DWriteLog (buf : bytes) (size : Z)
  | DReadLog (size offset prev_log_end : Z) (buf : bytes).

Definition disk_exec (c : disk_call) (d : D) : D :=
  match c with
  | DCreateFile path => (create_file path d).2
  | DDestroyFile path => (destroy_file path d).2
  | DOpenFile path => (open_file path d).2
  | DCloseFile fd => (close_file fd d).2
  | DGetFileFd path => (GetFileFd path d).2
  | DWritePage fd page_no buf n => (write_page fd page_no buf n d).2
  | DReadPage fd page_no n buf => (read_page fd page_no n (d, buf)).2.1
  | DAllocatePage fd => (AllocatePage fd d).2
  | DSetFd2PageNo fd n => (set_fd2pageno fd n d).2
  | DSetLogFd fd => SetLogFd fd d
  | DWriteLog buf size => (WriteLog buf size d).2
  | DReadLog size offset prev buf => (ReadLog size offset prev (d, buf)).2.1
  end.

(** The call opens files by plain names only. *)
Definition opens_plain (c : disk_call) : bool :=
  match c with
  | DOpenFile path | DGetFileFd path => plain_name path
  | _ => true
  end.

(** Calls other than those on files leave the tables as they are, once the log is open. *)
Lemma disk_exec_stable c d :
  match c with
  | DCreateFile _ | DDestroyFile _ | DOpenFile _ | DCloseFile _ | DGetFileFd _ => True
  | DWriteLog _ _ | DReadLog _ _ _ _ => ∃ r1 d1, ensure_log_open d = (r1, d1) ∧ stable d1 (disk_exec c d)
  | _ => stable d (disk_exec c d)
  end.
Proof.
  destruct c; simpl; try done.
  - destruct (write_page fd page_no buf num_bytes d) eqn:E. by eapply write_page_stable.
  - destruct (read_page fd page_no num_bytes (d, buf)) as [r [d' buf']] eqn:E. by eapply read_page_stable.
  - unfold AllocatePage, get_fd2pageno, set_fd2pageno, st_bind. destruct (_ && _); [by split|apply stable_refl].
  - unfold set_fd2pageno. destruct (_ && _); [by split|apply stable_refl].
  - destruct (WriteLog buf size d) eqn:E. by eapply WriteLog_stable.
  - destruct (ReadLog size offset prev_log_end (d, buf)) as [r [d' buf']] eqn:E. by eapply ReadLog_stable.
Qed.

Lemma disk_exec_tables c d : tables_ok d → tables_ok (disk_exec c d).
Proof.
  intros T. pose proof (disk_exec_stable c d) as S.
  destruct c; try (by eapply tables_ok_stable);
    try (destruct S as (r1 & d1 & H1 & S); by eapply tables_ok_stable, ensure_log_open_tables); simpl.
  - destruct (create_file path d) eqn:E. by eapply create_file_tables.
  - destruct (destroy_file path d) eqn:E. by eapply destroy_file_tables.
  - destruct (open_file path d) eqn:E. by eapply open_file_tables.
  - destruct (close_file fd d) eqn:E. by eapply close_file_tables.
  - unfold GetFileFd, st_bind, get_st. destruct (path2fd_ d !! path); [done|].
    destruct (open_file path d) eqn:E. by eapply open_file_tables.
Qed.

Lemma disk_exec_inv c d : opens_plain c = true → disk_inv d → disk_inv (disk_exec c d).
Proof.
  intros Hc T. pose proof (disk_exec_stable c d) as S.
  destruct c; try (by eapply disk_inv_stable);
    try (destruct S as (r1 & d1 & H1 & S); by eapply disk_inv_stable, ensure_log_open_inv); simpl in *.
  - destruct (create_file path d) eqn:E. by eapply create_file_inv.
  - destruct (destroy_file path d) eqn:E. by eapply destroy_file_inv.
  - destruct (open_file path d) eqn:E. by apply (open_file_inv _ _ _ _ E Hc T).
  - destruct (close_file fd d) eqn:E. by apply (close_file_inv _ _ _ _ E T).
  - unfold GetFileFd, st_bind, get_st. destruct (path2fd_ d !! path); [done|].
    destruct (open_file path d) eqn:E. by apply (open_file_inv _ _ _ _ E Hc T).
Qed.

Definition disk_run (calls : list disk_call) (d : D) : D := foldl (λ d c, disk_exec c d) d calls.

Lemma new_DiskManager_tables (s : OS) : tables_ok (new_DiskManager s).
Proof. split; simpl; intros; by rewrite ?lookup_empty in *. Qed.

Lemma new_DiskManager_inv (s : OS) : plain_dir (os_view s) → disk_inv (new_DiskManager s).
Proof.
  intros Hs. split; [apply new_DiskManager_tables|done|..]; simpl; intros *; rewrite ?lookup_empty; [done..|].
  by intros [].
Qed.

Lemma disk_run_inv calls d : forallb opens_plain calls = true → disk_inv d → disk_inv (disk_run calls d).
Proof.
  unfold disk_run. revert d. induction calls as [|c calls IH]; intros d Hc Hd; simpl in *; [done|].
  apply andb_prop in Hc as [? ?]. apply IH; [done|]. by apply disk_exec_inv.
Qed.

(** [C24] The open-file tables are right after every history: starting from a
    fresh [DiskManager] on any system, whatever calls are made and however they
    fail, [path2fd_] and [fd2path_] are inverse to each other and every
    descriptor they name is open.  If moreover the working directory has no links
    and only plain names (one component) are opened, as the database does, then
    the descriptors refer to distinct files; without that they need not
    ([aliased_descriptors]), because [open_file] compares spellings. *)
Theorem disk_tables_correct (s : OS) (calls : list disk_call) :
  let d := disk_run calls (new_DiskManager s) in
  ((∀ path fd, path2fd_ d !! path = Some fd ↔ fd2path_ d !! fd = Some path) ∧
   (∀ fd path, fd2path_ d !! fd = Some path → 0 ≤ fd ∧ is_Some (fd_inode (dview d) fd))) ∧
  (plain_dir (os_view s) → forallb opens_plain calls = true →
   ∀ fd1 fd2 ino, is_Some (fd2path_ d !! fd1) → is_Some (fd2path_ d !! fd2) →
     fd_inode (dview d) fd1 = Some ino → fd_inode (dview d) fd2 = Some ino → fd1 = fd2).
Proof.
  intros d. split.
  - assert (tables_ok d) as [I1 I2]; [|done]. unfold d, disk_run. generalize (new_DiskManager_tables s).
    generalize (new_DiskManager s) as d0. induction calls as [|c calls IH]; intros d0 Hd; simpl; [done|].
    apply IH. by apply disk_exec_tables.
  - intros Hs Hc. apply inv_distinct. by apply disk_run_inv, new_DiskManager_inv.
Qed.

(** [C25] A page that [write_page] reported written is what [read_page] then
    delivers, byte for byte, through the same descriptor, for page numbers below
    2^19 (whose offset fits in an [int]): [read_page] returns with those bytes, or
    throws [UnixError] because [read] failed or was short. *)
Theorem write_read_page_roundtrip (d d1 : D) (fd page_no : Z) (bs buf : bytes) :
  tables_ok d → is_Some (fd2path_ d !! fd) → 0 ≤ page_no < 2 ^ 19 →
  length bs = page_len → length buf = page_len →
  write_page fd page_no bs PAGE_SIZE d = (Ok tt, d1) →
  ∃ r d2 buf', read_page fd page_no PAGE_SIZE (d1, buf) = (r, (d2, buf')) ∧
    (r = Ok tt ∧ buf' = bs ∨ r = Throw (RedBase UnixError)).
Proof.
  intros HT [path Hfd] Hno Hbs Hbuf Hw. rewrite page_len_Z, <- Hbs in Hw |- *.
  destruct (tbl_open _ HT _ _ Hfd) as [_ [ino Hino]].
  destruct (write_read_bytes d d1 (MkPageId fd page_no) bs buf ino Hino Hno) as (r & d2 & buf' & Hr & _ & Hcase);
    [by intros ->|congruence|done|]. eauto.
Qed.

(** Writing page [p] never damages another page: whether [write_page]
    returns or throws half-way, every other whole page of every open file reads
    as before, when it can be read. *)
Theorem write_page_isolated (d d1 : D) (p q : PageId) (bs buf : bytes) (r : outcome exn unit) (x : bytes) :
  disk_inv d → fd_known d p → fd_known d q → q ≠ p → length bs = page_len → length buf = page_len →
  file_page page_len d q = Some x →
  write_page (pid_fd p) (pid_no p) bs PAGE_SIZE d = (r, d1) →
  ∃ r2 d2 buf', read_page (pid_fd q) (pid_no q) PAGE_SIZE (d1, buf) = (r2, (d2, buf')) ∧
    (r2 = Ok tt ∧ buf' = x ∨ r2 = Throw (RedBase UnixError)).
Proof.
  intros Hinv Hk Hkq Hne Hbs Hbuf Hx Hw.
  destruct (store_write_ok _ _ _ _ _ Hinv Hk Hbs Hw) as (Hinv1 & Ht & _ & Hq).
  apply (same_tables_known _ _ q) in Ht. apply Ht in Hkq as Hkq1.
  destruct (read_page (pid_fd q) (pid_no q) PAGE_SIZE (d1, buf)) as [r2 [d2 buf']] eqn:Hr.
  destruct (store_read_ok _ _ _ _ _ _ Hinv1 Hkq1 Hbuf Hr) as (_ & _ & _ & _ & Hm).
  rewrite (Hq q x Hne Hkq Hx) in Hm. exists r2, d2, buf'. split; [done|].
  destruct Hm as [[-> [= ->]]|Hm]; [by left|by right].
Qed.

(** ** The log *)

(** The log file is open on the file that bears its name. *)
Definition log_open (d : D) (ino : Z) : Prop :=
  log_fd_ d ≠ -1 ∧ fd_inode (dview d) (log_fd_ d) = Some ino ∧
  named (dview d) LOG_FILE_NAME = Some ino.

Definition log_contents (d : D) (ino : Z) : bytes := contents (dview d) ino.

Lemma ensure_log_open_noop d : log_fd_ d ≠ -1 → ensure_log_open d = (Ok tt, d).
Proof.
  intros H. unfold ensure_log_open, st_bind, get_st. by rewrite (proj2 (Z.eqb_neq _ _) H).
Qed.

Lemma WriteLog_effect d d' ino bs :
  log_open d ino → WriteLog bs (Z.of_nat (length bs)) d = (Ok tt, d') →
  log_open d' ino ∧ log_contents d' ino = log_contents d ino ++ bs.
Proof.
  intros (Hfd & Hino & Hname). unfold WriteLog.
  rewrite (st_bind_ok _ _ _ _ _ (ensure_log_open_noop d Hfd)).
  unfold st_bind at 1, gets. set (fd := log_fd_ d) in *.
  unfold fd_inode in Hino. apply fmap_Some in Hino as ([i pos] & Hp & Hi). simpl in Hi. subst i.
  destruct (sys_lseek_end fd d ino pos Hp) as (k & d1 & H1 & Ht1 & V1).
  rewrite (st_bind_ok _ _ _ _ _ H1). rewrite Nat2Z.id, firstn_all.
  destruct (touches_seek _ _ _ _ _ _ Hp Ht1 V1) as [T1 C1].
  destruct (sys (λ s, os_write s fd bs) d1) as [r2 d2] eqn:H2.
  assert (Hfd1 : v_fds (dview d1) !! fd = Some (ino, length (contents (dview d) ino))).
  { rewrite V1. simpl. apply lookup_insert_eq. }
  destruct (sys_write_spec _ _ _ _ _ _ _ Hfd1 H2) as [T2 HH].
  assert (T : touches ino d d2) by (by eapply touches_trans).
  destruct HH as [(m & -> & ? & ?)|(m & -> & Hm & C2)]; rewrite (st_bind_ok _ _ _ _ _ H2);
    case_match eqn:E; intros [= <-]; apply Z.eqb_eq in E; [lia|].
  apply Nat2Z.inj in E. subst m. rewrite firstn_all, C1, write_at_end in C2.
  split; [|done]. destruct (touches_tables _ _ _ T) as (_ & _ & El & _).
  unfold log_open, named. rewrite El, (touches_inodes _ _ _ T), (touches_entry _ _ _ T), (touches_names _ _ _ T).
  split; [done|]. split; [|done]. unfold fd_inode. fold fd. by rewrite Hp.
Qed.

Lemma ReadLog_effect d ino (size off : nat) buf :
  log_open d ino → length buf = size →
  Z.of_nat (length (log_contents d ino)) ≤ int_max →
  (0 < size)%nat → (off + size ≤ length (log_contents d ino))%nat →
  ∃ r d' buf', ReadLog (Z.of_nat size) (Z.of_nat off) 0 (d, buf) = (r, (d', buf')) ∧
    (r = Ok true ∧ buf' = slice off size (log_contents d ino) ∨ r = Throw (RedBase UnixError)).
Proof.
  intros (Hfd & Hino & Hname) Hbuf Hmax Hs Hle. unfold ReadLog, on_disk, zoom.
  unfold st_bind at 1. simpl. rewrite (ensure_log_open_noop d Hfd).
  unfold st_bind at 1, GetFileSize, gets. simpl.
  pose proof (os_stat_ok (dm_os d) LOG_FILE_NAME) as Hst. fold (dview d) in Hst.
  inversion Hst as [j Hn E | j Hn ? E | Hn ? E]; [|congruence|congruence].
  assert (j = ino) as -> by congruence. clear Hst E Hn.
  fold (log_contents d ino).
  assert (Hoff : wrap32 (Z.of_nat off + 0) = Z.of_nat off).
  { rewrite Z.add_0_r. apply wrap32_id. unfold is_int, int_min, int_max in *. lia. }
  rewrite Hoff. rewrite wrap32_id by (unfold is_int, int_min, int_max in *; lia).
  rewrite (proj2 (Z.leb_gt _ _)) by lia.
  rewrite wrap32_id by (unfold is_int, int_min, int_max in *; lia).
  rewrite Z.min_l by lia.
  unfold st_bind at 1. simpl. set (fd := log_fd_ d) in *.
  unfold fd_inode in Hino. apply fmap_Some in Hino as ([i pos] & Hp & Hi). simpl in Hi. subst i.
  destruct (sys_lseek_set fd (Z.of_nat off) d ino pos Hp ltac:(lia)) as (d1 & H1 & Ht1 & V1).
  unfold st_bind at 1. cbn [fst snd]. rewrite H1. rewrite Nat2Z.id in V1.
  unfold st_bind, sys_read. rewrite Nat2Z.id.
  destruct (os_read (dm_os d1) fd size) as [[k got] s2] eqn:H2.
  apply os_read_ok in H2. fold (dview d1) in H2.
  destruct (touches_seek _ _ _ _ _ _ Hp Ht1 V1) as [T1 C1].
  inversion H2 as [k' Hk Hr Hg Hv | i p m Hi Hm gt Hr Hg Hv].
  { destruct (Z.eqb_spec k (Z.of_nat size)); [lia|]. eexists _, _, _. split; [done|by right]. }
  rewrite V1 in Hi. simpl in Hi. rewrite lookup_insert_eq in Hi. injection Hi as <- <-.
  assert (Hgt : gt = slice off m (log_contents d ino)) by (unfold gt; by rewrite C1).
  assert (Hlen : length gt = m) by (rewrite Hgt; apply length_slice; lia).
  rewrite Hlen. destruct (Z.eqb_spec (Z.of_nat m) (Z.of_nat size)) as [Em|Em];
    eexists _, _, _; (split; [done|]); [left|by right].
  apply Nat2Z.inj in Em. split; [done|]. unfold splice. simpl. rewrite drop_ge by lia. by rewrite app_nil_r, Hgt, Em.
Qed.

(** [C26] The log is append-only and readable: once [WriteLog] has returned,
    the log file is its old contents followed by the record, and [ReadLog] from
    the old end delivers exactly that record, or throws because [read] failed. *)
Theorem WriteLog_ReadLog_roundtrip (d d1 : D) (ino : Z) (bs buf : bytes) :
  log_open d ino → bs ≠ [] → length buf = length bs →
  Z.of_nat (length (log_contents d ino) + length bs) ≤ int_max →
  WriteLog bs (Z.of_nat (length bs)) d = (Ok tt, d1) →
  log_contents d1 ino = log_contents d ino ++ bs ∧
  ∃ r d2 buf', ReadLog (Z.of_nat (length bs)) (Z.of_nat (length (log_contents d ino))) 0 (d1, buf)
      = (r, (d2, buf')) ∧ (r = Ok true ∧ buf' = bs ∨ r = Throw (RedBase UnixError)).
Proof.
  intros Hlog Hne Hbuf Hmax Hw.
  destruct (WriteLog_effect _ _ _ _ Hlog Hw) as [Hlog1 Hc]. split; [done|].
  assert (0 < length bs)%nat by (destruct bs; simpl; [done|lia]).
  destruct (ReadLog_effect d1 ino (length bs) (length (log_contents d ino)) buf) as (r & d2 & buf' & Hr & Hcase);
    rewrite ?Hc, ?length_app; try done; try lia.
  exists r, d2, buf'. split; [done|]. destruct Hcase as [[-> ->]|?]; [left|by right].
  rewrite Hc. unfold slice. by rewrite drop_app_length, firstn_all.
Qed.

End Disk.

(** ** The theorems at work

    A database directory in the in-memory file system: two files are created
    and opened, which gives descriptors 3 and 4. *)
Module DiskWitness.

#[local] Existing Instance MemFS.mem_posix.

Definition setup : list disk_call :=
  [DCreateFile "t"; DOpenFile "t"; DCreateFile LOG_FILE_NAME; DOpenFile LOG_FILE_NAME; DSetLogFd 4].
Definition disk0 : DiskManager fs_view := disk_run setup (new_DiskManager MemFS.empty_fs).
Definition page7 : bytes := replicate page_len 7.
Definition page9 : bytes := replicate page_len 9.
Definition disk1 : DiskManager fs_view := (write_page 3 0 page7 PAGE_SIZE disk0).2.

Lemma disk0_inv : disk_inv disk0.
Proof. apply disk_run_inv; [by vm_compute|]. apply new_DiskManager_inv, MemFS.empty_plain. Qed.

Lemma disk1_inv : disk_inv disk1.
Proof. exact (disk_exec_inv (DWritePage 3 0 page7 PAGE_SIZE) disk0 eq_refl disk0_inv). Qed.

Lemma disk_tables_correct_witness :
  path2fd_ disk0 !! "t" = Some 3 ∧ fd2path_ disk0 !! 3 = Some "t" ∧ is_Some (fd_inode (dview disk0) 3) ∧
  fd_inode (dview disk0) 3 ≠ fd_inode (dview disk0) 4.
Proof.
  destruct (disk_tables_correct MemFS.empty_fs setup) as [[H1 H2] H3]. fold disk0 in H1, H2, H3.
  assert (fd2path_ disk0 !! 3 = Some "t") as E by (by vm_compute). split_and!; [by apply H1|done|by eapply H2|].
  intros Heq. destruct (H2 3 "t" E) as [_ [ino Hino]].
  by specialize (H3 MemFS.empty_plain eq_refl 3 4 ino (mk_is_Some _ _ E) (mk_is_Some _ LOG_FILE_NAME eq_refl) Hino
    (eq_trans (eq_sym Heq) Hino)).
Defined.

(** With two spellings of one path, [open_file] hands out two descriptors of one file. *)
Lemma aliased_descriptors :
  let d := disk_run [DCreateFile "t"; DOpenFile "t"; DOpenFile "./t"] (new_DiskManager MemFS.dotted_fs) in
  fd2path_ d !! 3 = Some "t" ∧ fd2path_ d !! 4 = Some "./t" ∧
  fd_inode (dview d) 3 = fd_inode (dview d) 4 ∧ is_Some (fd_inode (dview d) 3).
Proof. vm_compute. split_and!; try reflexivity. by eexists. Qed.

Lemma write_read_page_roundtrip_witness :
  ∃ d2, read_page 3 0 PAGE_SIZE (disk1, zeros page_len) = (Ok tt, (d2, page7)).
Proof.
  destruct (write_read_page_roundtrip disk0 disk1 3 0 page7 (zeros page_len) (inv_ok _ disk0_inv))
    as (r & d2 & buf' & H & [[-> ->]| ->]); [by eexists|lia|by vm_compute..|by exists d2|by vm_compute in H].
Defined.

Lemma write_page_isolated_witness :
  ∃ d2, read_page 3 0 PAGE_SIZE ((write_page 3 1 page9 PAGE_SIZE disk1).2, zeros page_len)
        = (Ok tt, (d2, page7)).
Proof.
  destruct (write_page_isolated disk1 (write_page 3 1 page9 PAGE_SIZE disk1).2 (MkPageId 3 1) (MkPageId 3 0) page9
    (zeros page_len) (Ok tt) page7 disk1_inv) as (r & d2 & buf' & H & [[-> ->]| ->]);
    [split; [by eexists | done] | split; [by eexists | done] | done | by vm_compute ..| by exists d2 | by vm_compute in H].
Defined.

Definition log_ino : Z := default 0 (named (dview disk0) LOG_FILE_NAME).

Lemma WriteLog_ReadLog_roundtrip_witness :
  let d1 := (WriteLog [1; 2; 3] 3 disk0).2 in
  log_contents d1 log_ino = log_contents disk0 log_ino ++ [1; 2; 3] ∧
  ∃ d2, ReadLog 3 (Z.of_nat (length (log_contents disk0 log_ino))) 0 (d1, [0; 0; 0])
        = (Ok true, (d2, [1; 2; 3])).
Proof.
  intros d1.
  destruct (WriteLog_ReadLog_roundtrip disk0 d1 log_ino [1; 2; 3] [0; 0; 0]) as [H1 (r & d2 & buf' & H & Hcase)];
    [by vm_compute..|]. split; [done|]. destruct Hcase as [[-> ->]| ->]; [by exists d2|by vm_compute in H].
Defined.

End DiskWitness.
