(* ===== verification/Replacer.v ===== *)
(** Page replacement: [replacer/replacer.h], [replacer/lru_replacer.*] and
    [replacer/clock_replacer.*].

    [Replacer] is the abstract class with what its comments promise, observed
    through the set of frames that can be victimised; the buffer pool is proved
    against it.  [LRUReplacer] keeps the C++ representation: a linked list whose
    nodes have an identity (an iterator is a node), and a hash table from frames
    to iterators.  It implements the interface, no iterator ever dangles, and it
    refines the policy it is named after.  [ClockReplacer] is the unfinished
    class as it stands.  Every method takes the object's mutex for its whole
    body, so a method is one step. *)
From S2P Require Import Prelude Config.

Class Replacer (R : Type) := {
  rp_inv : R → Prop;
  evictable : R → gset Z;
  rp_new : Z → R;
  rp_Victim : M R (option Z);
  rp_Pin : Z → M R unit;
  rp_Unpin : Z → M R unit;
  rp_Size : M R Z;
  rp_new_ok n : rp_inv (rp_new n) ∧ evictable (rp_new n) = ∅;
  rp_Victim_ok r :
    rp_inv r →
    (rp_Victim r = (Ok None, r) ∧ evictable r = ∅) ∨
    (∃ f r', rp_Victim r = (Ok (Some f), r') ∧ rp_inv r' ∧
             f ∈ evictable r ∧ evictable r' = evictable r ∖ {[f]});
  rp_Pin_ok r f :
    rp_inv r → ∃ r', rp_Pin f r = (Ok tt, r') ∧ rp_inv r' ∧ evictable r' = evictable r ∖ {[f]};
  rp_Unpin_ok r f :
    rp_inv r → ∃ r', rp_Unpin f r = (Ok tt, r') ∧ rp_inv r' ∧ evictable r' = evictable r ∪ {[f]};
  rp_Size_ok r : rp_inv r → rp_Size r = (Ok (Z.of_nat (size (evictable r))), r)
}.

(** ** LRUReplacer *)

Record LRUReplacer : Type := MkLRU {
  LRUlist_ : list (nat * Z);      (* nodes, front first: identity and frame id *)
  LRUhash_ : gmap Z nat;          (* frame id -> node *)
  max_size_ : Z;
  next_node : nat                 (* identities the allocator has handed out *)
}.

Definition new_LRUReplacer (num_pages : Z) : LRUReplacer := MkLRU [] ∅ num_pages 0.

(** [std::list::erase(it)]; an iterator that names no node is not defined. *)
Fixpoint list_erase (it : nat) (l : list (nat * Z)) : option (list (nat * Z)) :=
  match l with
  | [] => None
  | x :: l' => if decide (x.1 = it) then Some l' else cons x <$> list_erase it l'
  end.

Definition Victim : M LRUReplacer (option Z) :=
  r ← get_st;
  match last (LRUlist_ r) with
  | None => ret None
  | Some (_, frame_id) =>
      put_st (MkLRU (removelast (LRUlist_ r)) (delete frame_id (LRUhash_ r)) (max_size_ r) (next_node r)) ;;
      ret (Some frame_id)
  end.

Definition Pin (frame_id : Z) : M LRUReplacer unit :=
  r ← get_st;
  match LRUhash_ r !! frame_id with
  | Some it =>
      match list_erase it (LRUlist_ r) with
      | Some l => put_st (MkLRU l (delete frame_id (LRUhash_ r)) (max_size_ r) (next_node r))
      | None => crash_with OutOfBounds
      end
  | None => ret tt
  end.

Definition Unpin (frame_id : Z) : M LRUReplacer unit :=
  r ← get_st;
  match LRUhash_ r !! frame_id with
  | None =>
      let node := next_node r in
      put_st (MkLRU ((node, frame_id) :: LRUlist_ r) (<[frame_id := node]> (LRUhash_ r))
                (max_size_ r) (S node))
  | Some _ => ret tt
  end.

Definition Size : M LRUReplacer Z := gets (λ r, Z.of_nat (length (LRUlist_ r))).

Definition lru_frames (r : LRUReplacer) : list Z := (LRUlist_ r).*2.

(** The hash table holds exactly the list's nodes, and no two nodes share a
    frame or an identity. *)
Record lru_inv (r : LRUReplacer) : Prop := {
  lru_nodup : NoDup (lru_frames r);
  lru_hash f it : LRUhash_ r !! f = Some it ↔ (it, f) ∈ LRUlist_ r;
  lru_fresh it f : (it, f) ∈ LRUlist_ r → (it < next_node r)%nat;
  lru_nodes : NoDup (LRUlist_ r).*1
}.

Lemma lru_frames_hash r f : lru_inv r → f ∈ lru_frames r ↔ is_Some (LRUhash_ r !! f).
Proof.
  intros H. unfold lru_frames. rewrite list_elem_of_fmap. split.
  - intros ([it g] & -> & Hin). exists it. by apply H.
  - intros [it Hit]. exists (it, f). split; [done|]. by apply H.
Qed.

Lemma list_erase_split l it f :
  (it, f) ∈ l → NoDup l.*1 → ∃ l1 l2, l = l1 ++ (it, f) :: l2 ∧ list_erase it l = Some (l1 ++ l2).
Proof.
  intros (l1 & l2 & ->)%list_elem_of_split Hnd. exists l1, l2. split; [done|].
  induction l1 as [|[i g] l1 IH]; simpl; [by rewrite decide_True|].
  rewrite fmap_app, fmap_cons in Hnd. simpl in Hnd. apply NoDup_cons in Hnd as [Hi Hnd].
  rewrite decide_False.
  - rewrite IH; [done|]. by rewrite fmap_app, fmap_cons.
  - simpl. intros ->. apply Hi. set_solver.
Qed.

(** Removing a node, wherever it is, keeps the representation consistent. *)
Lemma lru_inv_remove l1 l2 it f h n k :
  lru_inv (MkLRU (l1 ++ (it, f) :: l2) h n k) → lru_inv (MkLRU (l1 ++ l2) (delete f h) n k).
Proof.
  intros [Hnd Hh Hf Hn]. unfold lru_frames in *. simpl in *.
  rewrite !fmap_app, !fmap_cons in Hnd. rewrite !fmap_app, !fmap_cons in Hn. simpl in *.
  apply NoDup_app in Hnd as (N1 & N12 & [Nf N2]%NoDup_cons).
  apply NoDup_app in Hn as (M1 & M12 & [Mf M2]%NoDup_cons).
  split; unfold lru_frames; simpl.
  - rewrite fmap_app, NoDup_app. split_and!; [done| |done]. intros x Hx. specialize (N12 x Hx). set_solver.
  - intros g j. rewrite lookup_delete_Some, Hh, !elem_of_app, elem_of_cons.
    split; [intros [? [?|[[=]|?]]]; naive_solver|].
    intros Hin. split; [|naive_solver].
    intros ->. destruct Hin as [Hin|Hin].
    + apply (N12 g); [|by left]. apply list_elem_of_fmap. by exists (j, g).
    + apply Nf. apply list_elem_of_fmap. by exists (j, g).
  - intros j g Hin. apply (Hf j g). set_solver.
  - rewrite fmap_app, NoDup_app. split_and!; [done| |done]. intros x Hx. specialize (M12 x Hx). set_solver.
Qed.

Lemma last_snoc_inv {A} (l : list A) x : last l = Some x → l = removelast l ++ [x].
Proof.
  intros H. apply last_Some in H as [l' ->]. by rewrite removelast_last.
Qed.

(** ** The methods, branch by branch *)

Lemma Victim_empty r : LRUlist_ r = [] → Victim r = (Ok None, r).
Proof. intros H. unfold Victim, st_bind, get_st. by rewrite H. Qed.

Lemma Victim_back r l it f :
  LRUlist_ r = l ++ [(it, f)] →
  Victim r = (Ok (Some f), MkLRU l (delete f (LRUhash_ r)) (max_size_ r) (next_node r)).
Proof.
  intros H. unfold Victim, st_bind, get_st. rewrite H, last_snoc, removelast_last. done.
Qed.

Lemma Pin_present r f :
  lru_inv r → f ∈ lru_frames r →
  ∃ it l1 l2, LRUlist_ r = l1 ++ (it, f) :: l2 ∧
    Pin f r = (Ok tt, MkLRU (l1 ++ l2) (delete f (LRUhash_ r)) (max_size_ r) (next_node r)).
Proof.
  intros H [it Hit]%lru_frames_hash; [|done]. pose proof (proj1 (lru_hash _ H _ _) Hit) as Hin.
  destruct (list_erase_split _ _ _ Hin (lru_nodes _ H)) as (l1 & l2 & El & Ee).
  exists it, l1, l2. split; [done|]. unfold Pin, st_bind, get_st. by rewrite Hit, Ee.
Qed.

Lemma Pin_absent r f : lru_inv r → f ∉ lru_frames r → Pin f r = (Ok tt, r).
Proof.
  intros H Hf. rewrite lru_frames_hash in Hf by done. unfold Pin, st_bind, get_st.
  by rewrite (proj2 (eq_None_not_Some _) Hf).
Qed.

Lemma Unpin_absent r f :
  lru_inv r → f ∉ lru_frames r →
  Unpin f r = (Ok tt, MkLRU ((next_node r, f) :: LRUlist_ r) (<[f := next_node r]> (LRUhash_ r))
                        (max_size_ r) (S (next_node r))).
Proof.
  intros H Hf. rewrite lru_frames_hash in Hf by done. unfold Unpin, st_bind, get_st.
  by rewrite (proj2 (eq_None_not_Some _) Hf).
Qed.

Lemma Unpin_present r f : lru_inv r → f ∈ lru_frames r → Unpin f r = (Ok tt, r).
Proof.
  intros H [it Hit]%lru_frames_hash; [|done]. unfold Unpin, st_bind, get_st. by rewrite Hit.
Qed.

Lemma lru_inv_push r f :
  lru_inv r → f ∉ lru_frames r →
  lru_inv (MkLRU ((next_node r, f) :: LRUlist_ r) (<[f := next_node r]> (LRUhash_ r))
             (max_size_ r) (S (next_node r))).
Proof.
  intros H Hf. pose proof H as [Hnd Hh Hfr Hn]. split; simpl.
  - unfold lru_frames. simpl. by apply NoDup_cons.
  - intros g j. rewrite lookup_insert_Some, elem_of_cons, Hh. split.
    + intros [[-> ->]|[? ?]]; auto.
    + intros [[= -> ->]|Hin]; [auto|]. right. split; [|done].
      intros <-. apply Hf. apply list_elem_of_fmap. by exists (j, f).
  - intros j g [[= -> ->]|Hin%Hfr]%elem_of_cons; lia.
  - apply NoDup_cons. split; [|done]. intros ([j g] & Hj & Hin)%list_elem_of_fmap.
    simpl in Hj. subst j. apply Hfr in Hin. lia.
Qed.

Lemma lru_inv_new n : lru_inv (new_LRUReplacer n).
Proof. split; unfold lru_frames; simpl; [constructor|set_solver|set_solver|constructor]. Qed.

(** ** The interface *)

Definition lru_evictable (r : LRUReplacer) : gset Z := list_to_set (lru_frames r).

Lemma NoDup_remove_mid {A} (l1 l2 : list A) x :
  NoDup (l1 ++ x :: l2) → NoDup (l1 ++ l2) ∧ x ∉ l1 ++ l2.
Proof.
  rewrite <- Permutation_middle. intros [? ?]%NoDup_cons. done.
Qed.

Lemma lru_evictable_remove l1 l2 it f h n k h' :
  lru_inv (MkLRU (l1 ++ (it, f) :: l2) h n k) →
  lru_evictable (MkLRU (l1 ++ l2) h' n k) = lru_evictable (MkLRU (l1 ++ (it, f) :: l2) h n k) ∖ {[f]}.
Proof.
  intros [Hnd _ _ _]. unfold lru_evictable, lru_frames in *. simpl in *.
  rewrite !fmap_app, !fmap_cons in *. simpl in *.
  apply NoDup_remove_mid in Hnd as [_ Hf].
  rewrite <- (Permutation_middle (l1.*2) (l2.*2) f). set_solver.
Qed.

#[export] Instance lru_replacer : Replacer LRUReplacer.
Proof.
  refine {| rp_inv := lru_inv; evictable := lru_evictable; rp_new := new_LRUReplacer;
            rp_Victim := Victim; rp_Pin := Pin; rp_Unpin := Unpin; rp_Size := Size |}.
  - intros n. split; [apply lru_inv_new|done].
  - intros r H. destruct (LRUlist_ r) as [|x l _] eqn:El using rev_ind.
    { left. split; [by apply Victim_empty|]. unfold lru_evictable, lru_frames. by rewrite El. }
    right. destruct x as [it f], r as [l0 h n k]. simpl in El. subst l0.
    eexists f, _. split; [by eapply Victim_back|]. simpl. rewrite <- (app_nil_r l) at 1.
    split; [by eapply lru_inv_remove|]. split.
    + unfold lru_evictable, lru_frames. simpl. rewrite fmap_app. set_solver.
    + rewrite <- (app_nil_r l) at 1. by apply lru_evictable_remove.
  - intros r f H. destruct (decide (f ∈ lru_frames r)) as [Hf|Hf].
    + destruct (Pin_present r f H Hf) as (it & l1 & l2 & El & Hp).
      destruct r as [l0 h n k]. simpl in *. subst l0. rewrite Hp.
      eexists. split; [done|]. split; [by eapply lru_inv_remove|by apply lru_evictable_remove].
    + exists r. split; [by apply Pin_absent|]. split; [done|]. unfold lru_evictable. set_solver.
  - intros r f H. destruct (decide (f ∈ lru_frames r)) as [Hf|Hf].
    + exists r. split; [by apply Unpin_present|]. split; [done|]. unfold lru_evictable. set_solver.
    + eexists. split; [by apply Unpin_absent|]. split; [by apply lru_inv_push|].
      unfold lru_evictable, lru_frames. simpl. set_solver.
  - intros r H. unfold Size, gets. do 2 f_equal. f_equal. unfold lru_evictable.
    rewrite size_list_to_set by apply H. unfold lru_frames. by rewrite length_fmap.
Defined.

(** ** The policy

    The specification of "least recently used" knows nothing of lists: it
    remembers at which moment each unpinned frame became evictable, and the
    victim is a frame with the oldest moment. *)

Inductive rep_op : Set := OpVictim | OpPin (f : Z) | OpUnpin (f : Z) | OpSize.
Inductive rep_out : Set := OutVictim (f : option Z) | OutUnit | OutSize (n : Z).

Record policy : Type := MkPolicy { clock : nat; since : gmap Z nat }.

Inductive policy_step (p : policy) : rep_op → rep_out → policy → Prop :=
  | policy_none : since p = ∅ → policy_step p OpVictim (OutVictim None) p
  | policy_victim f t :
      since p !! f = Some t → (∀ g u, since p !! g = Some u → (t ≤ u)%nat) →
      policy_step p OpVictim (OutVictim (Some f)) (MkPolicy (clock p) (delete f (since p)))
  | policy_pin f : policy_step p (OpPin f) OutUnit (MkPolicy (clock p) (delete f (since p)))
  | policy_unpin_again f t : since p !! f = Some t → policy_step p (OpUnpin f) OutUnit p
  | policy_unpin f :
      since p !! f = None →
      policy_step p (OpUnpin f) OutUnit (MkPolicy (S (clock p)) (<[f := clock p]> (since p)))
  | policy_size : policy_step p OpSize (OutSize (Z.of_nat (size (since p)))) p.

Inductive policy_run : policy → list rep_op → list rep_out → policy → Prop :=
  | policy_run_nil p : policy_run p [] [] p
  | policy_run_cons p op out p1 ops outs p2 :
      policy_step p op out p1 → policy_run p1 ops outs p2 →
      policy_run p (op :: ops) (out :: outs) p2.

Definition lru_exec (op : rep_op) : M LRUReplacer rep_out :=
  match op with
  | OpVictim => f ← Victim; ret (OutVictim f)
  | OpPin f => Pin f ;; ret OutUnit
  | OpUnpin f => Unpin f ;; ret OutUnit
  | OpSize => n ← Size; ret (OutSize n)
  end.

Fixpoint lru_run (ops : list rep_op) : M LRUReplacer (list rep_out) :=
  match ops with
  | [] => ret []
  | op :: ops' => out ← lru_exec op; outs ← lru_run ops'; ret (out :: outs)
  end.

(** The list, front to back, is the unpinned frames from the youngest moment
    to the oldest. *)
Record policy_rel (r : LRUReplacer) (p : policy) : Prop := {
  pr_inv : lru_inv r;
  pr_dom f : f ∈ lru_frames r ↔ is_Some (since p !! f);
  pr_past f t : since p !! f = Some t → (t < clock p)%nat;
  pr_order : StronglySorted
    (λ f g, ∀ t u, since p !! f = Some t → since p !! g = Some u → (u < t)%nat) (lru_frames r)
}.

Lemma StronglySorted_app_remove {A} (R : A → A → Prop) l1 x l2 :
  StronglySorted R (l1 ++ x :: l2) → StronglySorted R (l1 ++ l2).
Proof.
  induction l1 as [|y l1 IH]; simpl; inversion 1 as [|? ? Hs Hf]; subst; [done|].
  constructor; [by apply IH|].
  rewrite Forall_app in *. destruct Hf as [? [? ?]%Forall_cons]. done.
Qed.

Lemma StronglySorted_impl {A} (R R' : A → A → Prop) l :
  (∀ x y, x ∈ l → y ∈ l → R x y → R' x y) → StronglySorted R l → StronglySorted R' l.
Proof.
  intros HR Hs. induction Hs as [|x l Hs IH Hf]; constructor.
  - apply IH. intros ????. apply HR; by apply elem_of_cons; right.
  - rewrite Forall_forall in *. intros y Hy. apply HR; [by left|by right|]. by apply Hf.
Qed.

Lemma policy_rel_remove l1 l2 it f h n k p :
  policy_rel (MkLRU (l1 ++ (it, f) :: l2) h n k) p →
  policy_rel (MkLRU (l1 ++ l2) (delete f h) n k) (MkPolicy (clock p) (delete f (since p))).
Proof.
  intros [Hi Hd Hp Ho]. pose proof (lru_inv_remove _ _ _ _ _ _ _ Hi) as Hi'.
  pose proof (lru_nodup _ Hi) as Hnd. unfold lru_frames in *. simpl in *.
  rewrite fmap_app, fmap_cons in *. simpl in *. apply NoDup_remove_mid in Hnd as [_ Hf].
  split; unfold lru_frames; simpl; rewrite ?fmap_app.
  - done.
  - intros g. rewrite lookup_delete. case_decide as Hfg.
    + subst g. split; [by intros ?|by intros []].
    + rewrite <- Hd, !elem_of_app, elem_of_cons. naive_solver.
  - intros g t. rewrite lookup_delete. case_decide; [done|]. eauto.
  - apply StronglySorted_app_remove in Ho. eapply StronglySorted_impl; [|done].
    intros x y Hx Hy HR t u. rewrite !lookup_delete. repeat case_decide; try done. apply HR.
Qed.

Lemma policy_rel_push r f p :
  policy_rel r p → f ∉ lru_frames r →
  policy_rel (MkLRU ((next_node r, f) :: LRUlist_ r) (<[f := next_node r]> (LRUhash_ r))
                (max_size_ r) (S (next_node r)))
             (MkPolicy (S (clock p)) (<[f := clock p]> (since p))).
Proof.
  intros [Hi Hd Hp Ho] Hf. split; [by apply lru_inv_push| | |]; unfold lru_frames in *; simpl.
  - intros g. rewrite elem_of_cons, Hd, lookup_insert. case_decide; subst; naive_solver.
  - intros g t. rewrite lookup_insert. case_decide; [intros [= <-]; lia|].
    intros Ht%Hp. lia.
  - constructor.
    + eapply StronglySorted_impl; [|done]. intros x y Hx Hy HR t u.
      rewrite !lookup_insert. repeat case_decide; subst; try done. apply HR.
    + apply Forall_forall. intros g Hg t u. rewrite !lookup_insert.
      repeat case_decide; subst; try done. intros [= <-] Hu%Hp. done.
Qed.

(** The back of the list is the oldest frame. *)
Lemma policy_rel_back l it f h n k p :
  policy_rel (MkLRU (l ++ [(it, f)]) h n k) p →
  ∃ t, since p !! f = Some t ∧ ∀ g u, since p !! g = Some u → (t ≤ u)%nat.
Proof.
  intros [Hi Hd Hp Ho]. unfold lru_frames in *. simpl in *. rewrite fmap_app in *. simpl in *.
  destruct (proj1 (Hd f)) as [t Ht]; [set_solver|]. exists t. split; [done|].
  intros g u Hu. assert (Hg : g ∈ l.*2 ++ [f]) by (apply Hd; eauto).
  apply elem_of_app in Hg as [Hg|Hg%list_elem_of_singleton]; [|subst; simplify_eq; lia].
  apply list_elem_of_split in Hg as (a & b & E). rewrite E in Ho.
  clear -Ho Ht Hu. induction a as [|y a IH]; simpl in *; inversion Ho as [|? ? Hs Hf]; subst.
  - rewrite Forall_app, Forall_singleton in Hf. destruct Hf as [_ Hf]. specialize (Hf _ _ Hu Ht). lia.
  - by apply IH.
Qed.

Lemma policy_rel_size r p : policy_rel r p → length (LRUlist_ r) = size (since p).
Proof.
  intros [Hi Hd _ _]. transitivity (size (lru_evictable r)).
  - unfold lru_evictable. rewrite size_list_to_set by apply Hi.
    unfold lru_frames. by rewrite length_fmap.
  - rewrite <- size_dom. f_equal. unfold lru_evictable. apply set_eq. intros f.
    by rewrite elem_of_list_to_set, Hd, elem_of_dom.
Qed.

Lemma lru_exec_simulates op r p :
  policy_rel r p →
  ∃ out r' p', lru_exec op r = (Ok out, r') ∧ policy_step p op out p' ∧ policy_rel r' p'.
Proof.
  intros Hrel. pose proof (pr_inv _ _ Hrel) as Hi.
  destruct op as [|f|f|]; unfold lru_exec.
  - destruct (LRUlist_ r) as [|[it f] l _] eqn:El using rev_ind.
    + rewrite (st_bind_ok _ _ _ _ _ (Victim_empty r El)). eexists _, r, p. split; [done|].
      split; [|done]. apply policy_none, map_empty. intros f.
      apply eq_None_not_Some. rewrite <- (pr_dom _ _ Hrel). unfold lru_frames. rewrite El. set_solver.
    + rewrite (st_bind_ok _ _ _ _ _ (Victim_back r _ _ _ El)).
      destruct r as [l0 h n k]. simpl in El. subst l0.
      destruct (policy_rel_back _ _ _ _ _ _ _ Hrel) as (t & Ht & Hmin).
      eexists _, _, _. split; [done|]. split; [by eapply policy_victim|].
      simpl. rewrite <- (app_nil_r l). by eapply policy_rel_remove.
  - destruct (decide (f ∈ lru_frames r)) as [Hf|Hf].
    + destruct (Pin_present r f Hi Hf) as (it & l1 & l2 & El & Hp).
      rewrite (st_bind_ok _ _ _ _ _ Hp). destruct r as [l0 h n k]. simpl in El. subst l0.
      eexists _, _, _. split; [done|]. split; [apply policy_pin|]. by eapply policy_rel_remove.
    + rewrite (st_bind_ok _ _ _ _ _ (Pin_absent r f Hi Hf)).
      eexists _, r, _. split; [done|]. split; [apply policy_pin|].
      rewrite delete_id; [by destruct p|]. apply eq_None_not_Some. by rewrite <- (pr_dom _ _ Hrel).
  - destruct (decide (f ∈ lru_frames r)) as [Hf|Hf].
    + rewrite (st_bind_ok _ _ _ _ _ (Unpin_present r f Hi Hf)).
      apply (pr_dom _ _ Hrel) in Hf as [t Ht].
      eexists _, r, p. split; [done|]. split; [by eapply policy_unpin_again|done].
    + rewrite (st_bind_ok _ _ _ _ _ (Unpin_absent r f Hi Hf)).
      eexists _, _, _. split; [done|]. split; [apply policy_unpin|by apply policy_rel_push].
      apply eq_None_not_Some. by rewrite <- (pr_dom _ _ Hrel).
  - eexists _, r, p. split; [done|]. split; [|done].
    rewrite (policy_rel_size _ _ Hrel). apply policy_size.
Qed.

(** [C20] [LRUReplacer] is a least-recently-used replacer: from its constructor,
    every sequence of [Victim], [Pin], [Unpin] and [Size] calls returns (no
    iterator dangles), and its answers are answers of the policy in which the
    victim is always a frame that has been evictable the longest. *)
Theorem lru_refines_policy (num_pages : Z) (ops : list rep_op) :
  ∃ outs r' p', lru_run ops (new_LRUReplacer num_pages) = (Ok outs, r') ∧
                policy_run (MkPolicy 0 ∅) ops outs p'.
Proof.
  assert (policy_rel (new_LRUReplacer num_pages) (MkPolicy 0 ∅)) as Hrel.
  { split; [apply lru_inv_new| |done|constructor].
    intros f. split; [by intros ?%not_elem_of_nil|by intros []]. }
  revert Hrel. generalize (new_LRUReplacer num_pages) as r, (MkPolicy 0 ∅) as p.
  induction ops as [|op ops IH]; intros r p Hrel; simpl; [by eexists _, r, p; split; [|constructor]|].
  destruct (lru_exec_simulates op r p Hrel) as (out & r1 & p1 & He & Hs & Hrel1).
  destruct (IH r1 p1 Hrel1) as (outs & r2 & p2 & He2 & Hs2).
  rewrite (st_bind_ok _ _ _ _ _ He), (st_bind_ok _ _ _ _ _ He2).
  eexists _, _, _. split; [done|]. by econstructor.
Qed.

(** ** ClockReplacer

    The class is declared with its circular buffer and hand, but its methods
    are placeholders. *)
Module Clock.

Inductive Status : Set := UNTOUCHED | ACCESSED | EMPTY_OR_PINNED.

Record ClockReplacer : Type := MkClock {
  circular_ : list Status;
  hand_ : Z;
  capacity_ : Z
}.

Definition new_ClockReplacer (num_pages : Z) : ClockReplacer :=
  MkClock (replicate (Z.to_nat num_pages) EMPTY_OR_PINNED) 0 num_pages.

Definition clock_Victim : M ClockReplacer (option Z) := ret None.
Definition clock_Pin (frame_id : Z) : M ClockReplacer unit := ret tt.
Definition clock_Unpin (frame_id : Z) : M ClockReplacer unit := ret tt.
(** [return -1] from a function returning [size_t]. *)
Definition clock_Size : M ClockReplacer Z := ret (-1 `mod` 2 ^ 64).

(** Whatever is taken for the set of evictable frames and for the invariant,
    the clock's methods break the promise of [Unpin]: a frame that was unpinned
    can never be the victim. *)
Lemma clock_not_a_replacer (I : Replacer ClockReplacer) :
  @rp_Victim _ I = clock_Victim → @rp_Unpin _ I = clock_Unpin → False.
Proof.
  intros HV HU. destruct (rp_new_ok 1) as [Hinv _].
  destruct (rp_Unpin_ok _ 0 Hinv) as (r' & Hr & Hinv' & He). rewrite HU in Hr.
  destruct (rp_Victim_ok _ Hinv') as [[_ Hn]|(f & r2 & Hv & _)].
  - set_solver.
  - rewrite HV in Hv. discriminate.
Qed.

End Clock.
