(* ===== verification/BufferPool.v ===== *)
(** The buffer pool: [storage/page.h] and [storage/buffer_pool_manager.*].

    [BufferPoolManager] is the C++ object: the array of frames, the page table,
    the free list, and the replacer and the disk manager it was given.  The
    replacer and the disk are known only through [Replacer] and [PageStore].
    A [Page *] is the index of the frame it points to, [nullptr] is [None].
    Each public method holds the pool's latch for its whole body, so a method
    is one step. *)
From S2P Require Import Prelude Config PageStore Replacer.

(** ** page.h *)

Record Page : Type := MkPage {
  id_ : PageId;
  data_ : bytes;
  is_dirty_ : bool;
  pin_count_ : Z
}.

Definition OFFSET_PAGE_START : Z := 0.
Definition OFFSET_LSN : nat := 0.
Definition OFFSET_PAGE_HDR : nat := 4.

(** The constructor; [fd] is what the uninitialised field happens to hold. *)
Definition new_Page (fd : Z) : Page := MkPage (MkPageId fd INVALID_PAGE_ID) (zeros page_len) false 0.

Definition GetPageLsn (pg : Page) : Z := get_int OFFSET_LSN (data_ pg).
Definition SetPageLsn (lsn : Z) (pg : Page) : Page :=
  MkPage (id_ pg) (set_int OFFSET_LSN lsn (data_ pg)) (is_dirty_ pg) (pin_count_ pg).
Definition ResetMemory (pg : Page) : Page :=
  MkPage (id_ pg) (zeros page_len) (is_dirty_ pg) (pin_count_ pg).

Definition set_id (p : PageId) (pg : Page) : Page := MkPage p (data_ pg) (is_dirty_ pg) (pin_count_ pg).
Definition set_page_data (bs : bytes) (pg : Page) : Page := MkPage (id_ pg) bs (is_dirty_ pg) (pin_count_ pg).
Definition set_dirty (b : bool) (pg : Page) : Page := MkPage (id_ pg) (data_ pg) b (pin_count_ pg).
Definition set_pins (n : Z) (pg : Page) : Page := MkPage (id_ pg) (data_ pg) (is_dirty_ pg) n.

(** ** buffer_pool_manager.h *)

Record BufferPoolManager {D R : Type} : Type := MkPool {
  pool_size_ : nat;
  pages_ : list Page;
  page_table_ : gmap PageId Z;
  free_list_ : list Z;
  replacer_ : R;
  disk_manager_ : D
}.
Arguments BufferPoolManager : clear implicits.

Section Pool.
Context {D R : Type} {PS : PageStore D} {RP : Replacer R}.

Abbreviation BPM := (BufferPoolManager D R).

Definition with_pages (l : list Page) (s : BPM) : BPM :=
  MkPool _ _ (pool_size_ s) l (page_table_ s) (free_list_ s) (replacer_ s) (disk_manager_ s).
Definition with_table (t : gmap PageId Z) (s : BPM) : BPM :=
  MkPool _ _ (pool_size_ s) (pages_ s) t (free_list_ s) (replacer_ s) (disk_manager_ s).
Definition with_free (l : list Z) (s : BPM) : BPM :=
  MkPool _ _ (pool_size_ s) (pages_ s) (page_table_ s) l (replacer_ s) (disk_manager_ s).
Definition with_replacer (r : R) (s : BPM) : BPM :=
  MkPool _ _ (pool_size_ s) (pages_ s) (page_table_ s) (free_list_ s) r (disk_manager_ s).
Definition with_disk (d : D) (s : BPM) : BPM :=
  MkPool _ _ (pool_size_ s) (pages_ s) (page_table_ s) (free_list_ s) (replacer_ s) d.

(** The constructor.  [REPLACER_TYPE.compare] picks a branch, but all three
    create an [LRUReplacer]. [fd_of] gives the uninitialised [fd] fields. *)
Definition new_BufferPoolManager (fd_of : nat → Z) (pool_size : nat) (disk_manager : D) : BPM :=
  MkPool _ _ pool_size (new_Page <$> (fd_of <$> seq 0 pool_size)) ∅
    (Z.of_nat <$> seq 0 pool_size) (rp_new (Z.of_nat pool_size)) disk_manager.

(** [pages_[f]]. *)
Definition frame (s : BPM) (f : Z) : option Page :=
  if 0 <=? f then pages_ s !! Z.to_nat f else None.

Definition set_frame (f : Z) (pg : Page) (s : BPM) : BPM :=
  with_pages (<[Z.to_nat f := pg]> (pages_ s)) s.

Definition page_at (f : Z) : M BPM Page := λ s,
  match frame s f with Some pg => (Ok pg, s) | None => (Crash OutOfBounds, s) end.

(** [pages_[f].member = ...]. *)
Definition upd_page (f : Z) (g : Page → Page) : M BPM unit :=
  pg ← page_at f; modify (set_frame f (g pg)).

Definition on_replacer {A} (m : M R A) : M BPM A := zoom replacer_ with_replacer m.
Definition on_disk {A} (m : M D A) : M BPM A := zoom disk_manager_ with_disk m.

(** [unordered_map::insert] keeps an existing entry. *)
Definition table_insert (p : PageId) (f : Z) (t : gmap PageId Z) : gmap PageId Z :=
  match t !! p with Some _ => t | None => <[p := f]> t end.

Definition upd_table (g : gmap PageId Z → gmap PageId Z) : M BPM unit :=
  modify (λ s, with_table (g (page_table_ s)) s).

(** [disk_manager_->write_page(id.fd, id.page_no, page->GetData(), PAGE_SIZE)]. *)
Definition write_frame (f : Z) : M BPM unit :=
  pg ← page_at f; on_disk (ps_write (id_ pg) (data_ pg)).

(** [disk_manager_->read_page(...)] into the frame's own buffer. *)
Definition read_frame (f : Z) : M BPM unit :=
  pg ← page_at f;
  λ s, let '(r, (d', buf)) := ps_read (id_ pg) (disk_manager_ s, data_ pg) in
       (r, set_frame f (set_page_data buf pg) (with_disk d' s)).

(** ** buffer_pool_manager.cpp *)

Definition FindVictimPage : M BPM (option Z) :=
  s ← get_st;
  match free_list_ s with
  | [] =>
      v ← on_replacer rp_Victim;
      match v with
      | Some frameId =>
          pg ← page_at frameId;
          upd_table (delete (id_ pg)) ;;
          ret (Some frameId)
      | None => ret None
      end
  | f :: l => modify (with_free l) ;; ret (Some f)
  end.

Definition UpdatePage (page : Z) (new_page_id : PageId) (new_frame_id : Z) : M BPM unit :=
  pg ← page_at page;
  (if is_dirty_ pg then
     upd_page page (set_dirty false) ;;
     write_frame page
   else ret tt) ;;
  upd_table (delete (id_ pg)) ;;
  (if negb (pid_no new_page_id =? INVALID_PAGE_ID)
   then upd_table (table_insert new_page_id new_frame_id)
   else ret tt) ;;
  upd_page page ResetMemory ;;
  upd_page page (set_id new_page_id).

(** [++pages_[f].pin_count_]. *)
Definition pin_frame (f : Z) : M BPM unit :=
  upd_page f (λ pg, set_pins (wrap32 (pin_count_ pg + 1)) pg).

Definition FetchPage (page_id : PageId) : M BPM (option Z) :=
  s ← get_st;
  match page_table_ s !! page_id with
  | Some f =>
      on_replacer (rp_Pin f) ;;
      pin_frame f ;;
      ret (Some f)
  | None =>
      t ← FindVictimPage;
      match t with
      | Some target =>
          pg ← page_at target;
          (if is_dirty_ pg then UpdatePage target page_id target
           else upd_page target (set_id page_id)) ;;
          read_frame target ;;
          upd_table (table_insert page_id target) ;;
          on_replacer (rp_Pin target) ;;
          pin_frame target ;;
          ret (Some target)
      | None => ret None
      end
  end.

Definition UnpinPage (page_id : PageId) (is_dirty : bool) : M BPM bool :=
  s ← get_st;
  match page_table_ s !! page_id with
  | None => ret false
  | Some frame_id =>
      pg ← page_at frame_id;
      if 0 <? pin_count_ pg then
        upd_page frame_id (λ pg, set_pins (pin_count_ pg - 1) pg) ;;
        (if is_dirty then upd_page frame_id (set_dirty true) else ret tt) ;;
        pg' ← page_at frame_id;
        (if pin_count_ pg' =? 0 then on_replacer (rp_Unpin frame_id) else ret tt) ;;
        ret true
      else ret false
  end.

Definition FlushPage (page_id : PageId) : M BPM bool :=
  s ← get_st;
  match page_table_ s !! page_id with
  | None => ret false
  | Some frame_id =>
      write_frame frame_id ;;
      upd_page frame_id (set_dirty false) ;;
      ret true
  end.

(** [page_id] is an in-out parameter: the descriptor in, the page id out. *)
Definition NewPage (fd : Z) : M BPM (option (PageId * Z)) :=
  v ← FindVictimPage;
  match v with
  | None => ret None
  | Some frame_id =>
      page_no ← on_disk (ps_alloc fd);
      let page_id := MkPageId fd page_no in
      UpdatePage frame_id page_id frame_id ;;
      on_replacer (rp_Pin frame_id) ;;
      upd_page frame_id (set_pins 1) ;;
      ret (Some (page_id, frame_id))
  end.

Definition DeletePage (page_id : PageId) : M BPM bool :=
  on_disk (ps_dealloc (pid_no page_id)) ;;
  s ← get_st;
  match page_table_ s !! page_id with
  | None => ret true
  | Some frame_id =>
      pg ← page_at frame_id;
      if 0 <? pin_count_ pg then ret false
      else
        upd_table (delete page_id) ;;
        upd_page frame_id ResetMemory ;;
        modify (λ s, with_free (free_list_ s ++ [frame_id]) s) ;;
        ret true
  end.

Definition flush_one (fd : Z) (i : Z) : M BPM unit :=
  pg ← page_at i;
  if (pid_fd (id_ pg) =? fd) && negb (pid_no (id_ pg) =? INVALID_PAGE_ID) then
    write_frame i ;;
    upd_page i (set_dirty false)
  else ret tt.

Definition FlushAllPages (fd : Z) : M BPM unit :=
  s ← get_st;
  st_iter (flush_one fd) (Z.of_nat <$> seq 0 (pool_size_ s)).

(** Writing through a [Page *]: the bytes of [GetData()]. *)
Definition client_write (f : Z) (bs : bytes) : M BPM unit := upd_page f (set_page_data bs).

End Pool.
