(* ===== verification/PoolSpec.v ===== *)
(** What the buffer pool promises, and the proof that it keeps it.

    The client of the pool sees a store of pages.  The specification keeps, for
    every page, its logical contents, the frame and pin count while it is held,
    and which held pages have been written through their pointer and not yet
    been reported dirty.  [allowed] is the contract on the client, [promised]
    what a call may answer, [after] the next specification state.  [pool_inv]
    relates the object to the specification; every allowed call that returns
    keeps it and answers as promised, and the only exception a call can raise is
    the disk's [UnixError]. *)
From S2P Require Import Prelude Config PageStore Replacer BufferPool.

Record spec_state : Type := MkSpec {
  cont : gmap PageId (option bytes);    (* contents; [Some None]: deleted *)
  held : gmap PageId (Z * Z);           (* pinned pages: frame, pin count *)
  pending : gset PageId;                (* written, not yet reported dirty *)
  counter : Z → Z;                      (* next page number of a file *)
  openp : PageId → Prop                 (* pages of open files *)
}.

Definition pin_of (a : spec_state) (p : PageId) : Z :=
  match held a !! p with Some (_, n) => n | None => 0 end.

Definition is_live (a : spec_state) (p : PageId) (x : bytes) : Prop := cont a !! p = Some (Some x).

Inductive pool_op : Type :=
  | OpFetch (p : PageId)
  | OpNew (fd : Z)
  | OpWrite (p : PageId) (f : Z) (bs : bytes)
  | OpUnpinPage (p : PageId) (dirty : bool)
  | OpFlush (p : PageId)
  | OpDelete (p : PageId)
  | OpFlushAll (fd : Z).

Inductive pool_out : Type :=
  | OutNull
  | OutPage (p : PageId) (f : Z) (contents : bytes)
  | OutBool (b : bool)
  | OutUnit.

Section Spec.
Context {D R : Type} {PS : PageStore D} {RP : Replacer R}.
Abbreviation BPM := (BufferPoolManager D R).
Implicit Types (s : BPM) (a : spec_state) (p q : PageId) (f : Z) (pg : Page).

(** What the client must respect. *)
Definition allowed (a : spec_state) (op : pool_op) : Prop :=
  match op with
  | OpFetch p => (∃ x, is_live a p x) ∧ pin_of a p < int_max
  | OpNew fd =>
      ps_fd_ok fd ∧ openp a (MkPageId fd (counter a fd)) ∧
      counter a fd ≠ INVALID_PAGE_ID ∧ cont a !! MkPageId fd (counter a fd) = None
  | OpWrite p f bs => (∃ n, held a !! p = Some (f, n)) ∧ length bs = page_len
  | OpUnpinPage p dirty => dirty = true ∨ pin_of a p ≠ 1 ∨ p ∉ pending a
  | OpFlush p => True
  | OpDelete p => ∃ x, is_live a p x
  | OpFlushAll fd => True
  end.

(** What the pool may answer. *)
Definition promised (a : spec_state) (op : pool_op) (out : pool_out) : Prop :=
  match op with
  | OpFetch p =>
      (out = OutNull ∧ held a !! p = None) ∨
      (∃ f x, out = OutPage p f x ∧ is_live a p x ∧
              ∀ f' n, held a !! p = Some (f', n) → f = f')
  | OpNew fd =>
      out = OutNull ∨ ∃ f, out = OutPage (MkPageId fd (counter a fd)) f (zeros page_len)
  | OpWrite _ _ _ => out = OutUnit
  | OpUnpinPage p _ => out = OutBool (bool_decide (is_Some (held a !! p)))
  | OpFlush p => ∃ b, out = OutBool b ∧ (is_Some (held a !! p) → b = true)
  | OpDelete p => out = OutBool (negb (bool_decide (is_Some (held a !! p))))
  | OpFlushAll _ => out = OutUnit
  end.

(** The specification's next state. *)
Definition after (a : spec_state) (op : pool_op) (out : pool_out) : spec_state :=
  match op, out with
  | OpFetch p, OutPage _ f _ =>
      MkSpec (cont a) (<[p := (f, pin_of a p + 1)]> (held a)) (pending a) (counter a) (openp a)
  | OpNew fd, OutPage p f x =>
      MkSpec (<[p := Some x]> (cont a)) (<[p := (f, 1)]> (held a)) ({[p]} ∪ pending a)
        (λ fd', if decide (fd' = fd) then wrap32 (counter a fd + 1) else counter a fd') (openp a)
  | OpWrite p f bs, _ =>
      MkSpec (<[p := Some bs]> (cont a)) (held a) ({[p]} ∪ pending a) (counter a) (openp a)
  | OpUnpinPage p dirty, OutBool true =>
      MkSpec (cont a)
        (match held a !! p with
         | Some (f, n) => if decide (n = 1) then delete p (held a) else <[p := (f, n - 1)]> (held a)
         | None => held a
         end)
        (if dirty then pending a ∖ {[p]} else pending a) (counter a) (openp a)
  | OpFlush p, OutBool true =>
      MkSpec (cont a) (held a) (pending a ∖ {[p]}) (counter a) (openp a)
  | OpDelete p, OutBool true =>
      MkSpec (<[p := None]> (cont a)) (held a) (pending a) (counter a) (openp a)
  | OpFlushAll fd, _ =>
      MkSpec (cont a) (held a) (filter (λ p, pid_fd p ≠ fd) (pending a)) (counter a) (openp a)
  | _, _ => a
  end.

(** The pool's answer to a call: what the caller sees through the pointer. *)
Definition pool_exec (op : pool_op) : M BPM pool_out :=
  match op with
  | OpFetch p =>
      r ← FetchPage p;
      match r with
      | None => ret OutNull
      | Some f => pg ← page_at f; ret (OutPage p f (data_ pg))
      end
  | OpNew fd =>
      r ← NewPage fd;
      match r with
      | None => ret OutNull
      | Some (p, f) => pg ← page_at f; ret (OutPage p f (data_ pg))
      end
  | OpWrite _ f bs => client_write f bs ;; ret OutUnit
  | OpUnpinPage p dirty => b ← UnpinPage p dirty; ret (OutBool b)
  | OpFlush p => b ← FlushPage p; ret (OutBool b)
  | OpDelete p => b ← DeletePage p; ret (OutBool b)
  | OpFlushAll fd => FlushAllPages fd ;; ret OutUnit
  end.

(** The states a client can bring a fresh pool into by obeying the contract,
    with the specification's account of them: the pool is created over a disk
    whose pages are those of [a]. *)
Record initial (d : D) (a : spec_state) : Prop := {
  in_inv : ps_inv d;
  in_held : held a = ∅;
  in_pending : pending a = ∅;
  in_valid p : openp a p ↔ ps_valid d p;
  in_counter fd : ps_next d fd = counter a fd;
  in_cont p y : cont a !! p = Some y →
    openp a p ∧ pid_no p ≠ INVALID_PAGE_ID ∧ ∃ x, y = Some x ∧ ps_page d p = Some x
}.

Inductive reach : BPM → spec_state → Prop :=
  | reach_new fd_of n d a : initial d a → reach (new_BufferPoolManager fd_of n d) a
  | reach_step s a op out s' :
      reach s a → allowed a op → pool_exec op s = (Ok out, s') → reach s' (after a op out).

(** ** The invariant

    [hand] is a frame that has been taken and not yet given a page. *)

Definition on_disk_or_hand (hand : option Z) (s : BPM) (p : PageId) (x : bytes) : Prop :=
  ps_page (disk_manager_ s) p = Some x ∨
  ∃ f pg, hand = Some f ∧ frame s f = Some pg ∧ is_dirty_ pg = true ∧ id_ pg = p ∧ data_ pg = x.

Record mapped_ok (hand : option Z) (s : BPM) (a : spec_state) (p : PageId) (f : Z) (pg : Page) : Prop := {
  mo_id : id_ pg = p;
  mo_data : is_live a p (data_ pg);
  mo_pins : pin_count_ pg = pin_of a p;
  mo_clean : p ∈ pending a ∨ is_dirty_ pg = true ∨ ps_page (disk_manager_ s) p = Some (data_ pg);
  mo_evict : pin_of a p = 0 → f ∈ evictable (replacer_ s);
  mo_notfree : f ∉ free_list_ s;
  mo_nothand : hand ≠ Some f
}.

Record loose_ok (hand : option Z) (s : BPM) (a : spec_state) (f : Z) (pg : Page) : Prop := {
  lo_pins : pin_count_ pg = 0;
  lo_where : f ∈ free_list_ s ∨ hand = Some f;
  lo_id : (pid_no (id_ pg) = INVALID_PAGE_ID ∧ is_dirty_ pg = false) ∨
          cont a !! id_ pg = Some None ∨
          (hand = Some f ∧ is_live a (id_ pg) (data_ pg) ∧ page_table_ s !! id_ pg = None)
}.

Record pool_inv (hand : option Z) (s : BPM) (a : spec_state) : Prop := {
  pi_disk : ps_inv (disk_manager_ s);
  pi_rep : rp_inv (replacer_ s);
  pi_len f pg : frame s f = Some pg → length (data_ pg) = page_len;
  pi_open p : is_Some (cont a !! p) → openp a p ∧ pid_no p ≠ INVALID_PAGE_ID;
  pi_valid p : openp a p ↔ ps_valid (disk_manager_ s) p;
  pi_counter fd : ps_next (disk_manager_ s) fd = counter a fd;
  pi_map p f : page_table_ s !! p = Some f → ∃ pg, frame s f = Some pg ∧ mapped_ok hand s a p f pg;
  pi_store p x : is_live a p x → page_table_ s !! p = None → on_disk_or_hand hand s p x;
  pi_free : NoDup (free_list_ s);
  pi_range f : f ∈ free_list_ s ∨ hand = Some f → is_Some (frame s f);
  pi_excl f : hand = Some f → f ∉ free_list_ s;
  pi_loose f pg : frame s f = Some pg → (∀ p, page_table_ s !! p ≠ Some f) → loose_ok hand s a f pg;
  pi_evict f : f ∈ evictable (replacer_ s) →
    f ∈ free_list_ s ∨ hand = Some f ∨ ∃ p, page_table_ s !! p = Some f ∧ pin_of a p = 0;
  pi_held p f n : held a !! p = Some (f, n) → 0 < n ∧ page_table_ s !! p = Some f;
  pi_pending p : p ∈ pending a → is_Some (held a !! p);
  pi_size : length (pages_ s) = pool_size_ s
}.

(** ** Frames *)

Lemma frame_range s f pg : frame s f = Some pg → 0 ≤ f < Z.of_nat (length (pages_ s)).
Proof.
  unfold frame. destruct (Z.leb_spec 0 f); [|done]. intros ?%lookup_lt_Some. lia.
Qed.

Lemma frame_set s f pg pg' g :
  frame s f = Some pg' → frame (set_frame f pg s) g = if decide (f = g) then Some pg else frame s g.
Proof.
  intros Hf. pose proof (frame_range _ _ _ Hf) as Hr. unfold frame, set_frame. simpl.
  case_decide as Hfg.
  - subst g. rewrite (proj2 (Z.leb_le 0 f)) by lia. rewrite list_lookup_insert_eq; [done|lia].
  - destruct (Z.leb_spec 0 g); [|done]. rewrite list_lookup_insert_ne; [done|lia].
Qed.

Lemma frame_set_eq s f pg pg' : frame s f = Some pg' → frame (set_frame f pg s) f = Some pg.
Proof. intros H. by rewrite (frame_set _ _ _ _ _ H), decide_True. Qed.

Lemma frame_set_ne s f g pg pg' : frame s f = Some pg' → f ≠ g → frame (set_frame f pg s) g = frame s g.
Proof. intros H ?. by rewrite (frame_set _ _ _ _ _ H), decide_False. Qed.

Lemma page_at_run s f pg : frame s f = Some pg → page_at f s = (Ok pg, s).
Proof. intros H. unfold page_at. by rewrite H. Qed.

Lemma upd_page_run s f pg g : frame s f = Some pg → upd_page f g s = (Ok tt, set_frame f (g pg) s).
Proof. intros H. unfold upd_page. by rewrite (st_bind_ok _ _ _ _ _ (page_at_run _ _ _ H)). Qed.

Lemma on_replacer_run {A} (m : M R A) s x r' :
  m (replacer_ s) = (x, r') → on_replacer m s = (x, with_replacer r' s).
Proof. intros H. unfold on_replacer, zoom. by rewrite H. Qed.

Lemma on_disk_run {A} (m : M D A) s x d' :
  m (disk_manager_ s) = (x, d') → on_disk m s = (x, with_disk d' s).
Proof. intros H. unfold on_disk, zoom. by rewrite H. Qed.

Lemma set_frame_twice s f pg1 pg2 : set_frame f pg2 (set_frame f pg1 s) = set_frame f pg2 s.
Proof. unfold set_frame, with_pages. simpl. by rewrite list_insert_insert_eq. Qed.

Lemma set_frame_same s f pg : frame s f = Some pg → set_frame f pg s = s.
Proof.
  intros H. unfold set_frame, with_pages. destruct s; simpl in *. f_equal. unfold frame in H. simpl in H.
  destruct (0 <=? f); [|done]. by apply list_insert_id.
Qed.

Lemma mapped_inj s a hand p q f :
  pool_inv hand s a → page_table_ s !! p = Some f → page_table_ s !! q = Some f → p = q.
Proof.
  intros HI (pg & Hpg & Hp)%(pi_map _ _ _ HI) (pg' & Hpg' & Hq)%(pi_map _ _ _ HI). simplify_eq.
  destruct Hp, Hq. congruence.
Qed.

Lemma mapped_or_loose hand s a f pg :
  pool_inv hand s a → frame s f = Some pg →
  page_table_ s !! id_ pg = Some f ∨ ∀ p, page_table_ s !! p ≠ Some f.
Proof.
  intros HI Hf. destruct (decide (page_table_ s !! id_ pg = Some f)) as [?|Hn]; [by left|right].
  intros p Hp. destruct (pi_map _ _ _ HI p f Hp) as (pg' & Hf' & Hm). destruct Hm. congruence.
Qed.

Lemma pin_of_pos hand s a p : pool_inv hand s a → 0 ≤ pin_of a p.
Proof.
  intros HI. unfold pin_of. destruct (held a !! p) as [[f n]|] eqn:E; [|lia].
  apply (pi_held _ _ _ HI) in E. lia.
Qed.

Lemma pin_of_zero hand s a p : pool_inv hand s a → pin_of a p = 0 ↔ held a !! p = None.
Proof.
  intros HI. unfold pin_of. destruct (held a !! p) as [[f n]|] eqn:E; [|done].
  apply (pi_held _ _ _ HI) in E. split; [lia|done].
Qed.

(** ** Taking a frame *)

Lemma take_free s a f l :
  pool_inv None s a → free_list_ s = f :: l → pool_inv (Some f) (with_free l s) a.
Proof.
  intros HI Hl. pose proof (pi_free _ _ _ HI) as Hnd. rewrite Hl in Hnd. apply NoDup_cons in Hnd as [Hf Hnd].
  destruct HI as [H1 H2 H3 H4 H5 H6 H7 H8 H9 H10 H11 H12 H13 H14 H15 H16].
  split; simpl; try done.
  - intros p g (pg & Hg & [A B C DD E F G])%H7. exists pg. split; [done|]. rewrite Hl in F.
    split; simpl; try done; [set_solver|]. intros [= ->]. set_solver.
  - intros p x Hx Hp. destruct (H8 p x Hx Hp) as [?|(g & pg & [=] & _)]. by left.
  - intros g [Hg|[= <-]]; apply H10; left; rewrite Hl; set_solver.
  - by intros g [= <-].
  - intros g pg Hg Hu. destruct (H12 g pg Hg Hu) as [A [B|[=]] C]. split; simpl.
    + done.
    + rewrite Hl in B. apply elem_of_cons in B as [->|B]; auto.
    + destruct C as [C|[C|([=] & _)]]; auto.
  - intros g [Hg|[[=]|Hg]]%H13; [|auto]. rewrite Hl in Hg. apply elem_of_cons in Hg as [->|Hg]; auto.
Qed.

Lemma take_victim s a f p pg r' :
  pool_inv None s a → free_list_ s = [] → page_table_ s !! p = Some f → pin_of a p = 0 →
  frame s f = Some pg → rp_inv r' → evictable r' = evictable (replacer_ s) ∖ {[f]} →
  pool_inv (Some f) (with_table (delete p (page_table_ s)) (with_replacer r' s)) a.
Proof.
  intros HI Hl Hp Hpin Hpg Hr He.
  assert (Hinj : ∀ q g, page_table_ s !! q = Some g → q ≠ p → g ≠ f).
  { intros q g Hq Hne ->. by apply Hne, (mapped_inj s a None q p f). }
  destruct (pi_map _ _ _ HI p f Hp) as (pg' & Hpg' & Hm). simplify_eq.
  pose proof (proj1 (pin_of_zero _ _ _ _ HI) Hpin) as Hnh.
  destruct HI as [H1 H2 H3 H4 H5 H6 H7 H8 H9 H10 H11 H12 H13 H14 H15 H16].
  split; simpl; try done.
  - intros q g [Hne Hq]%lookup_delete_Some. destruct (H7 q g Hq) as (pg' & Hg & [A B C DD E F G]).
    pose proof (Hinj q g Hq ltac:(done)). exists pg'. split; [done|].
    split; simpl; try done; [rewrite He; set_solver|congruence].
  - intros q x Hx. rewrite lookup_delete. case_decide as Hqp.
    + subst q. intros _. destruct Hm as [A B C DD E F G].
      assert (x = data_ pg) as -> by (unfold is_live in *; congruence).
      destruct DD as [DD|[DD|DD]]; [|right; by exists f, pg|by left].
      apply H15 in DD as [? ?]. congruence.
    + intros Hq. destruct (H8 q x Hx Hq) as [?|(g & pg' & [=] & _)]. by left.
  - intros g [Hg|[= <-]]; [rewrite Hl in Hg; set_solver|]. by exists pg.
  - intros g [= <-]. rewrite Hl. set_solver.
  - intros g pg' Hg Hu. change (frame s g = Some pg') in Hg. destruct (decide (g = f)) as [->|Hgf].
    + simplify_eq. destruct Hm as [A B C DD E F G]. split; simpl; [congruence|by right|].
      right; right. rewrite A. by rewrite lookup_delete_eq.
    + destruct (H12 g pg' Hg) as [A [B|[=]] C].
      { intros q Hq. destruct (decide (q = p)) as [->|]; [congruence|].
        apply (Hu q). by rewrite lookup_delete_ne. }
      split; simpl; [done|by left|]. destruct C as [C|[C|([=] & _)]]; auto.
  - intros g. rewrite He. intros [Hg Hgf]%elem_of_difference.
    destruct (H13 g Hg) as [?|[[=]|(q & Hq & Hq0)]]; [by left|]. right; right. exists q.
    rewrite lookup_delete_ne; [done|]. intros ->. set_solver.
  - intros q g n Hq. destruct (H14 q g n Hq) as [? Ht]. split; [done|].
    rewrite lookup_delete_ne; [done|]. intros ->. congruence.
Qed.

Lemma with_replacer_id s : with_replacer (replacer_ s) s = s.
Proof. by destruct s. Qed.

Lemma FindVictimPage_ok s a :
  pool_inv None s a →
  (FindVictimPage s = (Ok None, s) ∧ free_list_ s = [] ∧ evictable (replacer_ s) = ∅) ∨
  (∃ f pg s1, FindVictimPage s = (Ok (Some f), s1) ∧ frame s1 f = Some pg ∧ pool_inv (Some f) s1 a ∧
              (∀ p, page_table_ s !! p = None → page_table_ s1 !! p = None)).
Proof.
  intros HI. unfold FindVictimPage. rewrite !st_get_bind.
  destruct (free_list_ s) as [|f l] eqn:Hl.
  - destruct (rp_Victim_ok _ (pi_rep _ _ _ HI)) as [[Hv He]|(f & r' & Hv & Hr & Hf & He)];
      apply on_replacer_run in Hv.
    { left. mstep Hv. by rewrite with_replacer_id. }
    right. destruct (pi_evict _ _ _ HI f Hf) as [Hx|[[=]|(p & Hp & Hp0)]]; [rewrite Hl in Hx; set_solver|].
    destruct (pi_map _ _ _ HI p f Hp) as (pg & Hpg & Hm).
    assert (Hpg' : frame (with_replacer r' s) f = Some pg) by exact Hpg.
    mstep Hv. mstep (page_at_run _ _ _ Hpg'). rewrite (mo_id _ _ _ _ _ _ Hm).
    eexists f, pg, _. split; [done|]. split; [done|]. split; [by apply (take_victim s a f p pg r')|].
    intros q Hq. simpl. rewrite lookup_delete. by case_decide.
  - right. destruct (pi_range _ _ _ HI f) as [pg Hpg]; [left; rewrite Hl; set_solver|].
    eexists f, pg, _. split; [done|]. split; [done|]. split; [by apply take_free|done].
Qed.

(** ** Writing a frame back *)

(** A loose frame's old identity maps to nothing. *)
Lemma loose_unmapped hand s a f pg :
  pool_inv hand s a → loose_ok hand s a f pg → page_table_ s !! id_ pg = None.
Proof.
  intros HI [_ _ Hid]. destruct (page_table_ s !! id_ pg) as [g|] eqn:E; [|done].
  destruct (pi_map _ _ _ HI _ _ E) as (pg' & _ & Hm). pose proof (mo_data _ _ _ _ _ _ Hm) as Hl.
  unfold is_live in Hl. destruct Hid as [[Hx _]|[Hx|(_ & _ & Hx)]]; try congruence.
  by destruct (pi_open _ _ _ HI (id_ pg)) as [_ ?]; [rewrite Hl|].
Qed.

Lemma hand_loose s a f pg : pool_inv (Some f) s a → frame s f = Some pg → loose_ok (Some f) s a f pg.
Proof.
  intros HI Hf. apply (pi_loose _ _ _ HI _ _ Hf). intros p (pg' & _ & Hm)%(pi_map _ _ _ HI).
  by destruct Hm.
Qed.

Lemma loose_ok_same hand s s' a f pg :
  free_list_ s' = free_list_ s → page_table_ s' = page_table_ s →
  loose_ok hand s a f pg → loose_ok hand s' a f pg.
Proof. intros E1 E2 [A B C]. split; rewrite ?E1, ?E2; done. Qed.

(** Replacing the disk state by one that holds at least the live pages, except
    that page [p] may have been overwritten. *)
Record disk_ext (p : PageId) (d d' : D) : Prop := {
  de_inv : ps_inv d';
  de_valid q : ps_valid d' q ↔ ps_valid d q;
  de_next fd : ps_next d' fd = ps_next d fd;
  de_pages q x : q ≠ p → ps_valid d q → ps_page d q = Some x → ps_page d' q = Some x
}.

Lemma ps_write_ext d p bs r d' :
  ps_inv d → ps_valid d p → length bs = page_len → ps_write p bs d = (r, d') →
  disk_ext p d d' ∧ (r = Ok tt ∧ ps_page d' p = Some bs ∨ r = Throw (RedBase UnixError)).
Proof. intros H1 H2 H3 H4. destruct (ps_write_ok _ _ _ _ _ H1 H2 H3 H4) as (?&?&?&?&?). split; [by split|done]. Qed.

Lemma live_valid hand s a p : pool_inv hand s a → is_Some (cont a !! p) → ps_valid (disk_manager_ s) p.
Proof. intros HI Hp. apply (pi_valid _ _ _ HI), (pi_open _ _ _ HI _ Hp). Qed.

(** Some read or write of a whole page of an open file fails on this disk. *)
Definition disk_failed : Prop :=
  ∃ d p, ps_inv d ∧ ps_valid d p ∧
    ((∃ bs d', length bs = page_len ∧ ps_write p bs d = (Throw (RedBase UnixError), d')) ∨
     (∃ page buf d', ps_page d p = Some page ∧ length buf = page_len ∧ ps_read p (d, buf) = (Throw (RedBase UnixError), d'))).

(** Every frame holds a page somebody uses. *)
Definition all_pinned s a : Prop :=
  ∀ f, 0 ≤ f < Z.of_nat (pool_size_ s) → ∃ p n, held a !! p = Some (f, n).

(** A loose frame is written to a page nobody relies on, or, in the hand, to
    the page it holds. *)
Lemma writeback_hand s a f pg r d' :
  pool_inv (Some f) s a → frame s f = Some pg → is_dirty_ pg = true →
  ps_write (id_ pg) (data_ pg) (disk_manager_ s) = (r, d') →
  (r = Ok tt ∧ pool_inv (Some f) (with_disk d' (set_frame f (set_dirty false pg) s)) a) ∨
  (disk_failed ∧ r = Throw (RedBase UnixError)).
Proof.
  intros HI Hf Hdirty Hw. pose proof (hand_loose _ _ _ _ HI Hf) as Hlo.
  assert (Hid : is_Some (cont a !! id_ pg)).
  { destruct (lo_id _ _ _ _ _ Hlo) as [[_ ?]|[Hx|(_ & Hx & _)]]; [congruence|by rewrite Hx|by rewrite Hx]. }
  pose proof (loose_unmapped _ _ _ _ _ HI Hlo) as Hun.
  destruct (ps_write_ext _ _ _ _ _ (pi_disk _ _ _ HI) (live_valid _ _ _ _ HI Hid) (pi_len _ _ _ HI _ _ Hf) Hw)
    as [[Di Dv Dn Dp] [[-> Hpage]| ->]]; [left; split; [done|]|right; split; [|done]].
  2: { exists (disk_manager_ s), (id_ pg). split; [by apply HI|]. split; [by eapply live_valid|]. left.
       exists (data_ pg), d'. split; [by eapply pi_len|done]. }
  assert (Hval : ∀ p, is_Some (cont a !! p) → ps_valid (disk_manager_ s) p) by (intros; by eapply live_valid).
  assert (Hfr : ∀ g, frame (with_disk d' (set_frame f (set_dirty false pg) s)) g
                     = if decide (f = g) then Some (set_dirty false pg) else frame s g).
  { intros g. exact (frame_set s f (set_dirty false pg) pg g Hf). }
  destruct HI as [H1 H2 H3 H4 H5 H6 H7 H8 H9 H10 H11 H12 H13 H14 H15 H16].
  split; try done.
  - intros g pg'. rewrite Hfr. case_decide; [intros [= <-]; exact (H3 f pg Hf)|apply H3].
  - intros p. simpl. by rewrite Dv.
  - intros fd. simpl. by rewrite Dn.
  - intros p g Hp. destruct (H7 p g Hp) as (pg' & Hg & [A B C DD E F G]). exists pg'. rewrite Hfr.
    case_decide; [subst; done|]. split; [done|]. split; simpl; try done.
    destruct DD as [?|[?|DD]]; auto. right; right. apply Dp; [|apply Hval; by rewrite B|done].
    intros ->. simpl in *. congruence.
  - intros p x Hx Hp. left. simpl. destruct (decide (p = id_ pg)) as [->|Hne].
    + destruct (lo_id _ _ _ _ _ Hlo) as [[_ ?]|[Hd|(_ & Hd & _)]]; [congruence| |]; unfold is_live in *; congruence.
    + destruct (H8 p x Hx Hp) as [?|(g & pg' & [= <-] & Hg & _ & <- & _)]; [|congruence].
      apply Dp; [done|apply Hval; by rewrite Hx|done].
  - intros g Hg. rewrite Hfr. case_decide; [done|]. by apply H10.
  - intros g pg'. rewrite Hfr. simpl. case_decide as Hfg; [intros [= <-] _; subst|].
    2: { intros Hg Hu. by apply (loose_ok_same _ s), H12. }
    destruct Hlo as [A B C]. split; simpl; auto. destruct C as [[? ?]|[?|?]]; auto.
  - simpl. by rewrite length_insert.
Qed.

(** ** Giving the frame in the hand a page *)

Definition install (s : BPM) (f : Z) (q : PageId) (x : bytes) (r' : R) (d' : D) : BPM :=
  with_replacer r' (with_table (<[q := f]> (page_table_ s))
    (set_frame f (MkPage q x false 1) (with_disk d' s))).

Lemma install_ok s a f pg q x r' d' pend cnt :
  pool_inv (Some f) s a → frame s f = Some pg → is_dirty_ pg = false →
  page_table_ s !! q = None → cont a !! q ≠ Some None → openp a q → pid_no q ≠ INVALID_PAGE_ID →
  length x = page_len → pend ⊆ pending a ∪ {[q]} → pending a ⊆ pend →
  q ∈ pend ∨ ps_page d' q = Some x →
  rp_inv r' → evictable r' = evictable (replacer_ s) ∖ {[f]} →
  ps_inv d' → (∀ p, ps_valid d' p ↔ ps_valid (disk_manager_ s) p) →
  (∀ p, ps_page d' p = ps_page (disk_manager_ s) p) → (∀ fd, ps_next d' fd = cnt fd) →
  pool_inv None (install s f q x r' d')
    (MkSpec (<[q := Some x]> (cont a)) (<[q := (f, 1)]> (held a)) pend cnt (openp a)).
Proof.
  intros HI Hf Hdirty Hq Hdead Hop Hno Hx Hp1 Hp2 Hpq Hr He Di Dv Dp Dn.
  assert (Hfr : ∀ g, frame (install s f q x r' d') g
                     = if decide (f = g) then Some (MkPage q x false 1) else frame s g).
  { intros g. exact (frame_set s f _ pg g Hf). }
  assert (Hnq : ∀ p g, page_table_ s !! p = Some g → p ≠ q ∧ g ≠ f).
  { intros p g Hp. split; [congruence|]. intros ->.
    destruct (pi_map _ _ _ HI p f Hp) as (pg' & _ & Hm). by destruct Hm. }
  destruct HI as [H1 H2 H3 H4 H5 H6 H7 H8 H9 H10 H11 H12 H13 H14 H15 H16].
  assert (Hpin : ∀ p, p ≠ q → pin_of (MkSpec (<[q := Some x]> (cont a)) (<[q := (f, 1)]> (held a))
                                 pend cnt (openp a)) p = pin_of a p).
  { intros p Hne. unfold pin_of. simpl. by rewrite lookup_insert_ne. }
  split; try done.
  - intros g pg'. rewrite Hfr. case_decide; [by intros [= <-]|apply H3].
  - intros p. simpl. rewrite lookup_insert. case_decide; [by subst|]. apply H4.
  - intros p. simpl. by rewrite Dv.
  - intros p g. simpl. rewrite lookup_insert. case_decide as Hpq'.
    + subst p. intros [= <-]. exists (MkPage q x false 1). rewrite Hfr, decide_True by done. split; [done|].
      split; unfold is_live, pin_of; simpl; rewrite ?lookup_insert_eq; simpl; try done; [|by apply H11].
      destruct Hpq; auto.
    + intros Hp. destruct (Hnq p g Hp) as [_ Hgf]. destruct (H7 p g Hp) as (pg' & Hg & [A B C DD E F G]).
      exists pg'. rewrite Hfr, decide_False by done. split; [done|].
      split; rewrite ?Hpin by done; simpl; try done; unfold is_live; simpl.
      * by rewrite lookup_insert_ne.
      * rewrite Dp. destruct DD; auto.
      * rewrite He. set_solver.
  - intros p y. unfold is_live. simpl. rewrite !lookup_insert. case_decide; [done|]. intros Hy Hp. left. simpl.
    rewrite Dp. destruct (H8 p y Hy Hp) as [?|(g & pg' & [= <-] & Hg & ? & _)]; [done|congruence].
  - intros g [Hg|[=]]. rewrite Hfr. case_decide; [done|]. apply H10. by left.
  - intros g pg'. rewrite Hfr. case_decide as Hfg.
    + subst g. intros _ Hu. specialize (Hu q). simpl in Hu. by rewrite lookup_insert_eq in Hu.
    + intros Hg Hu. destruct (H12 g pg' Hg) as [A [B|[= <-]] C]; [|split; [done|by left|]|done].
      { intros p Hp. apply (Hu p). simpl. rewrite lookup_insert_ne; [done|]. intros <-. congruence. }
      destruct C as [C|[C|([= <-] & _)]]; [auto| |done]. right; left. simpl. rewrite lookup_insert_ne; congruence.
  - intros g. simpl. rewrite He. intros [Hg Hgf]%elem_of_difference.
    destruct (H13 g Hg) as [?|[[= <-]|(p & Hp & Hp0)]]; [by left|set_solver|].
    right; right. exists p. destruct (Hnq p g Hp). rewrite lookup_insert_ne by done. by rewrite Hpin.
  - intros p g n. simpl. rewrite !lookup_insert. case_decide; [by intros [= <- <-]|]. apply H14.
  - intros p Hp. simpl. rewrite lookup_insert. case_decide; [done|]. apply H15. set_solver.
  - simpl. by rewrite length_insert.
Qed.

(** ** The methods *)

(** A frame in the hand that has been written back, if it had to be. *)
Record clean_hand (s : BPM) (a : spec_state) (f : Z) (pg : Page) : Prop := {
  ch_inv : pool_inv (Some f) s a;
  ch_frame : frame s f = Some pg;
  ch_clean : is_dirty_ pg = false;
  ch_pins : pin_count_ pg = 0
}.

Lemma UpdatePage_ok s a f pg q :
  pool_inv (Some f) s a → frame s f = Some pg → page_table_ s !! q = None → pid_no q ≠ INVALID_PAGE_ID →
  (disk_failed ∧ ∃ s', UpdatePage f q f s = (Throw (RedBase UnixError), s')) ∨
  (∃ s1 pg1, clean_hand s1 a f pg1 ∧ page_table_ s1 = page_table_ s ∧ replacer_ s1 = replacer_ s ∧
     UpdatePage f q f s
     = (Ok tt, with_table (<[q := f]> (page_table_ s1)) (set_frame f (MkPage q (zeros page_len) false 0) s1))).
Proof.
  intros HI Hf Hq Hno. pose proof (hand_loose _ _ _ _ HI Hf) as Hlo.
  pose proof (loose_unmapped _ _ _ _ _ HI Hlo) as Hun.
  assert (Htail : ∀ s1 pg1, frame s1 f = Some pg1 → is_dirty_ pg1 = false → pin_count_ pg1 = 0 →
    page_table_ s1 = page_table_ s →
    (upd_table (delete (id_ pg)) ;;
     (if negb (pid_no q =? INVALID_PAGE_ID) then upd_table (table_insert q f) else ret tt) ;;
     upd_page f ResetMemory ;; upd_page f (set_id q)) s1
    = (Ok tt, with_table (<[q := f]> (page_table_ s1)) (set_frame f (MkPage q (zeros page_len) false 0) s1))).
  { intros s1 pg1 Hf1 Hc1 Hp1 Ht1. rewrite (proj2 (Z.eqb_neq _ _) Hno). simpl.
    unfold st_bind at 1, upd_table at 1, modify at 1. rewrite Ht1, (delete_id _ _ Hun).
    unfold st_bind at 1, upd_table, modify. simpl. unfold table_insert. rewrite Hq.
    set (s2 := with_table _ _). assert (Hf2 : frame s2 f = Some pg1) by exact Hf1.
    mstep (upd_page_run _ _ _ ResetMemory Hf2).
    rewrite (upd_page_run _ f (ResetMemory pg1)) by (by eapply frame_set_eq).
    rewrite set_frame_twice. unfold set_id, ResetMemory. simpl. rewrite Hc1, Hp1.
    unfold s2. rewrite <- Ht1. by destruct s1. }
  unfold UpdatePage. mstep (page_at_run _ _ _ Hf).
  destruct (is_dirty_ pg) eqn:Hd.
  - destruct (ps_write (id_ pg) (data_ pg) (disk_manager_ s)) as [r d'] eqn:Hw.
    destruct (writeback_hand _ _ _ _ _ _ HI Hf Hd Hw) as [[-> HI1]|[Hdf ->]].
    + right. set (s1 := with_disk d' _) in HI1.
      assert (Hf1 : frame s1 f = Some (set_dirty false pg)) by exact (frame_set_eq s f _ pg Hf).
      exists s1, (set_dirty false pg). split; [split; try done; by destruct Hlo|]. split; [done|]. split; [done|].
      assert (Hwb : (upd_page f (set_dirty false) ;; write_frame f) s = (Ok tt, s1)).
      { mstep (upd_page_run _ _ _ (set_dirty false) Hf). unfold write_frame.
        mstep (page_at_run _ _ _ (frame_set_eq s f (set_dirty false pg) pg Hf)). by apply on_disk_run. }
      mstep Hwb. apply (Htail s1 (set_dirty false pg) Hf1); [done|by destruct Hlo|done].
    + left. split; [done|]. eexists. unfold st_bind at 1. mstep (upd_page_run _ _ _ (set_dirty false) Hf).
      unfold write_frame. mstep (page_at_run _ _ _ (frame_set_eq s f (set_dirty false pg) pg Hf)).
      unfold on_disk, zoom. simpl. by rewrite Hw.
  - right. exists s, pg. split; [split; try done; by destruct Hlo|]. split; [done|]. split; [done|].
    apply (Htail s pg Hf); [done|by destruct Hlo|done].
Qed.

Lemma install_eq s f q x r' d' t :
  t = page_table_ s ∨ t = <[q := f]> (page_table_ s) → page_table_ s !! q = None →
  with_replacer r' (with_table (table_insert q f t) (set_frame f (MkPage q x false 1) (with_disk d' s)))
  = install s f q x r' d'.
Proof.
  intros Ht Hq. unfold install. f_equal. f_equal. unfold table_insert.
  destruct Ht as [-> | ->]; [by rewrite Hq|]. by rewrite lookup_insert_eq.
Qed.

(** The second half of [FetchPage]: the frame has its new id, the page is read
    into it and pinned. *)
Lemma fetch_tail s a f pg q x y t :
  clean_hand s a f pg → is_live a q x → page_table_ s !! q = None → length y = page_len →
  t = page_table_ s ∨ t = <[q := f]> (page_table_ s) →
  let tail := read_frame f ;; upd_table (table_insert q f) ;; on_replacer (rp_Pin f) ;; pin_frame f ;; ret (Some f) in
  let s0 := with_table t (set_frame f (MkPage q y false 0) s) in
  (disk_failed ∧ ∃ s', tail s0 = (Throw (RedBase UnixError), s')) ∨
  ∃ r' d', tail s0 = (Ok (Some f), install s f q x r' d') ∧
    pool_inv None (install s f q x r' d')
      (MkSpec (cont a) (<[q := (f, 1)]> (held a)) (pending a) (counter a) (openp a)).
Proof.
  intros [HI Hf Hc _] Hx Hq Hy Ht tail s0.
  assert (Hcont : is_Some (cont a !! q)) by (by rewrite Hx).
  destruct (pi_open _ _ _ HI q Hcont) as [Hop Hno].
  assert (Hpage : ps_page (disk_manager_ s) q = Some x).
  { destruct (pi_store _ _ _ HI q x Hx Hq) as [?|(g & pg' & [= <-] & Hg & ? & _)]; [done|congruence]. }
  destruct (ps_read q (disk_manager_ s, y)) as [r [d' buf]] eqn:Hrd.
  destruct (ps_read_ok _ _ _ _ _ _ (pi_disk _ _ _ HI) (live_valid _ _ _ _ HI Hcont) Hy Hrd)
    as (Di & Dv & Dn & Dp & _ & Hm).
  set (s2 := s0). assert (Hf2 : frame s2 f = Some (MkPage q y false 0)) by exact (frame_set_eq s f _ pg Hf).
  destruct Hm as [[-> Hm]| ->].
  2: { left. split.
       - exists (disk_manager_ s), q. split; [by apply HI|]. split; [by eapply live_valid|]. right. by exists x, y, (d', buf).
       - eexists. unfold tail. assert (Hr2 : read_frame f s2 = (Throw (RedBase UnixError),
           set_frame f (set_page_data buf (MkPage q y false 0)) (with_disk d' s2))).
         { unfold read_frame. mstep (page_at_run _ _ _ Hf2). simpl. by rewrite Hrd. }
         by mstop Hr2. }
  rewrite Hpage in Hm. injection Hm as <-.
  right. destruct (rp_Pin_ok _ f (pi_rep _ _ _ HI)) as (r' & Hpin & Hr & He). exists r', d'.
  split.
  - unfold tail. assert (Hr2 : read_frame f s2 = (Ok tt, set_frame f (MkPage q x false 0) (with_disk d' s2))).
    { unfold read_frame. mstep (page_at_run _ _ _ Hf2). simpl. by rewrite Hrd. }
    mstep Hr2. unfold st_bind at 1, upd_table, modify. simpl.
    set (s3 := with_table _ _).
    assert (Hf3 : frame s3 f = Some (MkPage q x false 0)) by exact (frame_set_eq s2 f _ _ Hf2).
    assert (Hp3 : on_replacer (rp_Pin f) s3 = (Ok tt, with_replacer r' s3)) by (by apply on_replacer_run).
    mstep Hp3. assert (Hf4 : frame (with_replacer r' s3) f = Some (MkPage q x false 0)) by exact Hf3.
    unfold pin_frame. mstep (upd_page_run _ _ _ (λ pg, set_pins (wrap32 (pin_count_ pg + 1)) pg) Hf4).
    unfold st_ret. f_equal. rewrite <- (install_eq s f q x r' d' t Ht Hq).
    unfold s3, s2, s0, set_frame, with_replacer, with_table, with_disk, with_pages. simpl.
    by rewrite !list_insert_insert_eq.
  - rewrite <- (insert_id (cont a) q (Some x) Hx) at 1. eapply install_ok; try done.
    + unfold is_live in Hx. congruence.
    + by eapply ps_page_len.
    + set_solver.
    + right. by rewrite Dp.
    + intros fd. rewrite Dn. by apply HI.
Qed.

(** A change confined to one resident page: its frame, its entry in the
    specification, its bytes on disk and its place in the replacer. *)
Lemma update_mapped s a a' p f pg pg' r' d' :
  pool_inv None s a → page_table_ s !! p = Some f → frame s f = Some pg →
  (∀ q, q ≠ p → cont a' !! q = cont a !! q ∧ held a' !! q = held a !! q ∧ (q ∈ pending a' ↔ q ∈ pending a)) →
  counter a' = counter a → openp a' = openp a →
  id_ pg' = p → length (data_ pg') = page_len → is_live a' p (data_ pg') → pin_count_ pg' = pin_of a' p →
  (p ∈ pending a' ∨ is_dirty_ pg' = true ∨ ps_page d' p = Some (data_ pg')) →
  (∀ g n, held a' !! p = Some (g, n) → g = f ∧ 0 < n) → (p ∈ pending a' → is_Some (held a' !! p)) →
  rp_inv r' → (∀ g, g ∈ evictable r' ↔ (g ≠ f ∧ g ∈ evictable (replacer_ s)) ∨ (g = f ∧ held a' !! p = None)) →
  disk_ext p (disk_manager_ s) d' →
  pool_inv None (with_replacer r' (with_disk d' (set_frame f pg' s))) a'.
Proof.
  intros HI Hp Hf Hoff Hcnt Hopn Hid Hlen Hlive Hpins Hclean Hheld Hpend Hr He [Di Dv Dn Dp].
  set (s' := with_replacer _ _).
  assert (Hfr : ∀ g, frame s' g = if decide (f = g) then Some pg' else frame s g).
  { intros g. exact (frame_set s f pg' pg g Hf). }
  assert (Hnp : ∀ q g, page_table_ s !! q = Some g → q ≠ p → g ≠ f).
  { intros q g Hq Hne ->. by apply Hne, (mapped_inj s a None q p f). }
  assert (Hval : ∀ q, is_Some (cont a !! q) → ps_valid (disk_manager_ s) q) by (intros; by eapply live_valid).
  assert (Hpin : ∀ q, q ≠ p → pin_of a' q = pin_of a q).
  { intros q Hne. unfold pin_of. by destruct (Hoff q Hne) as (_ & -> & _). }
  destruct (pi_map _ _ _ HI p f Hp) as (pg0 & Hpg0 & [_ Bp _ _ _ Fp _]).
  destruct HI as [H1 H2 H3 H4 H5 H6 H7 H8 H9 H10 H11 H12 H13 H14 H15 H16].
  split; try done.
  - intros g pg1. rewrite Hfr. case_decide; [by intros [= <-]|apply H3].
  - intros q Hq. rewrite Hopn. apply H4. destruct (decide (q = p)) as [->|Hne]; [by rewrite Bp|].
    by destruct (Hoff q Hne) as (<- & _).
  - intros q. rewrite Hopn. simpl. by rewrite Dv.
  - intros fd. rewrite Hcnt. simpl. by rewrite Dn.
  - intros q g Hq. simpl in Hq. destruct (decide (q = p)) as [->|Hne].
    + assert (g = f) as -> by congruence. exists pg'. rewrite Hfr, decide_True by done. split; [done|].
      split; simpl; try done. intros H0. apply He. right. split; [done|].
      unfold pin_of in H0. destruct (held a' !! p) as [[g n]|] eqn:E; [|done].
      destruct (Hheld g n); [done|lia].
    + pose proof (Hnp q g Hq Hne) as Hgf. destruct (H7 q g Hq) as (pg1 & Hg & [A B C DD E F G]).
      exists pg1. rewrite Hfr, decide_False by done. split; [done|].
      destruct (Hoff q Hne) as (Ec & Eh & Ep).
      split; rewrite ?Hpin by done; unfold is_live; rewrite ?Ec, ?Ep; simpl; try done.
      * destruct DD as [?|[?|DD]]; [by left|by right; left|]. right; right. apply Dp; [done|apply Hval; by rewrite B|done].
      * intros H0. apply He. left. auto.
  - intros q x Hx Hq. simpl in Hq. assert (Hne : q ≠ p) by congruence.
    destruct (Hoff q Hne) as (Ec & _). unfold is_live in Hx. rewrite Ec in Hx. left. simpl.
    destruct (H8 q x Hx Hq) as [?|(g & pg1 & [=] & _)]. apply Dp; [done|apply Hval; by rewrite Hx|done].
  - intros g Hg. rewrite Hfr. case_decide; [done|]. by apply H10.
  - intros g pg1. rewrite Hfr. case_decide as Hfg.
    + subst g. intros _ Hu. by destruct (Hu p).
    + intros Hg Hu. destruct (H12 g pg1 Hg Hu) as [A B C]. split; [done|done|].
      destruct C as [C|[C|([=] & _)]]; [by left|]. right; left.
      assert (id_ pg1 ≠ p) as Hne by (unfold is_live in Bp; congruence).
      by destruct (Hoff _ Hne) as (-> & _).
  - intros g. simpl. rewrite He. intros [[Hne Hg]|[-> H0]].
    + destruct (H13 g Hg) as [?|[[=]|(q & Hq & Hq0)]]; [by left|]. right; right. exists q. split; [done|].
      rewrite Hpin; [done|]. intros ->. congruence.
    + right; right. exists p. split; [done|]. unfold pin_of. by rewrite H0.
  - intros q g n Hq. simpl. destruct (decide (q = p)) as [->|Hne].
    + by destruct (Hheld g n Hq) as [-> ?].
    + apply H14. by destruct (Hoff q Hne) as (_ & <- & _).
  - intros q Hq. destruct (decide (q = p)) as [->|Hne]; [auto|].
    destruct (Hoff q Hne) as (_ & -> & Ep). apply H15. by apply Ep.
  - simpl. by rewrite length_insert.
Qed.

Lemma disk_ext_refl p d : ps_inv d → disk_ext p d d.
Proof. by split. Qed.

Lemma FetchPage_ok s a p x :
  pool_inv None s a → is_live a p x → pin_of a p < int_max →
  (disk_failed ∧ ∃ s', FetchPage p s = (Throw (RedBase UnixError), s')) ∨
  (FetchPage p s = (Ok None, s) ∧ held a !! p = None ∧ free_list_ s = [] ∧ evictable (replacer_ s) = ∅) ∨
  (∃ f pg s', FetchPage p s = (Ok (Some f), s') ∧ frame s' f = Some pg ∧ data_ pg = x ∧
     (∀ g n, held a !! p = Some (g, n) → f = g) ∧
     pool_inv None s' (MkSpec (cont a) (<[p := (f, pin_of a p + 1)]> (held a)) (pending a) (counter a) (openp a))).
Proof.
  intros HI Hx Hmax. unfold FetchPage. rewrite !st_get_bind.
  destruct (page_table_ s !! p) as [f|] eqn:Hp.
  - right; right. destruct (pi_map _ _ _ HI p f Hp) as (pg & Hf & Hm).
    destruct (rp_Pin_ok _ f (pi_rep _ _ _ HI)) as (r' & Hpin & Hr & He).
    apply on_replacer_run in Hpin. mstep Hpin. unfold pin_frame.
    assert (Hf' : frame (with_replacer r' s) f = Some pg) by exact Hf.
    mstep (upd_page_run _ _ _ (λ pg, set_pins (wrap32 (pin_count_ pg + 1)) pg) Hf').
    set (pg' := set_pins _ pg). eexists f, pg', _. split; [done|].
    split; [by eapply frame_set_eq|]. destruct Hm as [A B C DD E F G].
    split; [unfold is_live in *; simpl; congruence|].
    split; [intros g n [_ Hg]%(pi_held _ _ _ HI); congruence|].
    pose proof (pin_of_pos _ _ _ p HI) as Hpos.
    apply (update_mapped s a _ p f pg pg' r' (disk_manager_ s)); simpl; try done.
    + intros q Hne. by rewrite lookup_insert_ne.
    + by apply (pi_len _ _ _ HI f).
    + unfold pin_of at 1. simpl. rewrite lookup_insert_eq, C. apply wrap32_id.
      unfold is_int, int_min, int_max in *. lia.
    + intros g n. rewrite lookup_insert_eq. intros [= <- <-]. lia.
    + by rewrite lookup_insert_eq.
    + intros g. rewrite He, lookup_insert_eq. set_solver.
    + by apply disk_ext_refl, HI.
  - assert (Hh : held a !! p = None).
    { destruct (held a !! p) as [[g n]|] eqn:E; [|done]. apply (pi_held _ _ _ HI) in E as [_ ?]. congruence. }
    assert (Hpz : pin_of a p + 1 = 1) by (unfold pin_of; by rewrite Hh). rewrite Hpz.
    destruct (FindVictimPage_ok s a HI) as [(Hv & ? & ?)|(f & pg & s1 & Hv & Hf & HI1 & Ht)].
    { right; left. by mstep Hv. }
    pose proof (Ht p Hp) as Hp1. destruct (pi_open _ _ _ HI p) as [_ Hno]; [by rewrite Hx|].
    pose proof (hand_loose _ _ _ _ HI1 Hf) as Hlo.
    mstep Hv. mstep (page_at_run _ _ _ Hf). destruct (is_dirty_ pg) eqn:Hd.
    + destruct (UpdatePage_ok s1 a f pg p HI1 Hf Hp1 Hno) as [(Hdf & s' & Hu)|(s2 & pg2 & Hc & Ht2 & _ & Hu)].
      { left. split; [done|]. exists s'. by mstop Hu. }
      mstep Hu.
      destruct (fetch_tail s2 a f pg2 p x (zeros page_len) (<[p := f]> (page_table_ s2)) Hc Hx)
        as [[Hdf [s' Hr]]|(r' & d' & Hr & HIf)];
        [congruence|by unfold zeros; rewrite length_replicate|by right|by left; eauto|].
      right; right. rewrite Hr. eexists f, _, _. split; [done|]. split; [exact (frame_set_eq s2 f _ pg2 (ch_frame _ _ _ _ Hc))|].
      split; [done|]. split; [|done]. intros g n. by rewrite Hh.
    + assert (Hc : clean_hand s1 a f pg) by (split; try done; by destruct Hlo).
      mstep (upd_page_run _ _ _ (set_id p) Hf). unfold set_id. rewrite Hd, (lo_pins _ _ _ _ _ Hlo).
      assert (Hs1 : with_table (page_table_ s1) (set_frame f (MkPage p (data_ pg) false 0) s1)
        = set_frame f (MkPage p (data_ pg) false 0) s1) by (by destruct s1).
      destruct (fetch_tail s1 a f pg p x (data_ pg) (page_table_ s1) Hc Hx Hp1) as [[Hdf [s' Hr]]|(r' & d' & Hr & HIf)];
        [by apply (pi_len _ _ _ HI1 f)|by left|rewrite Hs1 in Hr; by left; eauto|].
      right; right. rewrite Hs1 in Hr. rewrite Hr. eexists f, _, _. split; [done|]. split; [exact (frame_set_eq s1 f _ pg Hf)|].
      split; [done|]. split; [|done]. intros g n. by rewrite Hh.
Qed.

Lemma NewPage_ok s a fd :
  pool_inv None s a → allowed a (OpNew fd) →
  let q := MkPageId fd (counter a fd) in
  (disk_failed ∧ ∃ s', NewPage fd s = (Throw (RedBase UnixError), s')) ∨
  (NewPage fd s = (Ok None, s) ∧ free_list_ s = [] ∧ evictable (replacer_ s) = ∅) ∨
  (∃ f pg s', NewPage fd s = (Ok (Some (q, f)), s') ∧ frame s' f = Some pg ∧ data_ pg = zeros page_len ∧
     pool_inv None s' (after a (OpNew fd) (OutPage q f (zeros page_len)))).
Proof.
  intros HI (Hfd & Hop & Hno & Hc) q. unfold NewPage.
  destruct (FindVictimPage_ok s a HI) as [(Hv & ? & ?)|(f & pg & s1 & Hv & Hf & HI1 & Ht)].
  { right; left. by mstep Hv. }
  assert (Hq : page_table_ s !! q = None).
  { destruct (page_table_ s !! q) as [g|] eqn:E; [|done].
    destruct (pi_map _ _ _ HI q g E) as (pg' & _ & Hm). apply mo_data in Hm. unfold is_live in Hm.
    unfold q in Hm. congruence. }
  mstep Hv. destruct (ps_alloc fd (disk_manager_ s1)) as [r d1] eqn:Ha.
  destruct (ps_alloc_ok _ _ _ _ (pi_disk _ _ _ HI1) Hfd Ha) as (Di & Dv & Dp & -> & Dn & Dn').
  rewrite (pi_counter _ _ _ HI1) in Ha, Dn. apply on_disk_run in Ha. mstep Ha. cbv zeta. fold q.
  (* the allocation only moves the counter *)
  set (cnt := λ fd', if decide (fd' = fd) then wrap32 (counter a fd + 1) else counter a fd').
  set (a1 := MkSpec (cont a) (held a) (pending a) cnt (openp a)).
  assert (HI2 : pool_inv (Some f) (with_disk d1 s1) a1).
  { assert (Hcnt : ∀ fd', ps_next d1 fd' = cnt fd').
    { intros fd'. unfold cnt. case_decide; [by subst|]. rewrite Dn' by done. apply HI1. }
    destruct HI1 as [H1 H2 H3 H4 H5 H6 H7 H8 H9 H10 H11 H12 H13 H14 H15 H16]. split; try done.
    - intros p. simpl. by rewrite Dv.
    - intros p g (pg' & Hg & [A B C DD E F G])%H7. exists pg'. split; [done|].
      split; try done. simpl. by rewrite Dp.
    - intros p x Hx Hp. destruct (H8 p x Hx Hp) as [?|?]; [left; simpl; by rewrite Dp|by right].
    - intros g pg' Hg Hu. destruct (H12 g pg' Hg Hu). by split. }
  assert (Hf1 : frame (with_disk d1 s1) f = Some pg) by exact Hf.
  destruct (UpdatePage_ok _ a1 f pg q HI2 Hf1 (Ht q Hq) Hno) as [(Hdf & s' & Hu)|(s2 & pg2 & Hcl & Ht2 & _ & Hu)].
  { left. split; [done|]. exists s'. by mstop Hu. }
  right; right. mstep Hu. set (s3 := with_table _ _). destruct Hcl as [HI3 Hf2 Hd2 _].
  destruct (rp_Pin_ok _ f (pi_rep _ _ _ HI3)) as (r' & Hpin & Hr & He).
  assert (Hp3 : on_replacer (rp_Pin f) s3 = (Ok tt, with_replacer r' s3)) by (by apply on_replacer_run).
  mstep Hp3. set (s4 := with_replacer r' s3).
  assert (Hf4 : frame s4 f = Some (MkPage q (zeros page_len) false 0)) by exact (frame_set_eq s2 f _ pg2 Hf2).
  mstep (upd_page_run _ _ _ (set_pins 1) Hf4). eexists f, _, _. split; [done|].
  split; [by eapply frame_set_eq|]. split; [done|].
  assert (Hinst : set_frame f (set_pins 1 (MkPage q (zeros page_len) false 0)) s4
                  = install s2 f q (zeros page_len) r' (disk_manager_ s2)).
  { unfold install, s4, s3, set_frame, with_replacer, with_table, with_disk, with_pages. simpl.
    by rewrite list_insert_insert_eq. }
  rewrite Hinst. simpl.
  apply (install_ok s2 a1 f pg2 q (zeros page_len) r' (disk_manager_ s2)); simpl; try done; try (clear; set_solver).
  - rewrite Ht2. by apply Ht.
  - unfold q. congruence.
  - apply HI3.
  - intros fd'. by rewrite (pi_counter _ _ _ HI3).
Qed.

Lemma with_disk_id s : with_disk (disk_manager_ s) s = s.
Proof. by destruct s. Qed.

Lemma client_write_ok s a p f bs n :
  pool_inv None s a → held a !! p = Some (f, n) → length bs = page_len →
  ∃ s', client_write f bs s = (Ok tt, s') ∧ pool_inv None s' (after a (OpWrite p f bs) OutUnit).
Proof.
  intros HI Hh Hbs. destruct (pi_held _ _ _ HI _ _ _ Hh) as [Hn Hp].
  destruct (pi_map _ _ _ HI p f Hp) as (pg & Hf & [A B C DD E F G]).
  eexists. split; [by apply upd_page_run|]. set (pg' := set_page_data bs pg).
  replace (set_frame f pg' s) with (with_replacer (replacer_ s) (with_disk (disk_manager_ s) (set_frame f pg' s)))
    by (by destruct s).
  assert (Hpo : pin_of a p = n) by (unfold pin_of; by rewrite Hh).
  apply (update_mapped s a _ p f pg pg'); simpl; try done.
  - intros q Hne. rewrite lookup_insert_ne by done. split_and!; [done|done|set_solver].
  - unfold is_live. simpl. by rewrite lookup_insert_eq.
  - left. set_solver.
  - intros g m. rewrite Hh. by intros [= <- <-].
  - apply HI.
  - intros g. rewrite Hh. split; [|by intros [[? ?]|[? ?]]]. intros Hg. left. split; [|done]. intros ->.
    destruct (pi_evict _ _ _ HI f Hg) as [?|[[=]|(q & Hq & Hq0)]]; [done|].
    rewrite (mapped_inj _ _ _ _ _ _ HI Hq Hp) in Hq0. lia.
  - by apply disk_ext_refl, HI.
Qed.

Lemma evictable_held s a p f :
  pool_inv None s a → page_table_ s !! p = Some f → f ∈ evictable (replacer_ s) ↔ held a !! p = None.
Proof.
  intros HI Hp. destruct (pi_map _ _ _ HI p f Hp) as (pg & Hf & [A B C DD E F G]).
  rewrite <- (pin_of_zero _ _ _ _ HI). split; [|done]. intros Hg.
  destruct (pi_evict _ _ _ HI f Hg) as [?|[[=]|(q & Hq & Hq0)]]; [done|].
  by rewrite (mapped_inj _ _ _ _ _ _ HI Hq Hp) in Hq0.
Qed.

Lemma UnpinPage_ok s a p dirty :
  pool_inv None s a → allowed a (OpUnpinPage p dirty) →
  let b := bool_decide (is_Some (held a !! p)) in
  ∃ s', UnpinPage p dirty s = (Ok b, s') ∧ pool_inv None s' (after a (OpUnpinPage p dirty) (OutBool b)).
Proof.
  intros HI Hal b. unfold UnpinPage. rewrite !st_get_bind.
  destruct (page_table_ s !! p) as [f|] eqn:Hp.
  2: { assert (held a !! p = None) as Hn.
       { destruct (held a !! p) as [[g n]|] eqn:E; [|done]. apply (pi_held _ _ _ HI) in E as [_ ?]. congruence. }
       unfold b. rewrite Hn. rewrite bool_decide_eq_false_2 by (by intros []). by exists s. }
  destruct (pi_map _ _ _ HI p f Hp) as (pg & Hf & [A B C DD E F G]).
  mstep (page_at_run _ _ _ Hf). unfold b.
  destruct (held a !! p) as [[g n]|] eqn:Hh.
  2: { rewrite C, (proj2 (pin_of_zero _ _ _ _ HI) Hh). rewrite bool_decide_eq_false_2 by (by intros []).
       by exists s. }
  destruct (pi_held _ _ _ HI _ _ _ Hh) as [Hn Hg]. assert (g = f) as -> by congruence.
  assert (Hpo : pin_of a p = n) by (unfold pin_of; by rewrite Hh).
  rewrite bool_decide_eq_true_2 by done. rewrite C, Hpo, (proj2 (Z.ltb_lt 0 n)) by done.
  mstep (upd_page_run _ _ _ (λ pg, set_pins (pin_count_ pg - 1) pg) Hf).
  set (pg1 := set_pins _ pg). pose proof (frame_set_eq s f pg1 pg Hf) as Hf1.
  set (pg2 := MkPage (id_ pg) (data_ pg) (if dirty then true else is_dirty_ pg) (n - 1)).
  assert (H2 : (if dirty then upd_page f (set_dirty true) else ret tt) (set_frame f pg1 s)
               = (Ok tt, set_frame f pg2 s)).
  { unfold pg2, pg1. destruct dirty; [rewrite (upd_page_run _ _ _ _ Hf1), set_frame_twice|];
      unfold pg1, set_dirty, set_pins, st_ret; simpl; by rewrite C, Hpo. }
  mstep H2. pose proof (frame_set_eq s f pg2 pg Hf) as Hf2. mstep (page_at_run _ _ _ Hf2).
  simpl (pin_count_ pg2).
  destruct (rp_Unpin_ok _ f (pi_rep _ _ _ HI)) as (r' & Hun & Hr & He).
  set (rr := if n - 1 =? 0 then r' else replacer_ s).
  assert (H3 : (if n - 1 =? 0 then on_replacer (rp_Unpin f) else ret tt) (set_frame f pg2 s)
               = (Ok tt, with_replacer rr (with_disk (disk_manager_ s) (set_frame f pg2 s)))).
  { unfold rr. destruct (n - 1 =? 0); [|by destruct s].
    rewrite (on_replacer_run (rp_Unpin f) (set_frame f pg2 s) (Ok tt) r' Hun). by destruct s. }
  mstep H3. eexists. split; [done|].
  apply (update_mapped s a _ p f pg pg2); simpl; try done; rewrite ?Hh; try case_decide as H1.
  - intros q Hne. split; [done|]. split; [|destruct dirty; set_solver].
    by rewrite lookup_delete_ne.
  - intros q Hne. split; [done|]. split; [|destruct dirty; set_solver].
    by rewrite lookup_insert_ne.
  - by apply (pi_len _ _ _ HI f).
  - unfold pin_of. simpl. rewrite lookup_delete_eq. lia.
  - unfold pin_of. simpl. by rewrite lookup_insert_eq.
  - destruct dirty; [by right; left|auto].
  - intros g' m. by rewrite lookup_delete_eq.
  - intros g' m. rewrite lookup_insert_eq. intros [= <- <-]. lia.
  - rewrite lookup_delete_eq. simpl in Hal. destruct dirty; [set_solver|].
    destruct Hal as [?|[?|?]]; [done|lia|done].
  - by rewrite lookup_insert_eq.
  - unfold rr. destruct (n - 1 =? 0); [done|apply HI].
  - intros g'. unfold rr. rewrite (proj2 (Z.eqb_eq (n - 1) 0)) by lia. rewrite He, lookup_delete_eq.
    destruct (decide (g' = f)); set_solver.
  - intros g'. unfold rr. rewrite (proj2 (Z.eqb_neq (n - 1) 0)) by lia. rewrite lookup_insert_eq.
    split; [|by intros [[? ?]|[? ?]]]. intros Hg'. left. split; [|done]. intros ->.
    apply (evictable_held s a p f HI Hp) in Hg'. congruence.
  - by apply disk_ext_refl, HI.
Qed.

(** Writing a resident page back makes it clean. *)
Lemma flush_mapped s a p f pg r d' :
  pool_inv None s a → page_table_ s !! p = Some f → frame s f = Some pg →
  ps_write (id_ pg) (data_ pg) (disk_manager_ s) = (r, d') →
  (r = Ok tt ∧ ps_page d' p = Some (data_ pg) ∧ disk_ext p (disk_manager_ s) d' ∧
   pool_inv None (set_frame f (set_dirty false pg) (with_disk d' s))
     (MkSpec (cont a) (held a) (pending a ∖ {[p]}) (counter a) (openp a))) ∨
  r = Throw (RedBase UnixError).
Proof.
  intros HI Hp Hf Hw. destruct (pi_map _ _ _ HI p f Hp) as (pg' & Hf' & [A B C DD E F G]). simplify_eq.
  assert (Hc : is_Some (cont a !! id_ pg)) by (by rewrite B).
  destruct (ps_write_ext _ _ _ _ _ (pi_disk _ _ _ HI) (live_valid _ _ _ _ HI Hc) (pi_len _ _ _ HI _ _ Hf) Hw)
    as [De [[-> Hpage]| ->]]; [left; split_and!; try done|by right].
  replace (set_frame f (set_dirty false pg) (with_disk d' s))
    with (with_replacer (replacer_ s) (with_disk d' (set_frame f (set_dirty false pg) s))) by (by destruct s).
  apply (update_mapped s a _ (id_ pg) f pg (set_dirty false pg)); simpl; try done; auto.
  - intros q Hne. split_and!; [done|done|set_solver].
  - by apply (pi_len _ _ _ HI f).
  - intros g n [? ?]%(pi_held _ _ _ HI). split; [congruence|done].
  - intros ?%elem_of_difference. apply (pi_pending _ _ _ HI). naive_solver.
  - apply HI.
  - intros g. pose proof (evictable_held s a _ f HI Hp) as He.
    destruct (decide (g = f)) as [->|]; naive_solver.
Qed.

Lemma write_frame_run s f pg r d' :
  frame s f = Some pg → ps_write (id_ pg) (data_ pg) (disk_manager_ s) = (r, d') →
  write_frame f s = (r, with_disk d' s).
Proof.
  intros Hf Hw. unfold write_frame. mstep (page_at_run _ _ _ Hf). by apply on_disk_run.
Qed.

Lemma FlushPage_ok s a p :
  pool_inv None s a →
  (∃ s', FlushPage p s = (Throw (RedBase UnixError), s')) ∨
  (∃ b s', FlushPage p s = (Ok b, s') ∧ b = bool_decide (is_Some (page_table_ s !! p)) ∧
     (b = true → ∃ x, is_live a p x ∧ ps_page (disk_manager_ s') p = Some x) ∧
     pool_inv None s' (after a (OpFlush p) (OutBool b))).
Proof.
  intros HI. unfold FlushPage. rewrite !st_get_bind.
  destruct (page_table_ s !! p) as [f|] eqn:Hp.
  2: { right. exists false, s. split; [done|].
       rewrite bool_decide_eq_false_2 by (by intros []). by split_and!. }
  destruct (pi_map _ _ _ HI p f Hp) as (pg & Hf & Hm).
  destruct (ps_write (id_ pg) (data_ pg) (disk_manager_ s)) as [r d'] eqn:Hw.
  pose proof (write_frame_run _ _ _ _ _ Hf Hw) as Hwf.
  destruct (flush_mapped _ _ _ _ _ _ _ HI Hp Hf Hw) as [(-> & Hpage & _ & HI')| ->].
  - right. mstep Hwf.
    assert (Hf' : frame (with_disk d' s) f = Some pg) by exact Hf.
    mstep (upd_page_run _ _ _ (set_dirty false) Hf'). eexists true, _. split; [done|].
    rewrite bool_decide_eq_true_2 by done. split; [done|]. split; [|done].
    intros _. exists (data_ pg). by destruct Hm.
  - left. eexists. by mstop Hwf.
Qed.

Lemma DeletePage_ok s a p x :
  pool_inv None s a → is_live a p x →
  let b := negb (bool_decide (is_Some (held a !! p))) in
  ∃ s', DeletePage p s = (Ok b, s') ∧ pool_inv None s' (after a (OpDelete p) (OutBool b)).
Proof.
  intros HI Hx b. unfold DeletePage.
  assert (Hde : on_disk (ps_dealloc (pid_no p)) s = (Ok tt, s)).
  { rewrite (on_disk_run _ s _ _ (ps_dealloc_ok (pid_no p) (disk_manager_ s))). by rewrite with_disk_id. }
  mstep Hde. rewrite st_get_bind.
  assert (Hlive : ∀ q, cont (after a (OpDelete p) (OutBool true)) !! q
                       = if decide (p = q) then Some None else cont a !! q).
  { intros q. simpl. rewrite lookup_insert. done. }
  destruct (page_table_ s !! p) as [f|] eqn:Hp.
  2: { assert (held a !! p = None) as Hn.
       { destruct (held a !! p) as [[g n]|] eqn:E; [|done]. apply (pi_held _ _ _ HI) in E as [_ ?]. congruence. }
       unfold b. rewrite Hn. rewrite bool_decide_eq_false_2 by (by intros []). exists s. split; [done|].
       destruct HI as [H1 H2 H3 H4 H5 H6 H7 H8 H9 H10 H11 H12 H13 H14 H15 H16]. split; try done.
       - intros q. rewrite Hlive. case_decide as Hq; [intros _; subst; apply H4; by rewrite Hx|apply H4].
       - intros q g Hq. destruct (H7 q g Hq) as (pg & Hg & [A B C DD E F G]). exists pg. split; [done|].
         split; try done. unfold is_live. rewrite Hlive, decide_False; [done|congruence].
       - intros q y. unfold is_live. rewrite Hlive. case_decide; [done|]. apply H8.
       - intros g pg Hg Hu. destruct (H12 g pg Hg Hu) as [A B C]. split; [done|done|].
         rewrite Hlive. destruct C as [C|[C|([=] & _)]]; [auto|]. right; left. by case_decide. }
  destruct (pi_map _ _ _ HI p f Hp) as (pg & Hf & Hm). mstep (page_at_run _ _ _ Hf).
  unfold b. destruct (held a !! p) as [[g n]|] eqn:Hh.
  { destruct (pi_held _ _ _ HI _ _ _ Hh) as [Hn _]. rewrite (mo_pins _ _ _ _ _ _ Hm).
    unfold pin_of. rewrite Hh, (proj2 (Z.ltb_lt 0 n)) by done. rewrite bool_decide_eq_true_2 by done. by exists s. }
  assert (Hpin : pin_count_ pg = 0).
  { rewrite (mo_pins _ _ _ _ _ _ Hm). unfold pin_of. by rewrite Hh. }
  rewrite Hpin. change (0 <? 0) with false. cbv iota. rewrite bool_decide_eq_false_2 by (by intros []).
  set (s1 := with_table (delete p (page_table_ s)) s).
  assert (Hu1 : upd_table (delete p) s = (Ok tt, s1)) by done. mstep Hu1. assert (Hf1 : frame s1 f = Some pg) by exact Hf.
  mstep (upd_page_run _ _ _ ResetMemory Hf1).
  set (s2 := with_free (free_list_ s ++ [f]) (set_frame f (ResetMemory pg) s1)). exists s2. split; [done|].
  assert (Hfr : ∀ g, frame s2 g = if decide (f = g) then Some (ResetMemory pg) else frame s g).
  { intros g. exact (frame_set s1 f (ResetMemory pg) pg g Hf1). }
  assert (Hnp : ∀ q g, page_table_ s !! q = Some g → q ≠ p → g ≠ f).
  { intros q g Hq Hne ->. by apply Hne, (mapped_inj s a None q p f). }
  destruct Hm as [A B C DD E F G].
  destruct HI as [H1 H2 H3 H4 H5 H6 H7 H8 H9 H10 H11 H12 H13 H14 H15 H16]. split; try done.
  - intros g pg'. rewrite Hfr. case_decide; [intros [= <-]; apply length_replicate|apply H3].
  - intros q. rewrite Hlive. case_decide as Hq; [intros _; subst; apply H4; by rewrite Hx|apply H4].
  - intros q g. simpl. rewrite lookup_delete. case_decide as Hqp; [done|]. intros Hq.
    pose proof (Hnp q g Hq ltac:(done)) as Hgf.
    destruct (H7 q g Hq) as (pg' & Hg & [A' B' C' DD' E' F' G']). exists pg'.
    rewrite Hfr, decide_False by done. split; [done|]. split; try done.
    + unfold is_live. rewrite Hlive. by rewrite decide_False.
    + simpl. rewrite elem_of_app, list_elem_of_singleton. naive_solver.
  - intros q y. unfold is_live. rewrite Hlive. case_decide as Hqp; [done|]. intros Hy. simpl.
    rewrite lookup_delete_ne by done. intros Hq.
    destruct (H8 q y Hy Hq) as [?|(g & pg' & [=] & _)]. by left.
  - simpl. apply NoDup_app. split_and!; [done| |apply NoDup_singleton]. set_solver.
  - intros g [Hg|[=]]. simpl in Hg. rewrite Hfr. case_decide; [done|]. apply H10. set_solver.
  - intros g pg'. rewrite Hfr. case_decide as Hfg.
    + subst g. intros [= <-] _. split; [done|left; simpl; set_solver|]. right; left.
      simpl. rewrite A. by rewrite lookup_insert_eq.
    + intros Hg Hu. destruct (H12 g pg' Hg) as [A' [B'|[=]] C'].
      { intros q Hq. destruct (decide (q = p)) as [->|Hne]; [congruence|].
        apply (Hu q). simpl. by rewrite lookup_delete_ne. }
      split; [done|left; simpl; set_solver|]. rewrite Hlive.
      destruct C' as [C'|[C'|([=] & _)]]; [auto|]. right; left. by case_decide.
  - intros g Hg. simpl in *. destruct (H13 g Hg) as [?|[[=]|(q & Hq & Hq0)]]; [set_solver|].
    destruct (decide (q = p)) as [->|Hne]; [left; assert (g = f) by congruence; set_solver|].
    right; right. exists q. rewrite lookup_delete_ne by done. done.
  - intros q g n Hq. destruct (H14 q g n Hq) as [? Ht]. split; [done|]. simpl.
    rewrite lookup_delete_ne; [done|]. intros ->. simpl in Hq. congruence.
  - simpl. by rewrite length_insert.
Qed.

(** ** FlushAllPages *)

Definition with_pending (P : gset PageId) (a : spec_state) : spec_state :=
  MkSpec (cont a) (held a) P (counter a) (openp a).

(** What flushing the frames [l] achieves: the table is untouched, the pages of
    [fd] they hold are on disk and no longer pending, nothing on disk is lost. *)
Record flushed (fd : Z) (l : list Z) (s : BPM) (a : spec_state) (s' : BPM) (P : gset PageId) : Prop := {
  fl_inv : pool_inv None s' (with_pending P a);
  fl_table : page_table_ s' = page_table_ s;
  fl_frames g : is_Some (frame s g) → is_Some (frame s' g);
  fl_sub : P ⊆ pending a;
  fl_other p : p ∈ pending a → pid_fd p ≠ fd → p ∈ P;
  fl_done i p : i ∈ l → page_table_ s !! p = Some i → pid_fd p = fd →
    ¬ (p ∈ P) ∧ ∃ x, is_live a p x ∧ ps_page (disk_manager_ s') p = Some x;
  fl_keep p x : is_live a p x → is_Some (page_table_ s !! p) →
    ps_page (disk_manager_ s) p = Some x → ps_page (disk_manager_ s') p = Some x
}.

(** A free frame that still carries a file's page id is written too, over a
    page that was deleted. *)
Lemma flush_loose s a f pg r d' :
  pool_inv None s a → frame s f = Some pg → (∀ p, page_table_ s !! p ≠ Some f) →
  pid_no (id_ pg) ≠ INVALID_PAGE_ID →
  ps_write (id_ pg) (data_ pg) (disk_manager_ s) = (r, d') →
  cont a !! id_ pg = Some None ∧ disk_ext (id_ pg) (disk_manager_ s) d' ∧
  ((r = Ok tt ∧ pool_inv None (set_frame f (set_dirty false pg) (with_disk d' s)) a) ∨
   r = Throw (RedBase UnixError)).
Proof.
  intros HI Hf Hu Hno Hw. pose proof (pi_loose _ _ _ HI f pg Hf Hu) as Hlo.
  assert (Hdead : cont a !! id_ pg = Some None).
  { destruct (lo_id _ _ _ _ _ Hlo) as [[? _]|[?|([=] & _)]]; done. }
  assert (Hc : is_Some (cont a !! id_ pg)) by (by rewrite Hdead).
  destruct (ps_write_ext _ _ _ _ _ (pi_disk _ _ _ HI) (live_valid _ _ _ _ HI Hc) (pi_len _ _ _ HI _ _ Hf) Hw)
    as [De Hr]. split; [done|]. split; [done|]. destruct De as [Di Dv Dn Dp].
  destruct Hr as [[-> Hpage]| ->]; [left; split; [done|]|by right].
  set (s' := set_frame _ _ _).
  assert (Hfr : ∀ g, frame s' g = if decide (f = g) then Some (set_dirty false pg) else frame s g).
  { intros g. exact (frame_set (with_disk d' s) f (set_dirty false pg) pg g Hf). }
  assert (Hval : ∀ q x, is_live a q x → q ≠ id_ pg ∧ ps_valid (disk_manager_ s) q).
  { intros q x Hq. split; [intros ->; unfold is_live in Hq; congruence|].
    eapply live_valid; [done|]. by rewrite Hq. }
  destruct HI as [H1 H2 H3 H4 H5 H6 H7 H8 H9 H10 H11 H12 H13 H14 H15 H16]. split; try done.
  - intros g pg'. rewrite Hfr. case_decide; [intros [= <-]; exact (H3 f pg Hf)|apply H3].
  - intros p. simpl. by rewrite Dv.
  - intros fd. simpl. by rewrite Dn.
  - intros p g Hp. destruct (H7 p g Hp) as (pg' & Hg & [A B C DD E F G]). exists pg'. rewrite Hfr.
    case_decide as Hfg; [exfalso; apply (Hu p); congruence|]. split; [done|]. split; simpl; try done.
    destruct DD as [?|[?|DD]]; [by left|by right; left|]. right; right.
    destruct (Hval _ _ B). by apply Dp.
  - intros p x Hx Hp. left. simpl. destruct (Hval _ _ Hx).
    destruct (H8 p x Hx Hp) as [?|(g & pg' & [=] & _)]. by apply Dp.
  - intros g Hg. rewrite Hfr. case_decide; [done|]. by apply H10.
  - intros g pg'. rewrite Hfr. case_decide as Hfg; [intros [= <-] _; subst|].
    + destruct Hlo as [A B C]. split; [done|done|]. by right; left.
    + intros Hg Hu'. by apply (loose_ok_same _ s), H12.
  - simpl. by rewrite length_insert.
Qed.

Lemma flush_one_ok s a fd i pg :
  pool_inv None s a → frame s i = Some pg →
  (∃ s', flush_one fd i s = (Throw (RedBase UnixError), s')) ∨
  (∃ s' P, flush_one fd i s = (Ok tt, s') ∧ flushed fd [i] s a s' P).
Proof.
  intros HI Hf. unfold flush_one. mstep (page_at_run _ _ _ Hf).
  assert (Hsame : pid_fd (id_ pg) ≠ fd ∨ pid_no (id_ pg) = INVALID_PAGE_ID →
                  flushed fd [i] s a s (pending a)).
  { intros Hcase. split; try done; [by destruct a|].
    intros j p ->%list_elem_of_singleton Hp Hfd. exfalso.
    destruct (pi_map _ _ _ HI p i Hp) as (pg' & Hf' & [A B C DD E F G]). simplify_eq.
    destruct (pi_open _ _ _ HI (id_ pg)) as [_ ?]; [by rewrite B|]. by destruct Hcase. }
  destruct (Z.eqb_spec (pid_fd (id_ pg)) fd) as [Hfd|Hfd];
    [|right; exists s, (pending a); split; [done|]; apply Hsame; by left].
  destruct (Z.eqb_spec (pid_no (id_ pg)) INVALID_PAGE_ID) as [Hno|Hno];
    [right; exists s, (pending a); split; [done|]; apply Hsame; by right|].
  simpl. destruct (ps_write (id_ pg) (data_ pg) (disk_manager_ s)) as [r d'] eqn:Hw.
  pose proof (write_frame_run _ _ _ _ _ Hf Hw) as Hwf.
  assert (Hf' : frame (with_disk d' s) i = Some pg) by exact Hf.
  assert (Hfr : ∀ g, is_Some (frame s g) → is_Some (frame (set_frame i (set_dirty false pg) (with_disk d' s)) g)).
  { intros g Hg. rewrite (frame_set _ _ _ _ _ Hf'). by case_decide. }
  pose proof (mapped_or_loose _ _ _ _ _ HI Hf) as Hcase.
  destruct Hcase as [Hp|Hu].
  - destruct (flush_mapped _ _ _ _ _ _ _ HI Hp Hf Hw) as [(-> & Hpage & De & HI')| ->].
    2: { left. eexists. by mstop Hwf. }
    right. mstep Hwf. rewrite (upd_page_run _ _ _ (set_dirty false) Hf').
    destruct (pi_map _ _ _ HI _ i Hp) as (pg' & ? & [A B C DD E F G]). simplify_eq.
    eexists _, (pending a ∖ {[id_ pg]}). split; [done|]. split; try done.
    + set_solver.
    + intros p Hpend Hne. apply elem_of_difference. split; [done|]. intros ->%elem_of_singleton. done.
    + intros j p ->%list_elem_of_singleton Hp' _.
      rewrite (mapped_inj _ _ _ _ _ _ HI Hp' Hp). split; [set_solver|]. by exists (data_ pg).
    + intros p x Hx _ Hpx. simpl. destruct (decide (p = id_ pg)) as [->|Hne].
      * rewrite Hpage. unfold is_live in *. congruence.
      * apply De; [done| |done]. eapply live_valid; [done|]. by rewrite Hx.
  - destruct (flush_loose _ _ _ _ _ _ HI Hf Hu Hno Hw) as (Hdead & De & [[-> HI']| ->]).
    2: { left. eexists. by mstop Hwf. }
    right. mstep Hwf. rewrite (upd_page_run _ _ _ (set_dirty false) Hf').
    eexists _, (pending a). split; [done|]. split; try done.
    + by destruct a.
    + intros j p ->%list_elem_of_singleton Hp' _. by destruct (Hu p).
    + intros p x Hx _ Hpx. simpl. apply De; [|eapply live_valid; [done|by rewrite Hx]|done].
      intros ->. unfold is_live in Hx. congruence.
Qed.

Lemma flush_loop fd l s a :
  pool_inv None s a → (∀ i, i ∈ l → is_Some (frame s i)) →
  (∃ s', st_iter (flush_one fd) l s = (Throw (RedBase UnixError), s')) ∨
  (∃ s' P, st_iter (flush_one fd) l s = (Ok tt, s') ∧ flushed fd l s a s' P).
Proof.
  revert s a. induction l as [|i l IH]; intros s a HI Hl; simpl.
  { right. exists s, (pending a). split; [done|]. split; try done; [by destruct a|]. by intros ? ? ?%not_elem_of_nil. }
  destruct (Hl i) as [pg Hpg]; [set_solver|].
  destruct (flush_one_ok s a fd i pg HI Hpg) as [[s' Ht]|(s1 & P1 & H1 & F1)].
  { left. exists s'. by mstop Ht. }
  mstep H1. destruct F1 as [A1 B1 C1 D1 E1 G1 K1].
  destruct (IH s1 (with_pending P1 a) A1) as [[s' Ht]|(s2 & P2 & H2 & F2)].
  { intros j Hj. apply C1, Hl. set_solver. }
  { left. by exists s'. }
  right. exists s2, P2. split; [done|]. destruct F2 as [A2 B2 C2 D2 E2 G2 K2]. rewrite B1 in *.
  split; simpl in *; try done; auto.
  - set_solver.
  - intros j p [->|Hj]%elem_of_cons Hp Hfd; [|by apply (G2 j)].
    destruct (G1 i p) as (Hn & x & Hx & Hpage); [set_solver|done|done|].
    split; [set_solver|]. exists x. split; [done|]. apply K2; [done|by eexists|done].
Qed.

Lemma frame_seq s a hand f :
  pool_inv hand s a → is_Some (frame s f) ↔ f ∈ Z.of_nat <$> seq 0 (pool_size_ s).
Proof.
  intros HI. rewrite list_elem_of_fmap. setoid_rewrite elem_of_seq. rewrite <- (pi_size _ _ _ HI). split.
  - intros [pg Hr%frame_range]. exists (Z.to_nat f). lia.
  - intros (n & -> & Hn). unfold frame. rewrite (proj2 (Z.leb_le _ _)) by lia. rewrite Nat2Z.id.
    apply lookup_lt_is_Some_2. lia.
Qed.

Lemma FlushAllPages_ok s a fd :
  pool_inv None s a →
  (∃ s', FlushAllPages fd s = (Throw (RedBase UnixError), s')) ∨
  (∃ s', FlushAllPages fd s = (Ok tt, s') ∧ pool_inv None s' (after a (OpFlushAll fd) OutUnit) ∧
         ∀ p x, is_live a p x → pid_fd p = fd → ps_page (disk_manager_ s') p = Some x).
Proof.
  intros HI. unfold FlushAllPages. rewrite !st_get_bind.
  destruct (flush_loop fd (Z.of_nat <$> seq 0 (pool_size_ s)) s a HI) as [?|(s' & P & Hr & F)]; [|by left|].
  { intros i Hi. by eapply frame_seq. }
  right. exists s'. split; [done|]. destruct F as [A B C E G K L].
  assert (Hmap : ∀ p g, page_table_ s !! p = Some g → g ∈ Z.of_nat <$> seq 0 (pool_size_ s)).
  { intros p g (pg & Hg & _)%(pi_map _ _ _ HI). rewrite <- (frame_seq _ _ _ _ HI). by eexists. }
  split.
  - assert (P = filter (λ p, pid_fd p ≠ fd) (pending a)) as HP; [|by rewrite HP in A].
    apply set_eq. intros p. rewrite elem_of_filter. split; [|by intros [? ?]; apply G].
    intros Hp. pose proof (E p Hp) as Hpa. split; [|done]. intros Hfd.
    destruct (pi_pending _ _ _ HI p Hpa) as [[g n] Hh]. destruct (pi_held _ _ _ HI _ _ _ Hh) as [_ Hg].
    by destruct (K g p (Hmap p g Hg) Hg Hfd) as [? _].
  - intros p x Hx Hfd. destruct (page_table_ s !! p) as [g|] eqn:Hg.
    + destruct (K g p (Hmap p g Hg) Hg Hfd) as (_ & y & Hy & ?). unfold is_live in *. congruence.
    + assert (is_live (with_pending P a) p x) as Hx' by exact Hx.
      destruct (pi_store _ _ _ A p x Hx') as [?|(f & pg & [=] & _)]; [by rewrite B|done].
Qed.

(** ** No frame left *)

Lemma no_victim s :
  free_list_ s = [] → evictable (replacer_ s) = ∅ → rp_inv (replacer_ s) → ∃ s1, FindVictimPage s = (Ok None, s1).
Proof.
  intros Hfree Hev Hr. unfold FindVictimPage. rewrite st_get_bind, Hfree.
  destruct (rp_Victim_ok _ Hr) as [[Hw _]|(g & r' & _ & _ & Hg & _)]; [|rewrite Hev in Hg; set_solver].
  apply on_replacer_run in Hw. mstep Hw. by eexists.
Qed.

Lemma all_pinned_iff s a :
  pool_inv None s a → all_pinned s a ↔ free_list_ s = [] ∧ evictable (replacer_ s) = ∅.
Proof.
  intros HI. split.
  - intros Hall.
    assert (Hmap : ∀ f, is_Some (frame s f) → ∃ p n, held a !! p = Some (f, n) ∧ page_table_ s !! p = Some f).
    { intros f [pg Hr%frame_range]. rewrite (pi_size _ _ _ HI) in Hr. destruct (Hall f Hr) as (p & n & Hh).
      exists p, n. split; [done|]. by apply (pi_held _ _ _ HI) in Hh as [_ ?]. }
    assert (Hfree : free_list_ s = []).
    { destruct (free_list_ s) as [|f l] eqn:E; [done|].
      destruct (Hmap f) as (p & n & _ & Hp); [apply (pi_range _ _ _ HI); left; rewrite E; set_solver|].
      destruct (pi_map _ _ _ HI _ _ Hp) as (pg & _ & [_ _ _ _ _ F _]). rewrite E in F. set_solver. }
    split; [done|]. apply set_eq. intros f. split; [|by intros ?%elem_of_empty]. intros Hf.
    destruct (pi_evict _ _ _ HI f Hf) as [Hx|[[=]|(p & Hp & H0)]]; [rewrite Hfree in Hx; set_solver|].
    destruct (pi_map _ _ _ HI _ _ Hp) as (pg & Hpg & _). destruct (Hmap f) as (q & n & Hq & Hq'); [by eexists|].
    rewrite (mapped_inj _ _ _ _ _ _ HI Hp Hq') in H0. apply (pin_of_zero _ _ _ _ HI) in H0. congruence.
  - intros [Hfree Hev] f Hf. destruct (proj2 (frame_seq _ _ _ f HI)) as [pg Hpg].
    { apply list_elem_of_fmap. exists (Z.to_nat f). rewrite elem_of_seq. lia. }
    destruct (mapped_or_loose _ _ _ _ _ HI Hpg) as [Hp|Hn].
    2: { destruct (lo_where _ _ _ _ _ (pi_loose _ _ _ HI f pg Hpg Hn)) as [Hx|[=]].
         rewrite Hfree in Hx. set_solver. }
    set (p := id_ pg) in *. exists p. destruct (held a !! p) as [[g n]|] eqn:Hh.
    + destruct (pi_held _ _ _ HI _ _ _ Hh) as [_ ?]. exists n. by simplify_eq.
    + apply (evictable_held s a p f HI Hp) in Hh. rewrite Hev in Hh. set_solver.
Qed.

(** ** The pool implements its specification *)

Lemma frame_new fd_of n (d : D) f pg :
  frame (new_BufferPoolManager (R := R) fd_of n d) f = Some pg →
  0 ≤ f < Z.of_nat n ∧ ∃ fd, pg = new_Page fd.
Proof.
  unfold frame. simpl. destruct (Z.leb_spec 0 f); [|done]. rewrite !list_lookup_fmap.
  destruct (seq 0 n !! Z.to_nat f) as [i|] eqn:E; [|done]. intros [= <-].
  apply lookup_seq in E. split; [lia|]. by eexists.
Qed.

Lemma new_pool_inv fd_of n d a : initial d a → pool_inv None (new_BufferPoolManager fd_of n d) a.
Proof.
  intros [I1 I2 I3 I4 I5 I6].
  assert (Hlen : length (pages_ (new_BufferPoolManager (R := R) fd_of n d)) = n).
  { simpl. by rewrite !length_fmap, length_seq. }
  assert (Hfree : ∀ f, f ∈ Z.of_nat <$> seq 0 n ↔ 0 ≤ f < Z.of_nat n).
  { intros f. rewrite list_elem_of_fmap. setoid_rewrite elem_of_seq. split.
    - intros (i & -> & ?). lia.
    - intros ?. exists (Z.to_nat f). lia. }
  destruct (rp_new_ok (Z.of_nat n)) as [Hr He].
  split; simpl; try done.
  - intros f pg (_ & fd & ->)%frame_new. apply length_replicate.
  - intros p [y Hy]. destruct (I6 p y Hy) as (? & ? & _). done.
  - intros p x Hx _. left. destruct (I6 p _ Hx) as (_ & _ & ? & [= <-] & ?). done.
  - apply NoDup_fmap; [apply _|apply NoDup_seq].
  - intros f [Hf%Hfree|[=]]. unfold frame. rewrite (proj2 (Z.leb_le 0 f)) by lia.
    apply lookup_lt_is_Some_2. rewrite Hlen. lia.
  - intros f pg (Hf & fd & ->)%frame_new _. split; simpl; [done| |by left]. left. by apply Hfree.
  - intros f. rewrite He. by intros ?%elem_of_empty.
  - intros p f m. by rewrite I2, lookup_empty.
  - intros p. rewrite I3. by intros ?%elem_of_empty.
Qed.

Lemma pool_exec_ok s a op :
  pool_inv None s a → allowed a op →
  (∃ out s', pool_exec op s = (Ok out, s') ∧ promised a op out ∧ pool_inv None s' (after a op out)) ∨
  (∃ s', pool_exec op s = (Throw (RedBase UnixError), s')).
Proof.
  intros HI Hal. destruct op as [p|fd|p f bs|p dirty|p|p|fd]; unfold pool_exec.
  - destruct Hal as [[x Hx] Hmax].
    destruct (FetchPage_ok s a p x HI Hx Hmax)
      as [(_ & s' & H)|[(H & Hh & _)|(f & pg & s' & H & Hf & <- & Hpt & HI')]].
    + right. exists s'. by mstop H.
    + left. mstep H. eexists _, s. split; [done|]. split; [left; done|done].
    + left. mstep H. mstep (page_at_run _ _ _ Hf). eexists _, s'. split; [done|].
      split; [right; eexists f, _; done|done].
  - destruct (NewPage_ok s a fd HI Hal) as [(_ & s' & H)|[(H & _)|(f & pg & s' & H & Hf & Hz & HI')]].
    + right. exists s'. by mstop H.
    + left. mstep H. eexists _, s. split; [done|]. split; [by left|done].
    + left. mstep H. mstep (page_at_run _ _ _ Hf). rewrite Hz. eexists _, s'. split; [done|].
      split; [right; by exists f|done].
  - destruct Hal as [[n Hn] Hbs]. destruct (client_write_ok s a p f bs n HI Hn Hbs) as (s' & H & HI').
    left. mstep H. by eexists _, s'.
  - destruct (UnpinPage_ok s a p dirty HI Hal) as (s' & H & HI'). left. mstep H. by eexists _, s'.
  - destruct (FlushPage_ok s a p HI) as [[s' H]|(b & s' & H & Hb & _ & HI')].
    + right. exists s'. by mstop H.
    + left. mstep H. eexists _, s'. split; [done|]. split; [|done]. eexists. split; [done|].
      intros [[f n] Hh]. destruct (pi_held _ _ _ HI _ _ _ Hh) as [_ Hp].
      subst b. rewrite Hp. by apply bool_decide_eq_true_2.
  - destruct Hal as [x Hx]. destruct (DeletePage_ok s a p x HI Hx) as (s' & H & HI').
    left. mstep H. by eexists _, s'.
  - destruct (FlushAllPages_ok s a fd HI) as [[s' H]|(s' & H & HI' & _)].
    + right. exists s'. by mstop H.
    + left. mstep H. by eexists _, s'.
Qed.

Lemma reach_inv s a : reach s a → pool_inv None s a.
Proof.
  induction 1 as [fd_of n d a Hi|s a op out s' Hr IH Hal He]; [by apply new_pool_inv|].
  destruct (pool_exec_ok s a op IH Hal) as [(out' & s1 & H & _ & HI')|[s1 H]]; rewrite He in H; by simplify_eq.
Qed.

(** [C1] The buffer pool is a store of pages.  In every state a client obeying
    the contract can reach, over any disk and any replacer that keep their
    promises, every allowed call either answers as the specification promises
    ([FetchPage] delivers the last bytes written to that page, wherever they
    are, and a page that is held stays in its frame; [NewPage] delivers a zeroed
    page with the next number; [UnpinPage], [FlushPage] and [DeletePage] return
    exactly what their comments say) or throws the disk's [UnixError]; it never
    indexes outside the frames. *)
Theorem pool_refines_spec s a op :
  reach s a → allowed a op →
  (∃ out s', pool_exec op s = (Ok out, s') ∧ promised a op out ∧ reach s' (after a op out)) ∨
  (∃ s', pool_exec op s = (Throw (RedBase UnixError), s')).
Proof.
  intros Hr Hal. destruct (pool_exec_ok s a op (reach_inv _ _ Hr) Hal) as [(out & s' & H & Hp & _)|?]; [|by right].
  left. exists out, s'. split; [done|]. split; [done|]. by eapply reach_step.
Qed.

(** [C18] Two held pages never share a frame, so a write through one page's
    pointer cannot reach another page, and each holder's pin count is the one in
    the frame. *)
Theorem held_pages_disjoint s a p q f n m :
  reach s a → held a !! p = Some (f, n) → held a !! q = Some (f, m) →
  p = q ∧ ∃ pg, frame s f = Some pg ∧ id_ pg = p ∧ pin_count_ pg = n ∧ 0 < n.
Proof.
  intros HI%reach_inv Hp Hq. destruct (pi_held _ _ _ HI _ _ _ Hp) as [Hn Tp], (pi_held _ _ _ HI _ _ _ Hq) as [_ Tq].
  split; [by eapply mapped_inj|]. destruct (pi_map _ _ _ HI _ _ Tp) as (pg & Hf & [A B C DD E F G]).
  exists pg. split; [done|]. split; [done|]. split; [|done]. rewrite C. unfold pin_of. by rewrite Hp.
Qed.

(** [C19] [NewPage] answers [nullptr] exactly when every frame holds a pinned
    page, and a [NewPage] that answers [nullptr] has changed nothing. *)
Theorem NewPage_null_iff_all_pinned s a fd :
  reach s a → allowed a (OpNew fd) →
  ((NewPage fd s).1 = Ok None ↔
   ∀ f, 0 ≤ f < Z.of_nat (pool_size_ s) → ∃ p n, held a !! p = Some (f, n)) ∧
  ((NewPage fd s).1 = Ok None → (NewPage fd s).2 = s).
Proof.
  intros HI%reach_inv Hal. change (∀ f, _ → _) with (all_pinned s a).
  destruct (NewPage_ok s a fd HI Hal) as [(_ & s' & H)|[(H & Hfree & Hev)|(f & pg & s' & H & _)]]; rewrite H; simpl.
  1,3: split; [|done]; split; [done|]; intros [Hfree Hev]%(all_pinned_iff _ _ HI);
    destruct (no_victim s Hfree Hev (pi_rep _ _ _ HI)) as [s1 Hv]; unfold NewPage in H; mstep Hv in H; discriminate.
  split; [|done]. split; [|done]. intros _. by apply (all_pinned_iff _ _ HI).
Qed.

(** [C17] [FlushAllPages(fd)] makes the file durable: when it returns, every page
    of the file that exists has its current contents on disk, pinned or not. *)
Theorem FlushAllPages_durable s a fd s' p x :
  reach s a → FlushAllPages fd s = (Ok tt, s') →
  cont a !! p = Some (Some x) → pid_fd p = fd →
  ps_page (disk_manager_ s') p = Some x.
Proof.
  intros HI%reach_inv H Hx Hfd.
  destruct (FlushAllPages_ok s a fd HI) as [[s1 H1]|(s1 & H1 & _ & Hd)]; rewrite H in H1; simplify_eq.
  by apply Hd.
Qed.

End Spec.
