(* ===== verification/PoolRuns.v ===== *)
(** The buffer pool over the modelled disk manager and the LRU replacer: the
    instances of its theorems on a small pool, and two runs outside its
    contract. *)
From S2P Require Import Prelude Config Posix PageStore Disk Replacer BufferPool PoolSpec.

#[local] Existing Instance MemFS.mem_posix.

Module PoolRuns.

Abbreviation pool := (BufferPoolManager (DiskManager fs_view) LRUReplacer).

(** One open file, descriptor 3. *)
Definition disk : DiskManager fs_view :=
  disk_run [DCreateFile "t"; DOpenFile "t"] (new_DiskManager MemFS.empty_fs).

Lemma disk_ok : disk_inv disk.
Proof. apply disk_run_inv; [by vm_compute|]. apply new_DiskManager_inv, MemFS.empty_plain. Qed.

Definition a0 : spec_state := MkSpec ∅ ∅ ∅ (ps_next disk) (ps_valid disk).

Lemma initial_a0 : initial disk a0.
Proof. split; try done. apply disk_ok. Qed.

(** A pool of two frames; page [(3,0)] is created, filled, released dirty, and
    page [(3,1)] is created and kept. *)
Definition p0 : PageId := MkPageId 3 0.
Definition p1 : PageId := MkPageId 3 1.
Definition page7 : bytes := replicate page_len 7.
Definition s0 : pool := new_BufferPoolManager (λ _, 3) 2 disk.

Definition next (op : pool_op) (s : pool) : pool := (pool_exec op s).2.
Definition answer (op : pool_op) (s : pool) : pool_out :=
  match (pool_exec op s).1 with Ok out => out | _ => OutNull end.

Definition s1 := next (OpNew 3) s0.
Definition s2 := next (OpWrite p0 0 page7) s1.
Definition s3 := next (OpUnpinPage p0 true) s2.
Definition s4 := next (OpNew 3) s3.
Definition a1 := after a0 (OpNew 3) (answer (OpNew 3) s0).
Definition a2 := after a1 (OpWrite p0 0 page7) OutUnit.
Definition a3 := after a2 (OpUnpinPage p0 true) (OutBool true).
Definition a4 := after a3 (OpNew 3) (answer (OpNew 3) s3).

Lemma valid_3 n : page_no_ok n → ps_valid disk (MkPageId 3 n).
Proof. intros H. split; [by eexists|exact H]. Qed.

Lemma reach_s1 : reach s1 a1.
Proof.
  eapply reach_step; [apply (reach_new (λ _, 3) 2 disk a0 initial_a0)| |by vm_compute].
  split_and!; [done|by apply valid_3|done|done].
Qed.

Lemma reach_s2 : reach s2 a2.
Proof.
  eapply reach_step; [apply reach_s1| |by vm_compute].
  split; [exists 1; by vm_compute|apply length_replicate].
Qed.

Lemma reach_s3 : reach s3 a3.
Proof. eapply reach_step; [apply reach_s2|by left|by vm_compute]. Qed.

Lemma reach_s4 : reach s4 a4.
Proof.
  eapply reach_step; [apply reach_s3| |by vm_compute].
  split_and!; [done|by apply valid_3|by vm_compute|by vm_compute].
Qed.

Lemma pool_refines_spec_witness :
  (∃ out s', pool_exec (OpFetch p0) s4 = (Ok out, s') ∧ promised a4 (OpFetch p0) out ∧
             reach s' (after a4 (OpFetch p0) out)) ∨
  (∃ s', pool_exec (OpFetch p0) s4 = (Throw (RedBase UnixError), s')).
Proof.
  apply (pool_refines_spec s4 a4 (OpFetch p0) reach_s4).
  split; [exists page7; by vm_compute|by vm_compute].
Defined.

Lemma held_pages_disjoint_witness :
  p1 = p1 ∧ ∃ pg, frame s4 1 = Some pg ∧ id_ pg = p1 ∧ pin_count_ pg = 1 ∧ 0 < 1.
Proof. apply (held_pages_disjoint s4 a4 p1 p1 1 1 1 reach_s4); by vm_compute. Defined.

Definition s5 := next (OpFetch p0) s4.
Definition a5 := after a4 (OpFetch p0) (answer (OpFetch p0) s4).

Lemma reach_s5 : reach s5 a5.
Proof.
  eapply reach_step; [apply reach_s4|split; [exists page7|]; by vm_compute|by vm_compute].
Qed.

(** Both frames are pinned now. *)
Lemma NewPage_null_iff_all_pinned_witness : (NewPage 3 s5).1 = Ok None ∧ (NewPage 3 s5).2 = s5.
Proof.
  destruct (NewPage_null_iff_all_pinned s5 a5 3 reach_s5) as [Hiff Hsame].
  - split_and!; [done|by apply valid_3|by vm_compute|by vm_compute].
  - assert (H : (NewPage 3 s5).1 = Ok None); [|by split; [|apply Hsame]]. apply Hiff. intros f Hf. assert (f = 0 ∨ f = 1) as [-> | ->] by (change (pool_size_ s5) with 2%nat in Hf; lia).
    + exists p0, 1. by vm_compute.
    + exists p1, 1. by vm_compute.
Defined.

Lemma FlushAllPages_durable_witness :
  ps_page (disk_manager_ (FlushAllPages 3 s5).2) p0 = Some page7.
Proof.
  apply (FlushAllPages_durable s5 a5 3 (FlushAllPages 3 s5).2 p0 page7 reach_s5); by vm_compute.
Defined.

(** ** Outside the contract: a deleted page that is fetched again

    [DeletePage] leaves the id and the dirty flag in the frame it frees.  If the
    page is fetched again (its bytes are still in the file), the next use of the
    freed frame writes the frame's zeros over the page and removes the page from
    the page table while it is pinned in its new frame. *)
Definition delete_run : list pool_op :=
  [OpNew 3; OpWrite p0 0 page7; OpUnpinPage p0 true; OpFlush p0;
   OpFetch p0; OpUnpinPage p0 true; OpDelete p0; OpFetch p0].
Definition before_reuse : pool := foldl (λ s op, next op s) s0 delete_run.
Definition after_reuse : pool := next (OpNew 3) before_reuse.

Lemma deleted_frame_overwrites_page :
  frame before_reuse 1 = Some (MkPage p0 page7 false 1) ∧
  page_table_ before_reuse !! p0 = Some 1 ∧
  ps_page (disk_manager_ before_reuse) p0 = Some page7 ∧
  (* the next NewPage takes the freed frame *)
  page_table_ after_reuse !! p0 = None ∧
  ps_page (disk_manager_ after_reuse) p0 = Some (zeros page_len) ∧
  (UnpinPage p0 false after_reuse).1 = Ok false.
Proof. by vm_compute. Qed.

(** ** Outside the contract: a page that the file does not hold

    [FetchPage] commits its bookkeeping around the read that throws.  With a
    dirty victim the page table already maps the missing page to the zeroed
    frame, so a second [FetchPage] returns it as if it had been read; with a
    clean victim the frame is in no list any more and is lost to the pool. *)
Definition one_frame : pool := new_BufferPoolManager (λ _, 3) 1 disk.
Definition missing : PageId := MkPageId 3 5.
Definition dirty_victim : pool := foldl (λ s op, next op s) one_frame [OpNew 3; OpUnpinPage p0 true].
Definition clean_victim : pool := next (OpFlush p0) dirty_victim.

Lemma failed_fetch_leaves_zero_page :
  (FetchPage missing dirty_victim).1 = Throw (RedBase UnixError) ∧
  answer (OpFetch missing) (FetchPage missing dirty_victim).2 = OutPage missing 0 (zeros page_len).
Proof. by vm_compute. Qed.

Lemma failed_fetch_leaks_frame :
  (FetchPage missing clean_victim).1 = Throw (RedBase UnixError) ∧
  (NewPage 3 (FetchPage missing clean_victim).2).1 = Ok None ∧
  pin_count_ <$> pages_ (FetchPage missing clean_victim).2 = [0].
Proof. by vm_compute. Qed.

End PoolRuns.
