(* ===== verification/Bitmap.v ===== *)
(** The slot bitmap: [record/bitmap.h].

    A bitmap is the run of bytes at [char *bm]; position [pos] is bit
    [7 - pos mod 8] of byte [pos / 8].  The operations are shown to be those of
    a bit vector, and the search [next_bit] to find the first match. *)
From S2P Require Import Prelude Config.

Module Bitmap.

Definition BITMAP_WIDTH : Z := 8.
Definition BITMAP_HIGHEST_BIT : Z := 128.

(** [pos / BITMAP_WIDTH] and [BITMAP_HIGHEST_BIT >> (pos % BITMAP_WIDTH)] in C's
    truncating arithmetic. *)
Definition get_bucket (pos : Z) : Z := pos `quot` BITMAP_WIDTH.
Definition get_bit (pos : Z) : Z := Z.shiftr BITMAP_HIGHEST_BIT (pos `rem` BITMAP_WIDTH).

Definition byte_at (bm : bytes) (i : Z) : byte := default 0 (bm !! Z.to_nat i).

Definition init (bm : bytes) (size : Z) : bytes := splice 0 (zeros (Z.to_nat size)) bm.

Definition set (bm : bytes) (pos : Z) : bytes :=
  <[Z.to_nat (get_bucket pos) := Z.lor (byte_at bm (get_bucket pos)) (get_bit pos)]> bm.

(** [~get_bit(pos)] cast to [char]: the low eight bits of the complement. *)
Definition reset (bm : bytes) (pos : Z) : bytes :=
  <[Z.to_nat (get_bucket pos) :=
      Z.land (byte_at bm (get_bucket pos)) (Z.land (Z.lnot (get_bit pos)) 255)]> bm.

Definition is_set (bm : bytes) (pos : Z) : bool :=
  negb (Z.land (byte_at bm (get_bucket pos)) (get_bit pos) =? 0).

(** The loop [for (i = curr + 1; i < max_n; i++)]; [fuel] bounds its turns. *)
Fixpoint next_bit_loop (fuel : nat) (bit : bool) (bm : bytes) (max_n i : Z) : Z :=
  match fuel with
  | O => max_n
  | S fuel' =>
      if i <? max_n then
        if Bool.eqb (is_set bm i) bit then i else next_bit_loop fuel' bit bm max_n (i + 1)
      else max_n
  end.

(** [max_n - (curr + 1)] turns are all the loop can take. *)
Definition next_bit (bit : bool) (bm : bytes) (max_n curr : Z) : Z :=
  next_bit_loop (Z.to_nat (max_n - (curr + 1))) bit bm max_n (curr + 1).

Definition first_bit (bit : bool) (bm : bytes) (max_n : Z) : Z := next_bit bit bm max_n (-1).

(** ** Bits *)

Definition in_bitmap (bm : bytes) (pos : Z) : Prop := 0 ≤ pos < 8 * Z.of_nat (length bm).

Lemma get_bucket_pos pos : 0 ≤ pos → get_bucket pos = pos `div` 8.
Proof. intros. unfold get_bucket, BITMAP_WIDTH. by rewrite Z.quot_div_nonneg. Qed.

Lemma get_bit_pow pos : 0 ≤ pos → get_bit pos = 2 ^ (7 - pos `mod` 8).
Proof.
  intros. unfold get_bit, BITMAP_WIDTH, BITMAP_HIGHEST_BIT. rewrite Z.rem_mod_nonneg by lia.
  pose proof (Z.mod_pos_bound pos 8 ltac:(lia)).
  change 128 with (2 ^ 7).
  rewrite Z.shiftr_div_pow2 by lia. by rewrite Z.pow_sub_r by lia.
Qed.

(** The bit a position denotes. *)
Definition bit_of (bm : bytes) (pos : Z) : bool :=
  Z.testbit (byte_at bm (pos `div` 8)) (7 - pos `mod` 8).

Lemma land_pow2 b k : 0 ≤ k → (Z.land b (2 ^ k) =? 0) = negb (Z.testbit b k).
Proof.
  intros Hk. destruct (Z.testbit b k) eqn:Hb; simpl.
  - apply Z.eqb_neq. intros H0. assert (Z.testbit (Z.land b (2 ^ k)) k = true) as Ht.
    { by rewrite Z.land_spec, Hb, Z.pow2_bits_true. }
    by rewrite H0, Z.bits_0 in Ht.
  - apply Z.eqb_eq. apply Z.bits_inj'. intros n Hn. rewrite Z.land_spec, Z.bits_0.
    destruct (decide (n = k)) as [->|Hne]; [by rewrite Hb|].
    rewrite Z.pow2_bits_false by done. apply andb_false_r.
Qed.

Lemma is_set_bit bm pos : 0 ≤ pos → is_set bm pos = bit_of bm pos.
Proof.
  intros H. unfold is_set, bit_of. rewrite get_bucket_pos, get_bit_pow by done.
  pose proof (Z.mod_pos_bound pos 8 ltac:(lia)).
  rewrite land_pow2 by lia. apply negb_involutive.
Qed.

Lemma byte_at_insert bm i j b :
  0 ≤ i < Z.of_nat (length bm) → 0 ≤ j →
  byte_at (<[Z.to_nat i := b]> bm) j = if decide (i = j) then b else byte_at bm j.
Proof.
  intros Hi Hj. unfold byte_at. case_decide as Hij.
  - subst j. by rewrite list_lookup_insert_eq by lia.
  - rewrite list_lookup_insert_ne; [done|lia].
Qed.

Lemma bucket_lt bm pos : in_bitmap bm pos → 0 ≤ pos `div` 8 < Z.of_nat (length bm).
Proof. unfold in_bitmap. intros. split; [apply Z.div_pos|apply Z.div_lt_upper_bound]; lia. Qed.

Lemma same_position pos q : pos `div` 8 = q `div` 8 → 7 - pos `mod` 8 = 7 - q `mod` 8 → pos = q.
Proof.
  intros H1 H2. rewrite (Z.div_mod pos 8), (Z.div_mod q 8) by lia. rewrite H1. f_equal. lia.
Qed.

Lemma is_set_set bm pos q :
  in_bitmap bm pos → 0 ≤ q → is_set (set bm pos) q = (bool_decide (pos = q) || is_set bm q).
Proof.
  intros Hp Hq. pose proof (bucket_lt _ _ Hp) as Hb. pose proof (proj1 Hp).
  rewrite !is_set_bit by done. unfold bit_of, set. rewrite get_bucket_pos, get_bit_pow by done.
  pose proof (Z.mod_pos_bound pos 8 ltac:(lia)). pose proof (Z.mod_pos_bound q 8 ltac:(lia)).
  rewrite byte_at_insert by (try apply Z.div_pos; lia). case_decide as Hd.
  - rewrite Z.lor_spec, Hd. case_bool_decide as Hpq.
    + subst q. rewrite Z.pow2_bits_true by lia. apply orb_true_r.
    + rewrite Z.pow2_bits_false; [by rewrite orb_false_r|]. intros He. by apply Hpq, same_position.
  - rewrite bool_decide_eq_false_2 by congruence. done.
Qed.

Lemma is_set_reset bm pos q :
  in_bitmap bm pos → 0 ≤ q → is_set (reset bm pos) q = (negb (bool_decide (pos = q)) && is_set bm q).
Proof.
  intros Hp Hq. pose proof (bucket_lt _ _ Hp) as Hb. pose proof (proj1 Hp).
  rewrite !is_set_bit by done. unfold bit_of, reset. rewrite get_bucket_pos, get_bit_pow by done.
  pose proof (Z.mod_pos_bound pos 8 ltac:(lia)). pose proof (Z.mod_pos_bound q 8 ltac:(lia)).
  rewrite byte_at_insert by (try apply Z.div_pos; lia). case_decide as Hd.
  - rewrite !Z.land_spec, Z.lnot_spec, Hd by lia. change 255 with (Z.ones 8).
    rewrite Z.ones_spec_low, andb_true_r by lia. case_bool_decide as Hpq; simpl.
    + subst q. rewrite Z.pow2_bits_true by lia. apply andb_false_r.
    + rewrite Z.pow2_bits_false; [by rewrite andb_true_r|]. intros He. by apply Hpq, same_position.
  - rewrite bool_decide_eq_false_2 by congruence. done.
Qed.

Lemma length_set bm pos : length (set bm pos) = length bm.
Proof. unfold set. apply length_insert. Qed.

Lemma length_reset bm pos : length (reset bm pos) = length bm.
Proof. unfold reset. apply length_insert. Qed.

Lemma is_set_init bm size q : Z.of_nat (length bm) = size → 0 ≤ q → is_set (init bm size) q = false.
Proof.
  intros <- Hq. rewrite is_set_bit by done. unfold init, bit_of, byte_at, splice. simpl.
  rewrite Nat2Z.id. unfold zeros. rewrite length_replicate, drop_ge by lia. rewrite app_nil_r.
  destruct (replicate _ _ !! _) as [b|] eqn:E; simpl; [|by rewrite Z.bits_0].
  apply lookup_replicate in E as [-> _]. by rewrite Z.bits_0.
Qed.

(** ** Search *)

Lemma next_bit_loop_spec fuel bit bm max_n i :
  (Z.to_nat (max_n - i) ≤ fuel)%nat → i ≤ max_n →
  let r := next_bit_loop fuel bit bm max_n i in
  i ≤ r ≤ max_n ∧ (∀ j, i ≤ j < r → is_set bm j = negb bit) ∧ (r < max_n → is_set bm r = bit).
Proof.
  revert i. induction fuel as [|fuel IH]; intros i Hf Hi; simpl.
  - split_and!; [lia|lia|intros j Hj; lia|lia].
  - destruct (Z.ltb_spec i max_n) as [Hlt|Hge]; [|split_and!; [lia|lia|intros j Hj; lia|lia]].
    destruct (is_set bm i) eqn:Hs, bit; simpl; try (split_and!; [lia|lia|intros j Hj; lia|done]).
    + destruct (IH (i + 1)) as (H1 & H2 & H3); [lia|lia|]. split_and!; [lia|lia| |done].
      intros j Hj. destruct (decide (j = i)) as [->|]; [done|apply H2; lia].
    + destruct (IH (i + 1)) as (H1 & H2 & H3); [lia|lia|]. split_and!; [lia|lia| |done].
      intros j Hj. destruct (decide (j = i)) as [->|]; [done|apply H2; lia].
Qed.

(** [next_bit] is a correct search and terminates within the turns its
    range allows: the result is the first position after [curr] whose bit is
    [bit], and [max_n] exactly when there is none before [max_n]. *)
Theorem next_bit_first (bit : bool) (bm : bytes) (max_n curr : Z) :
  curr < max_n →
  let r := next_bit bit bm max_n curr in
  curr < r ≤ max_n ∧
  (∀ j, curr < j < r → is_set bm j = negb bit) ∧
  (r < max_n → is_set bm r = bit) ∧
  (r = max_n ↔ ∀ j, curr < j < max_n → is_set bm j = negb bit).
Proof.
  intros H r.
  destruct (next_bit_loop_spec (Z.to_nat (max_n - (curr + 1))) bit bm max_n (curr + 1)) as (H1 & H2 & H3);
    [lia|lia|]. fold (next_bit bit bm max_n curr) in H1, H2, H3. fold r in H1, H2, H3.
  split; [lia|]. split; [intros j Hj; apply H2; lia|]. split; [done|]. split.
  - intros Hr j Hj. apply H2. lia.
  - intros Hall. destruct (decide (r = max_n)); [done|]. exfalso.
    rewrite Hall in H3 by lia. assert (negb bit = bit) as Hb by (apply H3; lia). by destruct bit.
Qed.

(** The bitmap is a bit vector: [set] and [reset] change the named position
    and no other, and [init] clears every position. *)
Theorem bitmap_is_bit_vector (bm : bytes) (pos q size : Z) :
  in_bitmap bm pos → 0 ≤ q → Z.of_nat (length bm) = size →
  is_set (set bm pos) q = (bool_decide (pos = q) || is_set bm q) ∧
  is_set (reset bm pos) q = (negb (bool_decide (pos = q)) && is_set bm q) ∧
  is_set (init bm size) q = false.
Proof. intros H1 H2 H3. split_and!; [by apply is_set_set|by apply is_set_reset|by apply is_set_init]. Qed.

End Bitmap.
