(* ===== verification/Record.v ===== *)
(** Record files: [record/rm_defs.h], [record/rm_file_handle.*],
    [record/rm_manager.h] and [record/rm_scan.*].

    A record page is the bytes of a buffer-pool page: an LSN (4 bytes), the
    [RmPageHdr] (next free page, number of records), the bitmap and the slots.
    A handle's methods act on the shared pool and on the handle's copy of the
    file header; a [RmPageHandle] is the frame its pointers point into.  A
    pointer that leaves the page is [Crash OutOfBounds], a null [Page *] that is
    dereferenced is [Crash NullDeref].  The [Context *] arguments are unused by
    the sources. *)
From S2P Require Import Prelude Config Posix PageStore Disk Replacer BufferPool Bitmap.

Definition RM_NO_PAGE : Z := -1.
Definition RM_FILE_HDR_PAGE : Z := 0.
Definition RM_FIRST_RECORD_PAGE : Z := 1.
Definition RM_MAX_RECORD_SIZE : Z := 512.

Record RmFileHdr : Set := MkFileHdr {
  record_size : Z;
  num_pages : Z;
  num_records_per_page : Z;
  first_free_page_no : Z;
  bitmap_size : Z
}.

#[export] Instance RmFileHdr_eq_dec : EqDecision RmFileHdr.
Proof. solve_decision. Defined.

Definition set_num_pages (n : Z) (h : RmFileHdr) : RmFileHdr :=
  MkFileHdr (record_size h) n (num_records_per_page h) (first_free_page_no h) (bitmap_size h).
Definition set_first_free (n : Z) (h : RmFileHdr) : RmFileHdr :=
  MkFileHdr (record_size h) (num_pages h) (num_records_per_page h) n (bitmap_size h).

(** The struct as the five [int]s that [(char * )&file_hdr] shows. *)
Definition sizeof_RmFileHdr : Z := 20.
Definition sizeof_RmPageHdr : Z := 8.

Definition hdr_bytes (h : RmFileHdr) : bytes :=
  le32 (record_size h) ++ le32 (num_pages h) ++ le32 (num_records_per_page h)
    ++ le32 (first_free_page_no h) ++ le32 (bitmap_size h).

Definition bytes_hdr (bs : bytes) : RmFileHdr :=
  MkFileHdr (get_int 0 bs) (get_int 4 bs) (get_int 8 bs) (get_int 12 bs) (get_int 16 bs).

(** ** RmRecord

    A record owns a copy of its bytes. *)
Record RmRecord : Type := MkRecord { rec_data : bytes; rec_size : Z; allocated_ : bool }.

(** [RmRecord(size_, data_)], the copy constructor and assignment. *)
Definition new_RmRecord (size : Z) (data : bytes) : RmRecord :=
  MkRecord (take (Z.to_nat size) data) size true.
Definition copy_RmRecord (other : RmRecord) : RmRecord := new_RmRecord (rec_size other) (rec_data other).
Definition SetData (data : bytes) (r : RmRecord) : RmRecord :=
  MkRecord (take (Z.to_nat (rec_size r)) data) (rec_size r) (allocated_ r).
Definition Deserialize (data : bytes) (r : RmRecord) : RmRecord :=
  let size := get_int 0 data in
  MkRecord (slice 4 (Z.to_nat size) data) size (allocated_ r).

(** ** Layout of a record page *)

Definition hdr_off : nat := OFFSET_PAGE_HDR.
Definition next_free_off : nat := hdr_off.
Definition num_records_off : nat := hdr_off + 4.
Definition bitmap_off : nat := Z.to_nat sizeof_RmPageHdr + OFFSET_PAGE_HDR.

Definition get_next_free (x : bytes) : Z := get_int next_free_off x.
Definition get_num_records (x : bytes) : Z := get_int num_records_off x.
Definition set_next_free (n : Z) (x : bytes) : bytes := set_int next_free_off n x.
Definition set_num_records (n : Z) (x : bytes) : bytes := set_int num_records_off n x.

(** The bytes from [page_handle.bitmap] on. *)
Definition page_bitmap (x : bytes) : bytes := drop bitmap_off x.
Definition on_bitmap (g : bytes → bytes) (x : bytes) : bytes := take bitmap_off x ++ g (page_bitmap x).

(** [get_slot(slot_no) - page->GetData()]. *)
Definition get_slot (h : RmFileHdr) (slot_no : Z) : Z :=
  Z.of_nat bitmap_off + bitmap_size h + wrap32 (slot_no * record_size h).

Section RecordFile.
Context {D R : Type} {PS : PageStore D} {RP : Replacer R}.
Abbreviation BPM := (BufferPoolManager D R).

(** The pool is shared, the header belongs to the handle; [fd_] never changes. *)
Record RmState : Type := MkRm { rm_pool : BPM; fd_ : Z; file_hdr_ : RmFileHdr }.

Definition with_pool (s : BPM) (st : RmState) : RmState := MkRm s (fd_ st) (file_hdr_ st).
Definition with_hdr (h : RmFileHdr) (st : RmState) : RmState := MkRm (rm_pool st) (fd_ st) h.

Definition on_pool {A} (m : M BPM A) : M RmState A := zoom rm_pool with_pool m.
Definition upd_hdr (g : RmFileHdr → RmFileHdr) : M RmState unit :=
  modify (λ st, with_hdr (g (file_hdr_ st)) st).
Definition get_hdr : M RmState RmFileHdr := gets file_hdr_.
Definition get_fd : M RmState Z := gets fd_.

(** Reading and writing through the pointers of a page handle. *)
Definition page_bytes (f : Z) : M RmState bytes := pg ← on_pool (page_at f); ret (data_ pg).
Definition upd_bytes (f : Z) (g : bytes → bytes) : M RmState unit :=
  x ← page_bytes f; on_pool (client_write f (g x)).

Definition bit_in_page (x : bytes) (pos : Z) : bool :=
  (0 <=? pos) && (pos <? 8 * Z.of_nat (length (page_bitmap x))).
Definition slot_in_page (h : RmFileHdr) (slot_no : Z) : bool :=
  (0 <=? get_slot h slot_no) && (get_slot h slot_no + record_size h <=? PAGE_SIZE).

Definition page_is_set (f pos : Z) : M RmState bool :=
  x ← page_bytes f;
  if bit_in_page x pos then ret (Bitmap.is_set (page_bitmap x) pos) else crash_with OutOfBounds.

Definition page_set (f pos : Z) : M RmState unit :=
  x ← page_bytes f;
  if bit_in_page x pos then upd_bytes f (on_bitmap (λ bm, Bitmap.set bm pos)) else crash_with OutOfBounds.

Definition page_reset (f pos : Z) : M RmState unit :=
  x ← page_bytes f;
  if bit_in_page x pos then upd_bytes f (on_bitmap (λ bm, Bitmap.reset bm pos)) else crash_with OutOfBounds.

(** [memcpy(get_slot(slot_no), buf, record_size)]. *)
Definition write_slot (f slot_no : Z) (buf : bytes) : M RmState unit :=
  h ← get_hdr;
  if slot_in_page h slot_no && (record_size h <=? Z.of_nat (length buf)) then
    upd_bytes f (splice (Z.to_nat (get_slot h slot_no)) (take (Z.to_nat (record_size h)) buf))
  else crash_with OutOfBounds.

(** [page_handle.page->GetPageId().page_no]. *)
Definition page_no_of (f : Z) : M RmState Z := pg ← on_pool (page_at f); ret (pid_no (id_ pg)).

(** ** Page handles *)

Definition fetch_page_handle (page_no : Z) : M RmState Z :=
  fd ← get_fd;
  page ← on_pool (FetchPage (MkPageId fd page_no));
  match page with
  | None => throw_db (PageNotExistError "page_no Invalid" page_no)
  | Some f => ret f
  end.

Definition create_new_page_handle : M RmState Z :=
  fd ← get_fd;
  page ← on_pool (NewPage fd);
  upd_hdr (λ h, set_num_pages (wrap32 (num_pages h + 1)) h) ;;
  match page with
  | None => crash_with NullDeref
  | Some (_, f) => ret f
  end.

Definition create_page_handle : M RmState Z :=
  h ← get_hdr;
  let freeNo := first_free_page_no h in
  if freeNo <? 0 then create_new_page_handle else fetch_page_handle freeNo.

Definition release_page_handle (f : Z) : M RmState unit :=
  pageNo ← page_no_of f;
  h ← get_hdr;
  upd_bytes f (set_next_free (first_free_page_no h)) ;;
  upd_hdr (set_first_free pageNo).

(** [++page_hdr->num_records] and [--]. *)
Definition add_num_records (f k : Z) : M RmState unit :=
  upd_bytes f (λ x, set_num_records (wrap32 (get_num_records x + k)) x).

(** ** Records *)

Definition is_record (rid : Rid) : M RmState bool :=
  f ← fetch_page_handle (rid_page_no rid);
  page_is_set f (rid_slot_no rid).

Definition get_record (rid : Rid) : M RmState RmRecord :=
  f ← fetch_page_handle (rid_page_no rid);
  h ← get_hdr;
  x ← page_bytes f;
  if slot_in_page h (rid_slot_no rid) then
    ret (new_RmRecord (record_size h) (drop (Z.to_nat (get_slot h (rid_slot_no rid))) x))
  else crash_with OutOfBounds.

Definition insert_record (buf : bytes) : M RmState Rid :=
  f ← create_page_handle;
  h ← get_hdr;
  x ← page_bytes f;
  let i := Bitmap.first_bit false (page_bitmap x) (num_records_per_page h) in
  write_slot f i buf ;;
  page_set f i ;;
  add_num_records f 1 ;;
  x ← page_bytes f;
  (if num_records_per_page h <=? get_num_records x
   then upd_hdr (set_first_free (get_next_free x))
   else ret tt) ;;
  page_no ← page_no_of f;
  ret (MkRid page_no i).

Definition delete_record (rid : Rid) : M RmState unit :=
  f ← fetch_page_handle (rid_page_no rid);
  page_reset f (rid_slot_no rid) ;;
  add_num_records f (-1) ;;
  x ← page_bytes f;
  if get_num_records x =? 0 then release_page_handle f else ret tt.

Definition update_record (rid : Rid) (buf : bytes) : M RmState unit :=
  f ← fetch_page_handle (rid_page_no rid);
  b ← page_is_set f (rid_slot_no rid);
  if b then write_slot f (rid_slot_no rid) buf else ret tt.

(** The overload used by rollback. *)
Definition insert_record_at (rid : Rid) (buf : bytes) : M RmState unit :=
  h ← get_hdr;
  (if rid_page_no rid <? num_pages h then _ ← create_new_page_handle; ret tt else ret tt) ;;
  f ← fetch_page_handle (rid_page_no rid);
  page_set f (rid_slot_no rid) ;;
  add_num_records f 1 ;;
  x ← page_bytes f;
  h ← get_hdr;
  (if get_num_records x =? num_records_per_page h
   then upd_hdr (set_first_free (get_next_free x))
   else ret tt) ;;
  write_slot f (rid_slot_no rid) buf ;;
  pg ← on_pool (page_at f);
  _ ← on_pool (UnpinPage (id_ pg) true);
  ret tt.

(** ** RmScan

    [rid_] is [None] while the constructor has left it uninitialised. *)

(** [(bitmap[byteN] >> (7 - bitN)) & 1]. *)
Definition isStored (x : bytes) (byteN bitN : Z) : bool :=
  Z.testbit (Bitmap.byte_at (page_bitmap x) byteN) (7 - bitN).

Definition slotGet (byteN bitN : Z) : Z := byteN * 8 + bitN.

(** The two inner loops: the first stored slot of a page, byte by byte. *)
Definition first_stored (x : bytes) (bitmapSize : Z) : option Z :=
  find (λ pos, isStored x (pos `div` 8) (pos `mod` 8))
    (Z.of_nat <$> seq 0 (Z.to_nat (8 * bitmapSize))).

Fixpoint scan_pages (pages : list Z) : M RmState (option Rid) :=
  match pages with
  | [] => ret None
  | pageNo :: rest =>
      f ← fetch_page_handle pageNo;
      h ← get_hdr;
      x ← page_bytes f;
      match first_stored x (bitmap_size h) with
      | Some slot => ret (Some (MkRid pageNo slot))
      | None => scan_pages rest
      end
  end.

Definition z_range (from n : Z) : list Z := (λ i, from + Z.of_nat i) <$> seq 0 (Z.to_nat (n - from)).

Definition new_RmScan : M RmState (option Rid) :=
  h ← get_hdr; scan_pages (z_range 1 (num_pages h)).

Fixpoint scan_next_loop (pages : list Z) (slotno : Z) : M RmState Rid :=
  match pages with
  | [] => ret (MkRid (-1) (-1))
  | pageno :: rest =>
      f ← fetch_page_handle pageno;
      h ← get_hdr;
      x ← page_bytes f;
      let i := Bitmap.next_bit true (page_bitmap x) (num_records_per_page h) slotno in
      if i =? num_records_per_page h then scan_next_loop rest (-1)
      else ret (MkRid pageno i)
  end.

(** [next()] reads the members of [rid_]. *)
Definition scan_next (rid_ : option Rid) : M RmState (option Rid) :=
  match rid_ with
  | None => crash_with Uninitialised
  | Some r =>
      h ← get_hdr;
      r' ← scan_next_loop (z_range (rid_page_no r) (num_pages h)) (rid_slot_no r);
      ret (Some r')
  end.

Definition scan_is_end (rid_ : option Rid) : M RmState bool :=
  match rid_ with
  | None => crash_with Uninitialised
  | Some r => ret (rid_page_no r =? RM_NO_PAGE)
  end.

Definition scan_rid (rid_ : option Rid) : M RmState Rid :=
  match rid_ with None => crash_with Uninitialised | Some r => ret r end.

End RecordFile.
Arguments RmState : clear implicits.

(** ** RmManager *)

(** The header [create_file] writes, from [record_size] alone. *)
Definition make_hdr (record_size : Z) : RmFileHdr :=
  let n := (Bitmap.BITMAP_WIDTH * (PAGE_SIZE - 1 - sizeof_RmFileHdr) + 1)
             `quot` (1 + record_size * Bitmap.BITMAP_WIDTH) in
  MkFileHdr record_size 1 n RM_NO_PAGE ((n + Bitmap.BITMAP_WIDTH - 1) `quot` Bitmap.BITMAP_WIDTH).

Section RmManager.
Context {OS R : Type} {PX : Posix OS} {RP : Replacer R}.
Abbreviation BPM := (BufferPoolManager (DiskManager OS) R).

Definition dm {A} (m : M (DiskManager OS) A) : M BPM A := BufferPool.on_disk m.

Definition rm_create_file (filename : string) (record_size : Z) : M BPM unit :=
  if (record_size <? 1) || (RM_MAX_RECORD_SIZE <? record_size)
  then throw_db (InvalidRecordSizeError record_size)
  else
    dm (create_file filename) ;;
    fd ← dm (open_file filename);
    dm (write_page fd RM_FILE_HDR_PAGE (hdr_bytes (make_hdr record_size)) sizeof_RmFileHdr) ;;
    dm (close_file fd).

Definition rm_destroy_file (filename : string) : M BPM unit := dm (destroy_file filename).

(** [RmFileHandle(disk_manager, buffer_pool_manager, fd)]: the header is read
    into the new object. *)
Definition new_RmFileHandle (fd : Z) : M BPM (Z * RmFileHdr) := λ s,
  let '(r, (d', buf)) :=
    read_page fd RM_FILE_HDR_PAGE sizeof_RmFileHdr (disk_manager_ s, zeros (Z.to_nat sizeof_RmFileHdr)) in
  match r with
  | Ok _ => (dm (set_fd2pageno fd (num_pages (bytes_hdr buf))) ;; ret (fd, bytes_hdr buf)) (with_disk d' s)
  | Throw e => (Throw e, with_disk d' s)
  | Crash c => (Crash c, with_disk d' s)
  end.

Definition rm_open_file (filename : string) : M BPM (Z * RmFileHdr) :=
  fd ← dm (open_file filename);
  new_RmFileHandle fd.

Definition rm_close_file (fd : Z) (file_hdr : RmFileHdr) : M BPM unit :=
  dm (write_page fd RM_FILE_HDR_PAGE (hdr_bytes file_hdr) sizeof_RmFileHdr) ;;
  FlushAllPages fd ;;
  dm (close_file fd).

End RmManager.
