(* ===== verification/RecordPage.v ===== *)
(** A record page as a table of slots: the layout computed by
    [RmManager::create_file] fits the page, and the byte-level updates made by
    the record operations act on the slot they name and on nothing else. *)
From S2P Require Import Prelude Config Bitmap BufferPool Record.

(** ** The layout *)

(** The header fields that [create_file] computes and nothing changes. *)
Definition hdr_ok (h : RmFileHdr) : Prop :=
  1 ≤ record_size h ≤ RM_MAX_RECORD_SIZE ∧
  num_records_per_page h = num_records_per_page (make_hdr (record_size h)) ∧
  bitmap_size h = bitmap_size (make_hdr (record_size h)).

Lemma hdr_layout h :
  hdr_ok h →
  7 ≤ num_records_per_page h ≤ 3622 ∧
  num_records_per_page h ≤ 8 * bitmap_size h ≤ num_records_per_page h + 7 ∧
  Z.of_nat bitmap_off + bitmap_size h + num_records_per_page h * record_size h ≤ PAGE_SIZE.
Proof.
  intros (Hr & Hn & Hb). unfold RM_MAX_RECORD_SIZE in Hr.
  unfold make_hdr, Bitmap.BITMAP_WIDTH, PAGE_SIZE, sizeof_RmFileHdr in *. cbn [num_records_per_page bitmap_size] in *.
  change (8 * (4096 - 1 - 20) + 1) with 32601 in *. rewrite <- Hn in Hb.
  set (r := record_size h) in *. set (n := num_records_per_page h) in *. set (b := bitmap_size h) in *.
  rewrite Z.quot_div_nonneg in Hn by lia.
  pose proof (Z.mul_div_le 32601 (1 + r * 8) ltac:(lia)) as H1. rewrite <- Hn in H1.
  pose proof (Z.mul_succ_div_gt 32601 (1 + r * 8) ltac:(lia)) as H2. rewrite <- Hn in H2.
  assert (7 ≤ n) by nia. rewrite Z.quot_div_nonneg in Hb by lia.
  pose proof (Z.mul_div_le (n + 8 - 1) 8 ltac:(lia)). pose proof (Z.mul_succ_div_gt (n + 8 - 1) 8 ltac:(lia)).
  rewrite <- Hb in *. change (Z.of_nat bitmap_off) with 12. split; [nia|]. split; nia.
Qed.

(** The slots [i] and [j] share no byte. *)
Definition slots_apart (h : RmFileHdr) (i j : Z) : Prop :=
  get_slot h i + record_size h ≤ get_slot h j ∨ get_slot h j + record_size h ≤ get_slot h i.

(** [C27] The page layout chosen by [create_file] is sound: for every record size
    it accepts (1 to 512), a page has at least seven slots and the bitmap a bit for
    every one of them; the page header lies before the bitmap, the bitmap before the
    slots, every slot inside the page, and no two slots share a byte. *)
Theorem record_layout_fits (r : Z) :
  1 ≤ r ≤ RM_MAX_RECORD_SIZE →
  let h := make_hdr r in
  7 ≤ num_records_per_page h ≤ 8 * bitmap_size h ∧
  (hdr_off + Z.to_nat sizeof_RmPageHdr ≤ bitmap_off)%nat ∧
  (∀ i, 0 ≤ i < num_records_per_page h →
     Z.of_nat bitmap_off + bitmap_size h ≤ get_slot h i ∧ get_slot h i + r ≤ PAGE_SIZE) ∧
  (∀ i j, 0 ≤ i < num_records_per_page h → 0 ≤ j < num_records_per_page h → i ≠ j → slots_apart h i j).
Proof.
  intros Hr h. assert (hdr_ok h) as Hh by by split. destruct (hdr_layout h Hh) as (H1 & H2 & H3).
  assert (Hslot : ∀ i, 0 ≤ i < num_records_per_page h → get_slot h i = Z.of_nat bitmap_off + bitmap_size h + i * r).
  { intros i Hi. unfold get_slot. change (record_size h) with r in *. unfold RM_MAX_RECORD_SIZE in Hr.
    rewrite wrap32_id; [done|]. unfold is_int, int_min, int_max. nia. }
  change (record_size h) with r in *. split; [lia|]. split; [done|]. split.
  - intros i Hi. rewrite Hslot by done. change (Z.of_nat bitmap_off) with 12 in *. nia.
  - intros i j Hi Hj Hne. unfold slots_apart. change (record_size h) with r. rewrite !Hslot by done. nia.
Qed.

Lemma record_layout_fits_witness :
  let h := make_hdr 512 in
  (∀ i, 0 ≤ i < 7 → Z.of_nat bitmap_off + bitmap_size h ≤ get_slot h i ∧ get_slot h i + 512 ≤ PAGE_SIZE) ∧
  slots_apart h 2 5.
Proof.
  destruct (record_layout_fits 512) as (_ & _ & H1 & H2); [unfold RM_MAX_RECORD_SIZE; lia|].
  split; [exact H1|]. by apply H2.
Defined.

(** ** One page *)

Section Page.
Context (h : RmFileHdr) (Hh : hdr_ok h).

Abbreviation n := (num_records_per_page h).
Abbreviation rsize := (Z.to_nat (record_size h)).

Definition slot_bytes (x : bytes) (i : Z) : bytes := slice (Z.to_nat (get_slot h i)) rsize x.

(** The record in slot [i], if there is one. *)
Definition page_rec (x : bytes) (i : Z) : option bytes :=
  if (0 <=? i) && (i <? n) && Bitmap.is_set (page_bitmap x) i then Some (slot_bytes x i) else None.

(** The number of records on the page. *)
Definition page_slots : list Z := Z.of_nat <$> seq 0 (Z.to_nat n).
Definition page_count (x : bytes) : Z :=
  Z.of_nat (count (Bitmap.is_set (page_bitmap x)) page_slots).

Lemma elem_of_page_slots i : i ∈ page_slots ↔ 0 ≤ i < n.
Proof.
  unfold page_slots. rewrite list_elem_of_fmap. setoid_rewrite elem_of_seq. split.
  - intros (k & -> & ?). lia.
  - intros ?. exists (Z.to_nat i). lia.
Qed.

Lemma page_slots_NoDup : NoDup page_slots.
Proof. apply NoDup_fmap; [apply _|apply NoDup_seq]. Qed.

Lemma length_page_slots : length page_slots = Z.to_nat n.
Proof. unfold page_slots. by rewrite length_fmap, length_seq. Qed.

Lemma get_slot_eq i : 0 ≤ i < n → get_slot h i = 12 + bitmap_size h + i * record_size h.
Proof.
  intros Hi. destruct (hdr_layout h Hh) as (H1 & H2 & H3), Hh as (Hr & _). unfold RM_MAX_RECORD_SIZE in Hr.
  unfold get_slot. rewrite wrap32_id; [done|]. unfold is_int, int_min, int_max. nia.
Qed.

Lemma get_slot_range i :
  0 ≤ i < n → 12 + bitmap_size h ≤ get_slot h i ∧ get_slot h i + record_size h ≤ 4096.
Proof.
  intros Hi. rewrite get_slot_eq by done. destruct (hdr_layout h Hh) as (H1 & H2 & H3), Hh as (Hr & _).
  unfold PAGE_SIZE in H3. change (Z.of_nat bitmap_off) with 12 in H3. nia.
Qed.

Lemma slot_disjoint i j :
  0 ≤ i < n → 0 ≤ j < n → i ≠ j →
  get_slot h j + record_size h ≤ get_slot h i ∨ get_slot h i + record_size h ≤ get_slot h j.
Proof. intros. destruct Hh as (Hr & _). rewrite !get_slot_eq by done. nia. Qed.

Lemma bitmap_size_pos : 1 ≤ bitmap_size h.
Proof. destruct (hdr_layout h Hh) as (H1 & H2 & _). lia. Qed.

(** The bits of the bitmap's bytes; those past the last slot stay clear. *)
Definition page_bits : Z := 8 * bitmap_size h.

Lemma slot_bit i : 0 ≤ i < n → 0 ≤ i < page_bits.
Proof. unfold page_bits. destruct (hdr_layout h Hh) as (_ & H & _). lia. Qed.

(** Two pages that agree on the bytes of the bitmap agree on its bits. *)
Lemma is_set_agree x y i :
  0 ≤ i < page_bits → slice bitmap_off (Z.to_nat (bitmap_size h)) y = slice bitmap_off (Z.to_nat (bitmap_size h)) x →
  Bitmap.is_set (page_bitmap y) i = Bitmap.is_set (page_bitmap x) i.
Proof.
  unfold page_bits. intros Hi Hs. rewrite !Bitmap.is_set_bit by lia. unfold Bitmap.bit_of. f_equal. unfold Bitmap.byte_at.
  destruct (hdr_layout h Hh) as (H1 & H2 & _).
  assert (i `div` 8 < bitmap_size h) by (apply Z.div_lt_upper_bound; lia).
  assert (0 ≤ i `div` 8) by (apply Z.div_pos; lia).
  unfold page_bitmap. rewrite !lookup_drop.
  rewrite <- (lookup_slice bitmap_off (Z.to_nat (bitmap_size h)) y) by lia.
  rewrite <- (lookup_slice bitmap_off (Z.to_nat (bitmap_size h)) x) by lia. by rewrite Hs.
Qed.

Lemma page_count_agree x y :
  (∀ i, 0 ≤ i < n → Bitmap.is_set (page_bitmap y) i = Bitmap.is_set (page_bitmap x) i) →
  page_count y = page_count x.
Proof.
  intros H. unfold page_count. f_equal. apply count_ext. intros i Hi%elem_of_page_slots. by apply H.
Qed.

(** ** The updates *)

Definition hdr_same (x y : bytes) : Prop :=
  get_num_records y = get_num_records x ∧ get_next_free y = get_next_free x.

Lemma hdr_same_slice x y : slice 4 8 y = slice 4 8 x → hdr_same x y.
Proof.
  intros H. unfold hdr_same, get_num_records, get_next_free, get_int. split; f_equal;
    (eapply slice_ext; [exact H|]); unfold num_records_off, next_free_off, hdr_off, OFFSET_PAGE_HDR; lia.
Qed.

Lemma on_bitmap_insert x k b :
  (bitmap_off ≤ length x)%nat → on_bitmap (λ bm, <[k := b]> bm) x = <[(bitmap_off + k)%nat := b]> x.
Proof.
  intros Hl. unfold on_bitmap, page_bitmap. rewrite <- (take_drop bitmap_off x) at 3.
  assert (length (take bitmap_off x) = bitmap_off) as Ht by (rewrite length_take; lia).
  rewrite <- Ht at 3. by rewrite insert_app_r.
Qed.

Lemma page_bitmap_on x g : (bitmap_off ≤ length x)%nat → page_bitmap (on_bitmap g x) = g (page_bitmap x).
Proof.
  intros Hl. unfold on_bitmap, page_bitmap at 1. rewrite drop_app_length'; [done|]. rewrite length_take. lia.
Qed.

Lemma in_page_bitmap x i : length x = page_len → 0 ≤ i < n → Bitmap.in_bitmap (page_bitmap x) i.
Proof.
  intros Hl Hi. unfold Bitmap.in_bitmap, page_bitmap. rewrite length_drop, Hl.
  destruct (hdr_layout h Hh) as (H1 & _). unfold page_len, PAGE_SIZE. change bitmap_off with 12%nat. lia.
Qed.

Lemma bit_in_page_ok x i : length x = page_len → 0 ≤ i < n → bit_in_page x i = true.
Proof.
  intros Hl Hi. pose proof (in_page_bitmap x i Hl Hi) as [H1 H2]. unfold bit_in_page.
  rewrite (proj2 (Z.leb_le _ _)), (proj2 (Z.ltb_lt _ _)); done.
Qed.

Lemma slot_in_page_ok i : 0 ≤ i < n → slot_in_page h i = true.
Proof.
  intros Hi. destruct (get_slot_range i Hi). pose proof bitmap_size_pos. unfold slot_in_page, PAGE_SIZE.
  apply andb_true_iff. split; apply Z.leb_le; lia.
Qed.

(** Writing a slot. *)
Lemma write_slot_page x i buf :
  length x = page_len → 0 ≤ i < n → length buf = rsize →
  let y := splice (Z.to_nat (get_slot h i)) buf x in
  length y = page_len ∧ hdr_same x y ∧
  slice bitmap_off (Z.to_nat (bitmap_size h)) y = slice bitmap_off (Z.to_nat (bitmap_size h)) x ∧
  (∀ j, 0 ≤ j < n → slot_bytes y j = if decide (j = i) then buf else slot_bytes x j).
Proof.
  intros Hl Hi Hb y. destruct (get_slot_range i Hi) as [G1 G2]. pose proof bitmap_size_pos as Hbs.
  destruct Hh as (Hr & _).
  assert (Hfit : (Z.to_nat (get_slot h i) + length buf ≤ length x)%nat).
  { rewrite Hl, Hb. unfold page_len, PAGE_SIZE. lia. }
  split; [by unfold y; rewrite length_splice|].
  split; [apply hdr_same_slice, slice_splice_disjoint; [done|left; lia]|].
  split; [apply slice_splice_disjoint; [done|left; change bitmap_off with 12%nat; lia]|].
  intros j Hj. destruct (get_slot_range j Hj) as [J1 J2]. case_decide as Hji.
  - subst j. unfold slot_bytes, y. rewrite <- Hb. by apply slice_splice_same.
  - unfold slot_bytes, y. apply slice_splice_disjoint; [done|]. rewrite Hb.
    destruct (slot_disjoint i j Hi Hj ltac:(done)); [left|right]; lia.
Qed.

(** Changing one bit of the bitmap. *)
Lemma set_byte_page x i b :
  length x = page_len → 0 ≤ i < n →
  let y := on_bitmap (λ bm, <[Z.to_nat (Bitmap.get_bucket i) := b]> bm) x in
  length y = page_len ∧ hdr_same x y ∧ (∀ j, 0 ≤ j < n → slot_bytes y j = slot_bytes x j).
Proof.
  intros Hl Hi y. destruct (hdr_layout h Hh) as (H1 & H2 & _).
  assert (Hy : y = <[(bitmap_off + Z.to_nat (Bitmap.get_bucket i))%nat := b]> x).
  { apply on_bitmap_insert. rewrite Hl. unfold page_len, PAGE_SIZE. change bitmap_off with 12%nat. lia. }
  rewrite Bitmap.get_bucket_pos in Hy by lia.
  assert (i `div` 8 < bitmap_size h) by (apply Z.div_lt_upper_bound; lia).
  assert (0 ≤ i `div` 8) by (apply Z.div_pos; lia). rewrite Hy.
  split; [by rewrite length_insert|].
  split; [apply hdr_same_slice, slice_insert_ne; right; change bitmap_off with 12%nat; lia|].
  intros j Hj. destruct (get_slot_range j Hj) as [J1 _]. unfold slot_bytes. apply slice_insert_ne.
  left. change bitmap_off with 12%nat. lia.
Qed.

Lemma set_bit_page x i :
  length x = page_len → 0 ≤ i < n →
  let y := on_bitmap (λ bm, Bitmap.set bm i) x in
  length y = page_len ∧ hdr_same x y ∧ (∀ j, 0 ≤ j < n → slot_bytes y j = slot_bytes x j) ∧
  (∀ j, 0 ≤ j → Bitmap.is_set (page_bitmap y) j = (bool_decide (i = j) || Bitmap.is_set (page_bitmap x) j)).
Proof.
  intros Hl Hi y. destruct (set_byte_page x i (Z.lor (Bitmap.byte_at (page_bitmap x) (Bitmap.get_bucket i))
    (Bitmap.get_bit i)) Hl Hi) as (A & B & C). split; [done|]. split; [done|]. split; [done|].
  intros j Hj. unfold y. rewrite page_bitmap_on.
  - apply Bitmap.is_set_set; [by apply in_page_bitmap|lia].
  - rewrite Hl. unfold page_len, PAGE_SIZE. change bitmap_off with 12%nat. lia.
Qed.

Lemma reset_bit_page x i :
  length x = page_len → 0 ≤ i < n →
  let y := on_bitmap (λ bm, Bitmap.reset bm i) x in
  length y = page_len ∧ hdr_same x y ∧ (∀ j, 0 ≤ j < n → slot_bytes y j = slot_bytes x j) ∧
  (∀ j, 0 ≤ j →
     Bitmap.is_set (page_bitmap y) j = (negb (bool_decide (i = j)) && Bitmap.is_set (page_bitmap x) j)).
Proof.
  intros Hl Hi y. destruct (set_byte_page x i (Z.land (Bitmap.byte_at (page_bitmap x) (Bitmap.get_bucket i))
    (Z.land (Z.lnot (Bitmap.get_bit i)) 255)) Hl Hi) as (A & B & C). split; [done|]. split; [done|]. split; [done|].
  intros j Hj. unfold y. rewrite page_bitmap_on.
  - apply Bitmap.is_set_reset; [by apply in_page_bitmap|lia].
  - rewrite Hl. unfold page_len, PAGE_SIZE. change bitmap_off with 12%nat. lia.
Qed.

(** Changing a header field. *)
Lemma set_hdr_page x off z :
  length x = page_len → (4 ≤ off ∧ off + 4 ≤ 12)%nat →
  let y := set_int off z x in
  length y = page_len ∧
  (∀ i, 0 ≤ i < page_bits → Bitmap.is_set (page_bitmap y) i = Bitmap.is_set (page_bitmap x) i) ∧
  (∀ j, 0 ≤ j < n → slot_bytes y j = slot_bytes x j).
Proof.
  intros Hl Ho y. assert (Hfit : (off + length (le32 z) ≤ length x)%nat).
  { rewrite length_le32, Hl. unfold page_len, PAGE_SIZE. lia. }
  pose proof bitmap_size_pos. split; [unfold y, set_int; by rewrite length_splice|]. split.
  - intros i Hi. apply is_set_agree; [done|]. unfold y, set_int. apply slice_splice_disjoint; [done|].
    rewrite length_le32. right. change bitmap_off with 12%nat. lia.
  - intros j Hj. destruct (get_slot_range j Hj). unfold slot_bytes, y, set_int.
    apply slice_splice_disjoint; [done|]. rewrite length_le32. right. lia.
Qed.

(** ** What the record operations do to a page *)

(** The page's count is the number of its records, and the spare bits are clear. *)
Definition tail_clear (x : bytes) : Prop := ∀ i, n ≤ i < page_bits → Bitmap.is_set (page_bitmap x) i = false.

Definition page_ok (x : bytes) : Prop :=
  length x = page_len ∧ get_num_records x = page_count x ∧ tail_clear x.

Definition bump (k : Z) (x : bytes) : bytes := set_num_records (wrap32 (get_num_records x + k)) x.
Definition insert_page (i : Z) (buf x : bytes) : bytes :=
  bump 1 (on_bitmap (λ bm, Bitmap.set bm i) (splice (Z.to_nat (get_slot h i)) buf x)).
Definition delete_page (i : Z) (x : bytes) : bytes := bump (-1) (on_bitmap (λ bm, Bitmap.reset bm i) x).
Definition update_page (i : Z) (buf x : bytes) : bytes := splice (Z.to_nat (get_slot h i)) buf x.

Lemma page_rec_eq x i :
  0 ≤ i < n → page_rec x i = if Bitmap.is_set (page_bitmap x) i then Some (slot_bytes x i) else None.
Proof.
  intros Hi. unfold page_rec. rewrite (proj2 (Z.leb_le _ _)), (proj2 (Z.ltb_lt _ _)) by lia. done.
Qed.

Lemma page_rec_out x i : ¬ (0 ≤ i < n) → page_rec x i = None.
Proof.
  intros Hi. unfold page_rec. destruct (Z.leb_spec 0 i), (Z.ltb_spec i n); simpl; try done. lia.
Qed.

Lemma page_rec_Some x i v :
  page_rec x i = Some v → 0 ≤ i < n ∧ Bitmap.is_set (page_bitmap x) i = true ∧ v = slot_bytes x i.
Proof.
  unfold page_rec. destruct (Z.leb_spec 0 i), (Z.ltb_spec i n); simpl; try done.
  destruct (Bitmap.is_set _ _); [|done]. intros [= <-]. done.
Qed.

Lemma page_count_range x : 0 ≤ page_count x ≤ n.
Proof.
  unfold page_count. pose proof (count_le (Bitmap.is_set (page_bitmap x)) page_slots) as H.
  rewrite length_page_slots in H. destruct (hdr_layout h Hh) as (H1 & _). lia.
Qed.

Lemma page_len_12 (x : bytes) : length x = page_len → (12 ≤ length x)%nat.
Proof. intros ->. unfold page_len, PAGE_SIZE. lia. Qed.

Lemma bump_page k x :
  length x = page_len → is_int (get_num_records x + k) →
  let y := bump k x in
  length y = page_len ∧ get_num_records y = get_num_records x + k ∧ get_next_free y = get_next_free x ∧
  (∀ i, 0 ≤ i < page_bits → Bitmap.is_set (page_bitmap y) i = Bitmap.is_set (page_bitmap x) i) ∧
  (∀ j, 0 ≤ j < n → slot_bytes y j = slot_bytes x j).
Proof.
  intros Hl Hk y. pose proof (page_len_12 x Hl).
  destruct (set_hdr_page x num_records_off (wrap32 (get_num_records x + k)) Hl) as (A & B & C).
  { unfold num_records_off, hdr_off, OFFSET_PAGE_HDR. lia. }
  split; [done|]. split.
  - unfold y, bump, get_num_records, set_num_records. rewrite get_set_int.
    + apply wrap32_id, Hk.
    + unfold num_records_off, hdr_off, OFFSET_PAGE_HDR. lia.
    + apply wrap32_is_int.
  - split; [|done]. unfold y, bump, get_next_free, set_num_records. apply get_set_int_ne;
      unfold num_records_off, next_free_off, hdr_off, OFFSET_PAGE_HDR; lia.
Qed.

Lemma count_is_int x k : page_ok x → -1 ≤ k ≤ 1 → is_int (get_num_records x + k).
Proof.
  intros (_ & -> & _) Hk. pose proof (page_count_range x). destruct (hdr_layout h Hh) as (H1 & _).
  auto with ints.
Qed.

Lemma insert_page_ok x i buf :
  page_ok x → 0 ≤ i < n → Bitmap.is_set (page_bitmap x) i = false → length buf = rsize →
  let y := insert_page i buf x in
  page_ok y ∧ page_count y = page_count x + 1 ∧ get_next_free y = get_next_free x ∧
  (∀ j, page_rec y j = if decide (j = i) then Some buf else page_rec x j).
Proof.
  intros Hok Hi Hbit Hb y. pose proof Hok as (Hl & Hc & Ht).
  destruct (write_slot_page x i buf Hl Hi Hb) as (L1 & [N1 F1] & B1 & S1). set (x1 := splice _ buf x) in *.
  destruct (set_bit_page x1 i L1 Hi) as (L2 & [N2 F2] & S2 & B2). set (x2 := on_bitmap _ x1) in *.
  destruct (bump_page 1 x2 L2) as (L3 & N3 & F3 & B3 & S3).
  { rewrite N2, N1. by apply count_is_int. }
  change (bump 1 x2) with y in L3, N3, F3, B3, S3.
  assert (Hbits : ∀ j, 0 ≤ j < page_bits →
            Bitmap.is_set (page_bitmap y) j = (bool_decide (i = j) || Bitmap.is_set (page_bitmap x) j)).
  { intros j Hj. rewrite B3, B2 by (done || lia). f_equal. by apply is_set_agree. }
  assert (Hcnt : page_count y = page_count x + 1).
  { unfold page_count. rewrite (count_add (Bitmap.is_set (page_bitmap x)) _ page_slots i).
    - lia.
    - apply page_slots_NoDup.
    - by apply elem_of_page_slots.
    - done.
    - rewrite Hbits by (by apply slot_bit). by rewrite bool_decide_eq_true_2.
    - intros j Hj%elem_of_page_slots Hne. rewrite Hbits by (by apply slot_bit). by rewrite bool_decide_eq_false_2. }
  assert (Htl : tail_clear y).
  { intros j Hj. rewrite Hbits, bool_decide_eq_false_2 by lia. by apply Ht. }
  split; [split; [done|]; rewrite N3, N2, N1, Hc; by rewrite Hcnt|]. split; [done|].
  split; [by rewrite F3, F2, F1|]. intros j. destruct (decide (0 ≤ j < n)) as [Hj|Hj].
  - rewrite !page_rec_eq, Hbits, S3, S2, S1 by (done || by apply slot_bit). case_decide as Hji.
    + subst j. by rewrite bool_decide_eq_true_2.
    + by rewrite bool_decide_eq_false_2.
  - rewrite !page_rec_out by done. case_decide; [subst; lia|done].
Qed.

Lemma delete_page_ok x i :
  page_ok x → 0 ≤ i < n → Bitmap.is_set (page_bitmap x) i = true →
  let y := delete_page i x in
  page_ok y ∧ page_count y = page_count x - 1 ∧ get_next_free y = get_next_free x ∧
  (∀ j, page_rec y j = if decide (j = i) then None else page_rec x j).
Proof.
  intros Hok Hi Hbit y. pose proof Hok as (Hl & Hc & Ht).
  destruct (reset_bit_page x i Hl Hi) as (L2 & [N2 F2] & S2 & B2). set (x2 := on_bitmap _ x) in *.
  destruct (bump_page (-1) x2 L2) as (L3 & N3 & F3 & B3 & S3).
  { rewrite N2. by apply count_is_int. }
  change (bump (-1) x2) with y in L3, N3, F3, B3, S3.
  assert (Hbits : ∀ j, 0 ≤ j < page_bits →
            Bitmap.is_set (page_bitmap y) j = (negb (bool_decide (i = j)) && Bitmap.is_set (page_bitmap x) j)).
  { intros j Hj. by rewrite B3, B2 by (done || lia). }
  assert (Hcnt : page_count y = page_count x - 1).
  { unfold page_count. rewrite (count_add (Bitmap.is_set (page_bitmap y)) (Bitmap.is_set (page_bitmap x)) page_slots i).
    - lia.
    - apply page_slots_NoDup.
    - by apply elem_of_page_slots.
    - rewrite Hbits by (by apply slot_bit). by rewrite bool_decide_eq_true_2.
    - done.
    - intros j Hj%elem_of_page_slots Hne. rewrite Hbits by (by apply slot_bit). by rewrite bool_decide_eq_false_2. }
  assert (Htl : tail_clear y).
  { intros j Hj. rewrite Hbits, bool_decide_eq_false_2 by lia. by apply Ht. }
  split; [split; [done|]; rewrite N3, N2, Hc, Hcnt; split; [lia|done]|]. split; [done|].
  split; [by rewrite F3, F2|]. intros j. destruct (decide (0 ≤ j < n)) as [Hj|Hj].
  - rewrite !page_rec_eq, Hbits, S3, S2 by (done || by apply slot_bit). case_decide as Hji.
    + subst j. by rewrite bool_decide_eq_true_2.
    + by rewrite bool_decide_eq_false_2.
  - rewrite !page_rec_out by done. by case_decide.
Qed.

Lemma update_page_ok x i buf :
  page_ok x → 0 ≤ i < n → Bitmap.is_set (page_bitmap x) i = true → length buf = rsize →
  let y := update_page i buf x in
  page_ok y ∧ page_count y = page_count x ∧ get_next_free y = get_next_free x ∧
  (∀ j, page_rec y j = if decide (j = i) then Some buf else page_rec x j).
Proof.
  intros (Hl & Hc & Ht) Hi Hbit Hb y.
  destruct (write_slot_page x i buf Hl Hi Hb) as (L1 & [N1 F1] & B1 & S1).
  change (splice (Z.to_nat (get_slot h i)) buf x) with y in L1, N1, F1, B1, S1.
  assert (Hcnt : page_count y = page_count x) by (apply page_count_agree; intros; apply is_set_agree; [by apply slot_bit|done]).
  split; [split_and!; [done|congruence|]|].
  { intros j Hj. rewrite (is_set_agree x) by (done || lia). by apply Ht. }
  split; [done|]. split; [done|]. intros j.
  destruct (decide (0 ≤ j < n)) as [Hj|Hj].
  - rewrite !page_rec_eq, (is_set_agree x y), S1 by (done || by apply slot_bit). case_decide; [subst; by rewrite Hbit|done].
  - rewrite !page_rec_out by done. case_decide; [subst; lia|done].
Qed.

Lemma set_next_free_ok x z :
  page_ok x → is_int z →
  let y := set_next_free z x in
  page_ok y ∧ page_count y = page_count x ∧ get_next_free y = z ∧ (∀ j, page_rec y j = page_rec x j).
Proof.
  intros (Hl & Hc & Ht) Hz y. pose proof (page_len_12 x Hl).
  destruct (set_hdr_page x next_free_off z Hl) as (A & B & C).
  { unfold next_free_off, hdr_off, OFFSET_PAGE_HDR. lia. }
  change (set_int next_free_off z x) with y in A, B, C.
  assert (Hcnt : page_count y = page_count x) by (apply page_count_agree; intros; by apply B, slot_bit).
  assert (Hn : get_num_records y = get_num_records x).
  { unfold y, set_next_free, get_num_records. apply get_set_int_ne;
      unfold num_records_off, next_free_off, hdr_off, OFFSET_PAGE_HDR; lia. }
  split; [split_and!; [done|congruence|intros j Hj; rewrite B by (destruct (hdr_layout h Hh); lia); by apply Ht]|]. split; [done|]. split.
  - unfold y, get_next_free, set_next_free. apply get_set_int; [|done].
    unfold next_free_off, hdr_off, OFFSET_PAGE_HDR. lia.
  - intros j. destruct (decide (0 ≤ j < n)) as [Hj|Hj]; [|by rewrite !page_rec_out].
    by rewrite !page_rec_eq, B, C by (done || by apply slot_bit).
Qed.

(** A fresh page: zeroed by the pool. *)
Lemma zero_page_ok : page_ok (zeros page_len) ∧ page_count (zeros page_len) = 0 ∧ ∀ j, page_rec (zeros page_len) j = None.
Proof.
  assert (Hbits : ∀ j, 0 ≤ j → Bitmap.is_set (page_bitmap (zeros page_len)) j = false).
  { intros j Hj. rewrite Bitmap.is_set_bit by done. unfold Bitmap.bit_of, Bitmap.byte_at, page_bitmap, zeros.
    rewrite lookup_drop. destruct (replicate _ _ !! _) as [b|] eqn:E; simpl; [|by rewrite Z.bits_0].
    apply lookup_replicate in E as [-> _]. by rewrite Z.bits_0. }
  assert (Hcnt : page_count (zeros page_len) = 0).
  { unfold page_count. rewrite (count_ext (λ _, false)).
    - clear. induction page_slots; simpl; lia.
    - intros i Hi%elem_of_page_slots. apply Hbits. lia. }
  split; [split_and!; [apply length_replicate|by rewrite Hcnt|intros i Hi; apply Hbits; destruct (hdr_layout h Hh); lia]|]. split; [done|]. intros j.
  destruct (decide (0 ≤ j < n)) as [Hj|Hj]; [|by rewrite page_rec_out].
  rewrite page_rec_eq by done. by rewrite Hbits by lia.
Qed.

(** A page that is not full has a free slot, and [first_bit] finds it. *)
Lemma first_free_slot x :
  page_count x < n →
  let i := Bitmap.first_bit false (page_bitmap x) n in
  0 ≤ i < n ∧ Bitmap.is_set (page_bitmap x) i = false.
Proof.
  intros Hc i. destruct (hdr_layout h Hh) as (H1 & _).
  destruct (Bitmap.next_bit_loop_spec (Z.to_nat (n - (-1 + 1))) false (page_bitmap x) n (-1 + 1)) as (R & A & B);
    [lia|lia|]. fold (Bitmap.next_bit false (page_bitmap x) n (-1)) in R, A, B.
  fold (Bitmap.first_bit false (page_bitmap x) n) in R, A, B. fold i in R, A, B.
  destruct (decide (i < n)) as [Hlt|Hge]; [split; [lia|by apply B]|]. exfalso.
  destruct (count_lt (Bitmap.is_set (page_bitmap x)) page_slots) as (j & Hj%elem_of_page_slots & Hj0).
  { unfold page_count in Hc. rewrite length_page_slots. lia. }
  rewrite A in Hj0; [done|lia].
Qed.

End Page.
