(* ===== verification/RecordSpec.v ===== *)
(** What a record file promises: it is a finite map from [Rid] to records.

    [file_rec] is that map, read off the pages the buffer pool holds for the
    file.  [rm_inv] is the file invariant: the header describes the layout, every
    page's record count is the number of bits set in its bitmap, and the free
    list starting at [first_free_page_no] runs through distinct pages that are
    not full.  Insert, update and delete are shown to act on the map as their
    names say and to keep the invariant; the one delete that does not is the
    deletion of the last record of a page that is already on the free list. *)
From S2P Require Import Prelude Config PageStore Replacer BufferPool PoolSpec Bitmap Record RecordPage.

Section Files.
Context {D R : Type} {PS : PageStore D} {RP : Replacer R}.
Abbreviation BPM := (BufferPoolManager D R).
Abbreviation RmState := (RmState D R).
Implicit Types (st : RmState) (a : spec_state) (c : gmap PageId (option bytes)) (x y : bytes).

Definition file_rec c (fd : Z) (h : RmFileHdr) (rid : Rid) : option bytes :=
  if (1 <=? rid_page_no rid) && (rid_page_no rid <? num_pages h) then
    match c !! MkPageId fd (rid_page_no rid) with
    | Some (Some x) => page_rec h x (rid_slot_no rid)
    | _ => None
    end
  else None.

(** The free list: [first], then each page's [next_free_page_no], until a
    negative number. *)
Fixpoint chain c (fd : Z) (h : RmFileHdr) (first : Z) (l : list Z) : Prop :=
  match l with
  | [] => first < 0
  | p :: l' =>
      first = p ∧ 1 ≤ p < num_pages h ∧
      ∃ x, c !! MkPageId fd p = Some (Some x) ∧ page_count h x < num_records_per_page h ∧
           chain c fd h (get_next_free x) l'
  end.

Record rm_inv st a (l : list Z) : Prop := {
  ri_pool : pool_inv None (rm_pool st) a;
  ri_hdr : hdr_ok (file_hdr_ st);
  ri_num : 1 ≤ num_pages (file_hdr_ st) ≤ int_max;
  ri_first : is_int (first_free_page_no (file_hdr_ st));
  ri_counter : counter a (fd_ st) = num_pages (file_hdr_ st);
  ri_fd : ps_fd_ok (fd_ st);
  ri_pages k : 1 ≤ k < num_pages (file_hdr_ st) →
    ∃ x, is_live a (MkPageId (fd_ st) k) x ∧ page_ok (file_hdr_ st) x;
  ri_chain : chain (cont a) (fd_ st) (file_hdr_ st) (first_free_page_no (file_hdr_ st)) l;
  ri_nodup : NoDup l
}.

(** The map a state stands for. *)
Definition records st a (rid : Rid) : option bytes := file_rec (cont a) (fd_ st) (file_hdr_ st) rid.

(** ** Steps through the pool *)

Lemma on_pool_run {A} (m : M BPM A) st r s' :
  m (rm_pool st) = (r, s') → on_pool m st = (r, with_pool s' st).
Proof. intros H. unfold on_pool, zoom. by rewrite H. Qed.

Lemma get_hdr_bind {A} (k : RmFileHdr → M RmState A) st : (st_bind get_hdr k) st = k (file_hdr_ st) st.
Proof. done. Qed.

Lemma with_pool_id st : with_pool (rm_pool st) st = st.
Proof. by destruct st. Qed.

(** The page [p] is held in frame [f] and contains [x]. *)
Record holds (s : BPM) a (p : PageId) (f : Z) x : Prop := {
  ho_inv : pool_inv None s a;
  ho_held : ∃ n, held a !! p = Some (f, n);
  ho_live : is_live a p x
}.

Lemma holds_frame s a p f x :
  holds s a p f x → ∃ pg, frame s f = Some pg ∧ id_ pg = p ∧ data_ pg = x ∧ length x = page_len.
Proof.
  intros [HI [n Hh] Hx]. destruct (pi_held _ _ _ HI _ _ _ Hh) as [_ Hp].
  destruct (pi_map _ _ _ HI _ _ Hp) as (pg & Hf & [A B C DD E F G]). unfold is_live in *.
  exists pg. split; [done|]. split; [done|]. assert (data_ pg = x) as <- by congruence.
  split; [done|]. by apply (pi_len _ _ _ HI f).
Qed.

Lemma page_bytes_run st a p f x : holds (rm_pool st) a p f x → page_bytes f st = (Ok x, st).
Proof.
  intros (pg & Hf & _ & <- & _)%holds_frame. unfold page_bytes.
  pose proof (on_pool_run (page_at f) st _ _ (page_at_run _ _ _ Hf)) as H. mstep H. by rewrite with_pool_id.
Qed.

Lemma page_no_of_run st a p f x : holds (rm_pool st) a p f x → page_no_of f st = (Ok (pid_no p), st).
Proof.
  intros (pg & Hf & <- & _)%holds_frame. unfold page_no_of.
  pose proof (on_pool_run (page_at f) st _ _ (page_at_run _ _ _ Hf)) as H. mstep H. by rewrite with_pool_id.
Qed.

(** The specification after the held page [p] has been overwritten with [y]. *)
Definition wr a (p : PageId) y : spec_state := after a (OpWrite p 0 y) OutUnit.

Lemma wr_wr a p y z : wr (wr a p y) p z = wr a p z.
Proof.
  unfold wr. simpl. f_equal; [by rewrite insert_insert_eq|]. apply set_eq. intros q. set_solver.
Qed.

Lemma upd_bytes_run st a p f x g :
  holds (rm_pool st) a p f x → length (g x) = page_len →
  ∃ s', upd_bytes f g st = (Ok tt, with_pool s' st) ∧ holds s' (wr a p (g x)) p f (g x).
Proof.
  intros H Hl. pose proof H as [HI [n Hh] Hx]. unfold upd_bytes.
  destruct (client_write_ok _ _ _ _ _ _ HI Hh Hl) as (s' & Hw & HI').
  exists s'. mstep (page_bytes_run _ _ _ _ _ H). split; [by apply on_pool_run|].
  split; [exact HI'|by exists n|]. unfold is_live. simpl. by rewrite lookup_insert_eq.
Qed.

(** ** Fetching *)

(** The exceptions a record operation can pass on: the disk's, and the one for
    a null page. *)
Definition rm_error (e : RedBaseError) : Prop :=
  e = UnixError ∨ ∃ k, e = PageNotExistError "page_no Invalid" k.

(** When it does: a page of an open file could not be read or written, or every
    frame is pinned. *)
Definition rm_failure (s : BPM) a (e : RedBaseError) : Prop :=
  (e = UnixError ∧ disk_failed (D := D)) ∨ ((∃ k, e = PageNotExistError "page_no Invalid" k) ∧ all_pinned s a).

Lemma rm_failure_error s a e : rm_failure s a e → rm_error e.
Proof. intros [[-> _]|[? _]]; [by left|by right]. Qed.

Definition same_pages a a' : Prop := cont a' = cont a ∧ counter a' = counter a ∧ openp a' = openp a.

(** No page has gained more than [m] pins. *)
Definition pins_by (m : Z) a a' : Prop := ∀ q, pin_of a' q ≤ pin_of a q + m.

Lemma fetch_page_handle_pins st a k x :
  pool_inv None (rm_pool st) a → is_live a (MkPageId (fd_ st) k) x →
  pin_of a (MkPageId (fd_ st) k) < int_max →
  (∃ e s', rm_failure (rm_pool st) a e ∧ fetch_page_handle k st = (Throw (RedBase e), with_pool s' st)) ∨
  (∃ f s' a', fetch_page_handle k st = (Ok f, with_pool s' st) ∧ same_pages a a' ∧
     holds s' a' (MkPageId (fd_ st) k) f x ∧
     (∀ q, q ≠ MkPageId (fd_ st) k → pin_of a' q = pin_of a q) ∧ pins_by 1 a a').
Proof.
  intros HI Hx Hp. unfold fetch_page_handle, get_fd. unfold st_bind at 1 3, gets.
  destruct (FetchPage_ok _ _ _ _ HI Hx Hp) as [(Hd & s' & H)|[(H & _ & Hfree)|(f & pg & s' & H & _ & _ & _ & HI')]].
  - left. exists UnixError, s'. split; [by left|]. apply on_pool_run in H. by mstop H.
  - left. eexists _, (rm_pool st). apply on_pool_run in H. mstep H. split; [|done]. right.
    split; [by eexists|]. by apply (all_pinned_iff _ _ HI).
  - right. apply on_pool_run in H. mstep H. eexists f, s', _. split; [done|]. split; cycle 1.
    + split; [split; [exact HI'| |done]|split].
      * eexists. simpl. by rewrite lookup_insert_eq.
      * intros q Hq. unfold pin_of. simpl. by rewrite lookup_insert_ne.
      * intros q. destruct (decide (q = MkPageId (fd_ st) k)) as [->|Hq]; unfold pin_of at 1; simpl.
        -- by rewrite lookup_insert_eq.
        -- rewrite lookup_insert_ne by done. unfold pin_of. lia.
    + done.
Qed.

Lemma fetch_page_handle_ok st a k x :
  pool_inv None (rm_pool st) a → is_live a (MkPageId (fd_ st) k) x →
  pin_of a (MkPageId (fd_ st) k) < int_max →
  (∃ e s', rm_failure (rm_pool st) a e ∧ fetch_page_handle k st = (Throw (RedBase e), with_pool s' st)) ∨
  (∃ f s' a', fetch_page_handle k st = (Ok f, with_pool s' st) ∧ same_pages a a' ∧
     holds s' a' (MkPageId (fd_ st) k) f x).
Proof.
  intros H1 H2 H3. destruct (fetch_page_handle_pins st a k x H1 H2 H3) as [?|(f & s' & a' & ? & ? & ? & _ & _)]; [by left|].
  right. by exists f, s', a'.
Qed.

(** ** The map and the free list under a page update *)

Lemma file_rec_update c fd h k i x y v rid :
  1 ≤ k < num_pages h → c !! MkPageId fd k = Some (Some x) →
  (∀ j, page_rec h y j = if decide (j = i) then v else page_rec h x j) →
  file_rec (<[MkPageId fd k := Some y]> c) fd h rid
  = if decide (rid = MkRid k i) then v else file_rec c fd h rid.
Proof.
  intros Hk Hx Hy. destruct rid as [k' i']. unfold file_rec. simpl.
  destruct (decide (k' = k)) as [->|Hne].
  - rewrite (proj2 (Z.leb_le _ _)), (proj2 (Z.ltb_lt _ _)) by lia. simpl.
    rewrite lookup_insert_eq, Hx, Hy. case_decide; [subst; by rewrite decide_True|].
    rewrite decide_False; [done|]. by intros [= ->].
  - rewrite decide_False by (by intros [= ? ?]). destruct (_ && _); [|done].
    rewrite lookup_insert_ne; [done|]. by intros [= ?].
Qed.

Lemma chain_update c fd h first l k x y :
  c !! MkPageId fd k = Some (Some x) → get_next_free y = get_next_free x →
  (k ∈ l → page_count h y < num_records_per_page h) →
  chain c fd h first l → chain (<[MkPageId fd k := Some y]> c) fd h first l.
Proof.
  intros Hx Hn Hc. revert first. induction l as [|p l IH]; intros first; simpl; [done|].
  intros (-> & Hp & z & Hz & Hcz & Hl). split; [done|]. split; [done|].
  destruct (decide (p = k)) as [->|Hne].
  - exists y. assert (z = x) as -> by congruence. rewrite lookup_insert_eq. split; [done|].
    split; [apply Hc; by left|]. rewrite Hn. apply IH; [|done]. intros ?. apply Hc. by right.
  - exists z. rewrite lookup_insert_ne by (by intros [= ?]). split; [done|]. split; [done|].
    apply IH; [|done]. intros ?. apply Hc. by right.
Qed.

(** Pages outside the free list may change freely. *)
Lemma chain_update_out c fd h first l k y :
  k ∉ l → chain c fd h first l → chain (<[MkPageId fd k := Some y]> c) fd h first l.
Proof.
  intros Hk. revert first. induction l as [|p l IH]; intros first; simpl; [done|].
  apply not_elem_of_cons in Hk as [Hkp Hkl].
  intros (-> & Hp & z & Hz & Hcz & Hl). split; [done|]. split; [done|].
  exists z. rewrite lookup_insert_ne by (by intros [= ?]). split; [done|]. split; [done|]. by apply IH.
Qed.

Lemma chain_range c fd h first l k : chain c fd h first l → k ∈ l → 1 ≤ k < num_pages h.
Proof.
  revert first. induction l as [|p l IH]; intros first; simpl; [by intros _ ?%not_elem_of_nil|].
  intros (-> & Hp & z & Hz & Hcz & Hl) [->|Hk]%elem_of_cons; [done|by eapply IH].
Qed.

Lemma chain_set_first c fd h k first l : chain c fd h first l → chain c fd (set_first_free k h) first l.
Proof.
  revert first. induction l as [|p l IH]; intros first; simpl; [done|].
  intros (-> & Hp & z & Hz & Hcz & Hl). split; [done|]. split; [done|]. exists z. split; [done|]. split; [done|auto].
Qed.

Lemma chain_more_pages c fd h m first l :
  num_pages h ≤ m → chain c fd h first l → chain c fd (set_num_pages m h) first l.
Proof.
  intros Hm. revert first. induction l as [|p l IH]; intros first; simpl; [done|].
  intros (-> & Hp & z & Hz & Hcz & Hl). split; [done|]. split; [lia|]. exists z. split; [done|]. split; [done|auto].
Qed.

Lemma chain_count c fd h first l k x :
  chain c fd h first l → k ∈ l → c !! MkPageId fd k = Some (Some x) → page_count h x < num_records_per_page h.
Proof.
  intros Hc Hin Hx. revert first Hc. induction l as [|p l IH]; intros first; simpl; [by apply not_elem_of_nil in Hin|].
  intros (-> & Hp & z & Hz & Hcz & Hl). apply elem_of_cons in Hin as [->|Hin]; [congruence|by eapply IH].
Qed.

(** The parts of the invariant that do not involve the pool. *)
Lemma rm_inv_page st a l a' s' k x y :
  rm_inv st a l → 1 ≤ k < num_pages (file_hdr_ st) → is_live a (MkPageId (fd_ st) k) x →
  page_ok (file_hdr_ st) y → get_next_free y = get_next_free x →
  (k ∈ l → page_count (file_hdr_ st) y < num_records_per_page (file_hdr_ st)) →
  pool_inv None s' a' → cont a' = <[MkPageId (fd_ st) k := Some y]> (cont a) → counter a' = counter a →
  rm_inv (with_pool s' st) a' l.
Proof.
  intros [I1 I2 I3 I4 I5 I6 I7 I8 I9] Hk Hx Hy Hn Hc HI Ec En. split; simpl; try done.
  - by rewrite En.
  - intros j Hj. unfold is_live. rewrite Ec. destruct (decide (j = k)) as [->|Hne].
    + exists y. by rewrite lookup_insert_eq.
    + rewrite lookup_insert_ne by (by intros [= ?]). by apply I7.
  - rewrite Ec. by eapply chain_update.
Qed.

Lemma live_unique a p x y : is_live a p x → is_live a p y → x = y.
Proof. unfold is_live. congruence. Qed.

Lemma records_Some st a rid v :
  records st a rid = Some v →
  1 ≤ rid_page_no rid < num_pages (file_hdr_ st) ∧
  ∃ x, is_live a (MkPageId (fd_ st) (rid_page_no rid)) x ∧ page_rec (file_hdr_ st) x (rid_slot_no rid) = Some v.
Proof.
  unfold records, file_rec, is_live. intros H.
  destruct (Z.leb_spec 1 (rid_page_no rid)), (Z.ltb_spec (rid_page_no rid) (num_pages (file_hdr_ st)));
    simpl in H; try done.
  split; [lia|]. destruct (cont a !! _) as [[x|]|]; [|done|done]. by exists x.
Qed.

(** A page of the file changes and the free list gets a new head. *)
Lemma rm_inv_first st a l a' s' k y ff l' :
  let c' := <[MkPageId (fd_ st) k := Some y]> (cont a) in
  rm_inv st a l → 1 ≤ k < num_pages (file_hdr_ st) → page_ok (file_hdr_ st) y → is_int ff →
  pool_inv None s' a' → cont a' = c' → counter a' = counter a →
  chain c' (fd_ st) (set_first_free ff (file_hdr_ st)) ff l' → NoDup l' →
  rm_inv (with_hdr (set_first_free ff (file_hdr_ st)) (with_pool s' st)) a' l'.
Proof.
  intros c' [I1 I2 I3 I4 I5 I6 I7 I8 I9] Hk Hy Hff HI Ec En Hch Hnd. split; simpl; try done.
  - by rewrite En.
  - intros j Hj. unfold is_live. rewrite Ec. unfold c'. destruct (decide (j = k)) as [->|Hne].
    + exists y. by rewrite lookup_insert_eq.
    + rewrite lookup_insert_ne by (by intros [= ?]). by apply I7.
  - by rewrite Ec.
Qed.

(** The record at a slot of a live page. *)
Lemma records_at st a rid x :
  1 ≤ rid_page_no rid < num_pages (file_hdr_ st) → 0 ≤ rid_slot_no rid < num_records_per_page (file_hdr_ st) →
  is_live a (MkPageId (fd_ st) (rid_page_no rid)) x →
  records st a rid = if Bitmap.is_set (page_bitmap x) (rid_slot_no rid) then Some (slot_bytes (file_hdr_ st) x (rid_slot_no rid)) else None.
Proof.
  intros Hk Hi Hx. unfold records, file_rec, page_rec. unfold is_live in Hx. rewrite Hx.
  by rewrite !(proj2 (Z.leb_le _ _)), !(proj2 (Z.ltb_lt _ _)) by lia.
Qed.

(** A fetch alone changes nothing but pins. *)
Lemma rm_inv_fetch st a l a' s' :
  rm_inv st a l → same_pages a a' → pool_inv None s' a' → rm_inv (with_pool s' st) a' l.
Proof.
  intros [I1 I2 I3 I4 I5 I6 I7 I8 I9] (Ec & En & Eo) HI. split; simpl; try done; unfold is_live; rewrite ?Ec; try done.
  by rewrite En.
Qed.

Lemma write_slot_run st a p f x i buf :
  hdr_ok (file_hdr_ st) → holds (rm_pool st) a p f x → 0 ≤ i < num_records_per_page (file_hdr_ st) →
  length buf = Z.to_nat (record_size (file_hdr_ st)) →
  ∃ s', write_slot f i buf st = (Ok tt, with_pool s' st) ∧
    holds s' (wr a p (update_page (file_hdr_ st) i buf x)) p f (update_page (file_hdr_ st) i buf x).
Proof.
  intros Hh Ho Hi Hb. destruct (holds_frame _ _ _ _ _ Ho) as (pg & _ & _ & _ & Hl).
  unfold write_slot. rewrite get_hdr_bind.
  pose proof (proj1 Hh) as Hr. rewrite (slot_in_page_ok _ Hh i Hi), (proj2 (Z.leb_le _ _)) by lia. simpl.
  destruct (write_slot_page _ Hh x i buf Hl Hi Hb) as (L & _).
  rewrite take_ge by lia. by apply upd_bytes_run.
Qed.

Lemma page_set_run st a p f x i :
  hdr_ok (file_hdr_ st) → holds (rm_pool st) a p f x → 0 ≤ i < num_records_per_page (file_hdr_ st) →
  let y := on_bitmap (λ bm, Bitmap.set bm i) x in
  ∃ s', page_set f i st = (Ok tt, with_pool s' st) ∧ holds s' (wr a p y) p f y.
Proof.
  intros Hh Ho Hi y. destruct (holds_frame _ _ _ _ _ Ho) as (pg & _ & _ & _ & Hl).
  unfold page_set. mstep (page_bytes_run _ _ _ _ _ Ho). rewrite (bit_in_page_ok _ Hh x i Hl Hi).
  destruct (set_bit_page _ Hh x i Hl Hi) as (L & _). by apply upd_bytes_run.
Qed.

Lemma page_reset_run st a p f x i :
  hdr_ok (file_hdr_ st) → holds (rm_pool st) a p f x → 0 ≤ i < num_records_per_page (file_hdr_ st) →
  let y := on_bitmap (λ bm, Bitmap.reset bm i) x in
  ∃ s', page_reset f i st = (Ok tt, with_pool s' st) ∧ holds s' (wr a p y) p f y.
Proof.
  intros Hh Ho Hi y. destruct (holds_frame _ _ _ _ _ Ho) as (pg & _ & _ & _ & Hl).
  unfold page_reset. mstep (page_bytes_run _ _ _ _ _ Ho). rewrite (bit_in_page_ok _ Hh x i Hl Hi).
  destruct (reset_bit_page _ Hh x i Hl Hi) as (L & _). by apply upd_bytes_run.
Qed.

Lemma add_num_records_run st a p f x k :
  holds (rm_pool st) a p f x →
  ∃ s', add_num_records f k st = (Ok tt, with_pool s' st) ∧ holds s' (wr a p (bump k x)) p f (bump k x).
Proof.
  intros Ho. destruct (holds_frame _ _ _ _ _ Ho) as (pg & _ & _ & _ & Hl).
  apply (upd_bytes_run st a p f x (bump k) Ho). unfold bump, set_num_records.
  rewrite length_set_int; [done|]. rewrite Hl. unfold num_records_off, hdr_off, OFFSET_PAGE_HDR, page_len, PAGE_SIZE. lia.
Qed.

(** ** Reading, updating and deleting *)

Lemma get_record_run st a l rid v :
  rm_inv st a l → records st a rid = Some v → (∀ p, pin_of a p < int_max) →
  (∃ e s', rm_failure (rm_pool st) a e ∧ get_record rid st = (Throw (RedBase e), with_pool s' st)) ∨
  (∃ rec s' a', get_record rid st = (Ok rec, with_pool s' st) ∧
     rec_data rec = v ∧ rec_size rec = record_size (file_hdr_ st) ∧
     same_pages a a' ∧ rm_inv (with_pool s' st) a' l ∧ pins_by 1 a a').
Proof.
  intros HI (Hk & x & Hx & Hv)%records_Some Hpin. unfold get_record.
  destruct (fetch_page_handle_pins st a _ x (ri_pool _ _ _ HI) Hx (Hpin _)) as [(e & s' & He & H)|(f & s' & a' & H & Hs & Ho & _ & Hp)].
  { left. exists e, s'. split; [done|]. by mstop H. }
  right. mstep H. rewrite get_hdr_bind.
  mstep (page_bytes_run (with_pool s' st) a' _ f x Ho).
  apply page_rec_Some in Hv as (Hi & _ & ->).
  change (file_hdr_ (with_pool s' st)) with (file_hdr_ st). rewrite (slot_in_page_ok _ (ri_hdr _ _ _ HI) _ Hi).
  eexists _, s', a'. split_and!; try done. eapply rm_inv_fetch; [done|done|apply Ho].
Qed.

(** [C12] [get_record] reads the map: for a record of the file it returns a copy
    of that record's bytes and leaves every record as it was; otherwise a page could
    not be read or written, or every frame was pinned. *)
Theorem get_record_correct st a l rid v :
  rm_inv st a l → records st a rid = Some v → (∀ p, pin_of a p < int_max) →
  (∃ e s', rm_failure (rm_pool st) a e ∧ get_record rid st = (Throw (RedBase e), with_pool s' st)) ∨
  (∃ rec s' a', get_record rid st = (Ok rec, with_pool s' st) ∧
     rec_data rec = v ∧ rec_size rec = record_size (file_hdr_ st) ∧
     same_pages a a' ∧ rm_inv (with_pool s' st) a' l).
Proof.
  intros HI Hv Hpin. destruct (get_record_run st a l rid v HI Hv Hpin) as [?|(rec & s' & a' & H)]; [by left|].
  right. exists rec, s', a'. tauto.
Qed.

(** The bit of a slot of a page the handle holds. *)
Lemma page_is_set_run st a p f x i :
  hdr_ok (file_hdr_ st) → holds (rm_pool st) a p f x → length x = page_len → 0 ≤ i < num_records_per_page (file_hdr_ st) →
  page_is_set f i st = (Ok (Bitmap.is_set (page_bitmap x) i), st).
Proof.
  intros Hh Ho Hl Hi. unfold page_is_set. mstep (page_bytes_run st a p f x Ho).
  by rewrite (bit_in_page_ok _ Hh x _ Hl Hi).
Qed.

(** Overwriting the slot of a record the handle holds. *)
Lemma update_slot_run st a l k i f x buf s1 a1 :
  rm_inv st a l → 1 ≤ k < num_pages (file_hdr_ st) → is_live a (MkPageId (fd_ st) k) x → page_ok (file_hdr_ st) x →
  same_pages a a1 → holds s1 a1 (MkPageId (fd_ st) k) f x →
  0 ≤ i < num_records_per_page (file_hdr_ st) → Bitmap.is_set (page_bitmap x) i = true →
  length buf = Z.to_nat (record_size (file_hdr_ st)) →
  ∃ s' a', write_slot f i buf (with_pool s1 st) = (Ok tt, with_pool s' st) ∧ rm_inv (with_pool s' st) a' l ∧
    ∀ r, records (with_pool s' st) a' r = if decide (r = MkRid k i) then Some buf else records st a r.
Proof.
  intros HI Hk Hx Hok (Ec & En & Eo) Ho Hi Hbit Hb. pose proof (ri_hdr _ _ _ HI) as Hh.
  destruct (write_slot_run (with_pool s1 st) a1 _ f x i buf Hh Ho Hi Hb) as (s2 & Hw & Ho2).
  destruct (update_page_ok _ Hh x _ buf Hok Hi Hbit Hb) as (Hok' & Hcnt & Hnf & Hrec).
  set (y := update_page (file_hdr_ st) i buf x) in *.
  exists s2, (wr a1 (MkPageId (fd_ st) k) y). split; [done|]. split.
  - apply (rm_inv_page st a l _ s2 k x y); try done; [|apply Ho2|by simpl; rewrite Ec].
    intros Hin. rewrite Hcnt. exact (chain_count _ _ _ _ _ _ _ (ri_chain _ _ _ HI) Hin Hx).
  - intros r. unfold records. simpl. rewrite Ec. by apply (file_rec_update _ _ _ _ _ x).
Qed.

(** [C11] [update_record] on a slot of the file: a record that is there is replaced,
    a slot that holds none stays empty, no other record changes, and the file
    invariant is kept; otherwise a page could not be read or written, or every frame
    was pinned. *)
Theorem update_record_correct st a l rid buf :
  rm_inv st a l → 1 ≤ rid_page_no rid < num_pages (file_hdr_ st) →
  0 ≤ rid_slot_no rid < num_records_per_page (file_hdr_ st) → (∀ p, pin_of a p < int_max) →
  length buf = Z.to_nat (record_size (file_hdr_ st)) →
  (∃ e s', rm_failure (rm_pool st) a e ∧ update_record rid buf st = (Throw (RedBase e), with_pool s' st)) ∨
  (∃ s' a', update_record rid buf st = (Ok tt, with_pool s' st) ∧ rm_inv (with_pool s' st) a' l ∧
     ∀ r, records (with_pool s' st) a' r
          = if decide (r = rid ∧ is_Some (records st a rid)) then Some buf else records st a r).
Proof.
  intros HI Hk Hi Hpin Hb. unfold update_record. destruct (ri_pages _ _ _ HI _ Hk) as (x & Hx & Hok).
  destruct (fetch_page_handle_ok st a _ x (ri_pool _ _ _ HI) Hx (Hpin _)) as [(e & s' & He & H)|(f & s1 & a1 & H & Hs & Ho)].
  { left. exists e, s'. split; [done|]. by mstop H. }
  right. mstep H. mstep (page_is_set_run (with_pool s1 st) a1 _ f x _ (ri_hdr _ _ _ HI) Ho (proj1 Hok) Hi).
  pose proof (records_at st a rid x Hk Hi Hx) as Hr. destruct (Bitmap.is_set _ _) eqn:Hbit.
  - destruct (update_slot_run st a l _ _ f x buf s1 a1 HI Hk Hx Hok Hs Ho Hi Hbit Hb) as (s2 & a2 & Hw & HI2 & Hr2).
    exists s2, a2. split; [done|]. split; [done|]. intros r. rewrite Hr2, Hr. destruct rid as [k i]. simpl.
    by destruct (decide (r = MkRid k i)); [rewrite decide_True|rewrite decide_False by tauto].
  - exists s1, a1. split; [done|]. split; [eapply rm_inv_fetch; [done|done|apply Ho]|].
    intros r. rewrite Hr, decide_False by (by intros (_ & ? & ?)). unfold records. by rewrite (proj1 Hs).
Qed.

Lemma page_rec_count h x i v : hdr_ok h → page_rec h x i = Some v → 0 < page_count h x.
Proof.
  intros Hh (Hi & Hb & _)%page_rec_Some. pose proof (page_count_range h Hh x).
  destruct (decide (page_count h x = 0)) as [H0|]; [|lia]. unfold page_count in H0.
  rewrite (count_zero (Bitmap.is_set (page_bitmap x)) (page_slots h) ltac:(lia) i) in Hb; [done|].
  by apply elem_of_page_slots.
Qed.

Lemma release_run st a p f x :
  holds (rm_pool st) a p f x → is_int (first_free_page_no (file_hdr_ st)) →
  let y := set_next_free (first_free_page_no (file_hdr_ st)) x in
  ∃ s', release_page_handle f st
        = (Ok tt, with_hdr (set_first_free (pid_no p) (file_hdr_ st)) (with_pool s' st)) ∧
        holds s' (wr a p y) p f y.
Proof.
  intros Ho Hi y. unfold release_page_handle. mstep (page_no_of_run _ _ _ _ _ Ho). rewrite get_hdr_bind.
  destruct (holds_frame _ _ _ _ _ Ho) as (pg & _ & _ & _ & Hl).
  destruct (upd_bytes_run st a p f x (set_next_free (first_free_page_no (file_hdr_ st))) Ho) as (s' & H & Ho').
  { unfold set_next_free. rewrite length_set_int; [done|]. rewrite Hl.
    unfold next_free_off, hdr_off, OFFSET_PAGE_HDR, page_len, PAGE_SIZE. lia. }
  exists s'. mstep H. by split.
Qed.

(** [C10] [delete_record] removes the record it is given and no other.  The file
    invariant (record counts, free list) is kept, provided the record is not the
    last one of a page that is already on the free list; it fails only if a page
    could not be read or written or every frame was pinned. *)
Theorem delete_record_correct st a l rid v :
  rm_inv st a l → records st a rid = Some v → (∀ p, pin_of a p < int_max) →
  (rid_page_no rid ∈ l → ∃ i w, i ≠ rid_slot_no rid ∧ records st a (MkRid (rid_page_no rid) i) = Some w) →
  (∃ e s', rm_failure (rm_pool st) a e ∧ delete_record rid st = (Throw (RedBase e), with_pool s' st)) ∨
  (∃ st' a' l', delete_record rid st = (Ok tt, st') ∧ rm_inv st' a' l' ∧ fd_ st' = fd_ st ∧
     ∀ r, records st' a' r = if decide (r = rid) then None else records st a r).
Proof.
  intros HI (Hk & x & Hx & Hv)%records_Some Hpin Hguard. unfold delete_record. set (p := MkPageId (fd_ st) (rid_page_no rid)) in *.
  destruct (fetch_page_handle_ok st a _ x (ri_pool _ _ _ HI) Hx (Hpin _)) as [(e & s' & He & H)|(f & s1 & a1 & H & Hs & Ho)].
  { left. exists e, s'. split; [done|]. by mstop H. }
  right. mstep H. apply page_rec_Some in Hv as (Hi & Hbit & _). pose proof (ri_hdr _ _ _ HI) as Hh.
  destruct (ri_pages _ _ _ HI _ Hk) as (x' & Hx' & Hok).
  assert (x' = x) as -> by exact (live_unique a p x' x Hx' Hx). clear Hx'.
  destruct (page_reset_run (with_pool s1 st) a1 p f x _ Hh Ho Hi) as (s2 & H2 & Ho2). mstep H2.
  destruct (add_num_records_run (with_pool s2 st) _ p f _ (-1) Ho2) as (s3 & H3 & Ho3). mstep H3.
  rewrite wr_wr in Ho3. set (i := rid_slot_no rid) in *.
  destruct (delete_page_ok _ Hh x i Hok Hi Hbit) as (Hoky & Hcnt & Hnf & Hrec).
  set (y := delete_page i x) in *. change (bump (-1) _) with y in Ho3.
  mstep (page_bytes_run (with_pool s3 st) _ p f y Ho3). rewrite (proj1 (proj2 Hoky)).
  destruct Hs as (Ec & En & Eo).
  assert (Hmap : ∀ z r, (∀ j, page_rec (file_hdr_ st) z j = page_rec (file_hdr_ st) y j) →
            file_rec (<[p := Some z]> (cont a)) (fd_ st) (file_hdr_ st) r
            = if decide (r = rid) then None else records st a r).
  { intros z r Hz. unfold records. destruct rid as [k i0]. apply (file_rec_update _ _ _ _ _ x); [done|done|].
    intros j. by rewrite Hz, Hrec. }
  destruct (Z.eqb_spec (page_count (file_hdr_ st) y) 0) as [H0|H0].
  - (* the page is empty now: it goes to the front of the free list *)
    assert (Hnl : rid_page_no rid ∉ l).
    { intros Hin. destruct (Hguard Hin) as (j & w & Hne & (Hk' & x' & Hx' & Hw)%records_Some). simpl in *.
      assert (x' = x) as -> by exact (live_unique a p x' x Hx' Hx).
      assert (page_rec (file_hdr_ st) y j = Some w) as Hy by (by rewrite Hrec, decide_False).
      apply page_rec_count in Hy; [lia|done]. }
    pose proof (ri_first _ _ _ HI) as Hfi.
    destruct (release_run (with_pool s3 st) _ p f y Ho3 Hfi) as (s4 & H4 & Ho4). rewrite H4.
    rewrite wr_wr in Ho4. set (ff := first_free_page_no (file_hdr_ st)) in *.
    destruct (set_next_free_ok _ Hh y ff Hoky Hfi) as (Hokz & Hcntz & Hnfz & Hrecz).
    set (z := set_next_free ff y) in *. eexists _, (wr a1 p z), (rid_page_no rid :: l). split; [done|].
    pose proof (ri_chain _ _ _ HI) as Hch. pose proof (ri_num _ _ _ HI) as Hnum.
    split; [|split; [done|]]; [|intros r; unfold records at 1; simpl; rewrite Ec; by apply Hmap].
    apply (rm_inv_first st a l _ _ (rid_page_no rid) z); try done; [| |by simpl; rewrite Ec| |apply NoDup_cons; split; [done|by apply (ri_nodup _ _ _ HI)]].
    + unfold p. simpl. unfold is_int, int_min, int_max in *. lia.
    + apply Ho4.
    + split; [done|]. split; [done|]. exists z. rewrite lookup_insert_eq. split; [done|].
      change (page_count (set_first_free _ _) z) with (page_count (file_hdr_ st) z). destruct (hdr_layout _ Hh) as (Hn & _).
      split; [simpl; lia|]. rewrite Hnfz. by apply chain_set_first, chain_update_out.
  - eexists _, (wr a1 p y), l. split; [done|]. split; [|split; [done|]].
    + apply (rm_inv_page st a l _ s3 (rid_page_no rid) x y); try done; [|apply Ho3|by simpl; rewrite Ec].
      intros Hin. pose proof (chain_count _ _ _ _ _ _ _ (ri_chain _ _ _ HI) Hin Hx). lia.
    + intros r. unfold records at 1. simpl. rewrite Ec. by apply Hmap.
Qed.

(** ** Inserting *)

(** What [create_page_handle] delivers: a page of the file with a free slot,
    the head of the free list or a fresh page outside it. *)
Lemma create_page_handle_ok st a l :
  rm_inv st a l → (∀ p, pin_of a p < int_max) →
  num_pages (file_hdr_ st) < int_max →
  openp a (MkPageId (fd_ st) (num_pages (file_hdr_ st))) →
  cont a !! MkPageId (fd_ st) (num_pages (file_hdr_ st)) = None →
  (∃ e st', rm_failure (rm_pool st) a e ∧ create_page_handle st = (Throw (RedBase e), st')) ∨
  (∃ st', create_page_handle st = (Crash NullDeref, st') ∧ all_pinned (rm_pool st) a) ∨
  (∃ f st1 a1 k x, create_page_handle st = (Ok f, st1) ∧ rm_inv st1 a1 l ∧ fd_ st1 = fd_ st ∧
     (∀ r, records st1 a1 r = records st a r) ∧
     holds (rm_pool st1) a1 (MkPageId (fd_ st) k) f x ∧ page_ok (file_hdr_ st) x ∧
     1 ≤ k < num_pages (file_hdr_ st1) ∧ page_count (file_hdr_ st) x < num_records_per_page (file_hdr_ st) ∧
     num_records_per_page (file_hdr_ st1) = num_records_per_page (file_hdr_ st) ∧
     record_size (file_hdr_ st1) = record_size (file_hdr_ st) ∧
     bitmap_size (file_hdr_ st1) = bitmap_size (file_hdr_ st) ∧
     ((∃ l', l = k :: l') ∨ (¬ k ∈ l) ∧ page_count (file_hdr_ st) x = 0)).
Proof.
  intros HI Hpin Hmax Hop Hfresh. pose proof (ri_hdr _ _ _ HI) as Hh. pose proof (ri_num _ _ _ HI) as Hnum.
  unfold create_page_handle. rewrite !get_hdr_bind.
  pose proof (ri_chain _ _ _ HI) as Hch. destruct l as [|k l]; simpl in Hch.
  - (* no free page: a new one *)
    rewrite (proj2 (Z.ltb_lt _ _) Hch). unfold create_new_page_handle, get_fd.
    assert (Hal : allowed a (OpNew (fd_ st))).
    { simpl. rewrite (ri_counter _ _ _ HI). split_and!; [apply HI|done| |done]. unfold INVALID_PAGE_ID. lia. }
    set (q := MkPageId (fd_ st) (num_pages (file_hdr_ st))).
    destruct (NewPage_ok _ a (fd_ st) (ri_pool _ _ _ HI) Hal)
      as [(Hd & s' & H)|[(H & Hfree)|(f & pg & s' & H & _ & _ & HI')]]; apply on_pool_run in H.
    + left. eexists UnixError, _. split; [by left|]. unfold st_bind at 1, gets. by mstop H.
    + right; left. eexists. split; [|by apply (all_pinned_iff _ _ (ri_pool _ _ _ HI))]. unfold st_bind at 1, gets. by mstep H.
    + right; right. rewrite (ri_counter _ _ _ HI) in H, HI'. fold q in H, HI'.
      set (h1 := set_num_pages (num_pages (file_hdr_ st) + 1) (file_hdr_ st)).
      destruct (zero_page_ok (file_hdr_ st) (ri_hdr _ _ _ HI)) as (Hzok & Hzc & Hzrec).
      set (a1 := after a (OpNew (fd_ st)) (OutPage q f (zeros page_len))) in *.
      exists f, (with_hdr h1 (with_pool s' st)), a1, (num_pages (file_hdr_ st)), (zeros page_len). simpl.
      assert (Hrun : (fd ← gets fd_; page ← on_pool (NewPage fd);
                upd_hdr (λ h, set_num_pages (wrap32 (num_pages h + 1)) h) ;;
                match page with None => crash_with NullDeref | Some (_, f) => ret f end) st
              = (Ok f, with_hdr h1 (with_pool s' st))).
      { unfold st_bind at 1, gets. mstep H. unfold st_bind, upd_hdr, modify. simpl.
        rewrite wrap32_id by (unfold is_int, int_min, int_max in *; lia). done. }
      split; [done|].
      assert (Hother : ∀ k, 1 ≤ k < num_pages (file_hdr_ st) → q ≠ MkPageId (fd_ st) k).
      { intros k Hk [= ?]. lia. }
      split.
      { destruct HI as [I1 I2 I3 I4 I5 I6 I7 I8 I9]. split; simpl; try done.
        - lia.
        - rewrite decide_True by done. rewrite I5. apply wrap32_id. unfold is_int, int_min, int_max in *. lia.
        - intros k Hk. unfold is_live. simpl. destruct (decide (k = num_pages (file_hdr_ st))) as [->|Hne].
          + exists (zeros page_len). fold q. rewrite lookup_insert_eq. done.
          + rewrite lookup_insert_ne by (apply Hother; lia). apply I7. lia. }
      split; [done|]. split.
      { intros [k i]. unfold records, file_rec. simpl. destruct (Z.leb_spec 1 k); [|done]. simpl.
        destruct (decide (k = num_pages (file_hdr_ st))) as [->|Hne].
        - rewrite (proj2 (Z.ltb_lt _ _)), (proj2 (Z.ltb_ge _ _)) by lia. fold q. rewrite lookup_insert_eq. apply Hzrec.
        - destruct (Z.ltb_spec k (num_pages (file_hdr_ st))).
          + rewrite (proj2 (Z.ltb_lt _ _)) by lia. rewrite lookup_insert_ne by (apply Hother; lia). done.
          + by rewrite (proj2 (Z.ltb_ge _ _)) by lia. }
      split. { fold q. split; [exact HI'|exists 1; simpl; by rewrite lookup_insert_eq|]. unfold is_live. simpl. by rewrite lookup_insert_eq. }
      destruct (hdr_layout _ Hh) as (Hn & _). split_and!; try done; try lia.
      right. split; [by apply not_elem_of_nil|done].
  - destruct Hch as (-> & Hk & x & Hx & Hc & Hl).
    rewrite (proj2 (Z.ltb_ge _ _)) by lia.
    destruct (ri_pages _ _ _ HI k Hk) as (x' & Hx' & Hok).
    assert (x' = x) as -> by (by eapply live_unique).
    destruct (fetch_page_handle_ok st a k x (ri_pool _ _ _ HI) Hx (Hpin _)) as [(e & s' & He & H)|(f & s1 & a1 & H & Hs & Ho)].
    { left. eauto. }
    right; right. exists f, (with_pool s1 st), a1, k, x. split; [done|].
    split; [eapply rm_inv_fetch; [done|done|apply Ho]|]. split; [done|].
    split. { intros r. unfold records. simpl. by destruct Hs as (-> & _). }
    split_and!; try done; [apply Hk|apply Hk|]. left. by exists l.
Qed.

Lemma page_fields_cong h h1 :
  num_records_per_page h1 = num_records_per_page h → record_size h1 = record_size h → bitmap_size h1 = bitmap_size h →
  page_rec h1 = page_rec h ∧ page_count h1 = page_count h ∧ page_ok h1 = page_ok h ∧ insert_page h1 = insert_page h.
Proof.
  intros E1 E2 E3. unfold page_rec, page_ok, tail_clear, page_bits, page_count, page_slots, slot_bytes, insert_page, get_slot.
  by rewrite E1, E2, E3.
Qed.

(** [C9] [insert_record] adds one record: it returns a [Rid] that held no record,
    which now holds [buf], every other record is untouched, and the file
    invariant is kept.  It fails only if some page of an open file could not be
    read or written ([UnixError]) or if every frame is pinned ([PageNotExistError]
    for the free page, a null pointer followed for a new one). *)
Theorem insert_record_correct st a l buf :
  rm_inv st a l → (∀ p, pin_of a p < int_max) → length buf = Z.to_nat (record_size (file_hdr_ st)) →
  num_pages (file_hdr_ st) < int_max →
  openp a (MkPageId (fd_ st) (num_pages (file_hdr_ st))) →
  cont a !! MkPageId (fd_ st) (num_pages (file_hdr_ st)) = None →
  (∃ e st', rm_failure (rm_pool st) a e ∧ insert_record buf st = (Throw (RedBase e), st')) ∨
  (∃ st', insert_record buf st = (Crash NullDeref, st') ∧ all_pinned (rm_pool st) a) ∨
  (∃ rid st' a' l', insert_record buf st = (Ok rid, st') ∧ rm_inv st' a' l' ∧ fd_ st' = fd_ st ∧
     records st a rid = None ∧
     ∀ r, records st' a' r = if decide (r = rid) then Some buf else records st a r).
Proof.
  intros HI Hpin Hb Hmax Hop Hfresh. unfold insert_record.
  destruct (create_page_handle_ok st a l HI Hpin Hmax Hop Hfresh)
    as [(e & st' & He & H)|[(st' & H & Hff)|(f & st1 & a1 & k & x & H & HI1 & Hfd & Hrecs & Ho & Hok & Hk & Hc & E1 & E2 & E3 & Hwhere)]].
  { left. exists e, st'. split; [done|]. by mstop H. }
  { right; left. exists st'. by mstop H. }
  right; right. mstep H. rewrite get_hdr_bind. mstep (page_bytes_run _ _ _ _ _ Ho).
  pose proof (ri_hdr _ _ _ HI1) as Hh. destruct (page_fields_cong _ _ E1 E2 E3) as (P1 & P2 & P3 & P4).
  rewrite <- P2, <- E1 in Hc. rewrite <- P3 in Hok. rewrite <- E2 in Hb.
  rewrite <- P2, <- Hfd in *. clear E1 E2 E3 P1 P2 P3 P4 H. rewrite Hfd in *.
  set (h := file_hdr_ st1) in *. set (p := MkPageId (fd_ st) k) in *.
  destruct (first_free_slot h Hh x Hc) as [Hi Hbit]. set (i := Bitmap.first_bit _ _ _) in *.
  destruct (write_slot_run st1 a1 p f x i buf Hh Ho Hi Hb) as (s2 & H2 & Ho2). mstep H2.
  destruct (page_set_run (with_pool s2 st1) _ p f _ i Hh Ho2 Hi) as (s3 & H3 & Ho3). mstep H3.
  destruct (add_num_records_run (with_pool s3 st1) _ p f _ 1 Ho3) as (s4 & H4 & Ho4). mstep H4.
  rewrite !wr_wr in Ho4. destruct (insert_page_ok h Hh x i buf Hok Hi Hbit Hb) as (Hoky & Hcnt & Hnf & Hrec).
  set (y := insert_page h i buf x) in *. change (bump 1 _) with y in Ho4.
  change (with_pool s4 (with_pool s3 st1)) with (with_pool s4 st1).
  mstep (page_bytes_run (with_pool s4 st1) _ p f y Ho4). rewrite (proj1 (proj2 Hoky)).
  pose proof (ho_live _ _ _ _ _ Ho) as Hx.
  assert (Hnone : records st a (MkRid k i) = None).
  { rewrite <- Hrecs. unfold records, file_rec. simpl. rewrite Hfd. fold p. rewrite Hx.
    destruct (_ && _); [|done]. fold h. rewrite page_rec_eq by done. by rewrite Hbit. }
  assert (Hmap : ∀ r, file_rec (<[p := Some y]> (cont a1)) (fd_ st) h r
                      = if decide (r = MkRid k i) then Some buf else records st a r).
  { intros r. rewrite <- Hrecs. unfold records. rewrite Hfd. by apply (file_rec_update _ _ _ _ _ x). }
  destruct (Z.leb_spec (num_records_per_page h) (page_count h y)) as [Hfull|Hroom].
  - (* the page is full: it leaves the free list *)
    destruct Hwhere as [[l' ->]|[_ H0]]; [|destruct (hdr_layout h Hh) as (Hn & _); lia].
    pose proof (ri_chain _ _ _ HI1) as Hch. simpl in Hch. destruct Hch as (Hff & _ & x' & Hx' & _ & Hl').
    rewrite Hfd in Hx', Hl'. assert (x' = x) as -> by exact (live_unique a1 p x' x Hx' Hx).
    pose proof (ri_nodup _ _ _ HI1) as [Hkl Hnd]%NoDup_cons.
    set (st5 := with_hdr (set_first_free (get_next_free y) h) (with_pool s4 st1)).
    assert (Hu : upd_hdr (set_first_free (get_next_free y)) (with_pool s4 st1) = (Ok tt, st5)) by done.
    mstep Hu. mstep (page_no_of_run st5 _ p f y Ho4). exists (MkRid k i), st5, (wr a1 p y), l'.
    split; [done|]. split; [|split; [done|split; [done|]]].
    + apply (rm_inv_first st1 a1 (k :: l') _ _ k y); rewrite ?Hfd; try done; [apply wrap32_is_int|apply Ho4|].
      rewrite Hnf. by apply chain_set_first, chain_update_out.
    + intros r. unfold records at 1. simpl. rewrite Hfd. apply Hmap.
  - assert (Hnop : ∀ s : RmState, (st_ret tt : M RmState unit) s = (Ok tt, s)) by done.
    mstep (Hnop (with_pool s4 st1)). mstep (page_no_of_run (with_pool s4 st1) _ p f y Ho4).
    exists (MkRid k i), (with_pool s4 st1), (wr a1 p y), l. split; [done|]. split; [|split; [done|split; [done|]]].
    + apply (rm_inv_page st1 a1 l _ s4 k x y); try done; rewrite ?Hfd; try done. apply Ho4.
    + intros r. unfold records at 1. simpl. rewrite Hfd. apply Hmap.
Qed.

(** ** Scanning *)

Definition rid_lt (r1 r2 : Rid) : Prop :=
  rid_page_no r1 < rid_page_no r2 ∨ (rid_page_no r1 = rid_page_no r2 ∧ rid_slot_no r1 < rid_slot_no r2).

Lemma records_page st a k i x :
  1 ≤ k < num_pages (file_hdr_ st) → is_live a (MkPageId (fd_ st) k) x →
  records st a (MkRid k i) = page_rec (file_hdr_ st) x i.
Proof.
  intros Hk Hx. unfold records, file_rec. simpl.
  rewrite (proj2 (Z.leb_le _ _)), (proj2 (Z.ltb_lt _ _)) by lia. simpl. by rewrite Hx.
Qed.

Lemma records_out st a k i :
  ¬ (1 ≤ k < num_pages (file_hdr_ st)) → records st a (MkRid k i) = None.
Proof.
  intros Hk. unfold records, file_rec. simpl.
  destruct (Z.leb_spec 1 k), (Z.ltb_spec k (num_pages (file_hdr_ st))); simpl; try done. lia.
Qed.

Lemma z_range_cons k m : k < m → z_range k m = k :: z_range (k + 1) m.
Proof.
  intros H. unfold z_range. replace (Z.to_nat (m - k)) with (S (Z.to_nat (m - (k + 1)))) by lia.
  simpl. f_equal; [lia|]. rewrite <- seq_shift, <- list_fmap_compose.
  apply list_fmap_ext. intros i j _. simpl. lia.
Qed.

Lemma z_range_nil k m : m ≤ k → z_range k m = [].
Proof. intros H. unfold z_range. by replace (Z.to_nat (m - k)) with 0%nat by lia. Qed.

(** At most one pin more on the pages from [k] on, none elsewhere. *)
Definition pins_from (k : Z) a a' : Prop :=
  ∀ q, pin_of a' q = pin_of a q ∨ (k ≤ pid_no q ∧ pin_of a' q ≤ pin_of a q + 1).

Lemma pins_from_by k a a' : pins_from k a a' → pins_by 1 a a'.
Proof. intros H q. destruct (H q); lia. Qed.

Lemma pins_from_step st k a a1 a' :
  (∀ q, q ≠ MkPageId (fd_ st) k → pin_of a1 q = pin_of a q) → pins_by 1 a a1 → pins_from (k + 1) a1 a' →
  pins_from k a a'.
Proof.
  intros H1 H2 H3 q. specialize (H2 q). destruct (decide (q = MkPageId (fd_ st) k)) as [->|Hq].
  - right. destruct (H3 (MkPageId (fd_ st) k)) as [->|[H _]]; simpl in *; lia.
  - destruct (H3 q) as [->|[H H']]; rewrite ?H1 in * by done; [by left|right; lia].
Qed.

(** When the rest of page [k] is empty the next record is after the start of page [k + 1]. *)
Lemma next_page_gap st a k slot r :
  (∀ j, slot < j < num_records_per_page (file_hdr_ st) → records st a (MkRid k j) = None) →
  rid_lt (MkRid k slot) r → rid_lt (MkRid (k + 1) (-1)) r ∨ records st a r = None.
Proof.
  intros Hgap Hr. destruct r as [k' i']. unfold rid_lt in *. simpl in *.
  assert (Hout : ¬ (0 ≤ i' < num_records_per_page (file_hdr_ st)) → records st a (MkRid k' i') = None).
  { intros Hi. unfold records, file_rec. destruct (_ && _); [|done]. simpl.
    destruct (cont a !! _) as [[z|]|]; [|done|done]. by apply page_rec_out. }
  destruct (decide (0 ≤ i' < num_records_per_page (file_hdr_ st))) as [Hi|Hi]; [|by right; apply Hout].
  destruct (decide (k' = k)) as [->|]; [|left; lia]. right. apply Hgap. lia.
Qed.

(** The loop of [next] from page [k], after slot [slot] of it. *)
Lemma scan_next_loop_ok (m : nat) st a l k slot :
  rm_inv st a l → m = Z.to_nat (num_pages (file_hdr_ st) - k) → 1 ≤ k →
  -1 ≤ slot < num_records_per_page (file_hdr_ st) →
  (∀ j, k ≤ j → pin_of a (MkPageId (fd_ st) j) < int_max) →
  (∃ e s', rm_error e ∧
     scan_next_loop (z_range k (num_pages (file_hdr_ st))) slot st = (Throw (RedBase e), with_pool s' st)) ∨
  (∃ r s' a', scan_next_loop (z_range k (num_pages (file_hdr_ st))) slot st = (Ok r, with_pool s' st) ∧
     same_pages a a' ∧ rm_inv (with_pool s' st) a' l ∧ pins_from k a a' ∧
     ((r = MkRid (-1) (-1) ∧ ∀ r', rid_lt (MkRid k slot) r' → records st a r' = None) ∨
      (rid_lt (MkRid k slot) r ∧ is_Some (records st a r) ∧
       ∀ r', rid_lt (MkRid k slot) r' → rid_lt r' r → records st a r' = None))).
Proof.
  revert st a k slot. induction m as [|m IH]; intros st a k slot HI Hm Hk Hs Hpin.
  { right. rewrite z_range_nil by lia. simpl. exists (MkRid (-1) (-1)), (rm_pool st), a. rewrite with_pool_id.
    split; [done|]. split; [done|]. split; [done|]. split; [by left|]. left. split; [done|]. intros [k' i'] Hlt.
    apply records_out. unfold rid_lt in Hlt. simpl in Hlt. lia. }
  rewrite z_range_cons by lia. simpl.
  destruct (ri_pages _ _ _ HI k) as (x & Hx & Hok); [lia|].
  destruct (fetch_page_handle_pins st a k x (ri_pool _ _ _ HI) Hx (Hpin k ltac:(lia)))
    as [(e & s' & He & H)|(f & s1 & a1 & H & Hsame & Ho & Hp & Hp1)].
  { left. exists e, s'. split; [by eapply rm_failure_error|]. by mstop H. }
  mstep H. rewrite !get_hdr_bind. mstep (page_bytes_run (with_pool s1 st) a1 _ f x Ho).
  change (file_hdr_ (with_pool s1 st)) with (file_hdr_ st). set (n := num_records_per_page (file_hdr_ st)) in *.
  pose proof (rm_inv_fetch _ _ _ _ _ HI Hsame (ho_inv _ _ _ _ _ Ho)) as HI1.
  destruct (Bitmap.next_bit_loop_spec (Z.to_nat (n - (slot + 1))) true (page_bitmap x) n (slot + 1)) as (R1 & R2 & R3);
    [lia|lia|]. fold (Bitmap.next_bit true (page_bitmap x) n slot) in R1, R2, R3.
  set (i := Bitmap.next_bit true (page_bitmap x) n slot) in *.
  assert (Hgap : ∀ j, slot < j < i → records st a (MkRid k j) = None).
  { intros j Hj. rewrite (records_page _ _ _ _ x) by (done || lia). rewrite page_rec_eq by lia. by rewrite R2 by lia. }
  destruct (Z.eqb_spec i n) as [Hin|Hin].
  - assert (Hs1 : records (with_pool s1 st) a1 = records st a).
    { unfold records. simpl. by destruct Hsame as (-> & _). }
    destruct (IH (with_pool s1 st) a1 (k + 1) (-1)) as [(e & s' & He & Hr)|(r & s' & a' & Hr & Hsame' & HI' & Hpf & Hcase)];
      simpl; try done; try lia.
    { intros j Hj. rewrite Hp by (intros [= ?]; lia). apply Hpin. lia. }
    { left. by exists e, s'. }
    right. exists r, s', a'. split; [done|].
    split. { destruct Hsame as (?&?&?), Hsame' as (?&?&?). split_and!; congruence. }
    split; [done|]. split; [by eapply pins_from_step|]. rewrite Hs1 in Hcase.
    assert (Hcov : ∀ r', rid_lt (MkRid k slot) r' → rid_lt (MkRid (k + 1) (-1)) r' ∨ records st a r' = None).
    { intros r'. apply next_page_gap. intros j Hj. apply Hgap. lia. }
    destruct Hcase as [[-> Hnone]|(Hlt & Hsome & Hbet)].
    + left. split; [done|]. intros r' Hr'. destruct (Hcov r' Hr'); auto.
    + right. split; [unfold rid_lt in *; simpl in *; lia|]. split; [done|].
      intros r' Hr' Hr2. destruct (Hcov r' Hr'); auto.
  - right. exists (MkRid k i), s1, a1. split; [done|]. split; [done|]. split; [done|].
    split; [by eapply (pins_from_step st k a a1 a1); [| |by left]|]. right.
    split; [unfold rid_lt; simpl; lia|]. split.
    + rewrite (records_page _ _ _ _ x) by (done || lia). rewrite page_rec_eq by lia. rewrite R3 by lia. by eexists.
    + intros [k' i'] Hl1 Hl2. unfold rid_lt in Hl1, Hl2. simpl in *.
      assert (k' = k) as -> by lia. apply Hgap. lia.
Qed.

(** [next] from a position inside the file moves to the next record in (page, slot)
    order, skipping none, or to [(-1,-1)], where [is_end] holds. *)
Lemma scan_next_run st a l rid :
  rm_inv st a l → 1 ≤ rid_page_no rid → -1 ≤ rid_slot_no rid < num_records_per_page (file_hdr_ st) →
  (∀ p, pin_of a p < int_max) →
  (∃ e s', rm_error e ∧ scan_next (Some rid) st = (Throw (RedBase e), with_pool s' st)) ∨
  (∃ r s' a', scan_next (Some rid) st = (Ok (Some r), with_pool s' st) ∧ same_pages a a' ∧
     rm_inv (with_pool s' st) a' l ∧ pins_by 1 a a' ∧
     ((r = MkRid (-1) (-1) ∧ ∀ r', rid_lt rid r' → records st a r' = None) ∨
      (rid_lt rid r ∧ is_Some (records st a r) ∧ ∀ r', rid_lt rid r' → rid_lt r' r → records st a r' = None))).
Proof.
  intros HI Hk Hs Hpin. unfold scan_next. rewrite !get_hdr_bind. destruct rid as [k i]. simpl in *.
  destruct (scan_next_loop_ok _ st a l k i HI eq_refl Hk Hs ltac:(auto))
    as [(e & s' & He & H)|(r & s' & a' & H & Hsame & HI' & Hp & Hcase)].
  - left. exists e, s'. split; [done|]. by mstop H.
  - right. exists r, s', a'. mstep H. split_and!; try done. by eapply pins_from_by.
Qed.

End Files.
