(* ===== verification/RecordScan.v ===== *)
(** Whole scans of a record file: [RmScan] driven by the loop its clients write,
    [for (RmScan scan(fh); !scan.is_end(); scan.next()) ...].

    [entries] lists the records of the file in (page, slot) order.  The
    constructor puts the cursor on the first of them, and the loop runs its body
    once on each, in that order, and stops.  On a file without records the
    constructor leaves the cursor uninitialised, and the first [is_end] reads it. *)
From S2P Require Import Prelude Config PageStore Replacer BufferPool PoolSpec Bitmap Record RecordPage RecordSpec.

Section Scan.
Context {D R : Type} {PS : PageStore D} {RP : Replacer R}.
Abbreviation RmState := (RmState D R).
Implicit Types (st : RmState) (a : spec_state).

(** ** The loop *)

(** [for (; !scan.is_end(); scan.next()) t = body(scan.rid(), t)]. *)
Fixpoint scan_each {T} (fuel : nat) (body : Rid → T → M RmState T) (scan_ : option Rid) (t : T)
    : M RmState (T * option Rid) :=
  match fuel with
  | O => crash_with OutOfFuel
  | S fuel' =>
      e ← scan_is_end scan_;
      if e then ret (t, scan_)
      else
        r ← scan_rid scan_;
        t' ← body r t;
        scan' ← scan_next scan_;
        scan_each fuel' body scan' t'
  end.

(** ** The records in order *)

Definition all_rids (h : RmFileHdr) : list Rid :=
  concat ((λ k, MkRid k <$> page_slots h) <$> z_range 1 (num_pages h)).

Definition entries st a : list (Rid * bytes) :=
  omap (λ r, (r,.) <$> records st a r) (all_rids (file_hdr_ st)).

Lemma elem_of_z_range k from m : k ∈ z_range from m ↔ from ≤ k < m.
Proof.
  unfold z_range. rewrite list_elem_of_fmap. setoid_rewrite elem_of_seq. split.
  - intros (i & -> & ?). lia.
  - intros ?. exists (Z.to_nat (k - from)). lia.
Qed.

Lemma elem_of_all_rids h r :
  r ∈ all_rids h ↔ 1 ≤ rid_page_no r < num_pages h ∧ 0 ≤ rid_slot_no r < num_records_per_page h.
Proof.
  unfold all_rids. rewrite list_elem_of_In, in_concat. setoid_rewrite <- list_elem_of_In.
  setoid_rewrite list_elem_of_fmap. split.
  - intros (l & (k & -> & Hk%elem_of_z_range) & (i & -> & Hi%elem_of_page_slots)%list_elem_of_fmap). done.
  - intros [Hk Hi]. eexists. split; [eexists; split; [done|by apply elem_of_z_range]|].
    apply list_elem_of_fmap. exists (rid_slot_no r). split; [by destruct r|by apply elem_of_page_slots].
Qed.

Lemma StronglySorted_seq m k : StronglySorted lt (seq m k).
Proof.
  revert m. induction k as [|k IH]; intros m; simpl; constructor; [done|]. apply Forall_forall. intros j ?%elem_of_seq. lia.
Qed.

Lemma StronglySorted_map {A B} (R1 : relation A) (R2 : relation B) (g : A → B) l :
  (∀ x y, R1 x y → R2 (g x) (g y)) → StronglySorted R1 l → StronglySorted R2 (g <$> l).
Proof.
  intros Hg. induction 1 as [|x l _ IH Hf]; simpl; constructor; [done|].
  apply Forall_fmap. eapply Forall_impl; [exact Hf|]. intros y. apply Hg.
Qed.

Lemma all_rids_sorted h : StronglySorted rid_lt (all_rids h).
Proof.
  unfold all_rids. assert (Hs : StronglySorted Z.lt (z_range 1 (num_pages h))).
  { eapply StronglySorted_map, StronglySorted_seq. intros. simpl. lia. }
  induction Hs as [|k ks _ IH Hf]; simpl; [constructor|]. apply StronglySorted_app. split; [|split].
  - intros r1 r2 (i & -> & _)%list_elem_of_fmap Hr. rewrite list_elem_of_In, in_concat in Hr.
    setoid_rewrite <- list_elem_of_In in Hr. destruct Hr as (l & (k' & -> & Hk')%list_elem_of_fmap & (j & -> & _)%list_elem_of_fmap).
    rewrite Forall_forall in Hf. left. by apply Hf.
  - eapply StronglySorted_map, StronglySorted_map, StronglySorted_seq; [|intros ? ?; apply inj_lt].
    intros i j Hij. right. done.
  - done.
Qed.

Lemma records_in st a r v : records st a r = Some v → r ∈ all_rids (file_hdr_ st).
Proof.
  intros (Hk & x & _ & (Hi & _)%page_rec_Some)%records_Some. by apply elem_of_all_rids.
Qed.

Lemma elem_of_entries st a r v : (r, v) ∈ entries st a ↔ records st a r = Some v.
Proof.
  unfold entries. rewrite list_elem_of_omap. split.
  - intros (r' & _ & (v' & Hv & [= -> ->])%fmap_Some). done.
  - intros H. exists r. split; [by eapply records_in|]. by rewrite H.
Qed.

Lemma entries_sorted st a : StronglySorted (λ e1 e2, rid_lt e1.1 e2.1) (entries st a).
Proof.
  unfold entries. induction (all_rids_sorted (file_hdr_ st)) as [|r l _ IH Hf]; simpl; [constructor|].
  destruct (records st a r) as [v|]; simpl; [|done]. constructor; [done|]. apply Forall_forall.
  intros [r' v'] (r2 & Hr2 & (w & _ & [= -> ->])%fmap_Some)%list_elem_of_omap. simpl. rewrite Forall_forall in Hf. by apply Hf.
Qed.

Lemma sorted_head {A} (Rl : relation A) l x :
  StronglySorted Rl l → x ∈ l → (∀ y, y ∈ l → ¬ Rl y x) → ∃ l', l = x :: l'.
Proof.
  intros Hs Hx Hy. destruct l as [|y l]; [by apply not_elem_of_nil in Hx|].
  apply elem_of_cons in Hx as [->|Hx]; [by exists l|]. apply StronglySorted_inv in Hs as [_ Hf].
  rewrite Forall_forall in Hf. destruct (Hy y); [left|by apply Hf].
Qed.

Lemma rid_lt_irrefl r : ¬ rid_lt r r.
Proof. unfold rid_lt. lia. Qed.

Lemma rid_lt_asym r1 r2 : rid_lt r1 r2 → ¬ rid_lt r2 r1.
Proof. unfold rid_lt. lia. Qed.

(** The first record of the file. *)
Lemma entries_first st a r v :
  records st a r = Some v → (∀ r', rid_lt r' r → records st a r' = None) →
  ∃ post, entries st a = (r, v) :: post.
Proof.
  intros Hr Hmin. apply (sorted_head _ _ _ (entries_sorted st a)); [by apply elem_of_entries|].
  intros [r' v'] Hy%elem_of_entries Hlt. rewrite Hmin in Hy; done.
Qed.

(** The record after the cursor, as [next] finds it. *)
Section Split.
Context st a pre r v post (HE : entries st a = pre ++ (r, v) :: post).

Lemma after_cursor r' v' : (r', v') ∈ post ↔ rid_lt r r' ∧ records st a r' = Some v'.
Proof using HE.
  pose proof (entries_sorted st a) as Hs. rewrite HE in Hs. apply StronglySorted_app in Hs as (Hpre & _ & Hpost).
  apply StronglySorted_inv in Hpost as [_ Hf]. rewrite Forall_forall in Hf. split.
  - intros Hin. split; [exact (Hf _ Hin)|]. apply elem_of_entries. rewrite HE, elem_of_app, elem_of_cons. auto.
  - intros [Hlt Hr]. apply elem_of_entries in Hr. rewrite HE, elem_of_app, elem_of_cons in Hr.
    destruct Hr as [Hin|[[= -> ->]|Hin]]; [|by apply rid_lt_irrefl in Hlt|done].
    specialize (Hpre _ (r, v) Hin ltac:(left)). by apply rid_lt_asym in Hlt.
Qed.

Lemma cursor_last : (∀ r', rid_lt r r' → records st a r' = None) → post = [].
Proof using HE.
  intros Hn. apply elem_of_nil_inv. intros [r' v'] [Hlt Hr]%after_cursor. by rewrite Hn in Hr.
Qed.

Lemma cursor_next r' :
  rid_lt r r' → is_Some (records st a r') → (∀ r'', rid_lt r r'' → rid_lt r'' r' → records st a r'' = None) →
  ∃ v' post', post = (r', v') :: post'.
Proof using HE.
  intros Hlt [v' Hv] Hbet. exists v'. pose proof (entries_sorted st a) as Hs. rewrite HE in Hs.
  apply StronglySorted_app in Hs as (_ & _ & [Hs _]%StronglySorted_inv).
  apply (sorted_head _ _ _ Hs); [by apply after_cursor|].
  intros [r2 v2] [H1 H2]%after_cursor H3. by rewrite Hbet in H2.
Qed.

Lemma cursor_record : records st a r = Some v.
Proof using HE. apply elem_of_entries. rewrite HE, elem_of_app, elem_of_cons. auto. Qed.
End Split.

(** ** The constructor *)

Lemma find_least (g : Z → bool) l i :
  StronglySorted Z.lt l → find g l = Some i → i ∈ l ∧ g i = true ∧ ∀ j, j ∈ l → j < i → g j = false.
Proof.
  induction 1 as [|y l _ IH Hf]; simpl; [done|]. destruct (g y) eqn:Hy.
  - intros [= <-]. split; [left|]. split; [done|]. rewrite Forall_forall in Hf.
    intros j [->|Hj]%elem_of_cons ?; [lia|]. specialize (Hf _ Hj). lia.
  - intros (H1 & H2 & H3)%IH. split; [by right|]. split; [done|]. intros j [->|Hj]%elem_of_cons ?; auto.
Qed.

Lemma first_stored_spec h x :
  hdr_ok h → page_ok h x →
  match first_stored x (bitmap_size h) with
  | Some i => is_Some (page_rec h x i) ∧ ∀ j, j < i → page_rec h x j = None
  | None => ∀ j, page_rec h x j = None
  end.
Proof.
  intros Hh (_ & _ & Ht). unfold first_stored. set (g := λ pos, isStored x (pos `div` 8) (pos `mod` 8)).
  assert (Hg : ∀ j, 0 ≤ j → g j = Bitmap.is_set (page_bitmap x) j).
  { intros j Hj. by rewrite Bitmap.is_set_bit. }
  assert (Hrec : ∀ j, page_rec h x j = if (0 <=? j) && (j <? num_records_per_page h) && g j then Some (slot_bytes h x j) else None).
  { intros j. unfold page_rec. destruct (Z.leb_spec 0 j); [|done]. by rewrite Hg. }
  assert (Hbits : ∀ j, j ∈ (Z.of_nat <$> seq 0 (Z.to_nat (8 * bitmap_size h))) ↔ 0 ≤ j < page_bits h).
  { intros j. unfold page_bits. rewrite list_elem_of_fmap. setoid_rewrite elem_of_seq. split.
    - intros (i & -> & ?). lia.
    - intros ?. exists (Z.to_nat j). lia. }
  destruct (find g _) as [i|] eqn:E.
  - apply find_least in E as (Hin%Hbits & Hi & Hl1); [|eapply StronglySorted_map, StronglySorted_seq; intros; lia].
    split.
    + rewrite Hrec, Hi, (proj2 (Z.leb_le _ _)) by lia. destruct (Z.ltb_spec i (num_records_per_page h)); [by eexists|].
      rewrite Hg, Ht in Hi by lia. done.
    + intros j Hj. rewrite Hrec. destruct (Z.leb_spec 0 j), (Z.ltb_spec j (num_records_per_page h)); try done. simpl.
      rewrite Hl1; [done| |done]. apply Hbits, slot_bit; [done|lia].
  - intros j. rewrite Hrec. destruct (Z.leb_spec 0 j), (Z.ltb_spec j (num_records_per_page h)); try done. simpl.
    assert (Hj : j ∈ (Z.of_nat <$> seq 0 (Z.to_nat (8 * bitmap_size h)))) by (apply Hbits, slot_bit; [done|lia]).
    apply list_elem_of_In in Hj. by rewrite (find_none _ _ E j Hj).
Qed.

(** What a cursor says of the records of pages [k] and later. *)
Definition first_from st a (k : Z) (o : option Rid) : Prop :=
  match o with
  | Some r => k ≤ rid_page_no r ∧ is_Some (records st a r) ∧
              ∀ r', k ≤ rid_page_no r' → rid_lt r' r → records st a r' = None
  | None => ∀ r', k ≤ rid_page_no r' → records st a r' = None
  end.

Lemma first_from_step st a k o :
  (∀ i, records st a (MkRid k i) = None) → first_from st a (k + 1) o → first_from st a k o.
Proof.
  intros Hk. assert (Hcov : ∀ r', k ≤ rid_page_no r' → k + 1 ≤ rid_page_no r' ∨ records st a r' = None).
  { intros [k' i'] Hr. simpl in *. destruct (decide (k' = k)) as [->|]; [by right|left; lia]. }
  destruct o as [r|]; simpl.
  - intros (H1 & H2 & H3). split; [lia|]. split; [done|]. intros r' Hr' Hlt. destruct (Hcov r' Hr'); auto.
  - intros H r' Hr'. destruct (Hcov r' Hr'); auto.
Qed.

Lemma records_same st a s' a' : same_pages a a' → records (with_pool s' st) a' = records st a.
Proof. intros (Ec & _). unfold records. simpl. by rewrite Ec. Qed.

Lemma same_pages_trans a1 a2 a3 : same_pages a1 a2 → same_pages a2 a3 → same_pages a1 a3.
Proof. intros (?&?&?) (?&?&?). split_and!; congruence. Qed.

Lemma scan_pages_ok (m : nat) st a l k :
  rm_inv st a l → m = Z.to_nat (num_pages (file_hdr_ st) - k) → 1 ≤ k →
  (∀ j, k ≤ j → pin_of a (MkPageId (fd_ st) j) < int_max) →
  (∃ e s', rm_error e ∧ scan_pages (z_range k (num_pages (file_hdr_ st))) st = (Throw (RedBase e), with_pool s' st)) ∨
  (∃ o s' a', scan_pages (z_range k (num_pages (file_hdr_ st))) st = (Ok o, with_pool s' st) ∧
     same_pages a a' ∧ rm_inv (with_pool s' st) a' l ∧ pins_from k a a' ∧ first_from st a k o).
Proof.
  revert st a k. induction m as [|m IH]; intros st a k HI Hm Hk Hpin.
  { right. rewrite z_range_nil by lia. exists None, (rm_pool st), a. rewrite with_pool_id. split_and!; try done; [by left|].
    intros [k' i'] Hr. apply records_out. simpl in *. lia. }
  rewrite z_range_cons by lia. simpl. destruct (ri_pages _ _ _ HI k) as (x & Hx & Hok); [lia|].
  destruct (fetch_page_handle_pins st a k x (ri_pool _ _ _ HI) Hx (Hpin k ltac:(lia)))
    as [(e & s' & He & H)|(f & s1 & a1 & H & Hsame & Ho & Hp & Hp1)].
  { left. exists e, s'. split; [by eapply rm_failure_error|]. by mstop H. }
  mstep H. rewrite !get_hdr_bind. mstep (page_bytes_run (with_pool s1 st) a1 _ f x Ho).
  change (file_hdr_ (with_pool s1 st)) with (file_hdr_ st).
  pose proof (rm_inv_fetch _ _ _ _ _ HI Hsame (ho_inv _ _ _ _ _ Ho)) as HI1.
  assert (Hrec : ∀ i, records st a (MkRid k i) = page_rec (file_hdr_ st) x i) by (intros; apply records_page; [lia|done]).
  pose proof (first_stored_spec _ x (ri_hdr _ _ _ HI) Hok) as Hf. destruct (first_stored x _) as [i|].
  - right. exists (Some (MkRid k i)), s1, a1. split; [done|]. split; [done|]. split; [done|].
    split; [by eapply (pins_from_step st k a a1 a1); [| |by left]|]. destruct Hf as [Hf1 Hf2].
    simpl. split; [lia|]. split; [by rewrite Hrec|]. intros [k' i'] Hk' Hlt. unfold rid_lt in Hlt. simpl in *.
    assert (k' = k) as -> by lia. rewrite Hrec. apply Hf2. lia.
  - destruct (IH (with_pool s1 st) a1 (k + 1)) as [(e & s' & He & Hr)|(o & s' & a' & Hr & Hsame' & HI' & Hpf & Ho')];
      simpl; try done; try lia.
    { intros j Hj. rewrite Hp by (intros [= ?]; lia). apply Hpin. lia. }
    { left. by exists e, s'. }
    right. exists o, s', a'. split; [done|]. split; [by eapply same_pages_trans|]. split; [done|].
    split; [by eapply pins_from_step|]. apply first_from_step; [intros i; by rewrite Hrec|].
    revert Ho'. unfold first_from. by rewrite (records_same st a s1 a1 Hsame).
Qed.

(** The constructor finds the first record, if there is one. *)
Lemma new_RmScan_ok st a l :
  rm_inv st a l → (∀ p, pin_of a p < int_max) →
  (∃ e s', rm_error e ∧ new_RmScan st = (Throw (RedBase e), with_pool s' st)) ∨
  (∃ s' a', new_RmScan st = (Ok (fst <$> head (entries st a)), with_pool s' st) ∧
     same_pages a a' ∧ rm_inv (with_pool s' st) a' l ∧ pins_by 1 a a').
Proof.
  intros HI Hpin. unfold new_RmScan. rewrite get_hdr_bind.
  destruct (scan_pages_ok _ st a l 1 HI eq_refl ltac:(lia) ltac:(auto))
    as [?|(o & s' & a' & H & Hsame & HI' & Hp & Ho)]; [by left|].
  right. exists s', a'. split; [|split; [done|split; [done|by eapply pins_from_by]]]. rewrite H. do 2 f_equal.
  assert (Hlow : ∀ r, ¬ 1 ≤ rid_page_no r → records st a r = None).
  { intros [k i] Hk. apply records_out. simpl in Hk. lia. }
  destruct o as [r|]; simpl in Ho.
  - destruct Ho as (_ & [v Hv] & Hmin). destruct (entries_first st a r v Hv) as [post ->]; [|done].
    intros r' Hlt. destruct (decide (1 ≤ rid_page_no r')); auto.
  - replace (entries st a) with (@nil (Rid * bytes)); [done|]. symmetry. apply elem_of_nil_inv. intros [r v] Hr%elem_of_entries.
    destruct (decide (1 ≤ rid_page_no r)); [rewrite Ho in Hr|rewrite Hlow in Hr]; done.
Qed.

(** ** The loop runs its body once per record *)

Section Each.
Context {T : Type} (body : Rid → T → M RmState T) (f : T → Rid * bytes → T).
Context (body_ok : ∀ st a l r v t,
  rm_inv st a l → records st a r = Some v → (∀ p, pin_of a p < int_max) →
  (∃ e s', rm_error e ∧ body r t st = (Throw (RedBase e), with_pool s' st)) ∨
  (∃ s' a', body r t st = (Ok (f t (r, v)), with_pool s' st) ∧
     same_pages a a' ∧ rm_inv (with_pool s' st) a' l ∧ pins_by 1 a a')).

Lemma entries_same st a s' a' : same_pages a a' → entries (with_pool s' st) a' = entries st a.
Proof. intros H. unfold entries. by rewrite (records_same st a s' a' H). Qed.

(** One round from the record [r]: body, then [next]. *)
Lemma scan_round st a l pre r v post t :
  rm_inv st a l → entries st a = pre ++ (r, v) :: post → (∀ p, pin_of a p + 1 < int_max) →
  (∃ e s', rm_error e ∧ (t' ← body r t; scan' ← scan_next (Some r); ret (t', scan')) st = (Throw (RedBase e), with_pool s' st)) ∨
  (∃ s' a', (t' ← body r t; scan' ← scan_next (Some r); ret (t', scan')) st
            = (Ok (f t (r, v), Some (default (MkRid (-1) (-1)) (fst <$> head post))), with_pool s' st) ∧
     same_pages a a' ∧ rm_inv (with_pool s' st) a' l ∧ pins_by 2 a a').
Proof using body_ok.
  intros HI HE Hpin. pose proof (cursor_record _ _ _ _ _ _ HE) as Hr.
  destruct (body_ok st a l r v t HI Hr) as [(e & s' & He & H)|(s1 & a1 & H & Hs1 & HI1 & Hp1)].
  { intros p. specialize (Hpin p). lia. }
  { left. exists e, s'. split; [done|]. by mstop H. }
  mstep H. pose proof (records_in _ _ _ _ Hr) as [Hk Hi]%elem_of_all_rids.
  destruct (scan_next_run (with_pool s1 st) a1 l r HI1) as [(e & s' & He & H2)|(r' & s2 & a2 & H2 & Hs2 & HI2 & Hp2 & Hc)].
  { lia. } { simpl. lia. } { intros q. specialize (Hp1 q). specialize (Hpin q). lia. }
  { left. exists e, s'. split; [done|]. by mstop H2. }
  right. exists s2, a2. mstep H2. split; [|split; [by eapply same_pages_trans|split; [done|]]].
  - unfold st_ret. do 4 f_equal. rewrite (records_same st a s1 a1 Hs1) in Hc.
    destruct Hc as [[-> Hn]|(Hlt & Hsome & Hbet)].
    + by rewrite (cursor_last _ _ _ _ _ _ HE Hn).
    + by destruct (cursor_next _ _ _ _ _ _ HE r' Hlt Hsome Hbet) as (v' & post' & ->).
  - intros q. specialize (Hp1 q). specialize (Hp2 q). lia.
Qed.

Lemma scan_each_unfold fuel r t st :
  (rid_page_no r =? RM_NO_PAGE) = false →
  scan_each (S fuel) body (Some r) t st
  = (p ← (t' ← body r t; scan' ← scan_next (Some r); ret (t', scan')); scan_each fuel body p.2 p.1) st.
Proof.
  intros Hne. rewrite st_bind_assoc. change (scan_each (S fuel) body (Some r) t st) with
    ((if rid_page_no r =? RM_NO_PAGE then ret (t, Some r)
      else t' ← body r t; scan' ← scan_next (Some r); scan_each fuel body scan' t') st).
  rewrite Hne. apply st_bind_ext. intros t' s1. by rewrite st_bind_assoc.
Qed.

(** The loop from the record [r]: [length post + 2] rounds are enough, the last of
    them the one that finds the end. *)
Lemma scan_each_run fuel st a l pre r v post t :
  rm_inv st a l → entries st a = pre ++ (r, v) :: post → (length post + 2 ≤ fuel)%nat →
  (∀ p, pin_of a p + 2 * Z.of_nat (S (length post)) < int_max) →
  (∃ e s', rm_error e ∧ scan_each fuel body (Some r) t st = (Throw (RedBase e), with_pool s' st)) ∨
  (∃ s' a', scan_each fuel body (Some r) t st
            = (Ok (foldl f t ((r, v) :: post), Some (MkRid (-1) (-1))), with_pool s' st) ∧
     same_pages a a' ∧ rm_inv (with_pool s' st) a' l).
Proof using body_ok.
  revert fuel st a pre r v t. induction post as [|[r' v'] post IH]; intros fuel st a pre r v t HI HE Hf Hpin;
    (destruct fuel as [|fuel]; [simpl in Hf; lia|]);
    pose proof (records_in _ _ _ _ (cursor_record _ _ _ _ _ _ HE)) as [Hk _]%elem_of_all_rids;
    assert (Hne : (rid_page_no r =? RM_NO_PAGE) = false) by (apply Z.eqb_neq; unfold RM_NO_PAGE; lia);
    (destruct (scan_round st a l pre r v _ t HI HE) as [(e & s' & He & H)|(s1 & a1 & H & Hs1 & HI1 & Hp1)];
      [intros p; specialize (Hpin p); simpl in Hpin; lia| |]);
    rewrite (scan_each_unfold fuel r t st Hne).
  1, 3: left; exists e, s'; split; [done|]; unfold st_bind at 1; by rewrite H.
  - right. exists s1, a1. mstep H. simpl. destruct fuel as [|fuel]; [simpl in Hf; lia|]. by simpl.
  - mstep H. simpl. destruct (IH fuel (with_pool s1 st) a1 (pre ++ [(r, v)]) r' v' (f t (r, v)) HI1)
      as [(e & s' & He & H2)|(s' & a' & H2 & Hs2 & HI2)].
    + rewrite (entries_same st a s1 a1 Hs1), HE. by rewrite <- (assoc_L (++)).
    + simpl in Hf. lia.
    + intros q. specialize (Hp1 q). specialize (Hpin q). simpl in Hpin. lia.
    + left. by exists e, s'.
    + right. exists s', a'. split; [done|]. split; [by eapply same_pages_trans|done].
Qed.

End Each.

(** The constructor and the loop together. *)
Lemma scan_file_run {T} fuel (body : Rid → T → M RmState T) f st a l t :
  (∀ st a l r v t, rm_inv st a l → records st a r = Some v → (∀ p, pin_of a p < int_max) →
     (∃ e s', rm_error e ∧ body r t st = (Throw (RedBase e), with_pool s' st)) ∨
     (∃ s' a', body r t st = (Ok (f t (r, v)), with_pool s' st) ∧
        same_pages a a' ∧ rm_inv (with_pool s' st) a' l ∧ pins_by 1 a a')) →
  rm_inv st a l → (length (entries st a) < fuel)%nat →
  (∀ p, pin_of a p + 2 * Z.of_nat (length (entries st a)) + 1 < int_max) →
  let run := (scan_ ← new_RmScan; scan_each fuel body scan_ t) st in
  (∃ e s', rm_error e ∧ run = (Throw (RedBase e), with_pool s' st)) ∨
  (∃ s' a', run = (if decide (entries st a = []) then Crash Uninitialised
                   else Ok (foldl f t (entries st a), Some (MkRid (-1) (-1))), with_pool s' st) ∧
     same_pages a a' ∧ rm_inv (with_pool s' st) a' l).
Proof.
  intros Hbody HI Hf Hpin run. unfold run. clear run.
  destruct (new_RmScan_ok st a l HI) as [(e & s' & He & H)|(s1 & a1 & H & Hs1 & HI1 & Hp1)].
  { intros p. specialize (Hpin p). lia. }
  { left. exists e, s'. split; [done|]. by mstop H. }
  mstep H. destruct (entries st a) as [|[r v] post] eqn:HE; simpl.
  - right. exists s1, a1. destruct fuel as [|fuel]; [simpl in Hf; lia|]. done.
  - destruct (scan_each_run body f Hbody fuel (with_pool s1 st) a1 l [] r v post t HI1)
      as [(e & s' & He & H2)|(s' & a' & H2 & Hs2 & HI2)].
    + by rewrite (entries_same st a s1 a1 Hs1), HE.
    + simpl in Hf. lia.
    + intros q. specialize (Hp1 q). specialize (Hpin q). simpl length in Hpin. lia.
    + left. by exists e, s'.
    + right. exists s', a'. split; [exact H2|]. split; [by eapply same_pages_trans|done].
Qed.

(** [for (RmScan scan(fh); !scan.is_end(); scan.next()) { rec = fh->get_record(scan.rid()); ... }]
    with a body that keeps what it read. *)
Definition read_all (fuel : nat) : M RmState (list (Rid * bytes)) :=
  scan_ ← new_RmScan;
  p ← scan_each fuel (λ r acc, rec ← get_record r; ret (acc ++ [(r, rec_data rec)])) scan_ [];
  ret p.1.

Lemma foldl_snoc {A} (l acc : list A) : foldl (λ acc x, acc ++ [x]) acc l = acc ++ l.
Proof. revert acc. induction l as [|x l IH]; intros acc; simpl; [by rewrite app_nil_r|]. by rewrite IH, <- (assoc_L (++)). Qed.

(** [C13] A scan terminates and reads the whole file: one round more than the file
    has records is enough, and the loop gets every record once, in (page, slot)
    order, and leaves the file as it was.  On a file without records the cursor
    is read uninitialised.  Otherwise the disk failed or no frame was free. *)
Theorem scan_reads_all fuel st a l :
  rm_inv st a l → (length (entries st a) < fuel)%nat →
  (∀ p, pin_of a p + 2 * Z.of_nat (length (entries st a)) + 1 < int_max) →
  (∃ e s', rm_error e ∧ read_all fuel st = (Throw (RedBase e), with_pool s' st)) ∨
  (∃ s' a', read_all fuel st = (if decide (entries st a = []) then Crash Uninitialised else Ok (entries st a), with_pool s' st) ∧
     rm_inv (with_pool s' st) a' l ∧ ∀ r, records (with_pool s' st) a' r = records st a r).
Proof.
  intros HI Hf Hpin. unfold read_all.
  destruct (scan_file_run fuel (λ r acc, rec ← get_record r; ret (acc ++ [(r, rec_data rec)])) (λ acc x, acc ++ [x]) st a l [])
    as [(e & s' & He & H)|(s' & a' & H & Hs & HI')]; try done.
  - intros st' a' l' r v t HI' Hr Hp. destruct (get_record_run st' a' l' r v HI' Hr Hp)
      as [(e & s' & He & H)|(rec & s' & a2 & H & <- & _ & Hs & HI2 & Hp2)].
    + left. exists e, s'. split; [by eapply rm_failure_error|]. by mstop H.
    + right. exists s', a2. by mstep H.
  - left. exists e, s'. split; [done|]. rewrite <- st_bind_assoc. by mstop H.
  - right. exists s', a'. rewrite <- st_bind_assoc. unfold st_bind at 1. rewrite H. rewrite foldl_snoc.
    split; [by case_decide|]. split; [done|]. intros r. by rewrite (records_same st a s' a' Hs).
Qed.

End Scan.
