(* ===== verification/RecordRuns.v ===== *)
(** Record files over the modelled pool and disk: instances of the theorems of
    [RecordSpec], the header's way to disk and back, and runs that leave the
    file invariant. *)
From S2P Require Import Prelude Config Posix PageStore Disk Replacer BufferPool PoolSpec Bitmap Record RecordPage RecordSpec RecordScan.

#[local] Existing Instance MemFS.mem_posix.

Record rm_hdr_ints (h : RmFileHdr) : Prop := {
  rh_size : is_int (record_size h); rh_pages : is_int (num_pages h); rh_per : is_int (num_records_per_page h);
  rh_free : is_int (first_free_page_no h); rh_bitmap : is_int (bitmap_size h)
}.

Lemma bytes_hdr_bytes h : rm_hdr_ints h → bytes_hdr (hdr_bytes h) = h.
Proof. intros []. unfold bytes_hdr, hdr_bytes. read_ints. by destruct h. Qed.

Section HeaderFile.
Context {OS R : Type} {PX : Posix OS} {RP : Replacer R}.

(** The header of a record file survives on disk: what [create_file] or
    [close_file] wrote to page 0 is what the constructor of [RmFileHandle]
    reads, every field of it, and the descriptor's page counter starts at the
    number of pages the header records, unless [read] fails. *)
Theorem rm_header_roundtrip (s : BufferPoolManager (DiskManager OS) R) d1 fd h :
  disk_inv (disk_manager_ s) → fd_known (disk_manager_ s) (MkPageId fd RM_FILE_HDR_PAGE) → fd_in_range fd →
  rm_hdr_ints h →
  write_page fd RM_FILE_HDR_PAGE (hdr_bytes h) sizeof_RmFileHdr (disk_manager_ s) = (Ok tt, d1) →
  ∃ r s', new_RmFileHandle fd (with_disk d1 s) = (r, s') ∧
    (r = Ok (fd, h) ∧ next_page_no (disk_manager_ s') fd = num_pages h ∨ r = Throw (RedBase UnixError)).
Proof.
  intros Hinv Hk Hfd Hh Hw. assert (Hl : length (hdr_bytes h) = Z.to_nat sizeof_RmFileHdr).
  { unfold hdr_bytes. by autorewrite with lens. }
  assert (sizeof_RmFileHdr = Z.of_nat (length (hdr_bytes h))) as Hs by (by rewrite Hl).
  rewrite Hs in Hw. destruct (fd_known_inode _ _ Hinv Hk) as [ino Hino].
  destruct (write_read_bytes _ d1 _ _ (zeros (Z.to_nat sizeof_RmFileHdr)) ino Hino (proj2 Hk)
    ltac:(intros E; by rewrite E in Hl) ltac:(by rewrite Hl) Hw) as (r & d2 & buf & Hr & Ht & Hcase).
  cbn [pid_fd pid_no] in Hr. rewrite <- Hs in Hr. unfold new_RmFileHandle. cbn [disk_manager_ with_disk]. rewrite Hr.
  destruct Hcase as [[-> ->]| ->]; [|eexists _, _; split; [done|by right]].
  rewrite bytes_hdr_bytes by done.
  unfold dm, BufferPool.on_disk, zoom, set_fd2pageno, st_bind. destruct Hfd as [Hfd1%Z.leb_le Hfd2%Z.ltb_lt].
  rewrite Hfd1, Hfd2. simpl. eexists _, _. split; [reflexivity|]. left. split; [done|]. unfold next_page_no. simpl. by rewrite lookup_insert_eq.
Qed.

End HeaderFile.

Module RecordRuns.

Abbreviation pool := (BufferPoolManager (DiskManager fs_view) LRUReplacer).
Abbreviation state := (RmState (DiskManager fs_view) LRUReplacer).

(** ** A file with one record

    Records of 512 bytes, seven to a page; page 1 holds one record. *)
Definition buf : bytes := replicate 512 5.
Definition buf2 : bytes := replicate 512 6.
Definition hdr1 : RmFileHdr := set_num_pages 2 (make_hdr 512).
Definition page1 : bytes := insert_page hdr1 0 buf (zeros page_len).

Definition disk1 : DiskManager fs_view :=
  disk_run
    [DCreateFile "t"; DOpenFile "t"; DWritePage 3 0 (hdr_bytes hdr1) sizeof_RmFileHdr;
     DWritePage 3 1 page1 PAGE_SIZE; DSetFd2PageNo 3 2] (new_DiskManager MemFS.empty_fs).
Definition pool1 : pool := new_BufferPoolManager (λ _, 0) 4 disk1.
Definition st1 : state := MkRm pool1 3 hdr1.
Definition a1 : spec_state :=
  MkSpec {[ MkPageId 3 1 := Some page1 ]} ∅ ∅ (ps_next disk1) (ps_valid disk1).
Definition rid0 : Rid := MkRid 1 0.

Lemma rm_disk1_inv : disk_inv disk1.
Proof. apply disk_run_inv; [by vm_compute|]. apply new_DiskManager_inv, MemFS.empty_plain. Qed.

Lemma rm_valid_3 n : page_no_ok n → ps_valid disk1 (MkPageId 3 n).
Proof. intros H. split; [by eexists|exact H]. Qed.

Lemma page1_disk : ps_page disk1 (MkPageId 3 1) = Some page1.
Proof. by vm_compute. Qed.

Lemma pool1_inv : pool_inv None pool1 a1.
Proof.
  apply new_pool_inv.
  split; [apply rm_disk1_inv|reflexivity|reflexivity|intros p; reflexivity|intros fd; reflexivity|].
  intros p y Hy. change (({[ MkPageId 3 1 := Some page1 ]} : gmap PageId (option bytes)) !! p = Some y) in Hy.
  apply lookup_singleton_Some in Hy as [<- <-]. split; [by apply rm_valid_3|]. split; [done|].
  exists page1. split; [done|]. apply page1_disk.
Qed.

Lemma hdr1_ok : hdr_ok hdr1.
Proof. split; [unfold RM_MAX_RECORD_SIZE; simpl; lia|done]. Qed.

Lemma page1_tail : tail_clear hdr1 page1.
Proof.
  intros i [H1 H2]. assert (Forall (λ i, Bitmap.is_set (page_bitmap page1) i = false)
    (z_range (num_records_per_page hdr1) (page_bits hdr1))) as Hall by (vm_compute; repeat constructor).
  rewrite Forall_forall in Hall. apply Hall. unfold z_range. apply list_elem_of_fmap.
  exists (Z.to_nat (i - num_records_per_page hdr1)). rewrite elem_of_seq. lia.
Qed.

Lemma st1_inv : rm_inv st1 a1 [].
Proof.
  split; [apply pool1_inv|apply hdr1_ok|by vm_compute|by vm_compute|by vm_compute|by vm_compute| |by vm_compute|constructor].
  intros k Hk. assert (k = 1) as -> by (change (num_pages (file_hdr_ st1)) with 2 in Hk; lia).
  exists page1. split; [apply lookup_singleton_eq|]. split_and!; [by vm_compute|by vm_compute|apply page1_tail].
Qed.

Lemma rid0_record : records st1 a1 rid0 = Some buf.
Proof. by vm_compute. Qed.

Lemma a1_pins p : pin_of a1 p < int_max.
Proof. unfold pin_of, int_max. simpl. rewrite lookup_empty. lia. Qed.

Lemma get_record_correct_witness :
  ∃ rec s', get_record rid0 st1 = (Ok rec, with_pool s' st1) ∧ rec_data rec = buf.
Proof.
  destruct (get_record_correct st1 a1 [] rid0 buf st1_inv rid0_record a1_pins)
    as [(e & s' & _ & H)|(rec & s' & a' & H & Hd & _)]; [by vm_compute in H|]. exists rec, s'. split; [exact H|exact Hd].
Defined.

Lemma update_record_correct_witness :
  ∃ s' a', update_record rid0 buf2 st1 = (Ok tt, with_pool s' st1) ∧
           records (with_pool s' st1) a' rid0 = Some buf2.
Proof.
  destruct (update_record_correct st1 a1 [] rid0 buf2 st1_inv ltac:(by vm_compute) ltac:(by vm_compute) a1_pins eq_refl)
    as [(e & s' & _ & H)|(s' & a' & H & _ & Hr)]; [by vm_compute in H|].
  exists s', a'. split; [done|]. rewrite Hr, decide_True; [done|]. split; [done|by eexists; apply rid0_record].
Defined.

Lemma delete_record_correct_witness :
  ∃ st' a' l', delete_record rid0 st1 = (Ok tt, st') ∧ rm_inv st' a' l' ∧ records st' a' rid0 = None.
Proof.
  destruct (delete_record_correct st1 a1 [] rid0 buf st1_inv rid0_record a1_pins)
    as [(e & s' & _ & H)|(st' & a' & l' & H & Hi & _ & Hr)]; [by intros ?%not_elem_of_nil|by vm_compute in H|].
  exists st', a', l'. split; [done|]. split; [done|]. by rewrite Hr, decide_True.
Defined.

Lemma insert_record_correct_witness :
  ∃ rid st' a' l', insert_record buf2 st1 = (Ok rid, st') ∧ rm_inv st' a' l' ∧
    records st' a' rid = Some buf2 ∧ records st' a' rid0 = (if decide (rid0 = rid) then Some buf2 else Some buf).
Proof.
  destruct (insert_record_correct st1 a1 [] buf2 st1_inv a1_pins eq_refl)
    as [(e & st' & _ & H)|[(st' & H & _)|(rid & st' & a' & l' & H & Hi & _ & _ & Hr)]];
    [by vm_compute|by apply rm_valid_3|done|by vm_compute in H|by vm_compute in H|].
  exists rid, st', a', l'. split; [done|]. split; [done|]. split; [by rewrite Hr, decide_True|].
  rewrite Hr. by rewrite rid0_record.
Defined.

Lemma scan_reads_all_witness :
  ∃ s' a', read_all 2 st1 = (Ok [(rid0, buf)], with_pool s' st1) ∧ records (with_pool s' st1) a' rid0 = Some buf.
Proof.
  assert (HE : entries st1 a1 = [(rid0, buf)]) by (by vm_compute).
  destruct (scan_reads_all 2 st1 a1 [] st1_inv)
    as [(e & s' & _ & H)|(s' & a' & H & _ & Hr)]; [rewrite HE; simpl; lia| |by vm_compute in H|].
  - intros p. rewrite HE. unfold pin_of, int_max. simpl. rewrite lookup_empty. lia.
  - rewrite HE, decide_False in H by done. exists s', a'. split; [done|]. by rewrite Hr, rid0_record.
Defined.

(** ** The header's way to disk and back *)

Definition fresh : pool := new_BufferPoolManager (λ _, 0) 4 (new_DiskManager MemFS.empty_fs).

(** [create_file] followed by [open_file] delivers the header it computed. *)
Lemma create_open_header :
  (rm_create_file "t" 512 ;; rm_open_file "t") fresh
  = (Ok (3, make_hdr 512), ((rm_create_file "t" 512 ;; rm_open_file "t") fresh).2).
Proof. by vm_compute. Qed.

Definition st0 : state := MkRm ((rm_create_file "t" 512 ;; rm_open_file "t") fresh).2 3 (make_hdr 512).

(** ** Leaving the invariant

    A page that is emptied a second time is put on the free list a second time:
    its link then points to itself.  Once it is full the free list still starts
    with it, [first_bit] answers [num_records_per_page], and the record is copied
    to a slot beyond the page. *)
Definition twice_emptied : M state unit :=
  r ← insert_record buf; delete_record r ;;
  r ← insert_record buf; delete_record r.

Definition fill (k : nat) : M state unit := st_iter (λ _, _ ← insert_record buf; ret tt) (seq 0 k).

Lemma double_release_self_loop :
  let st := (twice_emptied st0).2 in
  first_free_page_no (file_hdr_ st) = 1 ∧
  (λ pg, get_next_free (data_ pg)) <$> frame (rm_pool st) 0 = Some 1.
Proof. split; by vm_compute. Qed.

Lemma double_release_overflows_page :
  ((twice_emptied ;; fill 7) st0).1 = Ok tt ∧
  ((twice_emptied ;; fill 8) st0).1 = Crash OutOfBounds.
Proof. split; by vm_compute. Qed.

(** Every insert into a file without a free page takes a whole page: the new
    page is not put on the free list. *)
Lemma each_insert_takes_a_page :
  num_pages (file_hdr_ (fill 3 st0).2) = 4 ∧ first_free_page_no (file_hdr_ (fill 3 st0).2) = -1.
Proof. by vm_compute. Qed.

(** Re-inserting at a [Rid] of an existing page (rollback) allocates a page the
    file does not use. *)
Lemma rollback_insert_allocates :
  num_pages (file_hdr_ st1) = 2 ∧ num_pages (file_hdr_ (insert_record_at (MkRid 1 1) buf2 st1).2) = 3.
Proof. by vm_compute. Qed.

(** The scan of a file without records starts with an unset position. *)
Lemma scan_of_empty_file_unset :
  (new_RmScan st0).1 = Ok None ∧ (scan_is_end (None : option Rid) st0).1 = Crash Uninitialised.
Proof. by vm_compute. Qed.

Definition disk_t : DiskManager fs_view :=
  disk_run [DCreateFile "t"; DOpenFile "t"] (new_DiskManager MemFS.empty_fs).
Definition pool_t : pool := new_BufferPoolManager (λ _, 0) 4 disk_t.
Definition disk_t1 : DiskManager fs_view :=
  (write_page 3 RM_FILE_HDR_PAGE (hdr_bytes (make_hdr 512)) sizeof_RmFileHdr disk_t).2.

Lemma rm_header_roundtrip_witness :
  ∃ s', new_RmFileHandle 3 (with_disk disk_t1 pool_t) = (Ok (3, make_hdr 512), s') ∧
    next_page_no (disk_manager_ s') 3 = num_pages (make_hdr 512).
Proof.
  destruct (rm_header_roundtrip pool_t disk_t1 3 (make_hdr 512)) as (r & s' & H & [[-> Hn]| ->]);
    [| | | | |by exists s'|by vm_compute in H].
  - apply disk_run_inv; [by vm_compute|]. apply new_DiskManager_inv, MemFS.empty_plain.
  - split; [by eexists|]. unfold page_no_ok. simpl. unfold RM_FILE_HDR_PAGE. lia.
  - by vm_compute.
  - split; by vm_compute.
  - by vm_compute.
Defined.

End RecordRuns.
