(* ===== verification/IxKey.v ===== *)
(** Index keys and their order: [ix_compare] of [index/ix_node_handle.h].

    A key is the [col_len] bytes of the indexed column.  Integers compare as
    little-endian [int]s, strings by [memcmp], floats as IEEE-754 binary32
    values.  [KeyOrder] states what the B+ tree relies on (a total preorder);
    integers and strings provide it, floats do only without NaN. *)
From Stdlib Require Import SpecFloat.
From S2P Require Import Prelude Config.

Abbreviation key := bytes.

(** The sign of [memcmp(a, b, n)]. *)
Fixpoint memcmp (a b : bytes) (n : nat) : Z :=
  match n, a, b with
  | S n', x :: a', y :: b' => if x <? y then -1 else if y <? x then 1 else memcmp a' b' n'
  | _, _, _ => 0
  end.

(** A binary32 value from its 32 bits. *)
Definition float_of_bits (bits : Z) : spec_float :=
  let sign := Z.testbit bits 31 in
  let e := Z.land (Z.shiftr bits 23) 255 in
  let m := Z.land bits 8388607 in
  if e =? 255 then (if m =? 0 then S754_infinity sign else S754_nan)
  else if e =? 0 then
    match m with Zpos p => S754_finite sign p (-149) | _ => S754_zero sign end
  else
    match m + 8388608 with Zpos p => S754_finite sign p (e - 150) | _ => S754_nan end.

Definition float_of_bytes (bs : bytes) : spec_float :=
  float_of_bits (little_endian_to_Z 8 (take 4 bs)).

(** [(fa < fb) ? -1 : ((fa > fb) ? 1 : 0)]: both tests fail on a NaN. *)
Definition float_compare (a b : spec_float) : Z :=
  match SFcompare a b with Some Lt => -1 | Some Gt => 1 | _ => 0 end.

Definition int_compare (a b : Z) : Z := if a <? b then -1 else if b <? a then 1 else 0.

Definition ix_compare (a b : key) (type : ColType) (col_len : Z) : Z :=
  match type with
  | TYPE_INT => int_compare (get_int 0 a) (get_int 0 b)
  | TYPE_FLOAT => float_compare (float_of_bytes a) (float_of_bytes b)
  | TYPE_STRING => memcmp a b (Z.to_nat col_len)
  end.

(** ** What the index needs of the order *)

Class KeyOrder (cmp : key → key → Z) (ok : key → Prop) := {
  ko_flip a b : ok a → ok b → cmp a b < 0 ↔ 0 < cmp b a;
  ko_trans a b c : ok a → ok b → ok c → cmp a b ≤ 0 → cmp b c ≤ 0 → cmp a c ≤ 0
}.

Section Order.
Context {cmp : key → key → Z} {ok : key → Prop} `{KO : !KeyOrder cmp ok}.

Lemma cmp_refl a : ok a → cmp a a = 0.
Proof. intros Ha. pose proof (ko_flip a a Ha Ha). lia. Qed.

Lemma cmp_le_flip a b : ok a → ok b → cmp a b ≤ 0 ↔ 0 ≤ cmp b a.
Proof. intros Ha Hb. pose proof (ko_flip a b Ha Hb). pose proof (ko_flip b a Hb Ha). lia. Qed.

Lemma cmp_eq_sym a b : ok a → ok b → cmp a b = 0 → cmp b a = 0.
Proof. intros Ha Hb H. pose proof (ko_flip a b Ha Hb). pose proof (ko_flip b a Hb Ha). lia. Qed.

Lemma cmp_lt_le_trans a b c : ok a → ok b → ok c → cmp a b < 0 → cmp b c ≤ 0 → cmp a c < 0.
Proof.
  intros Ha Hb Hc H1 H2. destruct (decide (cmp a c < 0)) as [|Hn]; [done|].
  assert (cmp c a ≤ 0) by (apply cmp_le_flip; [done|done|lia]).
  pose proof (ko_trans b c a Hb Hc Ha H2 ltac:(done)). pose proof (ko_flip a b Ha Hb). lia.
Qed.

Lemma cmp_le_lt_trans a b c : ok a → ok b → ok c → cmp a b ≤ 0 → cmp b c < 0 → cmp a c < 0.
Proof.
  intros Ha Hb Hc H1 H2. destruct (decide (cmp a c < 0)) as [|Hn]; [done|].
  assert (cmp c a ≤ 0) by (apply cmp_le_flip; [done|done|lia]).
  pose proof (ko_trans c a b Hc Ha Hb ltac:(done) H1). pose proof (ko_flip b c Hb Hc). lia.
Qed.

Lemma cmp_eq_trans a b c : ok a → ok b → ok c → cmp a b = 0 → cmp b c = 0 → cmp a c = 0.
Proof.
  intros Ha Hb Hc H1 H2. pose proof (cmp_eq_sym a b Ha Hb H1) as H1'. pose proof (cmp_eq_sym b c Hb Hc H2) as H2'.
  pose proof (ko_trans a b c Ha Hb Hc (Z.eq_le_incl _ _ H1) (Z.eq_le_incl _ _ H2)) as H.
  pose proof (ko_trans c b a Hc Hb Ha (Z.eq_le_incl _ _ H2') (Z.eq_le_incl _ _ H1')) as H'.
  apply cmp_le_flip in H'; [lia|done|done].
Qed.

End Order.

#[export] Instance int_key_order col_len : KeyOrder (λ a b, ix_compare a b TYPE_INT col_len) (λ _, True).
Proof.
  split; simpl; unfold int_compare.
  - intros a b _ _. destruct (Z.ltb_spec (get_int 0 a) (get_int 0 b)), (Z.ltb_spec (get_int 0 b) (get_int 0 a)); lia.
  - intros a b c _ _ _. destruct (Z.ltb_spec (get_int 0 a) (get_int 0 b)), (Z.ltb_spec (get_int 0 b) (get_int 0 a)),
      (Z.ltb_spec (get_int 0 b) (get_int 0 c)), (Z.ltb_spec (get_int 0 c) (get_int 0 b)),
      (Z.ltb_spec (get_int 0 a) (get_int 0 c)), (Z.ltb_spec (get_int 0 c) (get_int 0 a)); lia.
Qed.

(** An order on more keys is an order on fewer. *)
Lemma key_order_sub cmp (ok ok' : key → Prop) : KeyOrder cmp ok → (∀ k, ok' k → ok k) → KeyOrder cmp ok'.
Proof.
  intros [H1 H2] Hsub. split; [intros a b Ha Hb; apply H1; auto|].
  intros a b c Ha Hb Hc. apply (H2 a b c); auto.
Qed.

Lemma memcmp_flip n a b : memcmp a b n < 0 ↔ 0 < memcmp b a n.
Proof.
  revert a b. induction n as [|n IH]; intros [|x a] [|y b]; simpl; try lia.
  destruct (Z.ltb_spec x y), (Z.ltb_spec y x); try lia. apply IH.
Qed.

Lemma memcmp_trans n a b c :
  length a = n → length b = n → length c = n → memcmp a b n ≤ 0 → memcmp b c n ≤ 0 → memcmp a c n ≤ 0.
Proof.
  revert a b c. induction n as [|n IH]; intros [|x a] [|y b] [|z c]; simpl; try lia.
  intros [=] [=] [=]. destruct (Z.ltb_spec x y), (Z.ltb_spec y x), (Z.ltb_spec y z), (Z.ltb_spec z y),
    (Z.ltb_spec x z), (Z.ltb_spec z x); try lia. by apply IH.
Qed.

(** Keys of the full length that [memcmp] cannot tell apart are the same key. *)
Lemma memcmp_eq n a b : length a = n → length b = n → memcmp a b n = 0 ↔ a = b.
Proof.
  revert a b. induction n as [|n IH]; intros [|x a] [|y b]; simpl; try done.
  intros [= Ha] [= Hb]. destruct (Z.ltb_spec x y), (Z.ltb_spec y x).
  - lia.
  - split; [done|]. intros [= -> _]. lia.
  - split; [done|]. intros [= -> _]. lia.
  - rewrite IH by done. assert (x = y) as -> by lia. split; [by intros ->|by intros [= ->]].
Qed.

#[export] Instance string_key_order col_len :
  KeyOrder (λ a b, ix_compare a b TYPE_STRING col_len) (λ a, length a = Z.to_nat col_len).
Proof.
  split; simpl.
  - intros a b _ _. apply memcmp_flip.
  - intros a b c. apply memcmp_trans.
Qed.

(** Three floats, the middle one a NaN: [1.0 = NaN = 0.0] to [ix_compare], but
    [1.0 > 0.0], so the order law fails. *)
Definition float_one : key := [0; 0; 128; 63].
Definition float_nan : key := [0; 0; 192; 127].
Definition float_zero : key := [0; 0; 0; 0].

Lemma float_nan_breaks_order col_len (ok : key → Prop) :
  ok float_one → ok float_nan → ok float_zero →
  KeyOrder (λ a b, ix_compare a b TYPE_FLOAT col_len) ok → False.
Proof.
  intros H1 H2 H3 KO. pose proof (ko_trans float_one float_nan float_zero H1 H2 H3) as Ht.
  vm_compute in Ht. apply Ht; [by intros ?|by intros ?|done].
Qed.
