(* ===== verification/IxNode.v ===== *)
(** A node of the B+ tree: [index/ix_defs.h] and [index/ix_node_handle.*].

    A node is a page seen through the handle's three pointers: the page header,
    the array of [btree_order + 1] keys and the array of [btree_order + 1] rids.
    Only the first [num_key] entries are live; the arrays keep whatever was
    stored beyond them, and the code reads there.  An index outside an array is
    [Crash OutOfBounds]. *)
From S2P Require Import Prelude Config IxKey.

Definition IX_NO_PAGE : Z := -1.
Definition IX_FILE_HDR_PAGE : Z := 0.
Definition IX_LEAF_HEADER_PAGE : Z := 1.
Definition IX_INIT_ROOT_PAGE : Z := 2.
Definition IX_INIT_NUM_PAGES : Z := 3.
Definition IX_MAX_COL_LEN : Z := 512.

Record IxFileHdr : Set := MkIxFileHdr {
  ix_first_free_page_no : Z;
  ix_num_pages : Z;
  root_page : Z;
  col_type : ColType;
  col_len : Z;
  btree_order : Z;
  keys_size : Z;
  first_leaf : Z;
  last_leaf : Z
}.

(** [IxPageHdr] and the two arrays behind it. *)
Record IxNode : Type := MkNode {
  next_free_page_no : Z;
  parent : Z;
  num_key : Z;
  is_leaf : bool;
  prev_leaf : Z;
  next_leaf : Z;
  keys : list key;
  rids : list Rid
}.

Record Iid : Set := MkIid { iid_page_no : Z; iid_slot_no : Z }.

#[export] Instance Iid_eq_dec : EqDecision Iid.
Proof. solve_decision. Defined.

Definition set_arrays (ks : list key) (rs : list Rid) (x : IxNode) : IxNode :=
  MkNode (next_free_page_no x) (parent x) (num_key x) (is_leaf x) (prev_leaf x) (next_leaf x) ks rs.
Definition SetSize (n : Z) (x : IxNode) : IxNode :=
  MkNode (next_free_page_no x) (parent x) n (is_leaf x) (prev_leaf x) (next_leaf x) (keys x) (rids x).
Definition SetNextLeaf (p : Z) (x : IxNode) : IxNode :=
  MkNode (next_free_page_no x) (parent x) (num_key x) (is_leaf x) (prev_leaf x) p (keys x) (rids x).
Definition SetPrevLeaf (p : Z) (x : IxNode) : IxNode :=
  MkNode (next_free_page_no x) (parent x) (num_key x) (is_leaf x) p (next_leaf x) (keys x) (rids x).
Definition SetParentPageNo (p : Z) (x : IxNode) : IxNode :=
  MkNode (next_free_page_no x) p (num_key x) (is_leaf x) (prev_leaf x) (next_leaf x) (keys x) (rids x).
Definition set_leaf (b : bool) (x : IxNode) : IxNode :=
  MkNode (next_free_page_no x) (parent x) (num_key x) b (prev_leaf x) (next_leaf x) (keys x) (rids x).

Definition GetMaxSize (fh : IxFileHdr) : Z := wrap32 (btree_order fh + 1).
Definition GetMinSize (fh : IxFileHdr) : Z := GetMaxSize fh `quot` 2.
Definition IsRootPage (x : IxNode) : bool := parent x =? INVALID_PAGE_ID.
Definition is_full (fh : IxFileHdr) (x : IxNode) : bool := num_key x =? GetMaxSize fh.

(** An array access. *)
Definition array_get {S A} (l : list A) (i : Z) : M S A :=
  if 0 <=? i then
    match l !! Z.to_nat i with Some a => ret a | None => crash_with OutOfBounds end
  else crash_with OutOfBounds.

Definition in_array {A} (l : list A) (i : Z) : bool := (0 <=? i) && (i <? Z.of_nat (length l)).

Definition get_key (i : Z) : M IxNode key := x ← get_st; array_get (keys x) i.
Definition get_rid (i : Z) : M IxNode Rid := x ← get_st; array_get (rids x) i.
Definition set_key (i : Z) (k : key) : M IxNode unit :=
  x ← get_st;
  if in_array (keys x) i then put_st (set_arrays (<[Z.to_nat i := k]> (keys x)) (rids x) x)
  else crash_with OutOfBounds.
Definition set_rid (i : Z) (r : Rid) : M IxNode unit :=
  x ← get_st;
  if in_array (rids x) i then put_st (set_arrays (keys x) (<[Z.to_nat i := r]> (rids x)) x)
  else crash_with OutOfBounds.
Definition GetSize : M IxNode Z := gets num_key.
Definition ValueAt (i : Z) : M IxNode Z := r ← get_rid i; ret (rid_page_no r).
(** [KeyAt(i)]: the key's bytes read as an [int]. *)
Definition KeyAt (i : Z) : M IxNode Z := k ← get_key i; ret (get_int 0 k).

Section Node.
Context (fh : IxFileHdr).

Definition compare (a b : key) : Z := ix_compare a b (col_type fh) (col_len fh).

(** The loop shared by the two searches; [op] tells them apart. The interval
    shrinks on every turn, so [right - left] turns are enough. *)
Fixpoint bound_loop (fuel : nat) (op : bool) (target : key) (left right : Z) : M IxNode Z :=
  match fuel with
  | O => crash_with OutOfFuel
  | S fuel' =>
      if left <? right then
        let mid := (left + right) `quot` 2 in
        k ← get_key mid;
        let compareRes := compare target k in
        if 0 <=? compareRes then
          if op && (compareRes =? 0) then bound_loop fuel' op target left mid
          else bound_loop fuel' op target (mid + 1) right
        else bound_loop fuel' op target left mid
      else ret left
  end.

Definition lower_bound (target : key) : M IxNode Z :=
  n ← GetSize; bound_loop (S (Z.to_nat n)) true target 0 n.
Definition upper_bound (target : key) : M IxNode Z :=
  n ← GetSize; bound_loop (S (Z.to_nat n)) false target 0 n.

Definition locateKeyIndex (k : key) : M IxNode Z :=
  index ← lower_bound k;
  n ← GetSize;
  if negb (index =? n) then
    k' ← get_key index;
    if compare k k' =? 0 then ret index else ret (-1)
  else ret (-1).

Definition LeafLookup (k : key) : M IxNode (option Rid) :=
  index ← locateKeyIndex k;
  if negb (index =? -1) then r ← get_rid index; ret (Some r) else ret None.

Definition InternalLookup (k : key) : M IxNode Z :=
  index ← upper_bound k;
  ValueAt (if index =? 0 then index else index - 1).

(** [memmove] the tail up by [n], then [memcpy] the new entries. *)
Definition shift_in {A} (pos resSize n : nat) (new l : list A) : list A :=
  splice pos new (splice (pos + n) (slice pos resSize l) l).

Definition insert_pairs (pos : Z) (ks : list key) (rs : list Rid) (n : Z) : M IxNode unit :=
  x ← get_st;
  let resSize := num_key x - pos in
  if 0 <=? resSize then
    if (0 <=? pos) && (0 <=? n)
       && (pos + n + resSize <=? Z.of_nat (length (keys x)))
       && (pos + n + resSize <=? Z.of_nat (length (rids x)))
    then
      let p := Z.to_nat pos in let r := Z.to_nat resSize in let m := Z.to_nat n in
      put_st (SetSize (num_key x + n)
                (set_arrays (shift_in p r m (take m ks) (keys x)) (shift_in p r m (take m rs) (rids x)) x))
    else crash_with OutOfBounds
  else ret tt.

Definition insert_pair (pos : Z) (k : key) (r : Rid) : M IxNode unit := insert_pairs pos [k] [r] 1.

Definition Insert (k : key) (value : Rid) : M IxNode Z :=
  index ← lower_bound k;
  k' ← get_key index;
  if compare k k' =? 0 then GetSize
  else insert_pair index k value ;; GetSize.

Fixpoint erase_loop (idx : list Z) : M IxNode unit :=
  match idx with
  | [] => ret tt
  | i :: idx' =>
      k ← get_key (i + 1); set_key i k ;;
      r ← get_rid (i + 1); set_rid i r ;;
      erase_loop idx'
  end.

Definition erase_pair (pos : Z) : M IxNode unit :=
  n ← GetSize;
  erase_loop ((λ i, pos + Z.of_nat i) <$> seq 0 (Z.to_nat (n - pos))) ;;
  modify (SetSize (n - 1)).

Definition Remove (k : key) : M IxNode Z :=
  remove_pos ← lower_bound k;
  k' ← get_key remove_pos;
  (if compare k k' =? 0 then erase_pair remove_pos else ret tt) ;;
  GetSize.

Fixpoint find_child_loop (fuel : nat) (child i : Z) : M IxNode Z :=
  match fuel with
  | O => ret i
  | S fuel' =>
      n ← GetSize;
      if i <? n then
        r ← get_rid i;
        if rid_page_no r =? child then ret i else find_child_loop fuel' child (i + 1)
      else ret i
  end.

(** [child] is [child->GetPageNo()]. *)
Definition find_child (child : Z) : M IxNode Z :=
  n ← GetSize;
  rid_idx ← find_child_loop (Z.to_nat n) child 0;
  assert_ (rid_idx <? n) ;;
  ret rid_idx.

Definition RemoveAndReturnOnlyChild : M IxNode Z :=
  n ← GetSize;
  assert_ (n =? 1) ;;
  child_page_no ← ValueAt 0;
  erase_pair 0 ;;
  n' ← GetSize;
  assert_ (n' =? 0) ;;
  ret child_page_no.

End Node.
