(* ===== verification/IxNodeSpec.v ===== *)
(** The node operations are those of a sorted association list.

    The binary searches are proved equal to a linear scan, [LeafLookup] to an
    association-list lookup, and [Insert] and [Remove] to insertion and deletion
    in it; the last two need the array slot just past the live entries not to
    hold the key, because they compare with it.  Two runs show what happens when
    it does. *)
From S2P Require Import Prelude Config IxKey IxNode.

Section NodeSpec.
Context (fh : IxFileHdr) (ok : key → Prop) {KO : KeyOrder (compare fh) ok}.
Implicit Types (x : IxNode) (k : key) (ks : list key).

Abbreviation cmp := (compare fh).

Definition live_keys x : list key := take (Z.to_nat (num_key x)) (keys x).
Definition live_rids x : list Rid := take (Z.to_nat (num_key x)) (rids x).
Definition entries x : list (key * Rid) := zip (live_keys x) (live_rids x).

Record node_ok x : Prop := {
  no_num : 0 ≤ num_key x ≤ Z.of_nat (length (keys x));
  no_rids : length (rids x) = length (keys x);
  no_keys : Forall ok (live_keys x);
  no_sorted : StronglySorted (λ a b, cmp a b < 0) (live_keys x)
}.

Lemma length_live x : node_ok x → length (live_keys x) = Z.to_nat (num_key x).
Proof. intros [H _ _ _]. unfold live_keys. rewrite length_take. lia. Qed.

Lemma length_live_rids x : node_ok x → length (live_rids x) = Z.to_nat (num_key x).
Proof. intros [H H2 _ _]. unfold live_rids. rewrite length_take. lia. Qed.

(** ** The searches *)

(** The linear scan: how many leading keys the search leaves on its left. *)
Definition goes_right (op : bool) (target k : key) : bool :=
  if op then 0 <? cmp target k else 0 <=? cmp target k.

Fixpoint scan_ref (op : bool) (target : key) ks : nat :=
  match ks with
  | [] => 0
  | k :: ks' => if goes_right op target k then S (scan_ref op target ks') else 0
  end.

Lemma scan_ref_le op target ks : (scan_ref op target ks ≤ length ks)%nat.
Proof. induction ks as [|k ks IH]; simpl; [lia|]. destruct (goes_right _ _ _); lia. Qed.

Lemma goes_right_mono op target a b :
  ok target → ok a → ok b → cmp a b < 0 → goes_right op target b = true → goes_right op target a = true.
Proof.
  intros Ht Ha Hb Hab. unfold goes_right. destruct op.
  - rewrite !Z.ltb_lt. intros H. apply ko_flip in H; [|done|done].
    apply ko_flip; [done|done|]. apply (cmp_le_lt_trans a b target); [done..|lia|done].
  - rewrite !Z.leb_le. intros H. apply cmp_le_flip in H; [|done|done].
    apply cmp_le_flip; [done|done|]. pose proof (cmp_lt_le_trans a b target Ha Hb Ht Hab H). lia.
Qed.

(** In a sorted list the scan splits the indices. *)
Lemma scan_ref_split op target ks i k :
  ok target → Forall ok ks → StronglySorted (λ a b, cmp a b < 0) ks → ks !! i = Some k →
  goes_right op target k = true ↔ (i < scan_ref op target ks)%nat.
Proof.
  intros Ht Hok Hs. revert i. induction Hs as [|a ks Hs IH Hlt]; intros i Hi; [done|].
  apply Forall_cons in Hok as [Ha Hok]. simpl. destruct i as [|i]; simpl in Hi.
  - injection Hi as ->. destruct (goes_right op target k); split; try lia; done.
  - destruct (goes_right op target a) eqn:Ea.
    + rewrite (IH Hok i Hi). lia.
    + split; [|lia]. intros Hk. exfalso.
      assert (k ∈ ks) as Hin by (by eapply list_elem_of_lookup_2).
      rewrite Forall_forall in Hlt, Hok. rewrite (goes_right_mono op target a k) in Ea; auto. done.
Qed.

Lemma get_key_run x i k : keys x !! Z.to_nat i = Some k → 0 ≤ i → get_key i x = (Ok k, x).
Proof.
  intros Hk Hi. unfold get_key, st_bind, get_st, array_get. rewrite (proj2 (Z.leb_le _ _) Hi), Hk. done.
Qed.

Lemma live_lookup x i : node_ok x → 0 ≤ i < num_key x → ∃ k, live_keys x !! Z.to_nat i = Some k ∧ keys x !! Z.to_nat i = Some k.
Proof.
  intros H Hi. destruct (lookup_lt_is_Some_2 (live_keys x) (Z.to_nat i)) as [k Hk]; [rewrite length_live by done; lia|].
  exists k. split; [done|]. unfold live_keys in Hk. by rewrite lookup_take_lt in Hk by lia.
Qed.

Lemma bound_loop_ok fuel op target x left right :
  node_ok x → ok target →
  0 ≤ left ≤ Z.of_nat (scan_ref op target (live_keys x)) →
  Z.of_nat (scan_ref op target (live_keys x)) ≤ right ≤ num_key x →
  (Z.to_nat (right - left) < fuel)%nat →
  bound_loop fh fuel op target left right x = (Ok (Z.of_nat (scan_ref op target (live_keys x))), x).
Proof.
  intros Hx Ht. set (m := scan_ref op target (live_keys x)). revert left right.
  induction fuel as [|fuel IH]; intros left right Hl Hr Hf; [lia|]. simpl.
  destruct (Z.ltb_spec left right) as [Hlt|Hge]; [|unfold st_ret; do 2 f_equal; lia].
  set (mid := (left + right) `quot` 2).
  assert (Hmid : left ≤ mid < right).
  { unfold mid. rewrite Z.quot_div_nonneg by lia. split; [apply Z.div_le_lower_bound|apply Z.div_lt_upper_bound]; lia. }
  destruct (live_lookup x mid Hx) as (k & Hk & Hk'); [lia|].
  mstep (get_key_run x mid k Hk' ltac:(lia)). cbv zeta.
  pose proof (scan_ref_split op target (live_keys x) _ k Ht (no_keys _ Hx) (no_sorted _ Hx) Hk) as Hsp. fold m in Hsp.
  unfold goes_right in Hsp.
  destruct (Z.leb_spec 0 (cmp target k)) as [Hc|Hc]; destruct op; simpl.
  - destruct (Z.eqb_spec (cmp target k) 0) as [Hz|Hz].
    + rewrite Hz in Hsp. simpl in Hsp. destruct (decide (Z.to_nat mid < m)%nat) as [Hd|Hd]; [by apply Hsp in Hd|].
      apply IH; lia.
    + assert (Hd : (Z.to_nat mid < m)%nat) by (apply Hsp, Z.ltb_lt; lia). apply IH; lia.
  - assert (Hd : (Z.to_nat mid < m)%nat) by (by apply Hsp). apply IH; lia.
  - destruct (decide (Z.to_nat mid < m)%nat) as [Hd|]; [apply Hsp, Z.ltb_lt in Hd; lia|]. apply IH; lia.
  - destruct (decide (Z.to_nat mid < m)%nat) as [Hd|]; [by apply Hsp in Hd|]. apply IH; lia.
Qed.

Lemma lower_bound_run x target :
  node_ok x → ok target →
  lower_bound fh target x = (Ok (Z.of_nat (scan_ref true target (live_keys x))), x).
Proof.
  intros Hx Ht. unfold lower_bound, GetSize. unfold st_bind, gets.
  pose proof (scan_ref_le true target (live_keys x)) as Hle. rewrite length_live in Hle by done.
  pose proof (no_num _ Hx). apply bound_loop_ok; try done; lia.
Qed.

Lemma upper_bound_run x target :
  node_ok x → ok target →
  upper_bound fh target x = (Ok (Z.of_nat (scan_ref false target (live_keys x))), x).
Proof.
  intros Hx Ht. unfold upper_bound, GetSize. unfold st_bind, gets.
  pose proof (scan_ref_le false target (live_keys x)) as Hle. rewrite length_live in Hle by done.
  pose proof (no_num _ Hx). apply bound_loop_ok; try done; lia.
Qed.


(** ** Lookup *)

Fixpoint assoc (k : key) (l : list (key * Rid)) : option Rid :=
  match l with
  | [] => None
  | (k', r) :: l' => if cmp k k' =? 0 then Some r else assoc k l'
  end.

Lemma assoc_app k l1 l2 :
  assoc k (l1 ++ l2) = match assoc k l1 with Some r => Some r | None => assoc k l2 end.
Proof. induction l1 as [|[k' r] l1 IH]; simpl; [done|]. by destruct (_ =? 0). Qed.

Lemma assoc_None k l : assoc k l = None ↔ ∀ k' r, (k', r) ∈ l → cmp k k' ≠ 0.
Proof.
  induction l as [|[k' r] l IH]; simpl.
  - split; [|done]. intros _ k' r. by intros ?%not_elem_of_nil.
  - destruct (Z.eqb_spec (cmp k k') 0) as [Hz|Hz].
    + split; [done|]. intros H. by destruct (H k' r); [left|].
    + rewrite IH. split.
      * intros H k2 r2 [[= -> ->]|Hin]%elem_of_cons; [done|by eapply H].
      * intros H k2 r2 Hin. apply (H k2 r2). by right.
Qed.

(** The entry the lower bound points at is the only one that can match. *)
Lemma assoc_at_bound x k :
  node_ok x → ok k →
  let i := scan_ref true k (live_keys x) in
  assoc k (entries x)
  = match live_keys x !! i with
    | Some k' => if cmp k k' =? 0 then live_rids x !! i else None
    | None => None
    end.
Proof.
  intros Hx Hk. unfold entries. pose proof (length_live x Hx) as HL. pose proof (length_live_rids x Hx) as HR.
  pose proof (no_keys _ Hx) as Hok. pose proof (no_sorted _ Hx) as Hs.
  generalize dependent (live_rids x). generalize dependent (live_keys x). generalize (Z.to_nat (num_key x)) as n.
  intros n ks HL Hok Hs rs HR. rewrite <- HL in HR. clear HL n. revert rs HR.
  induction Hs as [|a ks Hs IH Hlt]; intros [|r rs] HR; simpl in *; try done.
  apply Forall_cons in Hok as [Ha Hok]. unfold goes_right.
  destruct (Z.ltb_spec 0 (cmp k a)) as [H|H]; simpl.
  - rewrite (proj2 (Z.eqb_neq _ _)) by lia. apply IH; [done|lia].
  - destruct (Z.eqb_spec (cmp k a) 0) as [Hz|Hz]; [done|].
    apply assoc_None. intros k' r' Hin%elem_of_zip_l. rewrite Forall_forall in Hlt, Hok.
    specialize (Hlt _ Hin). assert (cmp k a < 0) as H1 by lia. assert (cmp a k' ≤ 0) as H2 by lia.
    pose proof (cmp_lt_le_trans k a k' Hk Ha (Hok _ Hin) H1 H2). lia.
Qed.

Lemma LeafLookup_run x k :
  node_ok x → ok k → LeafLookup fh k x = (Ok (assoc k (entries x)), x).
Proof.
  intros Hx Hk. unfold LeafLookup, locateKeyIndex. set (i := scan_ref true k (live_keys x)).
  pose proof (assoc_at_bound x k Hx Hk) as Ha. cbv zeta in Ha. fold i in Ha.
  pose proof (scan_ref_le true k (live_keys x)) as Hle. fold i in Hle. pose proof (no_num _ Hx) as Hn.
  rewrite (length_live x Hx) in Hle.
  assert (Hloc : (index ← lower_bound fh k; n ← GetSize;
                  if negb (index =? n) then k' ← get_key index; if compare fh k k' =? 0 then ret index else ret (-1)
                  else ret (-1)) x
                 = (Ok (match live_keys x !! i with Some k' => if cmp k k' =? 0 then Z.of_nat i else -1 | None => -1 end), x)).
  { mstep (lower_bound_run x k Hx Hk). fold i. unfold GetSize. unfold st_bind at 1, gets.
    destruct (Z.eqb_spec (Z.of_nat i) (num_key x)) as [He|He]; simpl.
    - rewrite (lookup_ge_None_2 (live_keys x)); [done|]. rewrite length_live by done. lia.
    - destruct (live_lookup x (Z.of_nat i) Hx) as (k' & Hk1 & Hk2); [lia|].
      mstep (get_key_run x (Z.of_nat i) k' Hk2 ltac:(lia)). rewrite Nat2Z.id in Hk1. rewrite Hk1.
      by destruct (_ =? 0). }
  mstep Hloc. rewrite Ha. destruct (live_keys x !! i) as [k'|] eqn:Ek; [|done].
  destruct (cmp k k' =? 0); [|done].
  rewrite (proj2 (Z.eqb_neq _ _)) by lia. simpl.
  destruct (lookup_lt_is_Some_2 (live_rids x) i) as [r Hr].
  { rewrite length_live_rids by done. apply lookup_lt_Some in Ek. by rewrite length_live in Ek. }
  assert (Hr' : rids x !! i = Some r).
  { unfold live_rids in Hr. apply lookup_lt_Some in Ek. rewrite length_live in Ek by done. by rewrite lookup_take_lt in Hr. }
  unfold get_rid, st_bind, get_st, array_get. rewrite (proj2 (Z.leb_le _ _)) by lia. rewrite Nat2Z.id, Hr'. by rewrite Hr.
Qed.

(** ** Array moves *)

Lemma shift_in_eq {A} (pos n m : nat) (new l : list A) :
  (pos ≤ n)%nat → (n + m ≤ length l)%nat → length new = m →
  shift_in pos (n - pos) m new l = take pos l ++ new ++ drop pos (take n l) ++ drop (n + m) l.
Proof.
  intros Hp Hn Hm. unfold shift_in, splice, slice. rewrite Hm.
  assert (Hs : take (n - pos) (drop pos l) = drop pos (take n l)).
  { rewrite <- (Nat.sub_add pos n) at 2 by lia. by rewrite Nat.add_comm, <- take_drop_commute. }
  rewrite Hs. assert (Hls : length (drop pos (take n l)) = (n - pos)%nat) by (rewrite length_drop, length_take; lia).
  rewrite Hls. replace (pos + m + (n - pos))%nat with (n + m)%nat by lia.
  rewrite take_app_le by (rewrite length_take; lia). rewrite take_take, Nat.min_l by lia.
  do 2 f_equal. rewrite drop_app_length'; [done|]. rewrite length_take. lia.
Qed.

Lemma take_shift_in {A} (pos n m : nat) (new l : list A) :
  (pos ≤ n)%nat → (n + m ≤ length l)%nat → length new = m →
  take (n + m) (shift_in pos (n - pos) m new l) = take pos (take n l) ++ new ++ drop pos (take n l).
Proof.
  intros Hp Hn Hm. rewrite shift_in_eq by done. rewrite take_take, Nat.min_l by lia.
  rewrite !app_assoc. rewrite take_app_length'; [by rewrite <- app_assoc|].
  rewrite !length_app, length_drop, !length_take. lia.
Qed.

Lemma length_shift_in {A} (pos n m : nat) (new l : list A) :
  (pos ≤ n)%nat → (n + m ≤ length l)%nat → length new = m → length (shift_in pos (n - pos) m new l) = length l.
Proof.
  intros Hp Hn Hm. rewrite shift_in_eq by done. rewrite !length_app, !length_drop, !length_take. lia.
Qed.

Lemma lookup_shift_in_tail {A} (pos n m : nat) (new l : list A) i :
  (pos ≤ n)%nat → (n + m ≤ length l)%nat → length new = m → (n + m ≤ i)%nat →
  shift_in pos (n - pos) m new l !! i = l !! i.
Proof.
  intros Hp Hn Hm Hi. rewrite shift_in_eq by done. rewrite !app_assoc.
  rewrite lookup_app_r; rewrite !length_app, length_drop, !length_take; [|lia]. rewrite lookup_drop. f_equal. lia.
Qed.

(** [insert_pairs] with room for the new entries. *)
Lemma insert_pairs_run x pos ks rs n :
  0 ≤ pos ≤ num_key x → 0 ≤ n → num_key x + n ≤ Z.of_nat (length (keys x)) → length (rids x) = length (keys x) →
  length ks = Z.to_nat n → length rs = Z.to_nat n →
  ∃ x', insert_pairs pos ks rs n x = (Ok tt, x') ∧
    num_key x' = num_key x + n ∧ length (keys x') = length (keys x) ∧ length (rids x') = length (rids x) ∧
    live_keys x' = take (Z.to_nat pos) (live_keys x) ++ ks ++ drop (Z.to_nat pos) (live_keys x) ∧
    live_rids x' = take (Z.to_nat pos) (live_rids x) ++ rs ++ drop (Z.to_nat pos) (live_rids x) ∧
    (is_leaf x' = is_leaf x ∧ parent x' = parent x ∧ prev_leaf x' = prev_leaf x ∧ next_leaf x' = next_leaf x) ∧
    ∀ i, (Z.to_nat (num_key x') ≤ i)%nat → keys x' !! i = keys x !! i.
Proof.
  intros Hp Hn Hroom Hrl Hks Hrs. unfold insert_pairs. rewrite st_get_bind. cbv zeta.
  rewrite (proj2 (Z.leb_le 0 (num_key x - pos))) by lia.
  replace (pos + n + (num_key x - pos)) with (num_key x + n) by lia. rewrite Hrl.
  rewrite (proj2 (Z.leb_le 0 pos)), (proj2 (Z.leb_le 0 n)), (proj2 (Z.leb_le _ _)) by lia. simpl.
  rewrite !take_ge by lia. eexists. split; [done|]. simpl.
  replace (Z.to_nat (num_key x - pos)) with (Z.to_nat (num_key x) - Z.to_nat pos)%nat by lia.
  unfold live_keys, live_rids. simpl.
  replace (Z.to_nat (num_key x + n)) with (Z.to_nat (num_key x) + Z.to_nat n)%nat by lia.
  rewrite !length_shift_in, !take_shift_in by lia. split_and!; try done.
  intros i Hi. apply lookup_shift_in_tail; lia.
Qed.

Lemma StronglySorted_insert {A} (P : A → A → Prop) l1 l2 a :
  StronglySorted P (l1 ++ l2) → Forall (λ b, P b a) l1 → Forall (P a) l2 → StronglySorted P (l1 ++ a :: l2).
Proof.
  induction l1 as [|b l1 IH]; simpl; intros Hs H1 H2; [by constructor|].
  inversion Hs as [|? ? Hs' Hf]; subst. apply Forall_cons in H1 as [Hb H1].
  constructor; [by apply IH|]. apply Forall_app in Hf as [? ?]. apply Forall_app. split; [done|]. by constructor.
Qed.

Lemma zip_insert {A B} (i : nat) (l : list A) (m : list B) a b :
  length l = length m →
  zip (take i l ++ a :: drop i l) (take i m ++ b :: drop i m) = take i (zip l m) ++ (a, b) :: drop i (zip l m).
Proof.
  revert i m. induction l as [|x l IH]; intros [|i] [|y m] H; simpl in *; try done. f_equal. apply IH. lia.
Qed.

(** Equal keys find the same entry. *)
Lemma assoc_cong k k' l : ok k → ok k' → Forall (λ e, ok e.1) l → cmp k k' = 0 → assoc k l = assoc k' l.
Proof.
  intros Hk Hk' Hl Hz. induction l as [|[a r] l IH]; simpl; [done|]. apply Forall_cons in Hl as [Ha Hl]. simpl in Ha.
  rewrite (IH Hl). pose proof (cmp_eq_sym _ _ Hk Hk' Hz) as Hz'.
  destruct (Z.eqb_spec (cmp k a) 0) as [H|H], (Z.eqb_spec (cmp k' a) 0) as [H'|H']; try done; exfalso.
  - apply H'. by apply (cmp_eq_trans k' k a).
  - apply H. by apply (cmp_eq_trans k k' a).
Qed.

(** Inserting a key that is not there into an association list. *)
Lemma assoc_insert k r l1 l2 k' :
  ok k → ok k' → Forall (λ e, ok e.1) (l1 ++ l2) → assoc k (l1 ++ l2) = None →
  assoc k' (l1 ++ (k, r) :: l2) = if cmp k' k =? 0 then Some r else assoc k' (l1 ++ l2).
Proof.
  intros Hk Hk' Hok Hn. apply Forall_app in Hok as [Hok1 _]. rewrite !assoc_app in *. simpl.
  destruct (Z.eqb_spec (cmp k' k) 0) as [Hz|Hz]; [|done].
  rewrite (assoc_cong k' k l1) by done. by destruct (assoc k l1).
Qed.

(** ** Insert *)

(** The slot just past the live entries does not hold [k]. *)
Definition slot_clear x k : Prop := ∀ s, keys x !! Z.to_nat (num_key x) = Some s → cmp k s ≠ 0.

Lemma entries_ok x : node_ok x → Forall (λ e, ok e.1) (entries x).
Proof.
  intros Hx. apply Forall_forall. intros [a r] Hin%elem_of_zip_l. simpl.
  pose proof (no_keys _ Hx) as Hf. rewrite Forall_forall in Hf. auto.
Qed.

Lemma lookup_entries x i k r : entries x !! i = Some (k, r) ↔ live_keys x !! i = Some k ∧ live_rids x !! i = Some r.
Proof. unfold entries. rewrite lookup_zip_Some. done. Qed.

(** What the code reads at the lower bound. *)
Lemma key_at_bound x k :
  node_ok x → ok k → num_key x < Z.of_nat (length (keys x)) → slot_clear x k →
  let i := scan_ref true k (live_keys x) in
  ∃ k', keys x !! i = Some k' ∧
    (cmp k k' = 0 ↔ is_Some (assoc k (entries x))) ∧ (cmp k k' = 0 → (i < Z.to_nat (num_key x))%nat).
Proof.
  intros Hx Hk Hroom Hcl i. pose proof (assoc_at_bound x k Hx Hk) as Ha. cbv zeta in Ha. fold i in Ha.
  pose proof (scan_ref_le true k (live_keys x)) as Hle. fold i in Hle. rewrite length_live in Hle by done.
  pose proof (no_num _ Hx) as Hn.
  destruct (decide (i = Z.to_nat (num_key x))) as [He|He].
  - destruct (lookup_lt_is_Some_2 (keys x) i) as [k' Hk']; [lia|]. exists k'. split; [done|].
    rewrite He in Hk'. specialize (Hcl k' Hk'). split; [|done]. split; [done|].
    rewrite Ha, (lookup_ge_None_2 (live_keys x)); [by intros []|]. rewrite length_live by done. lia.
  - destruct (live_lookup x (Z.of_nat i) Hx) as (k' & Hk1 & Hk2); [lia|]. rewrite Nat2Z.id in Hk1, Hk2.
    exists k'. split; [done|]. split; [|lia]. rewrite Ha, Hk1.
    destruct (Z.eqb_spec (cmp k k') 0) as [Hz|Hz]; [|split; [done|by intros []]].
    split; [|done]. intros _. apply lookup_lt_is_Some_2. rewrite length_live_rids by done. lia.
Qed.

Lemma Insert_ok x k r :
  node_ok x → ok k → num_key x < Z.of_nat (length (keys x)) → slot_clear x k →
  match assoc k (entries x) with
  | Some _ => Insert fh k r x = (Ok (num_key x), x)
  | None => ∃ x', Insert fh k r x = (Ok (num_key x + 1), x') ∧ node_ok x' ∧
      num_key x' = num_key x + 1 ∧ length (keys x') = length (keys x) ∧
      entries x' = take (scan_ref true k (live_keys x)) (entries x)
                     ++ (k, r) :: drop (scan_ref true k (live_keys x)) (entries x) ∧
      live_keys x' = take (scan_ref true k (live_keys x)) (live_keys x)
                       ++ k :: drop (scan_ref true k (live_keys x)) (live_keys x) ∧
      live_rids x' = take (scan_ref true k (live_keys x)) (live_rids x)
                       ++ r :: drop (scan_ref true k (live_keys x)) (live_rids x) ∧
      (is_leaf x' = is_leaf x ∧ parent x' = parent x ∧ prev_leaf x' = prev_leaf x ∧ next_leaf x' = next_leaf x) ∧
      ∀ j, (Z.to_nat (num_key x') ≤ j)%nat → keys x' !! j = keys x !! j
  end.
Proof.
  intros Hx Hk Hroom Hcl. set (i := scan_ref true k (live_keys x)).
  destruct (key_at_bound x k Hx Hk Hroom Hcl) as (k' & Hk' & Hiff & _). fold i in Hk', Hiff.
  pose proof (scan_ref_le true k (live_keys x)) as Hle. fold i in Hle. rewrite length_live in Hle by done.
  pose proof (no_num _ Hx) as Hn.
  unfold Insert. mstep (lower_bound_run x k Hx Hk). fold i.
  assert (Hg : get_key (Z.of_nat i) x = (Ok k', x)) by (apply get_key_run; [by rewrite Nat2Z.id|lia]).
  mstep Hg. destruct (Z.eqb_spec (cmp k k') 0) as [Hz|Hz].
  - apply Hiff in Hz as [r' ->]. done.
  - destruct (assoc k (entries x)) as [r'|] eqn:Ea; [destruct Hz; by apply Hiff|].
    destruct (insert_pairs_run x (Z.of_nat i) [k] [r] 1) as (x' & Hins & Hnum & Hlk & Hlr & Hks & Hrs & Hrest);
      try done; try lia; [apply Hx|]. rewrite Nat2Z.id in Hks, Hrs.
    unfold insert_pair. mstep Hins. exists x'. unfold GetSize, gets. split; [by rewrite Hnum|].
    assert (Habs : ∀ a, a ∈ live_keys x → cmp k a ≠ 0).
    { intros a Hin. apply list_elem_of_lookup in Hin as [j Hj].
      destruct (lookup_lt_is_Some_2 (live_rids x) j) as [ra Hra].
      { rewrite length_live_rids by done. rewrite <- (length_live x) by done. by eapply lookup_lt_Some. }
      apply (proj1 (assoc_None k (entries x)) Ea a ra). apply list_elem_of_lookup. exists j. by apply lookup_entries. }
    assert (Hsplit : ∀ j a, live_keys x !! j = Some a → 0 < cmp k a ↔ (j < i)%nat).
    { intros j a Hj. rewrite <- Z.ltb_lt. apply (scan_ref_split true k); try done; apply Hx. }
    pose proof (no_keys _ Hx) as Hok. rewrite Forall_forall in Hok.
    split; [|split; [done|split; [done|split; [|split; [by rewrite Hks|split; [by rewrite Hrs|done]]]]]].
    + split; [lia|rewrite Hlr, Hlk; apply Hx| |].
      * rewrite Hks. apply Forall_forall. intros a. rewrite !elem_of_app, elem_of_cons.
        intros [Hin|[[->|Hin%not_elem_of_nil]|Hin]]; [|done|done|].
        -- apply Hok. rewrite <- (take_drop i (live_keys x)). apply elem_of_app. by left.
        -- apply Hok. rewrite <- (take_drop i (live_keys x)). apply elem_of_app. by right.
      * rewrite Hks. simpl. apply StronglySorted_insert.
        -- rewrite take_drop. apply Hx.
        -- apply Forall_forall. intros a Hin. apply list_elem_of_lookup in Hin as [j Hj].
           apply lookup_take_Some in Hj as [Hj Hji]. apply ko_flip; [|done|].
           ++ apply Hok. by eapply list_elem_of_lookup_2.
           ++ by apply (Hsplit j).
        -- apply Forall_forall. intros a Hin. apply list_elem_of_lookup in Hin as [j Hj]. rewrite lookup_drop in Hj.
           pose proof (Habs a ltac:(by eapply list_elem_of_lookup_2)).
           destruct (decide (0 < cmp k a)) as [Hp|Hp]; [|lia]. apply (Hsplit _ _ Hj) in Hp. lia.
    + unfold entries at 1. rewrite Hks, Hrs. simpl. apply zip_insert.
      by rewrite length_live, length_live_rids.
Qed.

(** [C21] [Insert] is insertion in a sorted map: on a node with room whose slot
    past the end does not hold the key, it leaves the node alone and returns the
    unchanged size when the key is present, and otherwise adds exactly the new
    binding, keeps the keys sorted and returns the size plus one. *)
Theorem node_Insert_correct x k r :
  node_ok x → ok k → num_key x < Z.of_nat (length (keys x)) → slot_clear x k →
  ∃ x' n, Insert fh k r x = (Ok n, x') ∧ node_ok x' ∧ n = num_key x' ∧
    n = (if bool_decide (is_Some (assoc k (entries x))) then num_key x else num_key x + 1) ∧
    ∀ k', ok k' →
      assoc k' (entries x')
      = match assoc k' (entries x) with
        | Some r' => Some r'
        | None => if cmp k' k =? 0 then Some r else None
        end.
Proof.
  intros Hx Hk Hroom Hcl. pose proof (Insert_ok x k r Hx Hk Hroom Hcl) as H.
  destruct (assoc k (entries x)) as [r0|] eqn:Ea.
  - exists x, (num_key x). split; [done|]. split; [done|]. split; [done|]. split; [done|].
    intros k' Hk'. destruct (Z.eqb_spec (cmp k' k) 0) as [Hz|Hz]; [|by destruct (assoc k' (entries x))].
    by rewrite (assoc_cong k' k), Ea by (done || by apply entries_ok).
  - destruct H as (x' & Hi & Hok' & Hnum & _ & He & _). exists x', (num_key x + 1).
    split; [done|]. split; [done|]. split; [done|]. split; [done|].
    intros k' Hk'. rewrite He. rewrite assoc_insert; try done; rewrite ?take_drop; [|by apply entries_ok|done].
    destruct (Z.eqb_spec (cmp k' k) 0) as [Hz|Hz]; [|by destruct (assoc k' (entries x))].
    by rewrite (assoc_cong k' k), Ea by (done || by apply entries_ok).
Qed.

(** ** Remove *)

(** The array after moving [m] entries down by one, from [pos + 1] on. *)
Definition shift_out {A} (pos m : nat) (l : list A) : list A :=
  take pos l ++ slice (S pos) m l ++ drop (pos + m) l.

Lemma shift_out_step {A} (pos m : nat) (l : list A) a :
  l !! S pos = Some a → shift_out (S pos) m (<[pos := a]> l) = shift_out pos (S m) l.
Proof.
  intros Ha. assert (Hlt : (S pos < length l)%nat) by (by eapply lookup_lt_Some). unfold shift_out, slice.
  rewrite !drop_insert_lt by lia.
  assert (take (S pos) (<[pos := a]> l) = take pos l ++ [a]) as ->.
  { rewrite (take_S_r _ pos a); [by rewrite take_insert_ge by lia|]. apply list_lookup_insert_eq. lia. }
  rewrite (drop_S l a (S pos) Ha). simpl. rewrite <- app_assoc. simpl. repeat f_equal. lia.
Qed.

Lemma erase_loop_run (m : nat) x (pos : nat) :
  (pos + m < length (keys x))%nat → length (rids x) = length (keys x) →
  erase_loop ((λ i, Z.of_nat pos + Z.of_nat i) <$> seq 0 m) x
  = (Ok tt, set_arrays (shift_out pos m (keys x)) (shift_out pos m (rids x)) x).
Proof.
  revert x pos. induction m as [|m IH]; intros x pos Hlt Hrl.
  - simpl. unfold shift_out, slice. simpl. rewrite Nat.add_0_r, !take_drop. by destruct x.
  - simpl. rewrite Z.add_0_r.
    destruct (lookup_lt_is_Some_2 (keys x) (S pos)) as [k Hk]; [lia|].
    destruct (lookup_lt_is_Some_2 (rids x) (S pos)) as [r Hr]; [lia|].
    assert (Hg : get_key (Z.of_nat pos + 1) x = (Ok k, x)).
    { apply get_key_run; [|lia]. by replace (Z.to_nat (Z.of_nat pos + 1)) with (S pos) by lia. }
    mstep Hg. set (x1 := set_arrays (<[pos := k]> (keys x)) (rids x) x).
    assert (Hs : set_key (Z.of_nat pos) k x = (Ok tt, x1)).
    { unfold set_key. rewrite st_get_bind. unfold in_array. rewrite (proj2 (Z.leb_le _ _)), (proj2 (Z.ltb_lt _ _)) by lia.
      simpl. unfold put_st, x1. by rewrite Nat2Z.id. }
    mstep Hs. assert (Hg2 : get_rid (Z.of_nat pos + 1) x1 = (Ok r, x1)).
    { unfold get_rid, array_get. rewrite st_get_bind. rewrite (proj2 (Z.leb_le _ _)) by lia.
      replace (Z.to_nat (Z.of_nat pos + 1)) with (S pos) by lia. simpl. by rewrite Hr. }
    mstep Hg2. set (x2 := set_arrays (<[pos := k]> (keys x)) (<[pos := r]> (rids x)) x).
    assert (Hs2 : set_rid (Z.of_nat pos) r x1 = (Ok tt, x2)).
    { unfold set_rid. rewrite st_get_bind. unfold in_array. simpl.
      rewrite (proj2 (Z.leb_le _ _)), (proj2 (Z.ltb_lt _ _)) by lia. simpl. unfold put_st, x2. by rewrite Nat2Z.id. }
    mstep Hs2. rewrite <- seq_shift, <- list_fmap_compose.
    rewrite (list_fmap_ext _ (λ i, Z.of_nat (S pos) + Z.of_nat i)) by (intros; simpl; lia).
    rewrite (IH x2 (S pos)) by (simpl; rewrite !length_insert; lia).
    unfold x2. simpl. by rewrite !shift_out_step.
Qed.

Lemma take_shift_out {A} (pos n : nat) (l : list A) :
  (pos < n < length l)%nat → take (n - 1) (shift_out pos (n - pos) l) = take pos (take n l) ++ drop (S pos) (take n l).
Proof.
  intros H. unfold shift_out, slice. rewrite take_take, Nat.min_l by lia.
  rewrite take_app_ge by (rewrite length_take; lia). rewrite length_take. f_equal.
  rewrite take_app_le by (rewrite length_take, length_drop; lia). rewrite take_take.
  replace (Nat.min _ _) with (n - S pos)%nat by lia.
  rewrite <- (Nat.sub_add (S pos) n) at 2 by lia. by rewrite Nat.add_comm, <- take_drop_commute.
Qed.

Lemma length_shift_out {A} (pos n : nat) (l : list A) :
  (pos < n < length l)%nat → length (shift_out pos (n - pos) l) = length l.
Proof.
  intros H. unfold shift_out, slice. rewrite !length_app, !length_take, !length_drop. lia.
Qed.

(** [erase_pair] at a live position of a node that is not full to the brim. *)
Lemma erase_pair_run x pos :
  0 ≤ pos < num_key x → num_key x < Z.of_nat (length (keys x)) → length (rids x) = length (keys x) →
  ∃ x', erase_pair pos x = (Ok tt, x') ∧ num_key x' = num_key x - 1 ∧
    length (keys x') = length (keys x) ∧ length (rids x') = length (rids x) ∧
    live_keys x' = take (Z.to_nat pos) (live_keys x) ++ drop (S (Z.to_nat pos)) (live_keys x) ∧
    live_rids x' = take (Z.to_nat pos) (live_rids x) ++ drop (S (Z.to_nat pos)) (live_rids x) ∧
    is_leaf x' = is_leaf x ∧ parent x' = parent x ∧ prev_leaf x' = prev_leaf x ∧ next_leaf x' = next_leaf x.
Proof.
  intros Hp Hn Hrl. unfold erase_pair, GetSize. unfold st_bind at 1, gets.
  assert (He : erase_loop ((λ i, pos + Z.of_nat i) <$> seq 0 (Z.to_nat (num_key x - pos))) x
    = (Ok tt, set_arrays (shift_out (Z.to_nat pos) (Z.to_nat (num_key x) - Z.to_nat pos) (keys x))
                (shift_out (Z.to_nat pos) (Z.to_nat (num_key x) - Z.to_nat pos) (rids x)) x)).
  { rewrite <- (erase_loop_run (Z.to_nat (num_key x) - Z.to_nat pos) x (Z.to_nat pos)) by lia.
    f_equal. replace (Z.to_nat (num_key x - pos)) with (Z.to_nat (num_key x) - Z.to_nat pos)%nat by lia.
    apply list_fmap_ext. intros; lia. }
  mstep He. eexists. split; [done|]. simpl. unfold live_keys, live_rids. simpl.
  replace (Z.to_nat (num_key x - 1)) with (Z.to_nat (num_key x) - 1)%nat by lia.
  rewrite !length_shift_out, !take_shift_out by lia. done.
Qed.

Lemma StronglySorted_delete {A} (P : A → A → Prop) l i :
  StronglySorted P l → StronglySorted P (take i l ++ drop (S i) l).
Proof.
  intros Hs. revert i. induction Hs as [|a l Hs IH Hf]; intros [|i]; simpl; [constructor|constructor|done|].
  constructor; [apply IH|].
  rewrite Forall_forall in *. intros b [Hb|Hb]%elem_of_app; apply Hf.
  - rewrite <- (take_drop i l). apply elem_of_app. by left.
  - rewrite <- (take_drop (S i) l). apply elem_of_app. by right.
Qed.

Lemma zip_delete {A B} (i : nat) (l : list A) (m : list B) :
  length l = length m →
  zip (take i l ++ drop (S i) l) (take i m ++ drop (S i) m) = take i (zip l m) ++ drop (S i) (zip l m).
Proof.
  revert i m. induction l as [|x l IH]; intros [|i] [|y m] H; simpl in *; try done. f_equal. apply IH. lia.
Qed.

(** A key of a sorted node occurs once. *)
Lemma key_elsewhere x i k0 a :
  node_ok x → live_keys x !! i = Some k0 →
  a ∈ take i (live_keys x) ∨ a ∈ drop (S i) (live_keys x) → cmp k0 a ≠ 0.
Proof.
  intros Hx Hk1 Ha. pose proof (no_sorted _ Hx) as Hs. pose proof (no_keys _ Hx) as Hok. rewrite Forall_forall in Hok.
  assert (ok k0 ∧ ok a) as [Ho1 Ho2].
  { split; apply Hok; rewrite <- (take_drop_middle _ _ _ Hk1), elem_of_app, elem_of_cons; tauto. }
  rewrite <- (take_drop_middle _ _ _ Hk1) in Hs. apply StronglySorted_app in Hs as (H1 & _ & [_ H2]%StronglySorted_inv).
  destruct Ha as [Ha|Ha].
  - pose proof (H1 a k0 Ha ltac:(left)) as Hlt. apply ko_flip in Hlt; [lia|done|done].
  - rewrite Forall_forall in H2. specialize (H2 _ Ha). simpl in H2. lia.
Qed.

(** The bindings without the one at place [i]. *)
Lemma assoc_delete x i k k0 r k' :
  node_ok x → entries x !! i = Some (k0, r) → ok k → ok k' → cmp k k0 = 0 →
  assoc k' (take i (entries x) ++ drop (S i) (entries x)) = if cmp k' k =? 0 then None else assoc k' (entries x).
Proof.
  intros Hx Hent Hk Hk' Hz. pose proof (entries_ok x Hx) as Heok.
  assert (Hdok : Forall (λ e, ok e.1) (take i (entries x) ++ drop (S i) (entries x))).
  { apply Forall_app; split; [by apply Forall_take|by apply Forall_drop]. }
  assert (Hok0 : ok k0). { rewrite Forall_forall in Heok. apply (Heok (k0, r)). by eapply list_elem_of_lookup_2. }
  assert (Hk0n : assoc k0 (take i (entries x) ++ drop (S i) (entries x)) = None).
  { apply assoc_None. intros a ra Hin. apply elem_of_app in Hin.
    unfold entries in Hin. rewrite zip_with_take, zip_with_drop in Hin. apply lookup_entries in Hent as [Hk1 _].
    apply (key_elsewhere x i k0 a Hx Hk1). destruct Hin as [Hin%elem_of_zip_l|Hin%elem_of_zip_l]; auto. }
  assert (Hsplit : entries x = take i (entries x) ++ (k0, r) :: drop (S i) (entries x)) by (by rewrite take_drop_middle).
  rewrite Hsplit at 3. rewrite assoc_insert by done. destruct (Z.eqb_spec (cmp k' k) 0) as [Hz'|Hz'].
  - rewrite (assoc_cong k' k0); try done. by apply (cmp_eq_trans k' k k0).
  - rewrite (proj2 (Z.eqb_neq _ _)); [done|]. intros H0. apply Hz'.
    apply (cmp_eq_trans k' k0 k); try done. by apply cmp_eq_sym.
Qed.

(** [Remove] of a key the node holds, whatever is left in the slots past the end. *)
Lemma Remove_hit x k r :
  node_ok x → ok k → num_key x < Z.of_nat (length (keys x)) → assoc k (entries x) = Some r →
  ∃ x', Remove fh k x = (Ok (num_key x - 1), x') ∧ node_ok x' ∧ num_key x' = num_key x - 1 ∧
    length (keys x') = length (keys x) ∧ (∀ c, c ∈ live_keys x' → c ∈ live_keys x) ∧
    (∀ k', ok k' → assoc k' (entries x') = if cmp k' k =? 0 then None else assoc k' (entries x)) ∧
    is_leaf x' = is_leaf x ∧ parent x' = parent x ∧ prev_leaf x' = prev_leaf x ∧ next_leaf x' = next_leaf x.
Proof.
  intros Hx Hk Hroom Hr. set (i := scan_ref true k (live_keys x)).
  pose proof (assoc_at_bound x k Hx Hk) as Ha. cbv zeta in Ha. fold i in Ha. rewrite Hr in Ha.
  destruct (live_keys x !! i) as [k0|] eqn:Hk1; [|done]. destruct (Z.eqb_spec (cmp k k0) 0) as [Hz|]; [|done].
  pose proof (no_num _ Hx) as Hn. pose proof (lookup_lt_Some _ _ _ Hk1) as Hlt. rewrite length_live in Hlt by done.
  assert (Hk0 : keys x !! i = Some k0) by (unfold live_keys in Hk1; by rewrite lookup_take_lt in Hk1).
  unfold Remove. mstep (lower_bound_run x k Hx Hk). fold i.
  assert (Hg : get_key (Z.of_nat i) x = (Ok k0, x)) by (apply get_key_run; [by rewrite Nat2Z.id|lia]).
  mstep Hg. rewrite Hz, Z.eqb_refl.
  destruct (erase_pair_run x (Z.of_nat i)) as (x' & He & Hnum & Hlk & Hlr & Hks & Hrs & Hrest); [lia|done|apply Hx|].
  rewrite Nat2Z.id in Hks, Hrs. mstep He. unfold GetSize, gets. exists x'.
  assert (Hent : entries x !! i = Some (k0, r)) by (by apply lookup_entries).
  assert (Hdel : entries x' = take i (entries x) ++ drop (S i) (entries x)).
  { unfold entries at 1. rewrite Hks, Hrs. apply zip_delete. by rewrite length_live, length_live_rids. }
  split; [by rewrite Hnum|]. split_and!; try apply Hrest; try done.
  - split; [lia|rewrite Hlr, Hlk; apply Hx| |].
    + rewrite Hks. apply Forall_app. pose proof (no_keys _ Hx). split; [by apply Forall_take|by apply Forall_drop].
    + rewrite Hks. apply StronglySorted_delete, Hx.
  - intros c Hc. rewrite Hks in Hc. rewrite <- (take_drop_middle _ _ _ Hk1), elem_of_app, elem_of_cons.
    apply elem_of_app in Hc. tauto.
  - intros k' Hk'. rewrite Hdel. by apply (assoc_delete x i k k0 r).
Qed.

(** [Remove] of a key the node does not hold. *)
Lemma Remove_miss x k :
  node_ok x → ok k → num_key x < Z.of_nat (length (keys x)) → slot_clear x k → assoc k (entries x) = None →
  Remove fh k x = (Ok (num_key x), x).
Proof.
  intros Hx Hk Hroom Hcl Ha. destruct (key_at_bound x k Hx Hk Hroom Hcl) as (k0 & Hk0 & Hiff & _).
  unfold Remove. mstep (lower_bound_run x k Hx Hk). mstep (get_key_run x (Z.of_nat _) k0 ltac:(by rewrite Nat2Z.id) ltac:(lia)).
  destruct (Z.eqb_spec (cmp k k0) 0) as [Hz|Hz]; [|done]. apply Hiff in Hz as [? Hz]. congruence.
Qed.

(** [Remove] is deletion from a sorted map: on a node that is not full to
    the brim and whose slot past the end does not hold the key, it removes the
    binding of the key if there is one, leaves every other binding and the order
    alone, and returns the number of entries left. *)
Theorem node_Remove_correct x k :
  node_ok x → ok k → num_key x < Z.of_nat (length (keys x)) → slot_clear x k →
  ∃ x' n, Remove fh k x = (Ok n, x') ∧ node_ok x' ∧ n = num_key x' ∧
    n = (if bool_decide (is_Some (assoc k (entries x))) then num_key x - 1 else num_key x) ∧
    ∀ k', ok k' → assoc k' (entries x') = if cmp k' k =? 0 then None else assoc k' (entries x).
Proof.
  intros Hx Hk Hroom Hcl. destruct (assoc k (entries x)) as [r|] eqn:Ha.
  - destruct (Remove_hit x k r Hx Hk Hroom Ha) as (x' & Hrun & Hx' & Hnum & _ & _ & Has & _).
    exists x', (num_key x - 1). by split_and!.
  - exists x, (num_key x). rewrite (Remove_miss x k Hx Hk Hroom Hcl Ha). split_and!; try done.
    intros k' Hk'. destruct (Z.eqb_spec (cmp k' k) 0) as [Hz'|Hz']; [|done].
    by rewrite (assoc_cong k' k), Ha by (done || by apply entries_ok).
Qed.

End NodeSpec.

(** ** Nodes of four slots with integer keys *)
Module NodeRuns.

Definition ik (z : Z) : key := le32 z.
Definition rid_of (z : Z) : Rid := MkRid z z.
Definition hdr4 : IxFileHdr := MkIxFileHdr (-1) 3 2 TYPE_INT 4 3 16 2 2.
Definition int_ok (k : key) : Prop := True.

(** Entries 10 and 20 are live, the other two slots are leftovers. *)
Definition node2 : IxNode :=
  MkNode (-1) (-1) 2 true 1 1 [ik 10; ik 20; ik 30; ik 40] [rid_of 10; rid_of 20; rid_of 30; rid_of 40].

#[local] Instance hdr4_order : KeyOrder (compare hdr4) int_ok := int_key_order 4.

Lemma node2_ok : node_ok hdr4 int_ok node2.
Proof.
  split; [by vm_compute|done|by repeat constructor|].
  repeat (constructor; [|repeat (constructor; [by vm_compute|]); constructor]). constructor.
Qed.

Lemma clear_15 : slot_clear hdr4 node2 (ik 15).
Proof. intros s [= <-]. by vm_compute. Qed.


Lemma node_Insert_correct_witness :
  ∃ x' n, Insert hdr4 (ik 15) (rid_of 15) node2 = (Ok n, x') ∧ node_ok hdr4 int_ok x' ∧ n = num_key x'.
Proof.
  destruct (node_Insert_correct hdr4 int_ok node2 (ik 15) (rid_of 15) node2_ok I ltac:(by vm_compute) clear_15)
    as (x' & n & H1 & H2 & H3 & _). by exists x', n.
Defined.

Lemma node_Remove_correct_witness :
  ∃ x' n, Remove hdr4 (ik 15) node2 = (Ok n, x') ∧ node_ok hdr4 int_ok x' ∧ n = num_key x'.
Proof.
  destruct (node_Remove_correct hdr4 int_ok node2 (ik 15) node2_ok I ltac:(by vm_compute) clear_15)
    as (x' & n & H1 & H2 & H3 & _). by exists x', n.
Defined.

(** A leftover key past the end: [Insert] takes it for a duplicate and refuses
    the key; [Remove] of the absent key erases the last live entry. *)
Lemma leftover_key_refused :
  Insert hdr4 (ik 30) (rid_of 30) node2 = (Ok 2, node2) ∧ assoc hdr4 (ik 30) (entries node2) = None.
Proof. by vm_compute. Qed.

Lemma leftover_key_removes_last :
  let x := (Remove hdr4 (ik 30) node2).2 in
  assoc hdr4 (ik 20) (entries node2) = Some (rid_of 20) ∧ assoc hdr4 (ik 20) (entries x) = None.
Proof. by vm_compute. Qed.

(** In a page that was never written the leftover keys are zero. *)
Definition empty_node : IxNode :=
  MkNode (-1) (-1) 0 true 1 1 (replicate 4 (ik 0)) (replicate 4 (MkRid 0 0)).

Lemma zero_key_refused : Insert hdr4 (ik 0) (rid_of 7) empty_node = (Ok 0, empty_node).
Proof. by vm_compute. Qed.

End NodeRuns.
