(* ===== verification/IxTree.v ===== *)
(** The B+ tree: [index/ix_index_handle.*] and [index/ix_scan.*].

    The handle's pages are kept as a store from page number to node: a
    [IxNodeHandle *] is the number of the page it points into, so two handles of
    one page share its contents.  [FetchNode] and [UnpinPage] count pins and keep
    the dirty flag as the pool does.  The pool itself is used through its
    specification: a page that exists is found, [FetchPage] of a page the file
    does not hold throws, and any call may fail instead, because no frame is left
    or because the disk fails ([PoolFaults], a parameter of the model; the
    instance [no_faults] is the pool that never does).  Pin counts and the page
    counter are unbounded: a count grows by the few fetches of one call, and the
    disk manager's offsets end at page 2^19.  [assert] aborts when its condition is
    false; a call made inside an [assert] is performed.  The loops and the mutual recursions take a
    [fuel] argument, which the theorems bound by the height of the tree. *)
From S2P Require Import Prelude Config IxKey IxNode.

Record IxState : Type := MkIx {
  file_hdr : IxFileHdr;
  nodes : gmap Z IxNode;
  pins : gmap Z (Z * bool);          (* pin count, and reported dirty *)
  next_page : Z                      (* the disk manager's counter *)
}.

Definition set_file_hdr (h : IxFileHdr) (s : IxState) : IxState := MkIx h (nodes s) (pins s) (next_page s).
Definition set_nodes (m : gmap Z IxNode) (s : IxState) : IxState := MkIx (file_hdr s) m (pins s) (next_page s).
Definition set_pinmap (m : gmap Z (Z * bool)) (s : IxState) : IxState := MkIx (file_hdr s) (nodes s) m (next_page s).

Definition upd_hdr (g : IxFileHdr → IxFileHdr) : M IxState unit := modify (λ s, set_file_hdr (g (file_hdr s)) s).
Definition with_root (p : Z) (h : IxFileHdr) : IxFileHdr :=
  MkIxFileHdr (ix_first_free_page_no h) (ix_num_pages h) p (col_type h) (col_len h) (btree_order h) (keys_size h)
    (first_leaf h) (last_leaf h).
Definition with_num_pages (n : Z) (h : IxFileHdr) : IxFileHdr :=
  MkIxFileHdr (ix_first_free_page_no h) n (root_page h) (col_type h) (col_len h) (btree_order h) (keys_size h)
    (first_leaf h) (last_leaf h).
Definition with_last_leaf (p : Z) (h : IxFileHdr) : IxFileHdr :=
  MkIxFileHdr (ix_first_free_page_no h) (ix_num_pages h) (root_page h) (col_type h) (col_len h) (btree_order h)
    (keys_size h) (first_leaf h) p.

(** Run a node operation through a handle. *)
Definition on_node {A} (p : Z) (m : IxFileHdr → M IxNode A) : M IxState A := λ s,
  match nodes s !! p with
  | Some x => let '(r, x') := m (file_hdr s) x in (r, set_nodes (<[p := x']> (nodes s)) s)
  | None => (Crash NullDeref, s)
  end.

Definition read_node {A} (p : Z) (g : IxNode → A) : M IxState A := on_node p (λ _, gets g).
Definition upd_node (p : Z) (g : IxNode → IxNode) : M IxState unit := on_node p (λ _, modify g).

Definition pin_state (s : IxState) (p : Z) : Z * bool := default (0, false) (pins s !! p).
Definition pin_count (s : IxState) (p : Z) : Z := (pin_state s p).1.
Definition is_dirty (s : IxState) (p : Z) : bool := (pin_state s p).2.

(** ** The pool's failures *)

(** [FetchPage] or [NewPage] answers [nullptr], or throws [UnixError]. *)
Inductive pool_fault : Set := NoFrame | DiskFault.

Class PoolFaults := {
  fetch_fault : IxState → Z → option pool_fault;
  new_fault : IxState → option pool_fault
}.

#[export] Instance no_faults : PoolFaults := {| fetch_fault _ _ := None; new_fault _ := None |}.

(** The constructor of [IxNodeHandle] reads through the page it is given. *)
Definition fail_with {A} (f : pool_fault) : M IxState A :=
  match f with NoFrame => crash_with NullDeref | DiskFault => throw_db UnixError end.

(** ** Pages *)

Definition UnpinPage (p : Z) (dirty : bool) : M IxState bool := λ s,
  if 0 <? pin_count s p
  then (Ok true, set_pinmap (<[p := (pin_count s p - 1, is_dirty s p || dirty)]> (pins s)) s)
  else (Ok false, s).

Section Tree.
Context {F : PoolFaults}.

(** Page 0 is the file header: reading it as a node is outside the model. *)
Definition FetchNode (p : Z) : M IxState Z := λ s,
  match fetch_fault s p with
  | Some f => fail_with f s
  | None =>
      match nodes s !! p with
      | Some _ => (Ok p, set_pinmap (<[p := (pin_count s p + 1, is_dirty s p)]> (pins s)) s)
      | None => if p =? IX_FILE_HDR_PAGE then (Crash Uninitialised, s) else (Throw (RedBase UnixError), s)
      end
  end.

(** A page of zeros. *)
Definition zero_node (h : IxFileHdr) : IxNode :=
  MkNode 0 0 0 false 0 0 (replicate (Z.to_nat (btree_order h + 1)) (zeros (Z.to_nat (col_len h))))
    (replicate (Z.to_nat (btree_order h + 1)) (MkRid 0 0)).

Definition CreateNode : M IxState Z :=
  upd_hdr (λ h, with_num_pages (wrap32 (ix_num_pages h + 1)) h) ;;
  λ s, let p := next_page s in
       match new_fault s with
       | Some NoFrame => fail_with NoFrame s
       | Some DiskFault => fail_with DiskFault (MkIx (file_hdr s) (nodes s) (pins s) (p + 1))
       | None =>
           (Ok p, MkIx (file_hdr s) (<[p := zero_node (file_hdr s)]> (nodes s)) (<[p := (1, false)]> (pins s)) (p + 1))
       end.

Definition release_node_handle (node : Z) : M IxState unit :=
  upd_hdr (λ h, with_num_pages (wrap32 (ix_num_pages h - 1)) h).

Definition UpdateRootPageNo (root : Z) : M IxState unit := upd_hdr (with_root root).
Definition getRootPageNo : M IxState Z := gets (λ s, root_page (file_hdr s)).
Definition IsEmpty : M IxState bool := gets (λ s, root_page (file_hdr s) =? IX_NO_PAGE).
Definition get_last_leaf : M IxState Z := gets (λ s, last_leaf (file_hdr s)).
Definition set_last_leaf (p : Z) : M IxState unit := upd_hdr (with_last_leaf p).

(** ** Search *)

Fixpoint FindLeafPage_loop (fuel : nat) (k : key) (node : Z) : M IxState Z :=
  match fuel with
  | O => crash_with OutOfFuel
  | S fuel' =>
      leaf ← read_node node is_leaf;
      if negb leaf then
        now ← on_node node (λ h, InternalLookup h k);
        node' ← FetchNode now;
        FindLeafPage_loop fuel' k node'
      else ret node
  end.

Definition FindLeafPage (fuel : nat) (k : key) : M IxState Z :=
  root ← getRootPageNo;
  node ← FetchNode root;
  FindLeafPage_loop fuel k node.

(** [result] is what the call appends to the vector. *)
Definition GetValue (fuel : nat) (k : key) : M IxState (option Rid) :=
  leaf ← FindLeafPage fuel k;
  r ← on_node leaf (λ h, LeafLookup h k);
  match r with
  | Some rid => ret (Some rid)
  | None => _ ← UnpinPage leaf false; ret None
  end.

(** ** Insert *)

Definition maintain_child (node child_idx : Z) : M IxState unit :=
  leaf ← read_node node is_leaf;
  if negb leaf then
    child_page_no ← on_node node (λ _, ValueAt child_idx);
    child ← FetchNode child_page_no;
    upd_node child (SetParentPageNo node) ;;
    _ ← UnpinPage child true;
    ret tt
  else ret tt.

Definition updateLastLeaf (originNode newNode : Z) : M IxState unit :=
  l ← get_last_leaf;
  if originNode =? l then set_last_leaf newNode else ret tt.

Definition copy_pairs (newNode originNode : Z) (newKeyNum i : Z) : M IxState unit :=
  k ← on_node originNode (λ _, get_key (newKeyNum + i));
  on_node newNode (λ _, set_key i k) ;;
  r ← on_node originNode (λ _, get_rid (newKeyNum + i));
  on_node newNode (λ _, set_rid i r).

Definition zseq (n : Z) : list Z := Z.of_nat <$> seq 0 (Z.to_nat n).

Definition evenlyDistributePairs (newNode originNode : Z) : M IxState unit :=
  size ← read_node originNode num_key;
  let newKeyNum := size `quot` 2 in
  leaf ← read_node originNode is_leaf;
  upd_node newNode (set_leaf leaf) ;;
  upd_node newNode (SetSize (size - newKeyNum)) ;;
  upd_node originNode (SetSize newKeyNum) ;;
  par ← read_node originNode parent;
  upd_node newNode (SetParentPageNo par) ;;
  n ← read_node newNode num_key;
  st_iter (copy_pairs newNode originNode newKeyNum) (zseq n).

Definition setNewRoot (root left right : Z) : M IxState unit :=
  upd_node root (set_leaf false) ;;
  upd_node root (SetSize 2) ;;
  upd_node root (SetParentPageNo INVALID_PAGE_ID) ;;
  UpdateRootPageNo root ;;
  k0 ← on_node left (λ _, get_key 0);
  on_node root (λ _, set_key 0 k0) ;;
  on_node root (λ _, set_rid 0 (MkRid left (-1))) ;;
  k1 ← on_node right (λ _, get_key 0);
  on_node root (λ _, set_key 1 k1) ;;
  on_node root (λ _, set_rid 1 (MkRid right (-1))) ;;
  n ← read_node root num_key;
  st_iter (maintain_child root) (zseq n) ;;
  _ ← UnpinPage root true;
  ret tt.

Definition insertLeaf (originNode newNode : Z) (keep : bool) : M IxState unit :=
  nx ← read_node originNode next_leaf;
  upd_node newNode (SetNextLeaf nx) ;;
  (if keep then
     upd_node newNode (SetPrevLeaf originNode) ;;
     upd_node originNode (SetNextLeaf newNode)
   else ret tt) ;;
  nx ← read_node newNode next_leaf;
  if negb (nx =? INVALID_PAGE_ID) then
    nextNode ← FetchNode nx;
    upd_node nextNode (SetPrevLeaf newNode) ;;
    _ ← UnpinPage nextNode true;
    ret tt
  else ret tt.

Definition Split (node : Z) : M IxState Z :=
  newNode ← CreateNode;
  evenlyDistributePairs newNode node ;;
  leaf ← read_node newNode is_leaf;
  (if leaf then insertLeaf node newNode true
   else n ← read_node newNode num_key; st_iter (maintain_child newNode) (zseq n)) ;;
  ret newNode.

(** [splitNodeIfFull] and [InsertIntoParent] call each other. *)
Fixpoint splitNodeIfFull (fuel : nat) (node : Z) : M IxState unit :=
  match fuel with
  | O => crash_with OutOfFuel
  | S fuel' =>
      full ← on_node node (λ h, gets (is_full h));
      if full then
        newNode ← Split node;
        k ← on_node newNode (λ _, get_key 0);
        (* InsertIntoParent(node, k, newNode) *)
        (root ← read_node node IsRootPage;
         if root then newRoot ← CreateNode; setNewRoot newRoot node newNode
         else
           pp ← read_node node parent;
           par ← FetchNode pp;
           _ ← on_node par (λ h, Insert h k (MkRid newNode (-1)));
           splitNodeIfFull fuel' par ;;
           _ ← UnpinPage par true;
           ret tt) ;;
        leaf ← read_node node is_leaf;
        if leaf then
          updateLastLeaf node newNode ;;
          _ ← UnpinPage node true;
          _ ← UnpinPage newNode true;
          ret tt
        else ret tt
      else ret tt
  end.

Definition InsertIntoParent (fuel : nat) (old_node : Z) (k : key) (new_node : Z) : M IxState unit :=
  root ← read_node old_node IsRootPage;
  if root then newRoot ← CreateNode; setNewRoot newRoot old_node new_node
  else
    pp ← read_node old_node parent;
    par ← FetchNode pp;
    _ ← on_node par (λ h, Insert h k (MkRid new_node (-1)));
    splitNodeIfFull fuel par ;;
    _ ← UnpinPage par true;
    ret tt.

Definition insert_entry (fuel : nat) (k : key) (value : Rid) : M IxState bool :=
  leaf ← FindLeafPage fuel k;
  originSize ← read_node leaf num_key;
  nowSize ← on_node leaf (λ h, Insert h k value);
  if originSize <? nowSize then splitNodeIfFull fuel leaf ;; ret true
  else ret false.

(** ** Delete *)

(** [assert(buffer_pool_manager_->UnpinPage(...))]. *)
Definition assert_unpin (p : Z) : M IxState unit := b ← UnpinPage p true; assert_ b.

Fixpoint maintain_parent (fuel : nat) (curr : Z) : M IxState unit :=
  match fuel with
  | O => crash_with OutOfFuel
  | S fuel' =>
      pp ← read_node curr parent;
      if negb (pp =? IX_NO_PAGE) then
        par ← FetchNode pp;
        rank ← on_node par (λ _, find_child curr);
        parent_key ← on_node par (λ _, get_key rank);
        child_first_key ← on_node curr (λ _, get_key 0);
        h ← gets file_hdr;
        if memcmp parent_key child_first_key (Z.to_nat (col_len h)) =? 0 then assert_unpin par
        else
          on_node par (λ _, set_key rank child_first_key) ;;
          assert_unpin par ;;
          maintain_parent fuel' par
      else ret tt
  end.

Definition erase_leaf (leaf : Z) : M IxState unit :=
  b ← read_node leaf is_leaf;
  assert_ b ;;
  pl ← read_node leaf prev_leaf;
  prev ← FetchNode pl;
  nl ← read_node leaf next_leaf;
  upd_node prev (SetNextLeaf nl) ;;
  _ ← UnpinPage prev true;
  nl ← read_node leaf next_leaf;
  next ← FetchNode nl;
  pl ← read_node leaf prev_leaf;
  upd_node next (SetPrevLeaf pl) ;;
  _ ← UnpinPage next true;
  ret tt.

Definition AdjustRoot (old_root_node : Z) : M IxState bool :=
  leaf ← read_node old_root_node is_leaf;
  size ← read_node old_root_node num_key;
  if leaf then
    if size =? 0 then
      release_node_handle old_root_node ;;
      upd_hdr (with_root INVALID_PAGE_ID) ;;
      ret true
    else ret false
  else if size =? 1 then
    child ← on_node old_root_node (λ _, ValueAt 0);
    new_root ← FetchNode child;
    upd_node new_root (SetParentPageNo INVALID_PAGE_ID) ;;
    upd_hdr (with_root new_root) ;;
    release_node_handle old_root_node ;;
    _ ← UnpinPage new_root true;
    ret true
  else ret false.

Definition Redistribute (fuel : nat) (neighbor_node node index : Z) : M IxState unit :=
  if negb (index =? 0) then
    n ← read_node neighbor_node num_key;
    let pos := n - 1 in
    k ← on_node neighbor_node (λ _, get_key pos);
    r ← on_node neighbor_node (λ _, get_rid pos);
    on_node node (λ _, insert_pair 0 k r) ;;
    on_node neighbor_node (λ _, erase_pair pos) ;;
    maintain_child node 0 ;;
    maintain_parent fuel node
  else
    n ← read_node node num_key;
    k ← on_node neighbor_node (λ _, get_key 0);
    r ← on_node neighbor_node (λ _, get_rid 0);
    on_node node (λ _, insert_pair n k r) ;;
    on_node neighbor_node (λ _, erase_pair 0) ;;
    n ← read_node node num_key;
    maintain_child node (n - 1) ;;
    maintain_parent fuel neighbor_node.

(** [Coalesce] after the swap: [left] takes over the entries of [right]. *)
Definition merge_nodes (left right : Z) : M IxState unit :=
  before_num ← read_node left num_key;
  n ← read_node right num_key;
  ks ← read_node right keys;
  rs ← read_node right rids;
  on_node left (λ _, insert_pairs before_num ks rs n) ;;
  after_num ← read_node left num_key;
  st_iter (maintain_child left) ((λ i, before_num + i) <$> zseq (after_num - before_num)) ;;
  l ← get_last_leaf;
  (if right =? l then set_last_leaf left else ret tt) ;;
  erase_leaf right ;;
  release_node_handle right.

(** [CoalesceOrRedistribute] and [Coalesce] call each other. After [Coalesce]
    the caller's [brother_node] is the left node, by the swap. *)
Fixpoint CoalesceOrRedistribute (fuel : nat) (node : Z) : M IxState bool :=
  match fuel with
  | O => crash_with OutOfFuel
  | S fuel' =>
      root ← read_node node IsRootPage;
      if root then AdjustRoot node
      else
        size ← read_node node num_key;
        minsize ← gets (λ s, GetMinSize (file_hdr s));
        if minsize <=? size then maintain_parent fuel node ;; ret false
        else
          pp ← read_node node parent;
          parent_node ← FetchNode pp;
          pos ← on_node parent_node (λ _, find_child node);
          brother ← (if negb (pos =? 0) then p ← read_node node prev_leaf; FetchNode p
                     else p ← read_node node next_leaf; FetchNode p);
          bsize ← read_node brother num_key;
          if minsize * 2 <=? size + bsize then
            Redistribute fuel brother node pos ;;
            _ ← UnpinPage parent_node true;
            _ ← UnpinPage brother true;
            ret false
          else
            let '(l_node, r_node, index) := if pos =? 0 then (node, brother, 1) else (brother, node, pos) in
            merge_nodes l_node r_node ;;
            on_node parent_node (λ _, erase_pair index) ;;
            _ ← CoalesceOrRedistribute fuel' parent_node;
            _ ← UnpinPage parent_node true;
            _ ← UnpinPage l_node true;
            ret true
  end.

(** [getNeighbor] and [switchNode], which nothing calls: the neighbour through the
    parent, and a swap of two handles. *)
Definition getNeighbor (index parent_node : Z) : M IxState Z :=
  if negb (index =? 0) then
    rid ← on_node parent_node (λ _, get_rid (index - 1));
    FetchNode (rid_page_no rid)
  else
    rid ← on_node parent_node (λ _, get_rid (index + 1));
    FetchNode (rid_page_no rid).

Definition switchNode (node neighbor : Z) : Z * Z := (neighbor, node).

Definition delete_entry (fuel : nat) (k : key) : M IxState bool :=
  leaf ← FindLeafPage fuel k;
  size ← read_node leaf num_key;
  n ← on_node leaf (λ h, Remove h k);
  if n =? size then _ ← UnpinPage leaf false; ret false
  else
    _ ← CoalesceOrRedistribute fuel leaf;
    _ ← UnpinPage leaf true;
    ret true.

(** ** Positions *)

Definition ix_get_rid (iid : Iid) : M IxState Rid :=
  node ← FetchNode (iid_page_no iid);
  n ← read_node node num_key;
  if n <=? iid_slot_no iid then throw_db IndexEntryNotFoundError
  else
    _ ← UnpinPage node false;
    on_node node (λ _, get_rid (iid_slot_no iid)).

Definition leaf_begin : M IxState Iid := gets (λ s, MkIid (first_leaf (file_hdr s)) 0).

Definition leaf_end : M IxState Iid :=
  l ← get_last_leaf;
  node ← FetchNode l;
  n ← read_node node num_key;
  _ ← UnpinPage node false;
  ret (MkIid l n).

Definition ix_lower_bound (fuel : nat) (k : key) : M IxState Iid :=
  node ← FindLeafPage fuel k;
  key_idx ← on_node node (λ h, lower_bound h k);
  _ ← UnpinPage node false;
  ret (MkIid node key_idx).

Definition ix_upper_bound (fuel : nat) (k : key) : M IxState Iid :=
  node ← FindLeafPage fuel k;
  key_idx ← on_node node (λ h, upper_bound h k);
  n ← read_node node num_key;
  iid ← (if key_idx =? n then leaf_end else ret (MkIid node key_idx));
  _ ← UnpinPage node false;
  ret iid.

(** ** IxScan *)

Record IxScan : Set := MkScan { iid_ : Iid; end_ : Iid }.

Definition ix_scan_is_end (sc : IxScan) : bool := bool_decide (iid_ sc = end_ sc).

Definition ix_scan_next (sc : IxScan) : M IxState IxScan :=
  assert_ (negb (ix_scan_is_end sc)) ;;
  node ← FetchNode (iid_page_no (iid_ sc));
  leaf ← read_node node is_leaf;
  assert_ leaf ;;
  n ← read_node node num_key;
  assert_ (iid_slot_no (iid_ sc) <? n) ;;
  let slot := iid_slot_no (iid_ sc) + 1 in
  l ← get_last_leaf;
  if negb (iid_page_no (iid_ sc) =? l) && (slot =? n) then
    nl ← read_node node next_leaf;
    ret (MkScan (MkIid nl 0) (end_ sc))
  else ret (MkScan (MkIid (iid_page_no (iid_ sc)) slot) (end_ sc)).

Definition ix_scan_rid (sc : IxScan) : M IxState Rid := ix_get_rid (iid_ sc).

End Tree.
