(* ===== verification/IxTreeSpec.v ===== *)
(** The B+ tree as a map from keys to rids: invariant and search.

    The invariant is local: a ghost map [G] gives each page of the tree its height
    and the interval of keys it is responsible for, and every page is related to
    its children, its parent and (a leaf) its right neighbour through [G] only.
    Search descends to the one leaf whose interval can hold the key, in as many
    turns as the tree is high. *)
From S2P Require Import Prelude Config IxKey IxNode IxNodeSpec IxTree.

Record info : Type := MkInfo { ht : nat; lo : option key; hi : option key }.

(** How strict the invariant is.  [tight]: the first separator of an inner page is the
    lower end of its interval.  [clean]: the keys left over in the slots past the end
    of a page cannot be taken for keys of the page. *)
Record mode : Set := MkMode { tight : bool; clean : bool }.
Definition strict : mode := MkMode true true.

(** ** Runs through a handle *)

Lemma on_node_run {A} p (m : IxFileHdr → M IxNode A) s x a x' :
  nodes s !! p = Some x → m (file_hdr s) x = (Ok a, x') →
  on_node p m s = (Ok a, set_nodes (<[p := x']> (nodes s)) s).
Proof. intros Hx Hm. unfold on_node. by rewrite Hx, Hm. Qed.

Lemma on_node_pure {A} p (m : IxFileHdr → M IxNode A) s x a :
  nodes s !! p = Some x → m (file_hdr s) x = (Ok a, x) → on_node p m s = (Ok a, s).
Proof. intros Hx Hm. rewrite (on_node_run _ _ _ _ _ _ Hx Hm), insert_id by done. by destruct s. Qed.

Lemma read_node_run {A} p (g : IxNode → A) s x : nodes s !! p = Some x → read_node p g s = (Ok (g x), s).
Proof. intros Hx. by eapply on_node_pure. Qed.

Lemma upd_node_run p g s x :
  nodes s !! p = Some x → upd_node p g s = (Ok tt, set_nodes (<[p := g x]> (nodes s)) s).
Proof. intros Hx. by eapply on_node_run. Qed.

Lemma FetchNode_run p s x : nodes s !! p = Some x → ∃ m, FetchNode p s = (Ok p, set_pinmap m s).
Proof. intros Hx. unfold FetchNode. simpl. rewrite Hx. eauto. Qed.

Lemma UnpinPage_run p b s : ∃ r m, UnpinPage p b s = (Ok r, set_pinmap m s).
Proof. unfold UnpinPage. destruct (0 <? _); [by eauto|]. exists false, (pins s). by destruct s. Qed.

Section TreeSpec.
Context (fh : IxFileHdr) (ok : key → Prop) {KO : KeyOrder (compare fh) ok}.
Implicit Types (x : IxNode) (k : key) (s : IxState) (G : gmap Z info) (g : info) (p q : Z).
Abbreviation cmp := (compare fh).
Abbreviation node_ok := (node_ok fh ok).
Abbreviation order := (btree_order fh).

(** The handle's header has the index's parameters; the rest of it changes. *)
Definition key_hdr (h : IxFileHdr) : Prop :=
  col_type h = col_type fh ∧ col_len h = col_len fh ∧ btree_order h = order.

Lemma compare_hdr h : key_hdr h → compare h = compare fh.
Proof. intros (E1 & E2 & _). unfold compare. by rewrite E1, E2. Qed.

Definition within g k : Prop :=
  (∀ l, lo g = Some l → cmp l k ≤ 0) ∧ (∀ u, hi g = Some u → cmp k u < 0).

(** A leftover key is above the page's interval, or is one no key equals. *)
Definition dead k : Prop := ∀ k', ok k' → cmp k' k ≠ 0.
Definition leftover_ok g k : Prop := dead k ∨ ok k ∧ ∃ u, hi g = Some u ∧ cmp u k ≤ 0.

Definition child_hi x (i : nat) (top : option key) : option key :=
  match live_keys x !! S i with Some u => Some u | None => top end.

(** The interval of child [i]. When [tight] is not required, the first child may
    reach below its key. *)
Definition child_lo (tight : bool) x g (i : nat) (gc : info) : Prop :=
  if tight || negb (i =? 0)%nat then lo gc = live_keys x !! i
  else ∀ l, lo g = Some l → ∃ l', lo gc = Some l' ∧ cmp l l' ≤ 0.

Definition child_ok (tight : bool) (ns : gmap Z IxNode) G p g x (i : nat) (r : Rid) : Prop :=
  ∃ gc xc, G !! rid_page_no r = Some gc ∧ ns !! rid_page_no r = Some xc ∧ parent xc = p ∧ ht g = S (ht gc) ∧
    child_lo tight x g i gc ∧ hi gc = child_hi x i (hi g).

(** The right neighbour of a leaf starts where the leaf ends. *)
Definition next_ok G g x : Prop :=
  match hi g with
  | Some u => ∃ gn, G !! next_leaf x = Some gn ∧ ht gn = O ∧ lo gn = Some u
  | None => next_leaf x = IX_LEAF_HEADER_PAGE
  end.

Definition bounds_ok g : Prop := (∀ l, lo g = Some l → ok l) ∧ (∀ u, hi g = Some u → ok u).

(** What one page owes; only a page that satisfies [full] may have no room. *)
Record page_ok (md : mode) (ns : gmap Z IxNode) G (full : Z → Prop) p g x : Prop := {
  po_node : node_ok x;
  po_len : Z.of_nat (length (keys x)) = order + 1;
  po_room : num_key x ≤ order ∨ full p;
  po_left : clean md = true → ∀ i k, (Z.to_nat (num_key x) ≤ i)%nat → keys x !! i = Some k → leftover_ok g k;
  po_bounds : bounds_ok g;
  po_within : Forall (within g) (live_keys x);
  po_leaf : is_leaf x = (ht g =? 0)%nat;
  po_next : ht g = O → next_ok G g x;
  po_some : ht g ≠ O → 0 < num_key x;
  po_child : ht g ≠ O → ∀ i r, live_rids x !! i = Some r → child_ok (tight md) ns G p g x i r;
  po_tight : tight md = true → ht g ≠ O → ∀ l, lo g = Some l → live_keys x !! O = Some l
}.

Record tree_inv (md : mode) (full : Z → Prop) s G : Prop := {
  ti_hdr : key_hdr (file_hdr s);
  ti_order : 2 < order < int_max;
  ti_header : is_Some (nodes s !! IX_LEAF_HEADER_PAGE);
  ti_root : ∃ gr xr, G !! root_page (file_hdr s) = Some gr ∧ nodes s !! root_page (file_hdr s) = Some xr ∧
      parent xr = INVALID_PAGE_ID ∧ lo gr = None ∧ hi gr = None ∧
      ∀ p g, G !! p = Some g → (ht g ≤ ht gr)%nat ∧ (ht g = ht gr → p = root_page (file_hdr s));
  ti_page : ∀ p g, G !! p = Some g →
      1 < p < next_page s ∧ ∃ x, nodes s !! p = Some x ∧ page_ok md (nodes s) G full p g x;
  ti_up : ∀ p g, G !! p = Some g → p ≠ root_page (file_hdr s) →
      ∃ q gq xq i r, G !! q = Some gq ∧ ht gq = S (ht g) ∧ nodes s !! q = Some xq ∧
        live_rids xq !! i = Some r ∧ rid_page_no r = p
}.

Abbreviation no_full := (λ _ : Z, False).

(** The bindings of the tree: those of its leaves. *)
Definition has s G k (v : Rid) : Prop :=
  ∃ p g x, G !! p = Some g ∧ ht g = O ∧ nodes s !! p = Some x ∧ assoc fh k (entries x) = Some v.

(** Same tree, other pin counts. *)
Lemma tree_inv_pins md full s G m : tree_inv md full s G → tree_inv md full (set_pinmap m s) G.
Proof. by intros []; split. Qed.

(** ** Descending *)

Section Search.
Context (md : mode) (full : Z → Prop).

Lemma sorted_lookup {A} (R : A → A → Prop) l i j a b :
  StronglySorted R l → l !! i = Some a → l !! j = Some b → (i < j)%nat → R a b.
Proof.
  intros Hs. revert i j. induction Hs as [|c l Hs IH Hf]; intros i j Hi Hj Hij; [done|].
  destruct i as [|i], j as [|j]; simpl in *; try lia; [|by apply (IH i j); [..|lia]].
  injection Hi as ->. rewrite Forall_forall in Hf. apply Hf. by eapply list_elem_of_lookup_2.
Qed.

Lemma live_ok x i k : node_ok x → live_keys x !! i = Some k → ok k.
Proof. intros Hx Hk. eapply Forall_lookup_1; [apply (no_keys _ _ _ Hx)|done]. Qed.

Lemma live_le x i j a b :
  node_ok x → live_keys x !! i = Some a → live_keys x !! j = Some b → (i ≤ j)%nat → cmp a b ≤ 0.
Proof.
  intros Hx Ha Hb Hij. destruct (decide (i = j)) as [->|Hne].
  - assert (a = b) as -> by congruence. rewrite (cmp_refl (ok := ok)); [done|by eapply live_ok].
  - pose proof (sorted_lookup _ _ i j a b (no_sorted _ _ _ Hx) Ha Hb ltac:(lia)) as H. simpl in H. lia.
Qed.

(** [InternalLookup] takes the last child whose key is not above [k], the first
    one when every key is. *)
Lemma InternalLookup_run x k :
  node_ok x → ok k → 0 < num_key x →
  ∃ i r, InternalLookup fh k x = (Ok (rid_page_no r), x) ∧ live_rids x !! i = Some r ∧
    (∀ c, live_keys x !! i = Some c → i ≠ O → cmp c k ≤ 0) ∧
    (∀ u, live_keys x !! S i = Some u → cmp k u < 0).
Proof.
  intros Hx Hk Hn. unfold InternalLookup. mstep (upper_bound_run fh ok x k Hx Hk).
  set (m := scan_ref fh false k (live_keys x)).
  pose proof (scan_ref_le fh false k (live_keys x)) as Hle. fold m in Hle. rewrite (length_live fh ok x Hx) in Hle.
  set (i := Nat.pred m). assert (Hi : (if Z.of_nat m =? 0 then Z.of_nat m else Z.of_nat m - 1) = Z.of_nat i).
  { unfold i. destruct (Z.eqb_spec (Z.of_nat m) 0); lia. }
  rewrite Hi. pose proof (no_num _ _ _ Hx). pose proof (no_rids _ _ _ Hx) as Hrl.
  destruct (lookup_lt_is_Some_2 (live_rids x) i) as [r Hr]; [rewrite (length_live_rids fh ok x Hx); unfold i; lia|].
  exists i, r. assert (Hr' : rids x !! i = Some r).
  { unfold live_rids in Hr. rewrite lookup_take_lt in Hr; [done|]. unfold i. lia. }
  split.
  { unfold ValueAt, get_rid, array_get. rewrite (proj2 (Z.leb_le 0 (Z.of_nat i))) by lia.
    rewrite Nat2Z.id. unfold st_bind, get_st. by rewrite Hr'. }
  split; [done|].
  pose proof (λ j c, scan_ref_split fh ok false k (live_keys x) j c Hk (no_keys _ _ _ Hx) (no_sorted _ _ _ Hx)) as Hs.
  fold m in Hs. unfold goes_right in Hs. split.
  - intros c Hc Hne. apply cmp_le_flip; [|done|].
    + eapply Forall_lookup_1; [apply (no_keys _ _ _ Hx)|done].
    + apply Z.leb_le, (Hs _ _ Hc). unfold i in *. lia.
  - intros u Hu. destruct (Z.leb_spec 0 (cmp k u)) as [Hge|]; [|done].
    apply Z.leb_le, (Hs _ _ Hu) in Hge. unfold i in *. lia.
Qed.

Lemma rid_key x i r : node_ok x → live_rids x !! i = Some r → ∃ c, live_keys x !! i = Some c.
Proof.
  intros Hx Hr. apply lookup_lt_is_Some_2. rewrite (length_live fh ok x Hx), <- (length_live_rids fh ok x Hx).
  by eapply lookup_lt_Some.
Qed.

(** A child whose interval holds [k] is the one the search takes. *)
Lemma lookup_picks ns G p g x k j r :
  page_ok md ns G full p g x → ht g ≠ O → ok k → live_rids x !! j = Some r →
  (∀ gc, G !! rid_page_no r = Some gc → within gc k) →
  InternalLookup fh k x = (Ok (rid_page_no r), x).
Proof.
  intros PO Hh Hk Hr Hw. pose proof (po_node _ _ _ _ _ _ _ PO) as Hx.
  destruct (InternalLookup_run x k Hx Hk (po_some _ _ _ _ _ _ _ PO Hh)) as (i & ri & Hrun & Hri & Hlo & Hhi).
  rewrite Hrun. do 2 f_equal. assert (i = j) as ->; [|congruence].
  destruct (po_child _ _ _ _ _ _ _ PO Hh j r Hr) as (gc & xc & HG & _ & _ & _ & Hclo & Hchi).
  destruct (Hw gc HG) as [W1 W2]. destruct (rid_key x j r Hx Hr) as [cj Hcj], (rid_key x i ri Hx Hri) as [ci Hci].
  destruct (Nat.lt_trichotomy i j) as [Hij|[?|Hji]]; [exfalso|done|exfalso].
  - destruct (lookup_lt_is_Some_2 (live_keys x) (S i)) as [u Hu]; [apply lookup_lt_Some in Hcj; lia|].
    pose proof (Hhi u Hu) as Hlt. unfold child_lo in Hclo.
    rewrite (proj2 (Nat.eqb_neq j 0)), orb_true_r in Hclo by lia. rewrite Hcj in Hclo. specialize (W1 _ Hclo).
    pose proof (live_le x _ _ _ _ Hx Hu Hcj ltac:(lia)) as Hle.
    pose proof (ko_trans u cj k (live_ok _ _ _ Hx Hu) (live_ok _ _ _ Hx Hcj) Hk Hle W1) as Huk.
    apply cmp_le_flip in Huk; [lia|by eapply live_ok|done].
  - destruct (lookup_lt_is_Some_2 (live_keys x) (S j)) as [u Hu]; [apply lookup_lt_Some in Hci; lia|].
    unfold child_hi in Hchi. rewrite Hu in Hchi. specialize (W2 _ Hchi). specialize (Hlo _ Hci ltac:(lia)).
    pose proof (live_le x _ _ _ _ Hx Hu Hci ltac:(lia)) as Hle.
    pose proof (ko_trans u ci k (live_ok _ _ _ Hx Hu) (live_ok _ _ _ Hx Hci) Hk Hle Hlo) as Huk.
    apply cmp_le_flip in Huk; [lia|by eapply live_ok|done].
Qed.

(** A child's interval lies inside its parent's. *)
Lemma within_parent ns G p g x k i r gc :
  page_ok md ns G full p g x → ht g ≠ O → ok k → live_rids x !! i = Some r →
  G !! rid_page_no r = Some gc → bounds_ok gc → within gc k → within g k.
Proof.
  intros PO Hh Hk Hr HG Hb [W1 W2]. pose proof (po_node _ _ _ _ _ _ _ PO) as Hx.
  destruct (po_child _ _ _ _ _ _ _ PO Hh i r Hr) as (gc' & xc & HG' & _ & _ & _ & Hlo & Hhi).
  assert (gc' = gc) as -> by congruence. destruct (po_bounds _ _ _ _ _ _ _ PO) as [B1 B2].
  pose proof (po_within _ _ _ _ _ _ _ PO) as Hw. destruct (rid_key x i r Hx Hr) as [ci Hci]. split.
  - intros l Hl. unfold child_lo in Hlo. destruct (tight md || negb (i =? 0)%nat).
    + rewrite Hci in Hlo. specialize (W1 _ Hlo). pose proof (Forall_lookup_1 _ _ _ _ Hw Hci) as [Hl' _].
      apply (ko_trans l ci k); auto. by eapply live_ok.
    + destruct (Hlo l Hl) as (l' & Hl' & Hle). apply (ko_trans l l' k); auto. by apply (proj1 Hb).
  - intros u Hu. unfold child_hi in Hhi. destruct (live_keys x !! S i) as [c|] eqn:Hc.
    + specialize (W2 _ Hhi). pose proof (Forall_lookup_1 _ _ _ _ Hw Hc) as [_ Hc'].
      apply (cmp_lt_le_trans k c u); auto; [by eapply live_ok|]. specialize (Hc' _ Hu). lia.
    + apply W2. by rewrite Hhi.
Qed.

(** A leftover key is no key of the page's interval. *)
Lemma leftover_clear g k c : ok k → bounds_ok g → (∀ u, hi g = Some u → cmp k u < 0) → leftover_ok g c → cmp k c ≠ 0.
Proof.
  intros Hk [_ B] W [Hd|(Hc & u & Hu & Hle)]; [by apply Hd|].
  pose proof (cmp_lt_le_trans k u c Hk (B _ Hu) Hc (W _ Hu) Hle). lia.
Qed.

Lemma page_slot_clear ns G p g x k :
  clean md = true → page_ok md ns G full p g x → ok k → (∀ u, hi g = Some u → cmp k u < 0) → slot_clear fh x k.
Proof.
  intros Hc PO Hk Hw c Hl. apply (leftover_clear g k c Hk (po_bounds _ _ _ _ _ _ _ PO) Hw).
  by eapply (po_left _ _ _ _ _ _ _ PO).
Qed.

(** A key occurs once among the live keys of a page. *)
Lemma live_inj x i j a : node_ok x → live_keys x !! i = Some a → live_keys x !! j = Some a → i = j.
Proof.
  intros Hn Ha Hb. pose proof (cmp_refl (ok := ok) a (live_ok _ _ _ Hn Hb)) as Hz.
  destruct (Nat.lt_trichotomy i j) as [Hlt|[?|Hlt]]; [exfalso|done|exfalso].
  - pose proof (sorted_lookup _ _ i j a a (no_sorted _ _ _ Hn) Ha Hb Hlt) as H. simpl in H. lia.
  - pose proof (sorted_lookup _ _ j i a a (no_sorted _ _ _ Hn) Hb Ha Hlt) as H. simpl in H. lia.
Qed.

(** A page appears once among the children of a page. *)
Lemma kid_inj ns G p g x i j r r' :
  tight md = true → page_ok md ns G full p g x → ht g ≠ O → live_rids x !! i = Some r → live_rids x !! j = Some r' →
  rid_page_no r = rid_page_no r' → i = j.
Proof.
  intros Ht PO Hh Hr Hr' E. pose proof (po_node _ _ _ _ _ _ _ PO) as Hn.
  destruct (po_child _ _ _ _ _ _ _ PO Hh i r Hr) as (g1 & ? & HG1 & _ & _ & _ & L1 & _).
  destruct (po_child _ _ _ _ _ _ _ PO Hh j r' Hr') as (g2 & ? & HG2 & _ & _ & _ & L2 & _).
  rewrite E in HG1. assert (g1 = g2) as -> by congruence. unfold child_lo in L1, L2. rewrite Ht in L1, L2. simpl in L1, L2.
  destruct (rid_key x i r Hn Hr) as [a Ha], (rid_key x j r' Hn Hr') as [b Hb].
  assert (a = b) as -> by congruence. by apply (live_inj x i j b).
Qed.

Context s G (TI : tree_inv md full s G) (k : key) (Hk : ok k).

(** At each height the search visits the only page that may hold [k]. *)
Definition only_page p g : Prop := ∀ q gq, G !! q = Some gq → ht gq = ht g → within gq k → q = p.

Lemma InternalLookup_hdr h : key_hdr h → InternalLookup h k = InternalLookup fh k.
Proof. intros (E1 & E2 & _). destruct h, fh; simpl in *. by subst. Qed.

(** [k] is in the page's interval and not below its first separator. *)
Definition reaches g x : Prop :=
  within g k ∧ (ht g ≠ O → ∀ c, live_keys x !! O = Some c → cmp c k ≤ 0).

(** [k] is not above the page's interval. *)
Definition below g : Prop := ∀ u, hi g = Some u → cmp k u < 0.

Lemma reaches_child ns p g x i r gc xc fc :
  tight md = true → page_ok md ns G full p g x → ht g ≠ O → live_rids x !! i = Some r →
  G !! rid_page_no r = Some gc → page_ok md ns G fc (rid_page_no r) gc xc →
  (∀ c, live_keys x !! i = Some c → i ≠ O → cmp c k ≤ 0) → (∀ u, live_keys x !! S i = Some u → cmp k u < 0) →
  reaches g x → reaches gc xc.
Proof.
  intros Ht PO Hh Hr HG POc Hlo Hhi [[_ W2] Hfirst].
  destruct (po_child _ _ _ _ _ _ _ PO Hh i r Hr) as (gc' & xc' & HG' & _ & _ & _ & Hclo & Hchi).
  assert (gc' = gc) as -> by congruence. destruct (rid_key x i r (po_node _ _ _ _ _ _ _ PO) Hr) as [ci Hci].
  unfold child_lo in Hclo. rewrite Ht in Hclo. simpl in Hclo. rewrite Hci in Hclo.
  assert (Hle : cmp ci k ≤ 0) by (destruct i; [by apply Hfirst|by apply Hlo]).
  split; [split|].
  - intros l Hl. by assert (l = ci) as -> by congruence.
  - intros u Hu. unfold child_hi in Hchi. destruct (live_keys x !! S i) as [u'|] eqn:E; [|apply W2; congruence].
    assert (u = u') as -> by congruence. by apply Hhi.
  - intros Hhc c Hc. rewrite (po_tight _ _ _ _ _ _ _ POc Ht Hhc ci Hclo) in Hc. by injection Hc as <-.
Qed.

Lemma descend p g x :
  G !! p = Some g → nodes s !! p = Some x → ht g ≠ O → only_page p g →
  ∃ c gc xc, InternalLookup (file_hdr s) k x = (Ok c, x) ∧ G !! c = Some gc ∧ nodes s !! c = Some xc ∧
    ht g = S (ht gc) ∧ only_page c gc ∧ (tight md = true → reaches g x → reaches gc xc) ∧ (below g → below gc).
Proof using TI Hk KO.
  intros HG Hx Hh Honly. destruct (ti_page _ _ _ _ TI p g HG) as (_ & x' & Hx' & PO).
  assert (x' = x) as -> by congruence.
  destruct (InternalLookup_run x k (po_node _ _ _ _ _ _ _ PO) Hk (po_some _ _ _ _ _ _ _ PO Hh)) as (i & r & Hrun & Hr & Hlo & Hhi).
  destruct (po_child _ _ _ _ _ _ _ PO Hh i r Hr) as (gc & xc & HGc & Hxc & _ & Hht & _ & Hchi).
  exists (rid_page_no r), gc, xc. rewrite (InternalLookup_hdr _ (ti_hdr _ _ _ _ TI)).
  split; [done|]. split; [done|]. split; [done|]. split; [done|]. split; cycle 1.
  { split. { intros Ht. destruct (ti_page _ _ _ _ TI _ _ HGc) as (_ & xc' & Hxc' & POc).
    assert (xc' = xc) as -> by congruence. by apply (reaches_child _ p g x i r gc xc _ Ht PO Hh Hr HGc POc). }
    intros Hb u Hu. rewrite Hchi in Hu. unfold child_hi in Hu. destruct (live_keys x !! S i) as [u'|] eqn:E; [|by apply Hb].
    injection Hu as <-. by apply Hhi. }
  intros q gq HGq Hhq Hwq. destruct (ti_root _ _ _ _ TI) as (gr & xr & HGr & _ & _ & _ & _ & Hmax).
  destruct (decide (q = root_page (file_hdr s))) as [->|Hne].
  { destruct (Hmax _ _ HG) as [Hle _]. assert (gq = gr) as -> by congruence. lia. }
  destruct (ti_up _ _ _ _ TI q gq HGq Hne) as (q' & g' & x'' & j & r' & HG' & Hh' & Hx'' & Hr' & Hp).
  destruct (ti_page _ _ _ _ TI q' g' HG') as (_ & x3 & Hx3 & PO'). assert (x3 = x'') as -> by congruence.
  destruct (ti_page _ _ _ _ TI q gq HGq) as (_ & xq & _ & POq).
  assert (q' = p) as ->.
  { apply (Honly q' g' HG'); [congruence|]. subst q.
    by apply (within_parent _ _ _ _ _ k j r' gq PO' ltac:(lia) Hk Hr' HGq (po_bounds _ _ _ _ _ _ _ POq)). }
  assert (x'' = x) as -> by congruence. assert (g' = g) as -> by congruence. subst q.
  rewrite (lookup_picks _ _ _ _ _ k j r' PO Hh Hk Hr') in Hrun; [congruence|]. intros gc' E. congruence.
Qed.

Lemma FindLeafPage_loop_run fuel m p g x :
  G !! p = Some g → nodes s !! p = Some x → (ht g < fuel)%nat → only_page p g →
  ∃ q gq xq m', FindLeafPage_loop fuel k p (set_pinmap m s) = (Ok q, set_pinmap m' s) ∧
    G !! q = Some gq ∧ nodes s !! q = Some xq ∧ ht gq = O ∧ only_page q gq ∧
    (tight md = true → reaches g x → reaches gq xq) ∧ (below g → below gq).
Proof using TI Hk KO.
  revert m p g x. induction fuel as [|fuel IH]; intros m p g x HG Hx Hf Honly; [lia|]. simpl.
  mstep (read_node_run p is_leaf (set_pinmap m s) x Hx).
  destruct (ti_page _ _ _ _ TI p g HG) as (_ & x' & Hx' & PO). assert (x' = x) as -> by congruence.
  rewrite (po_leaf _ _ _ _ _ _ _ PO). destruct (Nat.eqb_spec (ht g) 0) as [Hz|Hz]; simpl.
  - exists p, g, x, m. by split_and!.
  - destruct (descend p g x HG Hx Hz Honly) as (c & gc & xc & Hrun & HGc & Hxc & Hh & Hoc & Hre & Hbe).
    mstep (on_node_pure p (λ h, InternalLookup h k) (set_pinmap m s) x c Hx Hrun).
    destruct (FetchNode_run c (set_pinmap m s) xc Hxc) as [m1 Hf1]. mstep Hf1.
    destruct (IH m1 c gc xc HGc Hxc ltac:(lia) Hoc) as (q & gq & xq & m' & H1 & H2 & H3 & H4 & H5 & H6 & H7).
    exists q, gq, xq, m'. split_and!; try done; auto.
Qed.

(** The leaf the search ends in holds every binding of [k] there is. *)
Lemma FindLeafPage_run fuel :
  (∀ g, G !! root_page (file_hdr s) = Some g → (ht g < fuel)%nat) →
  ∃ q gq xq m, FindLeafPage fuel k s = (Ok q, set_pinmap m s) ∧
    G !! q = Some gq ∧ nodes s !! q = Some xq ∧ ht gq = O ∧ only_page q gq ∧
    (tight md = true → ∀ gr xr, G !! root_page (file_hdr s) = Some gr → nodes s !! root_page (file_hdr s) = Some xr →
       reaches gr xr → reaches gq xq) ∧ below gq.
Proof using TI Hk KO.
  intros Hf. destruct (ti_root _ _ _ _ TI) as (gr & xr & HGr & Hxr & _ & _ & Hhr & Hmax).
  unfold FindLeafPage, getRootPageNo. unfold st_bind at 1, gets.
  destruct (FetchNode_run (root_page (file_hdr s)) s xr Hxr) as [m1 Hf1]. mstep Hf1.
  destruct (FindLeafPage_loop_run fuel m1 (root_page (file_hdr s)) gr xr HGr Hxr (Hf _ HGr)) as (q & gq & xq & m & H1 & H2 & H3 & H4 & H5 & H6 & H7).
  { intros p gp Hp Hh _. by apply (Hmax p gp). }
  exists q, gq, xq, m. split_and!; try done; [|apply H7; intros u Hu; congruence]. intros Ht gr' xr' E1 E2. assert (gr' = gr) as -> by congruence.
  assert (xr' = xr) as -> by congruence. auto.
Qed.

(** A leaf's bindings lie in its interval. *)
Lemma assoc_within q gq xq v :
  G !! q = Some gq → nodes s !! q = Some xq → assoc fh k (entries xq) = Some v → within gq k.
Proof using TI Hk KO.
  intros HG Hx Ha. destruct (ti_page _ _ _ _ TI q gq HG) as (_ & x' & Hx' & PO). assert (x' = xq) as -> by congruence.
  pose proof (po_node _ _ _ _ _ _ _ PO) as Hn.
  rewrite (assoc_at_bound fh ok xq k Hn Hk) in Ha. destruct (live_keys xq !! _) as [c|] eqn:Hc; [|done].
  destruct (Z.eqb_spec (cmp k c) 0) as [Hz|]; [|done].
  pose proof (Forall_lookup_1 _ _ _ _ (po_within _ _ _ _ _ _ _ PO) Hc) as [W1 W2].
  destruct (po_bounds _ _ _ _ _ _ _ PO) as [B1 B2]. pose proof (live_ok _ _ _ Hn Hc) as Hok.
  pose proof (cmp_eq_sym _ _ Hk Hok Hz) as Hz'. split.
  - intros l Hl. apply (ko_trans l c k); auto; lia.
  - intros u Hu. apply (cmp_le_lt_trans k c u); auto. lia.
Qed.

Lemma only_leaf_has q gq xq v :
  G !! q = Some gq → nodes s !! q = Some xq → ht gq = O → only_page q gq →
  has s G k v ↔ assoc fh k (entries xq) = Some v.
Proof using TI Hk KO.
  intros HG Hx Hh Honly. split; [|by intros Ha; exists q, gq, xq].
  intros (p & g & x & HGp & Hhp & Hxp & Ha).
  assert (p = q) as -> by (apply (Honly p g HGp); [congruence|by eapply assoc_within]). congruence.
Qed.

End Search.

Lemma LeafLookup_hdr h k : key_hdr h → LeafLookup h k = LeafLookup fh k.
Proof. intros (E1 & E2 & _). destruct h, fh; simpl in *. by subst. Qed.

(** Searching the tree is searching the map it stands for: [GetValue] finds a key's
    rid exactly when some leaf binds the key, within as many turns as the tree is
    high, and leaves pages and header alone. *)
Lemma GetValue_run md full s G k fuel :
  tree_inv md full s G → ok k →
  (∀ g, G !! root_page (file_hdr s) = Some g → (ht g < fuel)%nat) →
  ∃ o m, GetValue fuel k s = (Ok o, set_pinmap m s) ∧ ∀ v, o = Some v ↔ has s G k v.
Proof.
  intros TI Hk Hf. destruct (FindLeafPage_run md full s G TI k Hk fuel Hf) as (q & gq & xq & m & H1 & HG & Hx & Hh & Ho & _).
  pose proof (λ v, only_leaf_has md full s G TI k Hk q gq xq v HG Hx Hh Ho) as Hhas.
  destruct (ti_page _ _ _ _ TI q gq HG) as (_ & x' & Hx' & PO). assert (x' = xq) as -> by congruence.
  unfold GetValue. mstep H1.
  assert (Hl : on_node q (λ h, LeafLookup h k) (set_pinmap m s) = (Ok (assoc fh k (entries xq)), set_pinmap m s)).
  { apply (on_node_pure _ _ _ xq); [done|]. cbn [file_hdr set_pinmap]. rewrite (LeafLookup_hdr _ k (ti_hdr _ _ _ _ TI)).
    apply (LeafLookup_run fh ok); [apply PO|done]. }
  mstep Hl. destruct (assoc fh k (entries xq)) as [v|] eqn:Ha.
  - exists (Some v), m. split; [done|]. intros v'. by rewrite Hhas.
  - destruct (UnpinPage_run q false (set_pinmap m s)) as (b & m' & Hu). mstep Hu.
    exists None, m'. split; [done|]. intros v'. by rewrite Hhas.
Qed.

End TreeSpec.
