(* ===== verification/IxTreeSplit.v ===== *)
(** What [Split], [setNewRoot] and their helpers do to the pages of an index.

    Each operation is run on any state that holds the pages it touches; the
    lemmas say which pages come out changed, and how.  [IxTreeInsert] uses them
    to show that the tree invariant survives. *)
From S2P Require Import Prelude Config IxKey IxNode IxNodeSpec IxTree IxTreeSpec.

(** The header fields the tree depends on. *)
Definition hdr_same (h h' : IxFileHdr) : Prop :=
  col_type h' = col_type h ∧ col_len h' = col_len h ∧ btree_order h' = btree_order h ∧
  root_page h' = root_page h ∧ last_leaf h' = last_leaf h.

(** Everything about a node but its parent and left link. *)
Definition same_node (x y : IxNode) : Prop :=
  num_key y = num_key x ∧ is_leaf y = is_leaf x ∧ next_leaf y = next_leaf x ∧ keys y = keys x ∧ rids y = rids x.

Lemma same_node_refl x : same_node x x.
Proof. done. Qed.

Lemma same_node_trans x y z : same_node x y → same_node y z → same_node x z.
Proof. intros (?&?&?&?&?) (?&?&?&?&?). repeat split; congruence. Qed.

Lemma hdr_same_trans h1 h2 h3 : hdr_same h1 h2 → hdr_same h2 h3 → hdr_same h1 h3.
Proof. intros (?&?&?&?&?) (?&?&?&?&?). repeat split; congruence. Qed.

Lemma set_nodes_twice m m' s : set_nodes m (set_nodes m' s) = set_nodes m s.
Proof. done. Qed.

(** ** Array stores *)

Lemma array_get_run {S A} (l : list A) (i : nat) a (t : S) :
  l !! i = Some a → (array_get l (Z.of_nat i) : M S A) t = (Ok a, t).
Proof. intros H. unfold array_get. rewrite (proj2 (Z.leb_le _ _)), Nat2Z.id, H by lia. done. Qed.

Lemma in_array_true {A} (l : list A) (i : nat) : (i < length l)%nat → in_array l (Z.of_nat i) = true.
Proof. intros H. unfold in_array. apply andb_true_iff. rewrite Z.leb_le, Z.ltb_lt. lia. Qed.

Section Handle.
Context (s : IxState) (p : Z) (x : IxNode) (Hx : nodes s !! p = Some x).

Lemma on_get_key (i : nat) k : keys x !! i = Some k → on_node p (λ _, get_key (Z.of_nat i)) s = (Ok k, s).
Proof using Hx.
  intros H. apply (on_node_pure p (λ _, get_key (Z.of_nat i)) s x); [done|].
  unfold get_key. rewrite st_get_bind. by apply array_get_run.
Qed.

Lemma on_get_rid (i : nat) r : rids x !! i = Some r → on_node p (λ _, get_rid (Z.of_nat i)) s = (Ok r, s).
Proof using Hx.
  intros H. apply (on_node_pure p (λ _, get_rid (Z.of_nat i)) s x); [done|].
  unfold get_rid. rewrite st_get_bind. by apply array_get_run.
Qed.

Lemma on_ValueAt (i : nat) r : rids x !! i = Some r → on_node p (λ _, ValueAt (Z.of_nat i)) s = (Ok (rid_page_no r), s).
Proof using Hx.
  intros H. apply (on_node_pure p (λ _, ValueAt (Z.of_nat i)) s x); [done|].
  unfold ValueAt, get_rid, st_bind, get_st. by rewrite (array_get_run _ _ _ _ H).
Qed.

Lemma on_set_key (i : nat) k : (i < length (keys x))%nat →
  on_node p (λ _, set_key (Z.of_nat i) k) s
  = (Ok tt, set_nodes (<[p := set_arrays (<[i := k]> (keys x)) (rids x) x]> (nodes s)) s).
Proof using Hx.
  intros H. apply (on_node_run p (λ _, set_key (Z.of_nat i) k) s x); [done|].
  unfold set_key. rewrite st_get_bind, in_array_true by done. unfold put_st. by rewrite Nat2Z.id.
Qed.

Lemma on_set_rid (i : nat) r : (i < length (rids x))%nat →
  on_node p (λ _, set_rid (Z.of_nat i) r) s
  = (Ok tt, set_nodes (<[p := set_arrays (keys x) (<[i := r]> (rids x)) x]> (nodes s)) s).
Proof using Hx.
  intros H. apply (on_node_run p (λ _, set_rid (Z.of_nat i) r) s x); [done|].
  unfold set_rid. rewrite st_get_bind, in_array_true by done. unfold put_st. by rewrite Nat2Z.id.
Qed.

End Handle.

(** ** evenlyDistributePairs *)

Lemma copy_pairs_run s n q (half i : nat) xn xq k r :
  nodes s !! n = Some xn → nodes s !! q = Some xq → n ≠ q →
  keys xq !! (half + i)%nat = Some k → rids xq !! (half + i)%nat = Some r →
  (i < length (keys xn))%nat → (i < length (rids xn))%nat →
  copy_pairs n q (Z.of_nat half) (Z.of_nat i) s
  = (Ok tt, set_nodes (<[n := set_arrays (<[i := k]> (keys xn)) (<[i := r]> (rids xn)) xn]> (nodes s)) s).
Proof.
  intros Hn Hq Hne Hk Hr Hi1 Hi2. unfold copy_pairs. rewrite <- Nat2Z.inj_add.
  mstep (on_get_key s q xq Hq _ k Hk). mstep (on_set_key s n xn Hn i k Hi1).
  set (x1 := set_arrays (<[i := k]> (keys xn)) (rids xn) xn).
  set (s1 := set_nodes (<[n := x1]> (nodes s)) s).
  assert (Hq1 : nodes s1 !! q = Some xq) by (unfold s1; simpl; by rewrite lookup_insert_ne).
  assert (Hn1 : nodes s1 !! n = Some x1) by apply lookup_insert_eq.
  mstep (on_get_rid s1 q xq Hq1 _ r Hr). rewrite (on_set_rid s1 n x1 Hn1 i r Hi2). unfold s1. simpl.
  by rewrite insert_insert_eq.
Qed.

Lemma splice_step {A} (a m off : nat) (src dst : list A) v :
  src !! off = Some v → (off + S m ≤ length src)%nat → (a + S m ≤ length dst)%nat →
  splice (S a) (slice (S off) m src) (<[a := v]> dst) = splice a (slice off (S m) src) dst.
Proof.
  intros Hv Hs Hd. unfold splice. rewrite !length_slice by lia.
  assert (Hsl : slice off (S m) src = v :: slice (S off) m src) by (unfold slice; by rewrite (drop_S _ _ _ Hv)).
  rewrite Hsl. rewrite drop_insert_lt by lia.
  rewrite (take_S_r _ a v) by (apply list_lookup_insert_eq; lia). rewrite take_insert_ge by lia.
  rewrite <- app_assoc. simpl. do 3 f_equal. f_equal. lia.
Qed.

Lemma splice_nil {A} (a : nat) (dst : list A) : splice a [] dst = dst.
Proof. unfold splice. simpl. by rewrite Nat.add_0_r, take_drop. Qed.

Lemma slice_0 {A} (a : nat) (l : list A) : slice a 0 l = [].
Proof. done. Qed.

Lemma copy_loop (m a : nat) s n q (half : nat) xn xq :
  nodes s !! n = Some xn → nodes s !! q = Some xq → n ≠ q →
  (half + a + m ≤ length (keys xq))%nat → (half + a + m ≤ length (rids xq))%nat →
  (a + m ≤ length (keys xn))%nat → (a + m ≤ length (rids xn))%nat →
  st_iter (copy_pairs n q (Z.of_nat half)) (Z.of_nat <$> seq a m) s
  = (Ok tt, set_nodes (<[n := set_arrays (splice a (slice (half + a) m (keys xq)) (keys xn))
                                (splice a (slice (half + a) m (rids xq)) (rids xn)) xn]> (nodes s)) s).
Proof.
  revert a s xn. induction m as [|m IH]; intros a s xn Hn Hq Hne H1 H2 H3 H4; simpl.
  - rewrite !slice_0, !splice_nil. unfold st_ret. rewrite insert_id; [by destruct s|]. rewrite Hn. by destruct xn.
  - destruct (lookup_lt_is_Some_2 (keys xq) (half + a)) as [k Hk]; [lia|].
    destruct (lookup_lt_is_Some_2 (rids xq) (half + a)) as [r Hr]; [lia|].
    mstep (copy_pairs_run s n q half a xn xq k r Hn Hq Hne Hk Hr ltac:(lia) ltac:(lia)).
    set (x1 := set_arrays (<[a := k]> (keys xn)) (<[a := r]> (rids xn)) xn).
    rewrite (IH (S a) (set_nodes (<[n := x1]> (nodes s)) s) x1); simpl;
      rewrite ?length_insert; try lia; [| apply lookup_insert_eq | by rewrite lookup_insert_ne].
    rewrite insert_insert_eq, set_nodes_twice. do 3 f_equal. unfold set_arrays, x1. simpl.
    rewrite Nat.add_succ_r, !splice_step by (done || lia). done.
Qed.

(** Look a page up behind other stores. *)
Ltac page_lookup :=
  simpl; repeat first [rewrite lookup_insert_eq | rewrite lookup_insert_ne by (done || congruence)]; try done.

(** The new node takes the upper half of a full node's pairs. *)
Definition upper_half (x xn : IxNode) : IxNode :=
  let half := Z.to_nat (num_key x `quot` 2) in
  let m := Z.to_nat (num_key x - num_key x `quot` 2) in
  set_arrays (splice 0 (slice half m (keys x)) (keys xn)) (splice 0 (slice half m (rids x)) (rids xn))
    (SetParentPageNo (parent x) (SetSize (num_key x - num_key x `quot` 2) (set_leaf (is_leaf x) xn))).

Lemma half_bounds n : 0 ≤ n → 0 ≤ n `quot` 2 ≤ n.
Proof. intros. rewrite Z.quot_div_nonneg by lia. split; [apply Z.div_pos; lia|]. apply Z.div_le_upper_bound; lia. Qed.

Lemma evenlyDistributePairs_run s n q xn x :
  nodes s !! n = Some xn → nodes s !! q = Some x → n ≠ q → 0 ≤ num_key x →
  (Z.to_nat (num_key x) ≤ length (keys x))%nat → (Z.to_nat (num_key x) ≤ length (rids x))%nat →
  (Z.to_nat (num_key x) ≤ length (keys xn))%nat → (Z.to_nat (num_key x) ≤ length (rids xn))%nat →
  evenlyDistributePairs n q s
  = (Ok tt, set_nodes (<[n := upper_half x xn]> (<[q := SetSize (num_key x `quot` 2) x]> (nodes s))) s).
Proof.
  intros Hn Hq Hne Hsz H1 H2 H3 H4. pose proof (half_bounds _ Hsz) as Hh. unfold evenlyDistributePairs.
  mstep (read_node_run q num_key s x Hq). mstep (read_node_run q is_leaf s x Hq).
  mstep (upd_node_run n (set_leaf (is_leaf x)) s xn Hn).
  set (x1 := set_leaf (is_leaf x) xn). set (s1 := set_nodes (<[n := x1]> (nodes s)) s).
  assert (Hn1 : nodes s1 !! n = Some x1) by page_lookup.
  mstep (upd_node_run n (SetSize (num_key x - num_key x `quot` 2)) s1 x1 Hn1).
  set (x2 := SetSize (num_key x - num_key x `quot` 2) x1). set (s2 := set_nodes (<[n := x2]> (nodes s1)) s1).
  assert (Hq2 : nodes s2 !! q = Some x) by page_lookup.
  mstep (upd_node_run q (SetSize (num_key x `quot` 2)) s2 x Hq2).
  set (xq := SetSize (num_key x `quot` 2) x). set (s3 := set_nodes (<[q := xq]> (nodes s2)) s2).
  assert (Hq3 : nodes s3 !! q = Some xq) by page_lookup.
  mstep (read_node_run q parent s3 xq Hq3). assert (Hn3 : nodes s3 !! n = Some x2) by page_lookup.
  mstep (upd_node_run n (SetParentPageNo (parent xq)) s3 x2 Hn3).
  set (x3 := SetParentPageNo (parent xq) x2). set (s4 := set_nodes (<[n := x3]> (nodes s3)) s3).
  assert (Hn4 : nodes s4 !! n = Some x3) by page_lookup. assert (Hq4 : nodes s4 !! q = Some xq) by page_lookup.
  mstep (read_node_run n num_key s4 x3 Hn4). change (num_key x3) with (num_key x - num_key x `quot` 2).
  unfold zseq. rewrite <- (Z2Nat.id (num_key x `quot` 2)) at 1 by lia.
  rewrite (copy_loop _ 0 s4 n q _ x3 xq Hn4 Hq4 Hne); simpl; try lia.
  rewrite Nat.add_0_r. unfold s4, s3, s2, s1. rewrite !set_nodes_twice. cbn [nodes set_nodes].
  rewrite (insert_insert_eq _ n), (insert_insert_ne _ q n), !insert_insert_eq by done. rewrite (insert_insert_ne _ q n), !insert_insert_eq by done. done.
Qed.

(** ** Parents and links *)

Definition adopt (node : Z) (ps : list Z) (ns ns' : gmap Z IxNode) : Prop :=
  ∀ p, ns' !! p = if decide (p ∈ ps) then SetParentPageNo node <$> ns !! p else ns !! p.

Lemma maintain_child_run s node y (i : nat) r yc :
  nodes s !! node = Some y → is_leaf y = false → rids y !! i = Some r → nodes s !! rid_page_no r = Some yc →
  ∃ m, maintain_child node (Z.of_nat i) s
       = (Ok tt, set_pinmap m (set_nodes (<[rid_page_no r := SetParentPageNo node yc]> (nodes s)) s)).
Proof.
  intros Hy Hl Hr Hc. unfold maintain_child. mstep (read_node_run node is_leaf s y Hy). rewrite Hl. simpl.
  mstep (on_ValueAt s node y Hy i r Hr). destruct (FetchNode_run (rid_page_no r) s yc Hc) as [m1 H1]. mstep H1.
  mstep (upd_node_run (rid_page_no r) (SetParentPageNo node) (set_pinmap m1 s) yc Hc).
  edestruct (UnpinPage_run (rid_page_no r) true) as (b & m2 & H2). mstep H2. by exists m2.
Qed.

Lemma maintain_children s node y (a : nat) rs :
  nodes s !! node = Some y → is_leaf y = false →
  (∀ j r, rs !! j = Some r → rids y !! (a + j)%nat = Some r ∧ rid_page_no r ≠ node ∧ is_Some (nodes s !! rid_page_no r)) →
  ∃ s', st_iter (maintain_child node) (Z.of_nat <$> seq a (length rs)) s = (Ok tt, s') ∧
    file_hdr s' = file_hdr s ∧ next_page s' = next_page s ∧ adopt node (rid_page_no <$> rs) (nodes s) (nodes s').
Proof.
  intros Hy Hl. revert a s Hy. induction rs as [|r rs IH]; intros a s Hy H; simpl.
  - by exists s.
  - destruct (H O r eq_refl) as (Hr & Hne & [yc Hyc]). rewrite Nat.add_0_r in Hr.
    destruct (maintain_child_run s node y a r yc Hy Hl Hr Hyc) as [m Hm]. mstep Hm.
    destruct (IH (S a) (set_pinmap m (set_nodes (<[rid_page_no r := SetParentPageNo node yc]> (nodes s)) s)))
      as (s' & H1 & H2 & H3 & H4).
    { page_lookup. }
    { intros j r' Hj. destruct (H (S j) r' Hj) as (E1 & E2 & E3). split; [by rewrite Nat.add_succ_l, <- Nat.add_succ_r|].
      split; [done|]. simpl. apply lookup_insert_is_Some'. by right. }
    exists s'. split_and!; try done. intros p. rewrite (H4 p). simpl.
    destruct (decide (p = rid_page_no r)) as [->|Hp].
    + rewrite lookup_insert_eq, Hyc. rewrite (decide_True (P := rid_page_no r ∈ rid_page_no r :: _)) by (by left).
      by destruct (decide _).
    + rewrite lookup_insert_ne by done. destruct (decide (p ∈ rid_page_no <$> rs)) as [Hin|Hin].
      * by rewrite decide_True by (by right).
      * rewrite decide_False; [done|]. by intros [?|?]%elem_of_cons.
Qed.

Lemma insertLeaf_run s q n xq xn y :
  nodes s !! q = Some xq → nodes s !! n = Some xn → q ≠ n → next_leaf xq ≠ INVALID_PAGE_ID →
  nodes s !! next_leaf xq = Some y → next_leaf xq ≠ q → next_leaf xq ≠ n →
  ∃ m, insertLeaf q n true s = (Ok tt, set_pinmap m (set_nodes
    (<[next_leaf xq := SetPrevLeaf n y]> (<[q := SetNextLeaf n xq]>
      (<[n := SetPrevLeaf q (SetNextLeaf (next_leaf xq) xn)]> (nodes s)))) s)).
Proof.
  intros Hq Hn Hne Hinv Hy Hyq Hyn. unfold insertLeaf.
  mstep (read_node_run q next_leaf s xq Hq). mstep (upd_node_run n (SetNextLeaf (next_leaf xq)) s xn Hn).
  set (x1 := SetNextLeaf (next_leaf xq) xn). set (s1 := set_nodes (<[n := x1]> (nodes s)) s).
  assert (Hn1 : nodes s1 !! n = Some x1) by page_lookup.
  set (x2 := SetPrevLeaf q x1). set (s2 := set_nodes (<[n := x2]> (nodes s1)) s1).
  assert (Hq2 : nodes s2 !! q = Some xq) by page_lookup.
  set (s3 := set_nodes (<[q := SetNextLeaf n xq]> (nodes s2)) s2).
  assert (H3 : (upd_node n (SetPrevLeaf q) ;; upd_node q (SetNextLeaf n)) s1 = (Ok tt, s3)).
  { mstep (upd_node_run n (SetPrevLeaf q) s1 x1 Hn1). apply (upd_node_run q (SetNextLeaf n) s2 xq Hq2). }
  mstep H3. assert (Hn3 : nodes s3 !! n = Some x2) by page_lookup.
  mstep (read_node_run n next_leaf s3 x2 Hn3). change (next_leaf x2) with (next_leaf xq).
  rewrite (proj2 (Z.eqb_neq _ _) Hinv). simpl.
  assert (Hy3 : nodes s3 !! next_leaf xq = Some y) by page_lookup.
  destruct (FetchNode_run _ s3 y Hy3) as [m1 H1]. mstep H1.
  mstep (upd_node_run (next_leaf xq) (SetPrevLeaf n) (set_pinmap m1 s3) y Hy3).
  edestruct (UnpinPage_run (next_leaf xq) true) as (b & m2 & H2). mstep H2. exists m2. unfold st_ret. f_equal.
  unfold s3, s2, s1. simpl. unfold set_nodes, set_pinmap. simpl. by rewrite insert_insert_eq.
Qed.

(** ** Split *)

Definition half_of (x : IxNode) : nat := Z.to_nat (num_key x `quot` 2).

(** The pages after splitting [q], which held [x], into [q] and the new page
    [n]; [zk] fills the unused key slots of a new page. *)
Record split_result (x : IxNode) (q n : Z) (zk : key) (ns ns' : gmap Z IxNode) : Prop := {
  sr_q : ∃ xq, ns' !! q = Some xq ∧ num_key xq = num_key x `quot` 2 ∧ keys xq = keys x ∧ rids xq = rids x ∧
    is_leaf xq = is_leaf x ∧ parent xq = parent x ∧ (is_leaf x = true → next_leaf xq = n);
  sr_n : ∃ xn, ns' !! n = Some xn ∧ num_key xn = num_key x - num_key x `quot` 2 ∧
    length (keys xn) = length (keys x) ∧ length (rids xn) = length (keys x) ∧
    live_keys xn = drop (half_of x) (keys x) ∧ live_rids xn = drop (half_of x) (rids x) ∧
    (∀ i k, (Z.to_nat (num_key xn) ≤ i)%nat → keys xn !! i = Some k → k = zk) ∧
    is_leaf xn = is_leaf x ∧ parent xn = parent x ∧ (is_leaf x = true → next_leaf xn = next_leaf x);
  sr_other : ∀ p y, p ≠ q → p ≠ n → ns !! p = Some y →
    ∃ y', ns' !! p = Some y' ∧ same_node y y' ∧
      parent y' = if decide (is_leaf x = false ∧ p ∈ rid_page_no <$> drop (half_of x) (rids x)) then n else parent y
}.

Lemma upper_half_live x z (N : nat) :
  num_key x = Z.of_nat N → length (keys x) = N → length (rids x) = N → length (keys z) = N → length (rids z) = N →
  let y := upper_half x z in
  length (keys y) = N ∧ length (rids y) = N ∧ live_keys y = drop (half_of x) (keys x) ∧
  live_rids y = drop (half_of x) (rids x) ∧
  ∀ i, (Z.to_nat (num_key y) ≤ i)%nat → keys y !! i = keys z !! i.
Proof.
  intros Hn Hk Hr Hzk Hzr y. pose proof (half_bounds (num_key x) ltac:(lia)) as Hh.
  set (m := Z.to_nat (num_key x - num_key x `quot` 2)).
  assert (Hm : (half_of x + m = N)%nat) by (unfold half_of, m; lia).
  assert (Hsl : ∀ A (l : list A), length l = N → slice (half_of x) m l = drop (half_of x) l).
  { intros A l Hl. unfold slice. apply take_ge. rewrite length_drop. lia. }
  assert (E1 : keys y = splice 0 (drop (half_of x) (keys x)) (keys z)) by (rewrite <- (Hsl _ _ Hk); done).
  assert (E2 : rids y = splice 0 (drop (half_of x) (rids x)) (rids z)) by (rewrite <- (Hsl _ _ Hr); done).
  assert (L1 : length (drop (half_of x) (keys x)) = m) by (rewrite length_drop; lia).
  assert (L2 : length (drop (half_of x) (rids x)) = m) by (rewrite length_drop; lia).
  assert (Hny : Z.to_nat (num_key y) = m) by done.
  unfold live_keys, live_rids. rewrite Hny, E1, E2. split_and!.
  - rewrite length_splice; lia.
  - rewrite length_splice; lia.
  - unfold splice. simpl. by rewrite take_app_length'.
  - unfold splice. simpl. by rewrite take_app_length'.
  - intros i Hi. apply lookup_splice_out; rewrite L1; lia.
Qed.

Lemma CreateNode_run s :
  ∃ h, CreateNode s = (Ok (next_page s), MkIx h (<[next_page s := zero_node (file_hdr s)]> (nodes s))
                                           (<[next_page s := (1, false)]> (pins s)) (next_page s + 1)) ∧ hdr_same (file_hdr s) h.
Proof. eexists. split; [reflexivity|]. repeat split. Qed.

Lemma Split_run s q x (N : nat) :
  nodes s !! q = Some x → num_key x = Z.of_nat N → length (keys x) = N → length (rids x) = N →
  btree_order (file_hdr s) + 1 = Z.of_nat N → q ≠ next_page s →
  (is_leaf x = true → next_leaf x ≠ INVALID_PAGE_ID ∧ next_leaf x ≠ q ∧ next_leaf x ≠ next_page s ∧
     is_Some (nodes s !! next_leaf x)) →
  (is_leaf x = false → ∀ r, r ∈ drop (half_of x) (rids x) →
     rid_page_no r ≠ q ∧ rid_page_no r ≠ next_page s ∧ is_Some (nodes s !! rid_page_no r)) →
  ∃ s', Split q s = (Ok (next_page s), s') ∧ hdr_same (file_hdr s) (file_hdr s') ∧
    next_page s' = next_page s + 1 ∧
    split_result x q (next_page s) (zeros (Z.to_nat (col_len (file_hdr s)))) (nodes s) (nodes s').
Proof.
  intros Hq HN Hk Hr Ho Hne Hleaf Hint. set (n := next_page s) in *. unfold Split.
  destruct (CreateNode_run s) as (h & Hc & Hh). fold n in Hc. mstep Hc. set (z := zero_node (file_hdr s)).
  set (s1 := MkIx h (<[n := z]> (nodes s)) (<[n := (1, false)]> (pins s)) (n + 1)).
  assert (Lz : length (keys z) = N ∧ length (rids z) = N).
  { unfold z, zero_node. simpl. rewrite !length_replicate. lia. }
  destruct Lz as [Lz1 Lz2].
  assert (Hn1 : nodes s1 !! n = Some z) by page_lookup. assert (Hq1 : nodes s1 !! q = Some x) by page_lookup.
  mstep (evenlyDistributePairs_run s1 n q z x Hn1 Hq1 ltac:(congruence) ltac:(lia) ltac:(lia) ltac:(lia) ltac:(lia) ltac:(lia)).
  set (xn := upper_half x z). set (xq := SetSize (num_key x `quot` 2) x).
  set (s2 := set_nodes (<[n := xn]> (<[q := xq]> (nodes s1))) s1).
  destruct (upper_half_live x z N HN Hk Hr Lz1 Lz2) as (U1 & U2 & U3 & U4 & U5). fold xn in U1, U2, U3, U4, U5.
  assert (Un1 : length (keys xn) = length (keys x)) by congruence.
  assert (Un2 : length (rids xn) = length (keys x)) by congruence.
  assert (U6 : ∀ i k, (Z.to_nat (num_key xn) ≤ i)%nat → keys xn !! i = Some k → k = zeros (Z.to_nat (col_len (file_hdr s)))).
  { intros i k Hi. rewrite (U5 i Hi). unfold z, zero_node. simpl. by intros [-> _]%lookup_replicate. }
  assert (Hn2 : nodes s2 !! n = Some xn) by page_lookup. assert (Hq2 : nodes s2 !! q = Some xq) by page_lookup.
  assert (Ho2 : ∀ p, p ≠ q → p ≠ n → nodes s2 !! p = nodes s !! p) by (intros p ? ?; page_lookup).
  mstep (read_node_run n is_leaf s2 xn Hn2). change (is_leaf xn) with (is_leaf x).
  destruct (is_leaf x) eqn:El.
  - destruct (Hleaf eq_refl) as (E1 & E2 & E3 & [y Hy]).
    assert (Hy2 : nodes s2 !! next_leaf xq = Some y) by (rewrite Ho2; done).
    destruct (insertLeaf_run s2 q n xq xn y Hq2 Hn2 Hne E1 Hy2 E2 E3) as [m Hm]. mstep Hm.
    change (next_leaf xq) with (next_leaf x).
    eexists. split; [reflexivity|]. split; [done|]. split; [done|]. split; simpl.
    + exists (SetNextLeaf n xq). split; [page_lookup|]. by rewrite El.
    + exists (SetPrevLeaf q (SetNextLeaf (next_leaf x) xn)). split; [page_lookup|]. rewrite El.
      split_and!; first [exact Un1|exact Un2|exact U3|exact U4|exact U6|done].
    + intros p y' Hpq Hpn Hp. rewrite decide_False by (by intros [? _]; congruence).
      destruct (decide (p = next_leaf x)) as [->|Hpx].
      * exists (SetPrevLeaf n y). split; [page_lookup|]. assert (y' = y) as -> by congruence. done.
      * exists y'. split; [page_lookup|]. done.
  - assert (Hlen : zseq (num_key xn) = Z.of_nat <$> seq 0 (length (live_rids xn))).
    { unfold zseq. rewrite U4, length_drop, Hr. do 2 f_equal. unfold half_of. simpl.
      pose proof (half_bounds (num_key x) ltac:(lia)). lia. }
    destruct (maintain_children s2 n xn 0 (live_rids xn) Hn2 El) as (s' & H1 & H2 & H3 & H4).
    { intros j r Hj. simpl. assert (Hin : r ∈ drop (half_of x) (rids x)).
      { rewrite <- U4. by eapply list_elem_of_lookup_2. }
      destruct (Hint eq_refl r Hin) as (E1 & E2 & E3). split; [|split; [done|by rewrite Ho2]].
      unfold live_rids in Hj. apply lookup_take_Some in Hj. apply Hj. }
    assert (Hloop : (k ← read_node n num_key; st_iter (maintain_child n) (zseq k)) s2 = (Ok tt, s')).
    { mstep (read_node_run n num_key s2 xn Hn2). by rewrite Hlen. }
    mstep Hloop. exists s'. split; [done|]. split; [by rewrite H2|]. split; [by rewrite H3|].
    assert (Hnot : ∀ p, p = q ∨ p = n → ¬ (p ∈ rid_page_no <$> live_rids xn)).
    { intros p Hp (r & -> & Hin)%list_elem_of_fmap. rewrite U4 in Hin. destruct (Hint eq_refl r Hin) as (? & ? & _). by destruct Hp. }
    split.
    + exists xq. rewrite (H4 q), decide_False by auto. split; [done|]. by rewrite El.
    + exists xn. rewrite (H4 n), decide_False by auto. split; [done|]. rewrite El.
      split_and!; first [exact Un1|exact Un2|exact U3|exact U4|exact U6|done].
    + intros p y Hpq Hpn Hp. rewrite (H4 p), U4. destruct (decide (p ∈ _)) as [Hin|Hin].
      * exists (SetParentPageNo n y). rewrite Ho2, Hp by done. split; [done|]. split; [done|]. by rewrite decide_True.
      * exists y. rewrite Ho2, Hp by done. split; [done|]. split; [done|]. rewrite decide_False; [done|]. by intros [_ ?].
Qed.

(** ** A new root *)

Definition root_node (xR : IxNode) (q n : Z) (k0 k1 : key) : IxNode :=
  set_arrays (<[1%nat := k1]> (<[0%nat := k0]> (keys xR)))
    (<[1%nat := MkRid n (-1)]> (<[0%nat := MkRid q (-1)]> (rids xR)))
    (SetParentPageNo INVALID_PAGE_ID (SetSize 2 (set_leaf false xR))).

Lemma setNewRoot_run s R q n xR xq xn k0 k1 :
  R ≠ q → R ≠ n → q ≠ n → nodes s !! R = Some xR → nodes s !! q = Some xq → nodes s !! n = Some xn →
  keys xq !! O = Some k0 → keys xn !! O = Some k1 → (2 ≤ length (keys xR))%nat → (2 ≤ length (rids xR))%nat →
  ∃ s', setNewRoot R q n s = (Ok tt, s') ∧ file_hdr s' = with_root R (file_hdr s) ∧ next_page s' = next_page s ∧
    nodes s' !! R = Some (root_node xR q n k0 k1) ∧ nodes s' !! q = Some (SetParentPageNo R xq) ∧
    nodes s' !! n = Some (SetParentPageNo R xn) ∧
    ∀ p, p ≠ R → p ≠ q → p ≠ n → nodes s' !! p = nodes s !! p.
Proof.
  intros HRq HRn Hqn HR Hq Hn Hk0 Hk1 L1 L2. unfold setNewRoot.
  mstep (upd_node_run R (set_leaf false) s xR HR). set (x1 := set_leaf false xR).
  set (s1 := set_nodes (<[R := x1]> (nodes s)) s). assert (H1 : nodes s1 !! R = Some x1) by page_lookup.
  mstep (upd_node_run R (SetSize 2) s1 x1 H1). set (x2 := SetSize 2 x1).
  set (s2 := set_nodes (<[R := x2]> (nodes s1)) s1). assert (H2 : nodes s2 !! R = Some x2) by page_lookup.
  mstep (upd_node_run R (SetParentPageNo INVALID_PAGE_ID) s2 x2 H2). set (x3 := SetParentPageNo INVALID_PAGE_ID x2).
  set (s3 := set_nodes (<[R := x3]> (nodes s2)) s2).
  assert (Hu : UpdateRootPageNo R s3 = (Ok tt, set_file_hdr (with_root R (file_hdr s3)) s3)) by done.
  mstep Hu. set (s4 := set_file_hdr (with_root R (file_hdr s3)) s3).
  assert (H4 : nodes s4 !! R = Some x3) by page_lookup. assert (Hq4 : nodes s4 !! q = Some xq) by page_lookup.
  mstep (on_get_key s4 q xq Hq4 0 k0 Hk0). mstep (on_set_key s4 R x3 H4 0 k0 ltac:(simpl; lia)).
  set (x4 := set_arrays (<[0%nat := k0]> (keys x3)) (rids x3) x3). set (s5 := set_nodes (<[R := x4]> (nodes s4)) s4).
  assert (H5 : nodes s5 !! R = Some x4) by page_lookup.
  mstep (on_set_rid s5 R x4 H5 0 (MkRid q (-1)) ltac:(simpl; lia)).
  set (x5 := set_arrays (keys x4) (<[0%nat := MkRid q (-1)]> (rids x4)) x4).
  set (s6 := set_nodes (<[R := x5]> (nodes s5)) s5). assert (H6 : nodes s6 !! R = Some x5) by page_lookup.
  assert (Hn6 : nodes s6 !! n = Some xn) by page_lookup.
  mstep (on_get_key s6 n xn Hn6 0 k1 Hk1).
  mstep (on_set_key s6 R x5 H6 1 k1 ltac:(simpl; rewrite ?length_insert; lia)).
  set (x6 := set_arrays (<[1%nat := k1]> (keys x5)) (rids x5) x5). set (s7 := set_nodes (<[R := x6]> (nodes s6)) s6).
  assert (H7 : nodes s7 !! R = Some x6) by page_lookup.
  mstep (on_set_rid s7 R x6 H7 1 (MkRid n (-1)) ltac:(simpl; rewrite ?length_insert; lia)).
  set (x7 := set_arrays (keys x6) (<[1%nat := MkRid n (-1)]> (rids x6)) x6).
  set (s8 := set_nodes (<[R := x7]> (nodes s7)) s7). assert (H8 : nodes s8 !! R = Some x7) by page_lookup.
  assert (Ho8 : ∀ p, p ≠ R → nodes s8 !! p = nodes s !! p) by (intros p Hp; page_lookup).
  mstep (read_node_run R num_key s8 x7 H8). change (zseq (num_key x7)) with (Z.of_nat <$> seq 0 2).
  destruct (maintain_children s8 R x7 0 [MkRid q (-1); MkRid n (-1)] H8 eq_refl) as (s9 & H9 & Hh9 & Hp9 & Had).
  { intros [|[|j]] r Hj; simpl in Hj; try done; injection Hj as <-; simpl; rewrite Ho8 by done.
    - split; [|eauto]. rewrite list_lookup_insert_ne, list_lookup_insert_eq by (done || lia). done.
    - split; [|eauto]. rewrite list_lookup_insert_eq; [done|]. rewrite length_insert. lia. }
  cbn [length] in H9. mstep H9. destruct (UnpinPage_run R true s9) as (b & m & Hun). mstep Hun.
  eexists. split; [reflexivity|]. split; [exact Hh9|]. split; [exact Hp9|]. simpl.
  split; [|split; [|split]].
  - rewrite (Had R), decide_False, H8; [done|]. simpl. set_solver.
  - rewrite (Had q), decide_True, Ho8, Hq by (done || simpl; set_solver). done.
  - rewrite (Had n), decide_True, Ho8, Hn by (done || simpl; set_solver). done.
  - intros p Ep Eq En. rewrite (Had p), decide_False, Ho8; [done|done|]. simpl. set_solver.
Qed.
