(* ===== verification/IxTreeInsert.v ===== *)
(** Insertion into the B+ tree: [insert_entry], with node splits up to a new
    root, keeps the tree invariant and adds exactly the new binding.

    Two things the code leaves to its callers appear as conditions.  The code
    compares a key with the array slot just past the live entries, so keys must
    differ from what fresh pages hold there ([ok] and [dead]).  And the code does
    not lower the separators on the way down, so a key must not be below the
    first separator of the root; [IxTreeRuns] shows what happens otherwise. *)
From S2P Require Import Prelude Config IxKey IxNode IxNodeSpec IxTree IxTreeSpec IxTreeSplit.

Section Insert.
Context (fh : IxFileHdr) (ok : key → Prop) {KO : KeyOrder (compare fh) ok}.
Implicit Types (x : IxNode) (k : key) (s : IxState) (G : gmap Z info) (g : info) (p q : Z) (ns : gmap Z IxNode).
Abbreviation cmp := (compare fh).
Abbreviation order := (btree_order fh).
Abbreviation page_ok := (page_ok fh ok strict).
Abbreviation tree_inv := (tree_inv fh ok strict).
Abbreviation within := (within fh).
Abbreviation no_full := (λ _ : Z, False).

Lemma live_same x y : same_node x y → live_keys y = live_keys x ∧ live_rids y = live_rids x ∧ entries y = entries x.
Proof. intros (E1 & _ & _ & E2 & E3). unfold entries, live_keys, live_rids. by rewrite E1, E2, E3. Qed.

Lemma node_ok_same x y : same_node x y → node_ok fh ok x → node_ok fh ok y.
Proof.
  intros Hs [H1 H2 H3 H4]. pose proof (live_same x y Hs) as (L1 & _ & _). destruct Hs as (E1 & _ & _ & E2 & E3).
  split; rewrite ?L1, ?E1, ?E2, ?E3; done.
Qed.

(** A page is still right when its children and right neighbour are. *)
Lemma page_ok_frame ns ns' G G' (full full' : Z → Prop) p g x x' :
  page_ok ns G full p g x → same_node x x' → (num_key x ≤ order ∨ full' p) →
  (ht g = O → ∀ c gc u, G !! c = Some gc → lo gc = Some u →
     ∃ gc', G' !! c = Some gc' ∧ ht gc' = ht gc ∧ lo gc' = lo gc) →
  (ht g ≠ O → ∀ i r gc xc, live_rids x !! i = Some r → G !! rid_page_no r = Some gc → ns !! rid_page_no r = Some xc →
     parent xc = p → G' !! rid_page_no r = Some gc ∧ ∃ xc', ns' !! rid_page_no r = Some xc' ∧ parent xc' = p) →
  page_ok ns' G' full' p g x'.
Proof.
  intros PO Hs Hroom Hnext Hkids. pose proof (live_same x x' Hs) as (L1 & L2 & _).
  pose proof (node_ok_same x x' Hs (po_node _ _ _ _ _ _ _ _ _ PO)) as Hn.
  destruct PO as [P1 P2 P3 P4 P5 P6 P7 P8 P9 P10 P11]. destruct Hs as (E1 & E2 & E3 & E4 & E5).
  split; rewrite ?E1, ?E2, ?E4, ?L1, ?L2; try done.
  - intros Hh. specialize (P8 Hh). unfold next_ok in *. rewrite E3. destruct (hi g) as [u|]; [|done].
    destruct P8 as (gn & HG & Hhn & Hlo). destruct (Hnext Hh _ _ _ HG Hlo) as (gn' & HG' & Hh' & Hl'). exists gn'.
    split_and!; [done|congruence|congruence].
  - intros Hh i r Hr. destruct (P10 Hh i r Hr) as (gc & xc & HG & Hxc & Hp & Hht & Hlo & Hhi).
    destruct (Hkids Hh i r gc xc Hr HG Hxc Hp) as (HG' & xc' & Hxc' & Hp'). exists gc, xc'.
    split_and!; try done; unfold child_lo, child_hi in *; by rewrite ?L1.
Qed.

(** ** The two halves of a full page *)

Section Halves.
Context (s : IxState) (G : gmap Z info) (q : Z) (gq : info) (x : IxNode).
Context (TI : tree_inv (eq q) s G) (HG : G !! q = Some gq) (Hx : nodes s !! q = Some x) (Hfull : num_key x = order + 1).
Context (n : Z).

Definition slots : nat := Z.to_nat (order + 1).

Lemma full_page : page_ok (nodes s) G (eq q) q gq x.
Proof using TI HG Hx. destruct (ti_page _ _ _ _ _ _ TI q gq HG) as (_ & x' & Hx' & PO). by assert (x' = x) as -> by congruence. Qed.

Lemma full_len : length (keys x) = slots ∧ length (rids x) = slots ∧ (4 ≤ slots)%nat ∧ Z.to_nat (num_key x) = slots.
Proof using TI HG Hx Hfull.
  pose proof full_page as PO. pose proof (po_len _ _ _ _ _ _ _ _ _ PO) as Hl.
  pose proof (no_rids _ _ _ (po_node _ _ _ _ _ _ _ _ _ PO)). pose proof (ti_order _ _ _ _ _ _ TI).
  unfold slots. lia.
Qed.

Lemma full_live : live_keys x = keys x ∧ live_rids x = rids x.
Proof using TI HG Hx Hfull.
  destruct full_len as (L1 & L2 & _ & L4). unfold live_keys, live_rids. by rewrite L4, !take_ge by lia.
Qed.

Lemma half_range : (0 < half_of x < slots)%nat.
Proof using TI HG Hx Hfull.
  destruct full_len as (_ & _ & L3 & L4). unfold half_of. pose proof (half_bounds (num_key x) ltac:(lia)).
  rewrite Z.quot_div_nonneg in * by lia.
  pose proof (Z.div_lt_upper_bound (num_key x) 2 (num_key x) ltac:(lia) ltac:(lia)).
  pose proof (Z.div_le_lower_bound (num_key x) 2 1 ltac:(lia) ltac:(lia)). lia.
Qed.

(** The first key of the upper half, which separates the halves. *)
Lemma sep_exists : ∃ sep, keys x !! half_of x = Some sep.
Proof using TI HG Hx Hfull. apply lookup_lt_is_Some_2. destruct full_len as (-> & _). apply half_range. Qed.

Context (sep : key) (Hsep : keys x !! half_of x = Some sep).

Lemma key_ok i k : keys x !! i = Some k → ok k ∧ within gq k.
Proof using TI HG Hx Hfull.
  intros Hk. pose proof full_page as PO. rewrite <- (proj1 full_live) in Hk. split.
  - by eapply live_ok; [apply (po_node _ _ _ _ _ _ _ _ _ PO)|].
  - by eapply Forall_lookup_1; [apply (po_within _ _ _ _ _ _ _ _ _ PO)|].
Qed.

Lemma key_lt i j a b : keys x !! i = Some a → keys x !! j = Some b → (i < j)%nat → cmp a b < 0.
Proof using TI HG Hx Hfull.
  rewrite <- (proj1 full_live). apply (sorted_lookup (λ a b, cmp a b < 0)), (po_node _ _ _ _ _ _ _ _ _ full_page).
Qed.

Lemma key_le i j a b : keys x !! i = Some a → keys x !! j = Some b → (i ≤ j)%nat → cmp a b ≤ 0.
Proof using TI HG Hx Hfull KO.
  rewrite <- (proj1 full_live). apply (live_le fh ok), (po_node _ _ _ _ _ _ _ _ _ full_page).
Qed.

(** What is known about the pages around the halves. *)
Context (ns : gmap Z IxNode) (G' : gmap Z info) (lo' : option key).
Context (Hlo_ok : ∀ l, lo' = Some l → ok l) (Hlo_le : ∀ l k i, lo' = Some l → keys x !! i = Some k → cmp l k ≤ 0).
Context (Hlo_first : ht gq ≠ O → ∀ l, lo' = Some l → keys x !! O = Some l).
Context (HGn : G' !! n = Some (MkInfo (ht gq) (Some sep) (hi gq))).
Context (Hnext : ∀ c gc, G !! c = Some gc → c ≠ q → ∃ gc', G' !! c = Some gc' ∧ ht gc' = ht gc ∧ lo gc' = lo gc).
Context (Hkids : ht gq ≠ O → ∀ i r gc, rids x !! i = Some r → G !! rid_page_no r = Some gc →
  G' !! rid_page_no r = Some gc ∧
  ∃ xc, ns !! rid_page_no r = Some xc ∧ parent xc = if decide (i < half_of x)%nat then q else n).

Lemma full_child i r : ht gq ≠ O → rids x !! i = Some r → child_ok fh true (nodes s) G q gq x i r.
Proof using TI HG Hx Hfull.
  intros Hh Hr. rewrite <- (proj2 full_live) in Hr. by apply (po_child _ _ _ _ _ _ _ _ _ full_page Hh i r).
Qed.

Lemma lower_half_ok xq (full : Z → Prop) :
  num_key xq = num_key x `quot` 2 → keys xq = keys x → rids xq = rids x → is_leaf xq = is_leaf x →
  (is_leaf x = true → next_leaf xq = n) →
  page_ok ns G' full q (MkInfo (ht gq) lo' (Some sep)) xq.
Proof using All.
  intros E1 E2 E3 E4 E5. destruct full_len as (L1 & L2 & L3 & L4). pose proof half_range as Hh.
  assert (Hnum : Z.to_nat (num_key xq) = half_of x) by (by rewrite E1).
  assert (Hlk : live_keys xq = take (half_of x) (keys x)) by (unfold live_keys; by rewrite Hnum, E2).
  assert (Hlr : live_rids xq = take (half_of x) (rids x)) by (unfold live_rids; by rewrite Hnum, E3).
  destruct (key_ok _ _ Hsep) as [Hsok Hsw]. pose proof full_page as PO.
  pose proof (half_bounds (num_key x) ltac:(lia)) as Hb. unfold half_of in Hh.
  assert (Hlookup : ∀ i k, take (half_of x) (keys x) !! i = Some k → keys x !! i = Some k ∧ (i < half_of x)%nat)
    by (intros i k; apply lookup_take_Some).
  split; simpl.
  - split; rewrite ?Hlk, ?E2, ?E3, ?E1, ?L1, ?L2; try lia.
    + apply Forall_lookup. intros i k [Hk _]%Hlookup. by apply key_ok in Hk as [? _].
    + pose proof (no_sorted _ _ _ (po_node _ _ _ _ _ _ _ _ _ PO)) as Hs. rewrite (proj1 full_live) in Hs.
      rewrite <- (take_drop (half_of x) (keys x)) in Hs. by apply StronglySorted_app_1_l in Hs.
  - rewrite E2, L1. unfold slots. lia.
  - left. lia.
  - intros _ i k Hi Hk. rewrite E2 in Hk. rewrite Hnum in Hi. right. split; [by apply key_ok in Hk as [? _]|].
    exists sep. split; [done|]. by apply (key_le (half_of x) i).
  - split; simpl; [done|]. by intros u [= <-].
  - rewrite Hlk. apply Forall_lookup. intros i k [Hk Hi]%Hlookup. split; simpl.
    + intros l Hl. by eapply Hlo_le.
    + intros u [= <-]. by apply (key_lt i (half_of x)).
  - rewrite E4. apply (po_leaf _ _ _ _ _ _ _ _ _ PO).
  - intros Hz. unfold next_ok. simpl. exists (MkInfo (ht gq) (Some sep) (hi gq)).
    rewrite E5; [done|]. rewrite (po_leaf _ _ _ _ _ _ _ _ _ PO). by apply Nat.eqb_eq.
  - lia.
  - intros Hz i r. rewrite Hlr. intros [Hr Hi]%lookup_take_Some.
    destruct (full_child i r Hz Hr) as (gc & xc & HGc & _ & _ & Hht & Hclo & Hchi).
    destruct (Hkids Hz i r gc Hr HGc) as (HGc' & xc' & Hxc' & Hp). rewrite decide_True in Hp by done.
    exists gc, xc'. split_and!; try done; unfold child_lo, child_hi in *; simpl in *; rewrite Hlk, (proj1 full_live) in *.
    + by rewrite lookup_take_lt.
    + destruct (decide (S i < half_of x)%nat) as [Hlt|Hge].
      * rewrite lookup_take_lt by done. destruct (lookup_lt_is_Some_2 (keys x) (S i)) as [u Hu]; [unfold half_of in *; lia|].
        by rewrite Hu in *.
      * rewrite lookup_take_ge by lia. assert (S i = half_of x) as Heq by lia. rewrite Heq, Hsep in Hchi. done.
  - intros _ Hz l Hl. rewrite Hlk, lookup_take_lt by (unfold half_of; lia). by apply Hlo_first.
Qed.

Lemma upper_half_ok xn (full : Z → Prop) :
  num_key xn = num_key x - num_key x `quot` 2 → length (keys xn) = length (keys x) → length (rids xn) = length (keys x) →
  live_keys xn = drop (half_of x) (keys x) → live_rids xn = drop (half_of x) (rids x) →
  (∀ i k, (Z.to_nat (num_key xn) ≤ i)%nat → keys xn !! i = Some k → dead fh ok k) →
  is_leaf xn = is_leaf x → (is_leaf x = true → next_leaf xn = next_leaf x) →
  page_ok ns G' full n (MkInfo (ht gq) (Some sep) (hi gq)) xn.
Proof using All.
  intros E1 E2 E3 Hlk Hlr Hdead E4 E5. destruct full_len as (L1 & L2 & L3 & L4). pose proof half_range as Hh.
  destruct (key_ok _ _ Hsep) as [Hsok Hsw]. pose proof full_page as PO.
  pose proof (half_bounds (num_key x) ltac:(lia)) as Hb. unfold half_of in Hh.
  split; simpl.
  - split; rewrite ?Hlk, ?E2, ?E3, ?E1, ?L1; try lia.
    + apply Forall_lookup. intros i k. rewrite lookup_drop. by intros [? _]%key_ok.
    + pose proof (no_sorted _ _ _ (po_node _ _ _ _ _ _ _ _ _ PO)) as Hs. rewrite (proj1 full_live) in Hs.
      rewrite <- (take_drop (half_of x) (keys x)) in Hs. by apply StronglySorted_app_1_r in Hs.
  - rewrite E2, L1. unfold slots. lia.
  - left. lia.
  - intros _ i k Hi Hk. left. by eapply Hdead.
  - split; simpl; [by intros l [= <-]|]. apply (po_bounds _ _ _ _ _ _ _ _ _ PO).
  - rewrite Hlk. apply Forall_lookup. intros i k. rewrite lookup_drop. intros Hk. split; simpl.
    + intros l [= <-]. apply (key_le (half_of x) (half_of x + i)); [done|done|lia].
    + apply key_ok in Hk as [_ [_ Hw]]. done.
  - rewrite E4. apply (po_leaf _ _ _ _ _ _ _ _ _ PO).
  - intros Hz. assert (Hleaf : is_leaf x = true) by (rewrite (po_leaf _ _ _ _ _ _ _ _ _ PO); by apply Nat.eqb_eq).
    pose proof (po_next _ _ _ _ _ _ _ _ _ PO Hz) as Hno. unfold next_ok in *. simpl. rewrite (E5 Hleaf).
    destruct (hi gq) as [u|] eqn:Eh; [|done]. destruct Hno as (gn & HGnx & Hhn & Hln).
    destruct (decide (next_leaf x = q)) as [Heq|Hne].
    { exfalso. rewrite Heq, HG in HGnx. injection HGnx as <-. destruct Hsw as [W1 W2].
      specialize (W1 _ Hln). specialize (W2 _ Eh). apply cmp_le_flip in W1; [lia| |done].
      by apply (po_bounds _ _ _ _ _ _ _ _ _ PO). }
    destruct (Hnext _ _ HGnx Hne) as (gn' & ? & ? & ?). exists gn'. split_and!; congruence.
  - lia.
  - intros Hz i r. rewrite Hlr, lookup_drop. intros Hr.
    destruct (full_child _ r Hz Hr) as (gc & xc & HGc & _ & _ & Hht & Hclo & Hchi).
    destruct (Hkids Hz _ r gc Hr HGc) as (HGc' & xc' & Hxc' & Hp). rewrite decide_False in Hp by lia.
    exists gc, xc'. split_and!; try done; unfold child_lo, child_hi in *; simpl in *; rewrite Hlk, (proj1 full_live) in *.
    + by rewrite lookup_drop.
    + by rewrite lookup_drop, Nat.add_succ_r.
  - intros _ Hz l [= <-]. by rewrite Hlk, lookup_drop, Nat.add_0_r.
Qed.

End Halves.

(** The bindings of a node are those of its two halves. *)
Lemma assoc_halves x (h : nat) k v :
  node_ok fh ok x → ok k →
  assoc fh k (entries x) = Some v ↔
  assoc fh k (zip (take h (live_keys x)) (take h (live_rids x))) = Some v ∨
  assoc fh k (zip (drop h (live_keys x)) (drop h (live_rids x))) = Some v.
Proof.
  intros Hx Hk. unfold entries. set (ks := live_keys x). set (rs := live_rids x).
  assert (Hlen : length ks = length rs) by (unfold ks, rs; by rewrite (length_live fh ok), (length_live_rids fh ok)).
  rewrite <- (take_drop h ks), <- (take_drop h rs) at 1. rewrite zip_with_app by (by rewrite !length_take, Hlen).
  rewrite assoc_app. destruct (assoc fh k (zip (take h ks) (take h rs))) as [v1|] eqn:E1; [|split; [by right|by intros [?|?]]].
  split; [by left|]. intros [?|E2]; [done|exfalso].
  assert (Hin : ∀ l, is_Some (assoc fh k l) → ∃ c r, (c, r) ∈ l ∧ cmp k c = 0).
  { intros l [w Hw]. induction l as [|[c r] l IH]; simpl in Hw; [done|]. destruct (Z.eqb_spec (cmp k c) 0) as [Hz|Hz].
    - exists c, r. split; [by left|done].
    - destruct (IH Hw) as (c' & r' & ? & ?). exists c', r'. split; [by right|done]. }
  destruct (Hin _ ltac:(by eexists; exact E1)) as (c1 & r1 & In1 & Z1). apply elem_of_zip_l in In1.
  destruct (Hin _ ltac:(by eexists; exact E2)) as (c2 & r2 & In2 & Z2). apply elem_of_zip_l in In2.
  apply list_elem_of_lookup in In1 as [i1 I1], In2 as [i2 I2].
  apply lookup_take_Some in I1 as [I1 Hi1]. rewrite lookup_drop in I2.
  pose proof (live_ok fh ok _ _ _ Hx I1) as O1. pose proof (live_ok fh ok _ _ _ Hx I2) as O2.
  pose proof (sorted_lookup _ _ i1 (h + i2) c1 c2 (no_sorted _ _ _ Hx) I1 I2 ltac:(lia)) as Hlt. simpl in Hlt.
  pose proof (cmp_le_lt_trans k c1 c2 Hk O1 O2 (Z.eq_le_incl _ _ Z1) Hlt). lia.
Qed.

(** ** The parent of a split page *)

Lemma scan_char op target ks (j : nat) :
  ok target → Forall ok ks → StronglySorted (λ a b, cmp a b < 0) ks → (j ≤ length ks)%nat →
  (∀ i k, ks !! i = Some k → goes_right fh op target k = true ↔ (i < j)%nat) → scan_ref fh op target ks = j.
Proof.
  intros Ht Hok Hs Hj H. pose proof (scan_ref_le fh op target ks) as Hle.
  pose proof (λ i k, scan_ref_split fh ok op target ks i k Ht Hok Hs) as Hsp.
  destruct (Nat.lt_trichotomy (scan_ref fh op target ks) j) as [Hlt|[?|Hgt]]; [exfalso|done|exfalso].
  - destruct (lookup_lt_is_Some_2 ks (scan_ref fh op target ks)) as [k Hk]; [lia|].
    apply (H _ _ Hk), (Hsp _ _ Hk) in Hlt. lia.
  - destruct (lookup_lt_is_Some_2 ks j) as [k Hk]; [lia|]. apply (Hsp _ _ Hk), (H _ _ Hk) in Hgt. lia.
Qed.

(** Which half a child goes to. *)
Lemma half_parent s G q gq x n i r :
  tree_inv (eq q) s G → G !! q = Some gq → nodes s !! q = Some x → num_key x = order + 1 →
  ht gq ≠ O → rids x !! i = Some r →
  (if decide (is_leaf x = false ∧ rid_page_no r ∈ rid_page_no <$> drop (half_of x) (rids x)) then n else q)
  = if decide (i < half_of x)%nat then q else n.
Proof.
  intros TI HG Hx Hfull Hh Hr. pose proof (full_page s G q gq x TI HG Hx) as PO.
  assert (Hleaf : is_leaf x = false).
  { destruct (is_leaf x) eqn:E; [|done]. rewrite (po_leaf _ _ _ _ _ _ _ _ _ PO) in E. by apply Nat.eqb_eq in E. }
  destruct (full_live s G q gq x TI HG Hx Hfull) as [_ Hlr]. destruct (decide (i < half_of x)%nat) as [Hi|Hi].
  - rewrite decide_False; [done|]. intros [_ (r' & E & Hin)%list_elem_of_fmap].
    apply list_elem_of_lookup in Hin as [j Hj]. rewrite lookup_drop in Hj.
    assert (i = half_of x + j)%nat; [|lia]. rewrite <- Hlr in Hr, Hj. by apply (kid_inj fh ok strict _ _ _ _ _ _ i _ r r' eq_refl PO Hh Hr Hj).
  - rewrite decide_True; [done|]. split; [done|]. apply list_elem_of_fmap. exists r. split; [done|].
    apply list_elem_of_lookup. exists (i - half_of x)%nat. rewrite lookup_drop. by replace (half_of x + (i - half_of x))%nat with i by lia.
Qed.

Section Parent.
Context (s : IxState) (G : gmap Z info) (q : Z) (gq : info) (x : IxNode).
Context (TI : tree_inv (eq q) s G) (HG : G !! q = Some gq) (Hx : nodes s !! q = Some x) (Hfull : num_key x = order + 1).
Context (n : Z) (sep : key) (Hsep : keys x !! half_of x = Some sep).
Context (pp : Z) (gp : info) (xp : IxNode) (iq : nat) (rq : Rid).
Context (HGp : G !! pp = Some gp) (Hhp : ht gp = S (ht gq)) (Hxp : nodes s !! pp = Some xp).
Context (Hrq : live_rids xp !! iq = Some rq) (Hpq : rid_page_no rq = q).

Lemma parent_page : page_ok (nodes s) G no_full pp gp xp.
Proof using All.
  destruct (ti_page _ _ _ _ _ _ TI pp gp HGp) as (_ & x' & Hx' & PO). assert (x' = xp) as -> by congruence.
  eapply page_ok_frame; [exact PO|done| |by eauto|].
  - destruct (po_room _ _ _ _ _ _ _ _ _ PO) as [?|<-]; [by left|]. exfalso. assert (gp = gq) as -> by congruence. lia.
  - intros _ i r gc xc _ Hc Hxc Hp. eauto.
Qed.

Lemma parent_child : parent x = pp ∧ lo gq = live_keys xp !! iq ∧ hi gq = child_hi xp iq (hi gp).
Proof using All.
  destruct (po_child _ _ _ _ _ _ _ _ _ parent_page ltac:(lia) iq rq Hrq) as (gc & xc & E1 & E2 & E3 & _ & E4 & E5).
  rewrite Hpq in E1, E2. assert (gc = gq) as -> by congruence. by assert (xc = x) as -> by congruence.
Qed.

Lemma sep_within : ok sep ∧ within gp sep.
Proof using All.
  destruct (key_ok s G q gq x TI HG Hx Hfull _ _ Hsep) as [Hok Hw]. split; [done|].
  apply (within_parent fh ok strict no_full (nodes s) G pp gp xp sep iq rq gq); try done; [apply parent_page|lia|by rewrite Hpq|].
  apply (po_bounds _ _ _ _ _ _ _ _ _ (full_page s G q gq x TI HG Hx)).
Qed.

Lemma iq_lt : (S iq ≤ length (live_keys xp))%nat.
Proof using All.
  destruct (rid_key fh ok xp iq rq (po_node _ _ _ _ _ _ _ _ _ parent_page) Hrq) as [c Hc]. by apply lookup_lt_Some in Hc.
Qed.

(** The separator belongs right after the split page. *)
Lemma sep_position i c : live_keys xp !! i = Some c → (0 < cmp sep c ↔ (i < S iq)%nat) ∧ cmp sep c ≠ 0.
Proof using All.
  intros Hc. pose proof parent_page as PO. pose proof (po_node _ _ _ _ _ _ _ _ _ PO) as Hn.
  destruct parent_child as (_ & Hlo & Hhi). destruct sep_within as [Hs _].
  destruct (key_ok s G q gq x TI HG Hx Hfull _ _ Hsep) as [_ [W1 W2]].
  destruct (rid_key fh ok xp iq rq Hn Hrq) as [l Hl]. rewrite Hl in Hlo.
  pose proof (live_ok fh ok _ _ _ Hn Hc) as Hcok. pose proof (live_ok fh ok _ _ _ Hn Hl) as Hlok.
  destruct (decide (i < S iq)%nat) as [Hi|Hi].
  - assert (Hlt : cmp c sep < 0); [|apply ko_flip in Hlt; [lia|done|done]].
    destruct (full_len s G q gq x TI HG Hx Hfull) as (L1 & _). pose proof (half_range s G q gq x TI HG Hx Hfull).
    destruct (lookup_lt_is_Some_2 (keys x) 0) as [k0 Hk0]; [lia|].
    destruct (key_ok s G q gq x TI HG Hx Hfull _ _ Hk0) as [Hk0ok [V1 _]].
    pose proof (live_le fh ok xp i iq c l Hn Hc Hl ltac:(lia)) as H1.
    pose proof (ko_trans c l k0 Hcok Hlok Hk0ok H1 (V1 _ Hlo)) as H2.
    apply (cmp_le_lt_trans c k0 sep); try done. apply (key_lt s G q gq x TI HG Hx Hfull 0 (half_of x)); [done|done|lia].
  - assert (Hlt : cmp sep c < 0); [|lia]. unfold child_hi in Hhi.
    destruct (lookup_lt_is_Some_2 (live_keys xp) (S iq)) as [u Hu]; [apply lookup_lt_Some in Hc; lia|].
    rewrite Hu in Hhi. pose proof (live_le fh ok xp (S iq) i u c Hn Hu Hc ltac:(lia)) as H1.
    apply (cmp_lt_le_trans sep u c); try done; [exact (live_ok fh ok xp _ u Hn Hu)|by apply W2].
Qed.

Lemma sep_scan : scan_ref fh true sep (live_keys xp) = S iq.
Proof using All.
  pose proof (po_node _ _ _ _ _ _ _ _ _ parent_page) as Hn.
  apply scan_char; [apply sep_within|apply Hn|apply Hn|apply iq_lt|].
  intros i c Hc. unfold goes_right. rewrite Z.ltb_lt. by apply sep_position.
Qed.

Lemma sep_absent : assoc fh sep (entries xp) = None.
Proof using All.
  apply assoc_None. intros c r (i & Hi)%list_elem_of_lookup. apply lookup_entries in Hi as [Hi _].
  by apply (sep_position i c).
Qed.

Lemma grown_parent_ok ns2 G2 (full : Z → Prop) xp2 xq2 xn2 :
  node_ok fh ok xp2 → num_key xp2 = num_key xp + 1 → length (keys xp2) = length (keys xp) →
  live_keys xp2 = take (S iq) (live_keys xp) ++ sep :: drop (S iq) (live_keys xp) →
  live_rids xp2 = take (S iq) (live_rids xp) ++ MkRid n (-1) :: drop (S iq) (live_rids xp) →
  is_leaf xp2 = is_leaf xp → (∀ j, (Z.to_nat (num_key xp2) ≤ j)%nat → keys xp2 !! j = keys xp !! j) → full pp →
  G2 !! q = Some (MkInfo (ht gq) (lo gq) (Some sep)) → G2 !! n = Some (MkInfo (ht gq) (Some sep) (hi gq)) →
  ns2 !! q = Some xq2 → parent xq2 = pp → ns2 !! n = Some xn2 → parent xn2 = pp →
  (∀ i r gc xc, live_rids xp !! i = Some r → rid_page_no r ≠ q → G !! rid_page_no r = Some gc →
     nodes s !! rid_page_no r = Some xc → parent xc = pp →
     G2 !! rid_page_no r = Some gc ∧ ∃ xc', ns2 !! rid_page_no r = Some xc' ∧ parent xc' = pp) →
  page_ok ns2 G2 full pp gp xp2.
Proof using All.
  intros Hn2 Hnum Hlen Hlk Hlr Hleaf Htail Hf HGq2 HGn2 Hq2 Hpq2 Hnn2 Hpn2 Hkids.
  pose proof parent_page as PO. pose proof (po_node _ _ _ _ _ _ _ _ _ PO) as Hn. pose proof iq_lt as Hiq.
  destruct parent_child as (_ & Hlo & Hhi). destruct sep_within as [Hsok Hsw].
  assert (Hiq' : (S iq ≤ length (live_rids xp))%nat) by (apply lookup_lt_Some in Hrq; lia).
  split; try done.
  - rewrite Hlen. apply (po_len _ _ _ _ _ _ _ _ _ PO).
  - by right.
  - intros _ i k Hi Hk. rewrite (Htail i Hi) in Hk. apply (po_left _ _ _ _ _ _ _ _ _ PO eq_refl i); [lia|done].
  - apply (po_bounds _ _ _ _ _ _ _ _ _ PO).
  - rewrite Hlk. pose proof (po_within _ _ _ _ _ _ _ _ _ PO) as Hw. rewrite <- (take_drop (S iq) (live_keys xp)) in Hw.
    apply Forall_app in Hw as [? ?]. apply Forall_app. split; [done|]. by constructor.
  - rewrite Hleaf. apply (po_leaf _ _ _ _ _ _ _ _ _ PO).
  - lia.
  - intros _. pose proof (no_num _ _ _ Hn). lia.
  - intros Hh i r Hr. rewrite Hlr in Hr. unfold child_ok, child_lo, child_hi. simpl. rewrite Hlk.
    destruct (Nat.lt_trichotomy i (S iq)) as [Hlt|[->|Hgt]].
    + rewrite lookup_put_lt in Hr by lia. rewrite lookup_put_lt by lia.
      destruct (po_child _ _ _ _ _ _ _ _ _ PO Hh i r Hr) as (gc & xc & HGc & Hxc & Hpc & Hht & Hclo & Hchi).
      destruct (decide (i = iq)) as [->|Hne].
      * assert (r = rq) as -> by congruence. rewrite Hpq, lookup_put_eq by done.
        exists (MkInfo (ht gq) (lo gq) (Some sep)), xq2. split_and!; done.
      * assert (rid_page_no r ≠ q) as Hnq.
        { intros E. apply Hne. eapply (kid_inj fh ok strict _ _ _ _ _ _ i iq r rq eq_refl PO Hh Hr Hrq). congruence. }
        destruct (Hkids i r gc xc Hr Hnq HGc Hxc Hpc) as (HGc2 & xc' & Hxc' & Hpc').
        exists gc, xc'. split_and!; try done. unfold child_hi in Hchi. rewrite lookup_put_lt by lia. done.
    + rewrite lookup_put_eq in Hr by done. injection Hr as <-. rewrite lookup_put_eq, lookup_put_gt by lia. simpl.
      exists (MkInfo (ht gq) (Some sep) (hi gq)), xn2. split_and!; done.
    + destruct i as [|i]; [lia|]. rewrite lookup_put_gt in Hr by lia. rewrite !lookup_put_gt by lia.
      destruct (po_child _ _ _ _ _ _ _ _ _ PO Hh i r Hr) as (gc & xc & HGc & Hxc & Hpc & Hht & Hclo & Hchi).
      assert (rid_page_no r ≠ q) as Hnq.
      { intros E. assert (i = iq); [|lia]. eapply (kid_inj fh ok strict _ _ _ _ _ _ i iq r rq eq_refl PO Hh Hr Hrq). congruence. }
      destruct (Hkids i r gc xc Hr Hnq HGc Hxc Hpc) as (HGc2 & xc' & Hxc' & Hpc'). exists gc, xc'. split_and!; done.
  - intros _ Hh l Hl. rewrite Hlk, lookup_put_lt by lia. by apply (po_tight _ _ _ _ _ _ _ _ _ PO).
Qed.

(** ** The tree after the parent took the new page *)

Context (Hn : n = next_page s) (Hroot : q ≠ root_page (file_hdr s)) (zk : key) (Hdead : dead fh ok zk).
Context (ns1 : gmap Z IxNode) (SR : split_result x q n zk (nodes s) ns1).
Context (xp2 : IxNode) (Hn2 : node_ok fh ok xp2) (Hnum2 : num_key xp2 = num_key xp + 1).
Context (Hlen2 : length (keys xp2) = length (keys xp)) (Hleaf2 : is_leaf xp2 = is_leaf xp) (Hpar2 : parent xp2 = parent xp).
Context (Hlk2 : live_keys xp2 = take (S iq) (live_keys xp) ++ sep :: drop (S iq) (live_keys xp)).
Context (Hlr2 : live_rids xp2 = take (S iq) (live_rids xp) ++ MkRid n (-1) :: drop (S iq) (live_rids xp)).
Context (Htail2 : ∀ j, (Z.to_nat (num_key xp2) ≤ j)%nat → keys xp2 !! j = keys xp !! j).
Context (s2 : IxState) (Hns2 : nodes s2 = <[pp := xp2]> ns1) (Hhdr2 : hdr_same (file_hdr s) (file_hdr s2)).
Context (Hnp2 : next_page s2 = n + 1).

Definition split_ghost : gmap Z info :=
  <[n := MkInfo (ht gq) (Some sep) (hi gq)]> (<[q := MkInfo (ht gq) (lo gq) (Some sep)]> G).

Lemma tree_lt p g : G !! p = Some g → 1 < p < n.
Proof using All. intros H. destruct (ti_page _ _ _ _ _ _ TI p g H) as [? _]. lia. Qed.

Lemma ghost_other p : p ≠ q → p ≠ n → split_ghost !! p = G !! p.
Proof using All. intros. unfold split_ghost. by rewrite !lookup_insert_ne. Qed.

Lemma ghost_q : split_ghost !! q = Some (MkInfo (ht gq) (lo gq) (Some sep)).
Proof using All. pose proof (tree_lt q gq HG). unfold split_ghost. rewrite lookup_insert_ne by lia. apply lookup_insert_eq. Qed.

Lemma ghost_n : split_ghost !! n = Some (MkInfo (ht gq) (Some sep) (hi gq)).
Proof using All. apply lookup_insert_eq. Qed.

Lemma ghost_keeps c gc : G !! c = Some gc → ∃ gc', split_ghost !! c = Some gc' ∧ ht gc' = ht gc ∧ lo gc' = lo gc.
Proof using All.
  intros Hc. pose proof (tree_lt c gc Hc). destruct (decide (c = q)) as [->|Hne].
  - rewrite ghost_q. assert (gc = gq) as -> by congruence. by eexists.
  - rewrite ghost_other by lia. by exists gc.
Qed.

Lemma pp_q : pp ≠ q.
Proof using All. intros E. rewrite E in HGp. assert (gp = gq) as -> by congruence. lia. Qed.

Lemma pages_other p y : p ≠ q → p ≠ n → p ≠ pp → nodes s !! p = Some y →
  ∃ y', nodes s2 !! p = Some y' ∧ same_node y y' ∧
    parent y' = if decide (is_leaf x = false ∧ p ∈ rid_page_no <$> drop (half_of x) (rids x)) then n else parent y.
Proof using All. intros H1 H2 H3 Hy. rewrite Hns2, lookup_insert_ne by done. by apply (sr_other _ _ _ _ _ _ SR). Qed.

Lemma leaf_height p g y ns full : page_ok ns G full p g y → is_leaf y = true ↔ ht g = O.
Proof using All. intros PO. rewrite (po_leaf _ _ _ _ _ _ _ _ _ PO). apply Nat.eqb_eq. Qed.

(** A child of another page keeps its parent. *)
Lemma keeps_parent c gc xc p g y ns full i r :
  page_ok ns G full p g y → p ≠ q → ht g ≠ O → live_rids y !! i = Some r → c = rid_page_no r →
  G !! c = Some gc → ht g = S (ht gc) → nodes s !! c = Some xc → parent xc = p → c ≠ q →
  ∃ xc', nodes s2 !! c = Some xc' ∧ parent xc' = p.
Proof using All.
  intros PO Hpq' Hh Hr -> HGc Hht Hxc Hpc Hcq. pose proof (tree_lt _ _ HGc) as Hlt.
  destruct (decide (rid_page_no r = pp)) as [Hcp|Hcp].
  - exists xp2. rewrite Hns2, Hcp, lookup_insert_eq. split; [done|]. rewrite Hpar2. congruence.
  - destruct (pages_other _ xc Hcq ltac:(lia) Hcp Hxc) as (xc' & Hxc' & _ & Hp'). exists xc'. split; [done|].
    rewrite Hp', decide_False; [done|]. intros [Hl (r' & E & Hin)%list_elem_of_fmap].
    apply list_elem_of_lookup in Hin as [j Hj]. rewrite lookup_drop in Hj.
    assert (Hhq : ht gq ≠ O).
    { intros Hz. apply (leaf_height q gq x _ _ (full_page s G q gq x TI HG Hx)) in Hz. congruence. }
    destruct (full_child s G q gq x TI HG Hx Hfull _ r' Hhq Hj) as (gc' & xc2 & _ & Hxc2 & Hp2 & _).
    rewrite <- E in Hxc2. congruence.
Qed.

Lemma split_kids : ht gq ≠ O → ∀ i r gc, rids x !! i = Some r → G !! rid_page_no r = Some gc →
  split_ghost !! rid_page_no r = Some gc ∧
  ∃ xc, nodes s2 !! rid_page_no r = Some xc ∧ parent xc = if decide (i < half_of x)%nat then q else n.
Proof using All.
  intros Hh i r gc Hr HGc. pose proof (full_page s G q gq x TI HG Hx) as PO.
  destruct (full_child s G q gq x TI HG Hx Hfull i r Hh Hr) as (gc' & xc & HGc' & Hxc & Hpc & Hht & _).
  assert (gc' = gc) as -> by congruence. pose proof (tree_lt _ _ HGc).
  assert (rid_page_no r ≠ q) by (intros E; rewrite E in HGc; assert (gc = gq) as -> by congruence; lia).
  assert (rid_page_no r ≠ pp) by (intros E; rewrite E in HGc; assert (gc = gp) as -> by congruence; lia).
  split; [by rewrite ghost_other by lia|].
  destruct (pages_other _ xc ltac:(done) ltac:(lia) ltac:(done) Hxc) as (xc' & Hxc' & _ & Hp). exists xc'. split; [done|].
  rewrite Hp, Hpc. by apply (half_parent s G q gq x n i r TI HG Hx Hfull Hh Hr).
Qed.

Lemma q_after : ∃ xq, nodes s2 !! q = Some xq ∧ num_key xq = num_key x `quot` 2 ∧ keys xq = keys x ∧
  rids xq = rids x ∧ is_leaf xq = is_leaf x ∧ parent xq = pp ∧ (is_leaf x = true → next_leaf xq = n).
Proof using All.
  destruct (sr_q _ _ _ _ _ _ SR) as (xq & H1 & H2 & H3 & H4 & H5 & H6 & H7). exists xq. pose proof pp_q.
  rewrite Hns2, lookup_insert_ne by done. split_and!; try done. rewrite H6. apply parent_child.
Qed.

Lemma n_after : ∃ xn, nodes s2 !! n = Some xn ∧ num_key xn = num_key x - num_key x `quot` 2 ∧
  length (keys xn) = length (keys x) ∧ length (rids xn) = length (keys x) ∧
  live_keys xn = drop (half_of x) (keys x) ∧ live_rids xn = drop (half_of x) (rids x) ∧
  (∀ i k, (Z.to_nat (num_key xn) ≤ i)%nat → keys xn !! i = Some k → dead fh ok k) ∧
  is_leaf xn = is_leaf x ∧ parent xn = pp ∧ (is_leaf x = true → next_leaf xn = next_leaf x).
Proof using All.
  destruct (sr_n _ _ _ _ _ _ SR) as (xn & H1 & H2 & H3 & H4 & H5 & H6 & H7 & H8 & H9 & H10). exists xn.
  pose proof (tree_lt pp gp HGp). rewrite Hns2, lookup_insert_ne by lia. split_and!; try done.
  - intros i k Hi Hk. rewrite (H7 i k Hi Hk). done.
  - rewrite H9. apply parent_child.
Qed.

Lemma q_page full : ∃ xq, nodes s2 !! q = Some xq ∧ page_ok (nodes s2) split_ghost full q (MkInfo (ht gq) (lo gq) (Some sep)) xq.
Proof using All.
  destruct q_after as (xq & Hq & E1 & E2 & E3 & E4 & _ & E5). exists xq. split; [done|].
  pose proof (full_page s G q gq x TI HG Hx) as PO.
  apply (lower_half_ok s G q gq x TI HG Hx Hfull n sep Hsep (nodes s2) split_ghost (lo gq)); try done.
  - apply (po_bounds _ _ _ _ _ _ _ _ _ PO).
  - intros l k i Hl Hk. destruct (key_ok s G q gq x TI HG Hx Hfull i k Hk) as [_ [W _]]. by apply W.
  - intros Hh l Hl. rewrite <- (proj1 (full_live s G q gq x TI HG Hx Hfull)). by apply (po_tight _ _ _ _ _ _ _ _ _ PO).
  - apply ghost_n.
  - intros c gc Hc _. by apply ghost_keeps.
  - apply split_kids.
Qed.

Lemma n_page full : ∃ xn, nodes s2 !! n = Some xn ∧ page_ok (nodes s2) split_ghost full n (MkInfo (ht gq) (Some sep) (hi gq)) xn.
Proof using All.
  destruct n_after as (xn & Hnn & E1 & E2 & E3 & E4 & E5 & E6 & E7 & _ & E8). exists xn. split; [done|].
  pose proof (full_page s G q gq x TI HG Hx) as PO.
  apply (upper_half_ok s G q gq x TI HG Hx Hfull n sep Hsep (nodes s2) split_ghost (lo gq)); try done.
  - apply (po_bounds _ _ _ _ _ _ _ _ _ PO).
  - intros l k i Hl Hk. destruct (key_ok s G q gq x TI HG Hx Hfull i k Hk) as [_ [W _]]. by apply W.
  - intros Hh l Hl. rewrite <- (proj1 (full_live s G q gq x TI HG Hx Hfull)). by apply (po_tight _ _ _ _ _ _ _ _ _ PO).
  - apply ghost_n.
  - intros c gc Hc _. by apply ghost_keeps.
  - apply split_kids.
Qed.

Lemma pp_page : page_ok (nodes s2) split_ghost (eq pp) pp gp xp2.
Proof using All.
  destruct q_after as (xq & Hq & _ & _ & _ & _ & Hpq2 & _). destruct n_after as (xn & Hnn & _ & _ & _ & _ & _ & _ & _ & Hpn2 & _).
  apply (grown_parent_ok (nodes s2) split_ghost (eq pp) xp2 xq xn); try done; [apply ghost_q|apply ghost_n|].
  intros i r gc xc Hr Hnq HGc Hxc Hpc. pose proof (tree_lt _ _ HGc). split; [by rewrite ghost_other by lia|].
  pose proof parent_page as PO. assert (Hh : ht gp ≠ O) by lia.
  destruct (po_child _ _ _ _ _ _ _ _ _ PO Hh i r Hr) as (gc' & ? & HGc' & _ & _ & Hht & _).
  assert (gc' = gc) as -> by congruence. by apply (keeps_parent _ gc xc pp gp xp _ _ i r PO pp_q Hh Hr).
Qed.

Lemma other_page p g : G !! p = Some g → p ≠ q → p ≠ pp →
  ∃ y y', nodes s !! p = Some y ∧ nodes s2 !! p = Some y' ∧ same_node y y' ∧ page_ok (nodes s2) split_ghost (eq pp) p g y'.
Proof using All.
  intros HGp' Hpq' Hpp. destruct (ti_page _ _ _ _ _ _ TI p g HGp') as (_ & y & Hy & PO). pose proof (tree_lt _ _ HGp').
  destruct (pages_other p y Hpq' ltac:(lia) Hpp Hy) as (y' & Hy' & Hs & _). exists y, y'. split_and!; try done.
  eapply page_ok_frame; [exact PO|done| | |].
  - destruct (po_room _ _ _ _ _ _ _ _ _ PO) as [?|?]; [by left|]. by subst.
  - intros _ c gc u Hc _. by apply ghost_keeps.
  - intros Hh i r gc xc Hr HGc Hxc Hpc. pose proof (tree_lt _ _ HGc).
    destruct (po_child _ _ _ _ _ _ _ _ _ PO Hh i r Hr) as (gc' & ? & HGc' & _ & _ & Hht & _).
    assert (gc' = gc) as -> by congruence.
    assert (Hcq : rid_page_no r ≠ q).
    { intros E. rewrite E in Hxc. assert (xc = x) as -> by congruence. destruct parent_child as [Hpx _]. congruence. }
    split; [by rewrite ghost_other by lia|]. by apply (keeps_parent _ gc xc p g y _ _ i r PO Hpq' Hh Hr).
Qed.

(** Every page but the root still hangs under some page. *)
Lemma split_up p g : split_ghost !! p = Some g → p ≠ root_page (file_hdr s) →
  ∃ q' gq' xq' i r, split_ghost !! q' = Some gq' ∧ ht gq' = S (ht g) ∧ nodes s2 !! q' = Some xq' ∧
    live_rids xq' !! i = Some r ∧ rid_page_no r = p.
Proof using All.
  pose proof (tree_lt pp gp HGp) as Hplt. pose proof pp_q as Hppq. assert (Hpp2 : nodes s2 !! pp = Some xp2) by (by rewrite Hns2, lookup_insert_eq).
  assert (HGpp : split_ghost !! pp = Some gp) by (by rewrite ghost_other by lia).
  assert (Hiq' : (S iq ≤ length (live_rids xp))%nat) by (apply lookup_lt_Some in Hrq; lia).
  assert (Hback : ∀ i r, live_rids xp !! i = Some r → ∃ j, live_rids xp2 !! j = Some r).
  { intros i r Hr. rewrite Hlr2. destruct (decide (i < S iq)%nat).
    - exists i. by rewrite lookup_put_lt by lia.
    - exists (S i). by rewrite lookup_put_gt by lia. }
  destruct (decide (p = n)) as [->|Hpn].
  { rewrite ghost_n. intros [= <-] _. exists pp, gp, xp2, (S iq), (MkRid n (-1)). split_and!; try done.
    by rewrite Hlr2, lookup_put_eq. }
  destruct (decide (p = q)) as [->|Hpq'].
  { rewrite ghost_q. intros [= <-] _. destruct (Hback iq rq Hrq) as [j Hj]. exists pp, gp, xp2, j, rq. by split_and!. }
  rewrite ghost_other by done. intros Hp Hpr.
  destruct (ti_up _ _ _ _ _ _ TI p g Hp Hpr) as (q0 & g0 & x0 & i & r & HG0 & Hh0 & Hx0 & Hr0 & Hrp).
  destruct (decide (q0 = pp)) as [->|Hq0p].
  { assert (g0 = gp) as -> by congruence. assert (x0 = xp) as -> by congruence. destruct (Hback i r Hr0) as [j Hj].
    exists pp, gp, xp2, j, r. by split_and!. }
  destruct (decide (q0 = q)) as [->|Hq0q].
  - assert (g0 = gq) as -> by congruence. assert (x0 = x) as -> by congruence.
    destruct (full_live s G q gq x TI HG Hx Hfull) as [_ Hlive]. rewrite Hlive in Hr0.
    destruct (decide (i < half_of x)%nat) as [Hi|Hi].
    + destruct q_after as (xq & Hq & E1 & _ & E3 & _). exists q, (MkInfo (ht gq) (lo gq) (Some sep)), xq, i, r.
      split_and!; try done; [apply ghost_q|]. unfold live_rids. rewrite E1, E3. fold (half_of x). by rewrite lookup_take_lt.
    + destruct n_after as (xn & Hnn & _ & _ & _ & _ & E5 & _).
      exists n, (MkInfo (ht gq) (Some sep) (hi gq)), xn, (i - half_of x)%nat, r.
      split_and!; try done; [apply ghost_n|]. rewrite E5, lookup_drop. by replace (half_of x + (i - half_of x))%nat with i by lia.
  - pose proof (tree_lt _ _ HG0). destruct (pages_other q0 x0 Hq0q ltac:(lia) Hq0p Hx0) as (y' & Hy' & Hs & _).
    exists q0, g0, y', i, r. destruct (live_same _ _ Hs) as (_ & L & _). split_and!; try done.
    + by rewrite ghost_other by lia.
    + by rewrite L.
Qed.

Lemma split_below_inv : tree_inv (eq pp) s2 split_ghost.
Proof using All.
  destruct Hhdr2 as (E1 & E2 & E3 & E4 & E5).
  destruct (ti_root _ _ _ _ _ _ TI) as (gr & xr & HGr & Hxr & Hpr & Hlr & Hhr & Hmax).
  pose proof (tree_lt _ _ HGr) as Hrlt.
  split.
  - destruct (ti_hdr _ _ _ _ _ _ TI) as (? & ? & ?). repeat split; congruence.
  - apply (ti_order _ _ _ _ _ _ TI).
  - destruct (ti_header _ _ _ _ _ _ TI) as [y Hy].
    pose proof (tree_lt q gq HG). pose proof (tree_lt pp gp HGp). unfold IX_LEAF_HEADER_PAGE in *.
    destruct (pages_other 1 y ltac:(lia) ltac:(lia) ltac:(lia) Hy) as (y' & -> & _). done.
  - rewrite E4. exists gr. assert (Hroot2 : split_ghost !! root_page (file_hdr s) = Some gr) by (by rewrite ghost_other by lia).
    assert (∃ xr2, nodes s2 !! root_page (file_hdr s) = Some xr2 ∧ parent xr2 = INVALID_PAGE_ID) as (xr2 & Hxr2 & Hpr2).
    { destruct (decide (root_page (file_hdr s) = pp)) as [E|E].
      - exists xp2. rewrite Hns2, E, lookup_insert_eq. split; [done|]. rewrite Hpar2. congruence.
      - destruct (pages_other _ xr (not_eq_sym Hroot) ltac:(lia) E Hxr) as (y' & Hy' & _ & Hp). exists y'. split; [done|].
        rewrite Hp, decide_False; [done|]. intros [Hl (r & Er & Hin)%list_elem_of_fmap].
        apply list_elem_of_lookup in Hin as [j Hj]. rewrite lookup_drop in Hj.
        assert (Hhq : ht gq ≠ O).
        { intros Hz. apply (leaf_height q gq x _ _ (full_page s G q gq x TI HG Hx)) in Hz. congruence. }
        destruct (full_child s G q gq x TI HG Hx Hfull _ r Hhq Hj) as (gc & _ & HGc & _ & _ & Hht & _).
        rewrite <- Er in HGc. assert (gc = gr) as -> by congruence. destruct (Hmax q gq HG). lia. }
    exists xr2. split_and!; try done. intros p g. destruct (decide (p = n)) as [->|Hpn].
    { rewrite ghost_n. intros [= <-]. simpl. destruct (Hmax q gq HG) as [? Hq]. split; [done|]. intros E. by apply Hq in E. }
    destruct (decide (p = q)) as [->|Hpq'].
    { rewrite ghost_q. intros [= <-]. simpl. by apply (Hmax q gq HG). }
    rewrite ghost_other by done. apply Hmax.
  - intros p g. destruct (decide (p = n)) as [->|Hpn].
    { rewrite ghost_n. intros [= <-]. split; [|apply n_page]. pose proof (tree_lt q gq HG). lia. }
    destruct (decide (p = q)) as [->|Hpq'].
    { rewrite ghost_q. intros [= <-]. split; [|apply q_page]. pose proof (tree_lt q gq HG). lia. }
    rewrite ghost_other by done. intros Hp. split; [pose proof (tree_lt p g Hp); lia|].
    destruct (decide (p = pp)) as [->|Hpp].
    + assert (g = gp) as -> by congruence. exists xp2. split; [by rewrite Hns2, lookup_insert_eq|]. apply pp_page.
    + destruct (other_page p g Hp Hpq' Hpp) as (y & y' & _ & ? & _ & ?). by exists y'.
  - rewrite E4. intros p g Hp Hpr'. apply split_up; [|done]. exact Hp.
Qed.

Lemma split_entries k v : ok k →
  ∃ xq xn, nodes s2 !! q = Some xq ∧ nodes s2 !! n = Some xn ∧
    (assoc fh k (entries x) = Some v ↔ assoc fh k (entries xq) = Some v ∨ assoc fh k (entries xn) = Some v).
Proof using All.
  intros Hk. destruct q_after as (xq & Hq & E1 & E2 & E3 & _). destruct n_after as (xn & Hnn & _ & _ & _ & F4 & F5 & _).
  exists xq, xn. split_and!; try done.
  destruct (full_live s G q gq x TI HG Hx Hfull) as [L1 L2].
  rewrite (assoc_halves x (half_of x) k v (po_node _ _ _ _ _ _ _ _ _ (full_page s G q gq x TI HG Hx)) Hk), L1, L2.
  unfold entries. rewrite F4, F5. unfold live_keys, live_rids. by rewrite E1, E2, E3.
Qed.

Lemma split_below_has k v : ok k → has fh s2 split_ghost k v ↔ has fh s G k v.
Proof using All.
  intros Hk. destruct (split_entries k v Hk) as (xq & xn & Hq & Hnn & Hiff). split.
  - intros (p & g & y & Hp & Hh & Hy & Ha). destruct (decide (p = n)) as [->|Hpn].
    { rewrite ghost_n in Hp. injection Hp as <-. assert (y = xn) as -> by congruence. exists q, gq, x. split_and!; try done. apply Hiff. by right. }
    destruct (decide (p = q)) as [->|Hpq'].
    { rewrite ghost_q in Hp. injection Hp as <-. assert (y = xq) as -> by congruence. exists q, gq, x. split_and!; try done. apply Hiff. by left. }
    rewrite ghost_other in Hp by done. destruct (decide (p = pp)) as [->|Hpp]; [assert (g = gp) as -> by congruence; lia|].
    destruct (other_page p g Hp Hpq' Hpp) as (y0 & y' & Hy0 & Hy' & Hs & _). assert (y = y') as -> by congruence.
    destruct (live_same _ _ Hs) as (_ & _ & L). exists p, g, y0. split_and!; try done. by rewrite <- L.
  - intros (p & g & y & Hp & Hh & Hy & Ha). destruct (decide (p = q)) as [->|Hpq'].
    { assert (y = x) as -> by congruence. assert (g = gq) as -> by congruence. apply Hiff in Ha as [Ha|Ha].
      - exists q, (MkInfo (ht gq) (lo gq) (Some sep)), xq. split_and!; try done. apply ghost_q.
      - exists n, (MkInfo (ht gq) (Some sep) (hi gq)), xn. split_and!; try done. apply ghost_n. }
    destruct (decide (p = pp)) as [->|Hpp]; [assert (g = gp) as -> by congruence; lia|].
    destruct (other_page p g Hp Hpq' Hpp) as (y0 & y' & Hy0 & Hy' & Hs & _). assert (y = y0) as -> by congruence.
    destruct (live_same _ _ Hs) as (_ & _ & L). exists p, g, y'. split_and!; try done; [|by rewrite L].
    pose proof (tree_lt _ _ Hp). by rewrite ghost_other by lia.
Qed.

End Parent.

(** ** Splitting the root *)

Section Root.
Context (s : IxState) (G : gmap Z info) (q : Z) (gq : info) (x : IxNode).
Context (TI : tree_inv (eq q) s G) (HG : G !! q = Some gq) (Hx : nodes s !! q = Some x) (Hfull : num_key x = order + 1).
Context (n R : Z) (Hn : n = next_page s) (HRn : R = n + 1) (Hroot : q = root_page (file_hdr s)).
Context (sep k0 : key) (Hsep : keys x !! half_of x = Some sep) (Hk0 : keys x !! O = Some k0).
Context (zk : key) (Hdead : dead fh ok zk) (z : IxNode) (Hzk : length (keys z) = slots) (Hzr : length (rids z) = slots).
Context (Hz : ∀ i k, keys z !! i = Some k → k = zk).
Context (ns1 : gmap Z IxNode) (SR : split_result x q n zk (nodes s) ns1).
Context (s2 : IxState) (HR : nodes s2 !! R = Some (root_node z q n k0 sep)).
Context (Hq2 : nodes s2 !! q = SetParentPageNo R <$> ns1 !! q) (Hn2 : nodes s2 !! n = SetParentPageNo R <$> ns1 !! n).
Context (Ho2 : ∀ p, p ≠ R → p ≠ q → p ≠ n → nodes s2 !! p = ns1 !! p).
Context (Hhdr2 : ∃ h, hdr_same (file_hdr s) h ∧ file_hdr s2 = with_root R h) (Hnp2 : next_page s2 = R + 1).

Definition root_ghost : gmap Z info :=
  <[R := MkInfo (S (ht gq)) None None]> (<[n := MkInfo (ht gq) (Some sep) (hi gq)]>
    (<[q := MkInfo (ht gq) (Some k0) (Some sep)]> G)).

Lemma tree_lt_root p g : G !! p = Some g → 1 < p < n.
Proof using All. intros H. destruct (ti_page _ _ _ _ _ _ TI p g H) as [? _]. lia. Qed.

Lemma rghost_R : root_ghost !! R = Some (MkInfo (S (ht gq)) None None).
Proof using All. apply lookup_insert_eq. Qed.

Lemma rghost_n : root_ghost !! n = Some (MkInfo (ht gq) (Some sep) (hi gq)).
Proof using All. unfold root_ghost. rewrite lookup_insert_ne by lia. apply lookup_insert_eq. Qed.

Lemma rghost_q : root_ghost !! q = Some (MkInfo (ht gq) (Some k0) (Some sep)).
Proof using All.
  pose proof (tree_lt_root q gq HG). unfold root_ghost. rewrite !lookup_insert_ne by lia. apply lookup_insert_eq.
Qed.

Lemma rghost_other p : p ≠ q → p ≠ n → p ≠ R → root_ghost !! p = G !! p.
Proof using All. intros. unfold root_ghost. by rewrite !lookup_insert_ne. Qed.

Lemma root_bounds : hi gq = None ∧ lo gq = None ∧ ∀ p g, G !! p = Some g → p ≠ q → (ht g < ht gq)%nat.
Proof using All.
  destruct (ti_root _ _ _ _ _ _ TI) as (gr & _ & HGr & _ & _ & Hl & Hh & Hmax). rewrite <- Hroot in *.
  assert (gr = gq) as -> by congruence. split_and!; try done. intros p g Hp Hne. destruct (Hmax p g Hp) as [Hle Heq].
  destruct (decide (ht g = ht gq)) as [E|E]; [by apply Heq in E|lia].
Qed.

Lemma rpages_other p y : p ≠ q → p ≠ n → p ≠ R → nodes s !! p = Some y →
  ∃ y', nodes s2 !! p = Some y' ∧ same_node y y' ∧
    parent y' = if decide (is_leaf x = false ∧ p ∈ rid_page_no <$> drop (half_of x) (rids x)) then n else parent y.
Proof using All. intros H1 H2 H3 Hy. rewrite (Ho2 p H3 H1 H2). by apply (sr_other _ _ _ _ _ _ SR). Qed.

(** The right neighbour of a page is not the root. *)
Lemma rghost_keeps c gc : G !! c = Some gc → c ≠ q → ∃ gc', root_ghost !! c = Some gc' ∧ ht gc' = ht gc ∧ lo gc' = lo gc.
Proof using All. intros Hc Hne. pose proof (tree_lt_root c gc Hc). exists gc. by rewrite rghost_other by lia. Qed.

Lemma rsplit_kids : ht gq ≠ O → ∀ i r gc, rids x !! i = Some r → G !! rid_page_no r = Some gc →
  root_ghost !! rid_page_no r = Some gc ∧
  ∃ xc, nodes s2 !! rid_page_no r = Some xc ∧ parent xc = if decide (i < half_of x)%nat then q else n.
Proof using All.
  intros Hh i r gc Hr HGc. pose proof (full_page s G q gq x TI HG Hx) as PO.
  destruct (full_child s G q gq x TI HG Hx Hfull i r Hh Hr) as (gc' & xc & HGc' & Hxc & Hpc & Hht & _).
  assert (gc' = gc) as -> by congruence. pose proof (tree_lt_root _ _ HGc).
  assert (rid_page_no r ≠ q) by (intros E; rewrite E in HGc; assert (gc = gq) as -> by congruence; lia).
  split; [by rewrite rghost_other by lia|].
  destruct (rpages_other _ xc ltac:(done) ltac:(lia) ltac:(lia) Hxc) as (xc' & Hxc' & _ & Hp). exists xc'. split; [done|].
  rewrite Hp, Hpc. by apply (half_parent s G q gq x n i r TI HG Hx Hfull Hh Hr).
Qed.

Lemma rq_page full : ∃ xq, nodes s2 !! q = Some xq ∧ parent xq = R ∧ num_key xq = num_key x `quot` 2 ∧ keys xq = keys x ∧
  rids xq = rids x ∧ page_ok (nodes s2) root_ghost full q (MkInfo (ht gq) (Some k0) (Some sep)) xq.
Proof using All.
  destruct (sr_q _ _ _ _ _ _ SR) as (xq & H1 & E1 & E2 & E3 & E4 & E5 & E6).
  exists (SetParentPageNo R xq). rewrite Hq2, H1. split_and!; try done.
  destruct (key_ok s G q gq x TI HG Hx Hfull _ _ Hk0) as [Hk0ok _].
  apply (lower_half_ok s G q gq x TI HG Hx Hfull n sep Hsep (nodes s2) root_ghost (Some k0)); try done.
  - by intros l [= <-].
  - intros l k i [= <-] Hk. apply (key_le s G q gq x TI HG Hx Hfull 0 i); [done|done|lia].
  - by intros _ l [= <-].
  - apply rghost_n.
  - apply rghost_keeps.
  - apply rsplit_kids.
Qed.

Lemma rn_page full : ∃ xn, nodes s2 !! n = Some xn ∧ parent xn = R ∧ live_keys xn = drop (half_of x) (keys x) ∧
  live_rids xn = drop (half_of x) (rids x) ∧ page_ok (nodes s2) root_ghost full n (MkInfo (ht gq) (Some sep) (hi gq)) xn.
Proof using All.
  destruct (sr_n _ _ _ _ _ _ SR) as (xn & H1 & E1 & E2 & E3 & E4 & E5 & E6 & E7 & E8 & E9).
  exists (SetParentPageNo R xn). rewrite Hn2, H1. split_and!; try done.
  destruct (key_ok s G q gq x TI HG Hx Hfull _ _ Hk0) as [Hk0ok _].
  apply (upper_half_ok s G q gq x TI HG Hx Hfull n sep Hsep (nodes s2) root_ghost (Some k0)); try done.
  - by intros l [= <-].
  - intros l k i [= <-] Hk. apply (key_le s G q gq x TI HG Hx Hfull 0 i); [done|done|lia].
  - by intros _ l [= <-].
  - apply rghost_n.
  - apply rghost_keeps.
  - apply rsplit_kids.
  - intros i k Hi Hk. by rewrite (E6 i k Hi Hk).
Qed.

Lemma R_page : page_ok (nodes s2) root_ghost no_full R (MkInfo (S (ht gq)) None None) (root_node z q n k0 sep).
Proof using All.
  destruct (rq_page no_full) as (xq & Hq & Hpq & _). destruct (rn_page no_full) as (xn & Hnn & Hpn & _).
  destruct (key_ok s G q gq x TI HG Hx Hfull _ _ Hk0) as [Hk0ok _]. destruct (key_ok s G q gq x TI HG Hx Hfull _ _ Hsep) as [Hsok _].
  pose proof (half_range s G q gq x TI HG Hx Hfull) as Hh.
  pose proof (key_lt s G q gq x TI HG Hx Hfull 0 (half_of x) k0 sep Hk0 Hsep ltac:(lia)) as Hlt.
  destruct (full_len s G q gq x TI HG Hx Hfull) as (_ & _ & L3 & _).
  assert (Hlk : live_keys (root_node z q n k0 sep) = [k0; sep]).
  { destruct z as [? ? ? ? ? ? [|a [|b ks]] rs]; simpl in Hzk; try lia. done. }
  assert (Hlr : live_rids (root_node z q n k0 sep) = [MkRid q (-1); MkRid n (-1)]).
  { destruct z as [? ? ? ? ? ? ks [|a [|b rs]]]; simpl in Hzr; try lia. done. }
  assert (Hord : 2 < order < int_max) by apply (ti_order _ _ _ _ _ _ TI).
  assert (Hslots : slots = Z.to_nat (order + 1)) by done.
  split.
  - split; rewrite ?Hlk; simpl; rewrite ?length_insert, ?Hzk, ?Hzr; try lia.
    + by repeat constructor.
    + repeat (constructor; [|try constructor]); try done. constructor.
  - simpl. rewrite !length_insert, Hzk. lia.
  - left. simpl. lia.
  - intros _ i k Hi Hk. left. simpl in Hi, Hk. change (Z.to_nat 2) with 2%nat in Hi.
    rewrite !list_lookup_insert_ne in Hk by lia. by rewrite (Hz i k Hk).
  - by split.
  - rewrite Hlk. by repeat constructor.
  - done.
  - done.
  - simpl. lia.
  - intros _ i r. rewrite Hlr. unfold child_ok, child_lo, child_hi. rewrite Hlk. simpl.
    destruct (proj1 root_bounds). destruct i as [|[|i]]; simpl; intros [= <-]; simpl.
    + exists (MkInfo (ht gq) (Some k0) (Some sep)), xq. rewrite rghost_q. by split_and!.
    + exists (MkInfo (ht gq) (Some sep) (hi gq)), xn. rewrite rghost_n. by split_and!.
  - by intros _ _ l [=].
Qed.

Lemma rother_page p g : G !! p = Some g → p ≠ q →
  ∃ y y', nodes s !! p = Some y ∧ nodes s2 !! p = Some y' ∧ same_node y y' ∧ page_ok (nodes s2) root_ghost no_full p g y'.
Proof using All.
  intros HGp Hpq. destruct (ti_page _ _ _ _ _ _ TI p g HGp) as (_ & y & Hy & PO). pose proof (tree_lt_root _ _ HGp).
  destruct root_bounds as (_ & Hlo & Hlow).
  destruct (rpages_other p y Hpq ltac:(lia) ltac:(lia) Hy) as (y' & Hy' & Hs & _). exists y, y'. split_and!; try done.
  assert (Hkid : ht g ≠ O → ∀ i r gc xc, live_rids y !! i = Some r → G !! rid_page_no r = Some gc →
            nodes s !! rid_page_no r = Some xc → parent xc = p →
            root_ghost !! rid_page_no r = Some gc ∧ ∃ xc', nodes s2 !! rid_page_no r = Some xc' ∧ parent xc' = p).
  { intros Hh i r gc xc Hr HGc Hxc Hpc. pose proof (tree_lt_root _ _ HGc).
    destruct (po_child _ _ _ _ _ _ _ _ _ PO Hh i r Hr) as (gc' & ? & HGc' & _ & _ & Hht & _).
    assert (gc' = gc) as -> by congruence. pose proof (Hlow p g HGp Hpq).
    assert (Hcq : rid_page_no r ≠ q) by (intros E; rewrite E in HGc; assert (gc = gq) as -> by congruence; lia).
    split; [by rewrite rghost_other by lia|].
    destruct (rpages_other _ xc Hcq ltac:(lia) ltac:(lia) Hxc) as (xc' & Hxc' & _ & Hp'). exists xc'. split; [done|].
    rewrite Hp', decide_False; [done|]. intros [Hl (r' & E & Hin)%list_elem_of_fmap].
    apply list_elem_of_lookup in Hin as [j Hj]. rewrite lookup_drop in Hj.
    destruct (full_child s G q gq x TI HG Hx Hfull _ r' ltac:(lia) Hj) as (gc2 & xc2 & _ & Hxc2 & Hp2 & _).
    rewrite <- E in Hxc2. congruence. }
  assert (Hroom : num_key y ≤ order ∨ False).
  { destruct (po_room _ _ _ _ _ _ _ _ _ PO) as [?|?]; [by left|]. by subst. }
  eapply page_ok_frame; [exact PO|done|done| |done].
  intros _ c gc u Hc Hu. apply rghost_keeps; [done|]. intros ->. congruence.
Qed.

Lemma root_up p g : root_ghost !! p = Some g → p ≠ R →
  ∃ q' gq' xq' i r, root_ghost !! q' = Some gq' ∧ ht gq' = S (ht g) ∧ nodes s2 !! q' = Some xq' ∧
    live_rids xq' !! i = Some r ∧ rid_page_no r = p.
Proof using All.
  destruct (full_len s G q gq x TI HG Hx Hfull) as (_ & _ & L3 & _).
  assert (Hlr : live_rids (root_node z q n k0 sep) = [MkRid q (-1); MkRid n (-1)]).
  { destruct z as [? ? ? ? ? ? ks [|a [|b rs]]]; simpl in Hzr; try lia. done. }
  destruct (decide (p = n)) as [->|Hpn].
  { rewrite rghost_n. intros [= <-] _. exists R, (MkInfo (S (ht gq)) None None), (root_node z q n k0 sep), 1%nat, (MkRid n (-1)).
    split_and!; try done; [apply rghost_R|by rewrite Hlr]. }
  destruct (decide (p = q)) as [->|Hpq].
  { rewrite rghost_q. intros [= <-] _. exists R, (MkInfo (S (ht gq)) None None), (root_node z q n k0 sep), 0%nat, (MkRid q (-1)).
    split_and!; try done; [apply rghost_R|by rewrite Hlr]. }
  intros Hp HpR. rewrite rghost_other in Hp by done.
  destruct (ti_up _ _ _ _ _ _ TI p g Hp ltac:(congruence)) as (q0 & g0 & x0 & i & r & HG0 & Hh0 & Hx0 & Hr0 & Hrp).
  destruct (decide (q0 = q)) as [->|Hq0q].
  - assert (g0 = gq) as -> by congruence. assert (x0 = x) as -> by congruence.
    destruct (full_live s G q gq x TI HG Hx Hfull) as [_ Hlive]. rewrite Hlive in Hr0.
    destruct (decide (i < half_of x)%nat) as [Hi|Hi].
    + destruct (rq_page no_full) as (xq & Hq & _ & E1 & _ & E3 & _). exists q, (MkInfo (ht gq) (Some k0) (Some sep)), xq, i, r.
      split_and!; try done; [apply rghost_q|]. unfold live_rids. rewrite E1, E3. fold (half_of x). by rewrite lookup_take_lt.
    + destruct (rn_page no_full) as (xn & Hnn & _ & _ & E5 & _).
      exists n, (MkInfo (ht gq) (Some sep) (hi gq)), xn, (i - half_of x)%nat, r.
      split_and!; try done; [apply rghost_n|]. rewrite E5, lookup_drop. by replace (half_of x + (i - half_of x))%nat with i by lia.
  - destruct (rother_page q0 g0 HG0 Hq0q) as (y & y' & Hy & Hy' & Hs & _). assert (y = x0) as -> by congruence.
    exists q0, g0, y', i, r. destruct (live_same _ _ Hs) as (_ & L & _). pose proof (tree_lt_root _ _ HG0). split_and!; try done.
    + by rewrite rghost_other by lia.
    + by rewrite L.
Qed.

Lemma split_root_inv : tree_inv no_full s2 root_ghost.
Proof using All.
  destruct Hhdr2 as (h & (E1 & E2 & E3 & E4 & E5) & Eh). destruct root_bounds as (Hhi & _ & Hlow).
  pose proof (tree_lt_root q gq HG) as Hqlt.
  split; rewrite ?Eh; simpl.
  - destruct (ti_hdr _ _ _ _ _ _ TI) as (? & ? & ?). repeat split; simpl; congruence.
  - apply (ti_order _ _ _ _ _ _ TI).
  - destruct (ti_header _ _ _ _ _ _ TI) as [y Hy]. unfold IX_LEAF_HEADER_PAGE in *.
    destruct (rpages_other 1 y ltac:(lia) ltac:(lia) ltac:(lia) Hy) as (y' & -> & _). done.
  - exists (MkInfo (S (ht gq)) None None), (root_node z q n k0 sep). rewrite rghost_R. split_and!; try done.
    intros p g. destruct (decide (p = R)) as [->|HpR]; [rewrite rghost_R; by intros [= <-]|].
    destruct (decide (p = n)) as [->|Hpn]; [rewrite rghost_n; intros [= <-]; simpl; lia|].
    destruct (decide (p = q)) as [->|Hpq]; [rewrite rghost_q; intros [= <-]; simpl; lia|].
    rewrite rghost_other by done. intros Hp. pose proof (Hlow p g Hp Hpq). simpl. lia.
  - intros p g. destruct (decide (p = R)) as [->|HpR].
    { rewrite rghost_R. intros [= <-]. split; [lia|]. exists (root_node z q n k0 sep). split; [done|]. apply R_page. }
    destruct (decide (p = n)) as [->|Hpn].
    { rewrite rghost_n. intros [= <-]. split; [lia|]. destruct (rn_page no_full) as (xn & ? & _ & _ & _ & ?). by exists xn. }
    destruct (decide (p = q)) as [->|Hpq].
    { rewrite rghost_q. intros [= <-]. split; [lia|]. destruct (rq_page no_full) as (xq & ? & _ & _ & _ & _ & ?). by exists xq. }
    rewrite rghost_other by done. intros Hp. split; [pose proof (tree_lt_root p g Hp); lia|].
    destruct (rother_page p g Hp Hpq) as (y & y' & _ & ? & _ & ?). by exists y'.
  - apply root_up.
Qed.

Lemma split_root_has k v : ok k → has fh s2 root_ghost k v ↔ has fh s G k v.
Proof using All.
  intros Hk. destruct (rq_page no_full) as (xq & Hq & _ & E1 & E2 & E3 & _). destruct (rn_page no_full) as (xn & Hnn & _ & F4 & F5 & _).
  assert (Hiff : assoc fh k (entries x) = Some v ↔ assoc fh k (entries xq) = Some v ∨ assoc fh k (entries xn) = Some v).
  { destruct (full_live s G q gq x TI HG Hx Hfull) as [L1 L2].
    rewrite (assoc_halves x (half_of x) k v (po_node _ _ _ _ _ _ _ _ _ (full_page s G q gq x TI HG Hx)) Hk), L1, L2.
    unfold entries. rewrite F4, F5. unfold live_keys, live_rids. by rewrite E1, E2, E3. }
  split.
  - intros (p & g & y & Hp & Hh & Hy & Ha). destruct (decide (p = R)) as [->|HpR]; [by rewrite rghost_R in Hp; injection Hp as <-|].
    destruct (decide (p = n)) as [->|Hpn].
    { rewrite rghost_n in Hp. injection Hp as <-. assert (y = xn) as -> by congruence. exists q, gq, x. split_and!; try done. apply Hiff. by right. }
    destruct (decide (p = q)) as [->|Hpq].
    { rewrite rghost_q in Hp. injection Hp as <-. assert (y = xq) as -> by congruence. exists q, gq, x. split_and!; try done. apply Hiff. by left. }
    rewrite rghost_other in Hp by done. destruct (rother_page p g Hp Hpq) as (y0 & y' & Hy0 & Hy' & Hs & _).
    assert (y = y') as -> by congruence. destruct (live_same _ _ Hs) as (_ & _ & L). exists p, g, y0. split_and!; try done. by rewrite <- L.
  - intros (p & g & y & Hp & Hh & Hy & Ha). destruct (decide (p = q)) as [->|Hpq].
    { assert (y = x) as -> by congruence. assert (g = gq) as -> by congruence. apply Hiff in Ha as [Ha|Ha].
      - exists q, (MkInfo (ht gq) (Some k0) (Some sep)), xq. split_and!; try done. apply rghost_q.
      - exists n, (MkInfo (ht gq) (Some sep) (hi gq)), xn. split_and!; try done. apply rghost_n. }
    destruct (rother_page p g Hp Hpq) as (y0 & y' & Hy0 & Hy' & Hs & _). assert (y = y0) as -> by congruence.
    destruct (live_same _ _ Hs) as (_ & _ & L). exists p, g, y'. split_and!; try done; [|by rewrite L].
    pose proof (tree_lt_root _ _ Hp). by rewrite rghost_other by lia.
Qed.

End Root.
End Insert.
