(* ===== verification/IxInsert.v ===== *)
(** [splitNodeIfFull] and [insert_entry] run to completion and keep the tree:
    the surgery of [IxTreeInsert] put together along the code. *)
From S2P Require Import Prelude Config IxKey IxNode IxNodeSpec IxTree IxTreeSpec IxTreeSplit IxTreeInsert.

Section InsertRun.
Context (fh : IxFileHdr) (ok : key → Prop) {KO : KeyOrder (compare fh) ok}.
Context (Hzero : dead fh ok (zeros (Z.to_nat (col_len fh)))).
Implicit Types (x : IxNode) (k : key) (s : IxState) (G : gmap Z info) (g : info) (p q : Z).
Abbreviation order := (btree_order fh).
Abbreviation page_ok := (page_ok fh ok strict).
Abbreviation tree_inv := (tree_inv fh ok strict).
Abbreviation no_full := (λ _ : Z, False).

(** [last_leaf] names the rightmost leaf. *)
Definition last_ok s G : Prop := ∀ p g, G !! p = Some g → ht g = O → hi g = None → last_leaf (file_hdr s) = p.

Lemma tree_inv_last full s G p : tree_inv full s G → tree_inv full (set_file_hdr (with_last_leaf p (file_hdr s)) s) G.
Proof. by intros []; split. Qed.

Lemma page_of full s G q gq : tree_inv full s G → G !! q = Some gq → ∃ x, nodes s !! q = Some x ∧ page_ok (nodes s) G full q gq x.
Proof. intros TI HG. by destruct (ti_page _ _ _ _ _ _ TI q gq HG) as (_ & ?). Qed.

Lemma is_full_run full s G q gq x :
  tree_inv full s G → G !! q = Some gq → nodes s !! q = Some x →
  on_node q (λ h, gets (is_full h)) s = (Ok (num_key x =? order + 1), s).
Proof.
  intros TI HG Hx. apply (on_node_pure _ _ _ x); [done|]. unfold gets, is_full, GetMaxSize.
  destruct (ti_hdr _ _ _ _ _ _ TI) as (_ & _ & ->). pose proof (ti_order _ _ _ _ _ _ TI).
  rewrite wrap32_id by (unfold is_int, int_min; lia). done.
Qed.

(** A page that turned out not to be full. *)
Lemma tree_inv_relax s G q x :
  tree_inv (eq q) s G → nodes s !! q = Some x → num_key x ≠ order + 1 → tree_inv no_full s G.
Proof.
  intros TI Hx Hne. destruct TI as [T1 T2 T3 T4 T5 T6]. split; try done. intros p g Hp.
  destruct (T5 p g Hp) as (Hlt & y & Hy & PO). split; [done|]. exists y. split; [done|].
  pose proof (no_num _ _ _ (po_node _ _ _ _ _ _ _ _ _ PO)). pose proof (po_len _ _ _ _ _ _ _ _ _ PO).
  eapply page_ok_frame; [exact PO|done| |by eauto|by eauto].
  destruct (po_room _ _ _ _ _ _ _ _ _ PO) as [?|<-]; [by left|]. left. assert (y = x) as -> by congruence. lia.
Qed.

(** What a full page needs for [Split] to run. *)
Lemma Split_ready s G q gq x :
  tree_inv (eq q) s G → G !! q = Some gq → nodes s !! q = Some x → num_key x = order + 1 →
  ∃ s', Split q s = (Ok (next_page s), s') ∧ hdr_same (file_hdr s) (file_hdr s') ∧
    next_page s' = next_page s + 1 ∧
    split_result x q (next_page s) (zeros (Z.to_nat (col_len fh))) (nodes s) (nodes s').
Proof using KO.
  intros TI HG Hx Hfull. destruct (full_len fh ok s G q gq x TI HG Hx Hfull) as (L1 & L2 & L3 & L4).
  pose proof (full_page fh ok s G q gq x TI HG Hx) as PO. destruct (ti_hdr _ _ _ _ _ _ TI) as (_ & Hcl & Hor).
  destruct (ti_page _ _ _ _ _ _ TI q gq HG) as [Hq _].
  rewrite <- Hcl. apply (Split_run s q x (slots fh)); try done; [lia|rewrite Hor; unfold slots in *; lia|lia| |].
  - intros Hl. assert (Hh : ht gq = O) by (rewrite (po_leaf _ _ _ _ _ _ _ _ _ PO) in Hl; by apply Nat.eqb_eq in Hl).
    pose proof (po_next _ _ _ _ _ _ _ _ _ PO Hh) as Hno. unfold next_ok in Hno. destruct (hi gq) as [u|] eqn:Eh.
    + destruct Hno as (gn & HGn & _ & Hln). destruct (ti_page _ _ _ _ _ _ TI _ _ HGn) as (Hlt & y & Hy & _).
      unfold INVALID_PAGE_ID. split; [lia|]. split; [|split; [lia|by eexists]].
      intros E. rewrite E in HGn. assert (gn = gq) as -> by congruence.
      destruct (sep_exists fh ok s G q gq x TI HG Hx Hfull) as [c Hc].
      destruct (key_ok fh ok s G q gq x TI HG Hx Hfull _ _ Hc) as [Hok [W1 W2]].
      specialize (W1 _ Hln). specialize (W2 _ Eh). apply cmp_le_flip in W1; [lia| |done].
      by apply (po_bounds _ _ _ _ _ _ _ _ _ PO).
    + rewrite Hno. unfold IX_LEAF_HEADER_PAGE, INVALID_PAGE_ID. split; [lia|]. split; [lia|]. split; [lia|].
      apply (ti_header _ _ _ _ _ _ TI).
  - intros Hl r (j & Hj)%list_elem_of_lookup. rewrite lookup_drop in Hj.
    assert (Hh : ht gq ≠ O) by (intros Hz; rewrite (po_leaf _ _ _ _ _ _ _ _ _ PO), Hz in Hl; done).
    destruct (full_child fh ok s G q gq x TI HG Hx Hfull _ r Hh Hj) as (gc & xc & HGc & Hxc & _ & Hht & _).
    destruct (ti_page _ _ _ _ _ _ TI _ _ HGc) as (Hlt & _). split; [|split; [lia|by eexists]].
    intros E. rewrite E in HGc. assert (gc = gq) as -> by congruence. lia.
Qed.

(** ** The parent takes the separator *)

Lemma Insert_hdr h k v : key_hdr fh h → Insert h k v = Insert fh k v.
Proof. intros (E1 & E2 & _). destruct h, fh; simpl in *. by subst. Qed.

(** What the split of a page leaves behind, for its caller. *)
Record split_done s G gq s' G' : Prop := {
  sd_inv : tree_inv no_full s' G';
  sd_has : ∀ k v, ok k → has fh s' G' k v ↔ has fh s G k v;
  sd_keep : ∀ p g, G !! p = Some g → ∃ g', G' !! p = Some g' ∧ ht g' = ht g;
  sd_leaves : ht gq ≠ O → last_leaf (file_hdr s') = last_leaf (file_hdr s) ∧
                ∀ p g, ht g = O → G' !! p = Some g ↔ G !! p = Some g;
  sd_last : last_ok s G → last_ok s' G';
  sd_height : ∀ gr gr', G !! root_page (file_hdr s) = Some gr → G' !! root_page (file_hdr s') = Some gr' →
                (ht gr' ≤ S (ht gr))%nat
}.

Lemma pins_done s G gq s' G' m : split_done s G gq s' G' → split_done s G gq (set_pinmap m s') G'.
Proof. intros [H1 H2 H3 H4 H5 H6]. split; try done. by apply tree_inv_pins. Qed.

Section OneSplit.
Context (s : IxState) (G : gmap Z info) (q : Z) (gq : info) (x : IxNode).
Context (TI : tree_inv (eq q) s G) (HG : G !! q = Some gq) (Hx : nodes s !! q = Some x) (Hfull : num_key x = order + 1).
Context (s1 : IxState) (Hh1 : hdr_same (file_hdr s) (file_hdr s1)) (Hp1 : next_page s1 = next_page s + 1).
Context (SR : split_result x q (next_page s) (zeros (Z.to_nat (col_len fh))) (nodes s) (nodes s1)).
Context (sep : key) (Hsep : keys x !! half_of x = Some sep).
Abbreviation n := (next_page s).

(** The new page's first key is the separator. *)
Lemma new_first_key : on_node n (λ _, get_key 0) s1 = (Ok sep, s1).
Proof using All.
  destruct (sr_n _ _ _ _ _ _ SR) as (xn & Hn & _ & _ & _ & Hlk & _).
  apply (on_get_key s1 n xn Hn 0). assert (E : live_keys xn !! O = Some sep).
  { by rewrite Hlk, lookup_drop, Nat.add_0_r. }
  unfold live_keys in E. by apply lookup_take_Some in E as [? _].
Qed.

Lemma below_run : q ≠ root_page (file_hdr s) →
  ∃ pp gp m c s2, read_node q parent s1 = (Ok pp, s1) ∧ read_node q IsRootPage s1 = (Ok false, s1) ∧
    FetchNode pp s1 = (Ok pp, set_pinmap m s1) ∧
    on_node pp (λ h, Insert h sep (MkRid n (-1))) (set_pinmap m s1) = (Ok c, s2) ∧
    file_hdr s2 = file_hdr s1 ∧ G !! pp = Some gp ∧ ht gp = S (ht gq) ∧ pp ≠ q ∧
    tree_inv (eq pp) s2 (split_ghost G q gq n sep) ∧
    ∀ k v, ok k → has fh s2 (split_ghost G q gq n sep) k v ↔ has fh s G k v.
Proof using All.
  intros Hr. destruct (ti_up _ _ _ _ _ _ TI q gq HG Hr) as (pp & gp & xp & iq & rq & HGp & Hhp & Hxp & Hrq & Hpq).
  pose proof (parent_page fh ok s G q gq x TI HG Hx Hfull n sep Hsep pp gp xp iq rq HGp Hhp Hxp Hrq Hpq) as PO.
  destruct (parent_child fh ok s G q gq x TI HG Hx Hfull n sep Hsep pp gp xp iq rq HGp Hhp Hxp Hrq Hpq) as (Hpar & _ & _).
  destruct (sep_within fh ok s G q gq x TI HG Hx Hfull n sep Hsep pp gp xp iq rq HGp Hhp Hxp Hrq Hpq) as [Hsok Hsw].
  pose proof (sep_scan fh ok s G q gq x TI HG Hx Hfull n sep Hsep pp gp xp iq rq HGp Hhp Hxp Hrq Hpq) as Hscan.
  pose proof (sep_absent fh ok s G q gq x TI HG Hx Hfull n sep Hsep pp gp xp iq rq HGp Hhp Hxp Hrq Hpq) as Habs.
  destruct (ti_page _ _ _ _ _ _ TI pp gp HGp) as [Hplt _]. destruct (ti_page _ _ _ _ _ _ TI q gq HG) as [Hqlt _].
  assert (Hppq : pp ≠ q) by (intros E; rewrite E in HGp; assert (gp = gq) as -> by congruence; lia).
  destruct (sr_q _ _ _ _ _ _ SR) as (xq & Hq & _ & _ & _ & _ & Hqpar & _).
  destruct (sr_other _ _ _ _ _ _ SR pp xp Hppq ltac:(lia) Hxp) as (xp1 & Hxp1 & Hs1 & Hpar1).
  assert (Hpar1' : parent xp1 = parent xp).
  { rewrite Hpar1. destruct (decide _) as [[Hl (r & E & Hin)%list_elem_of_fmap]|]; [exfalso|done].
    apply list_elem_of_lookup in Hin as [j Hj]. rewrite lookup_drop in Hj.
    assert (Hh : ht gq ≠ O).
    { intros Hz. rewrite (po_leaf _ _ _ _ _ _ _ _ _ (full_page fh ok s G q gq x TI HG Hx)), Hz in Hl. done. }
    destruct (full_child fh ok s G q gq x TI HG Hx Hfull _ r Hh Hj) as (gc & _ & HGc & _ & _ & Hht & _).
    rewrite <- E in HGc. assert (gc = gp) as -> by congruence. lia. }
  destruct (live_same _ _ Hs1) as (Lk & Lr & Le). pose proof (node_ok_same fh ok _ _ Hs1 (po_node _ _ _ _ _ _ _ _ _ PO)) as Hn1.
  assert (Hlen1 : keys xp1 = keys xp ∧ num_key xp1 = num_key xp) by (by destruct Hs1 as (? & _ & _ & ? & _)).
  destruct Hlen1 as [Hk1 Hnum1].
  pose proof (po_len _ _ _ _ _ _ _ _ _ PO) as Hlen. pose proof (po_room _ _ _ _ _ _ _ _ _ PO) as Hroom.
  assert (Hclear : slot_clear fh xp1 sep).
  { intros c Hc. rewrite Hk1, Hnum1 in Hc. by eapply (page_slot_clear fh ok strict _ _ _ _ _ _ sep eq_refl PO Hsok (proj2 Hsw)). }
  pose proof (Insert_ok fh ok xp1 sep (MkRid n (-1)) Hn1 Hsok ltac:(rewrite Hk1, Hnum1; destruct Hroom; [lia|done]) Hclear) as HI.
  rewrite Le, Habs, Lk, Lr, Hscan in HI.
  destruct HI as (xp2 & Hins & Hn2 & Hnum2 & Hlen2 & _ & Hlk2 & Hlr2 & (Hleaf2 & Hpar2 & _) & Htail2).
  destruct (FetchNode_run pp s1 xp1 Hxp1) as [m Hm].
  set (s2 := set_nodes (<[pp := xp2]> (nodes s1)) (set_pinmap m s1)).
  exists pp, gp, m, (num_key xp1 + 1), s2. rewrite <- Hpar, <- Hqpar at 1. split; [by apply read_node_run|].
  assert (Hpos : (INVALID_PAGE_ID < pp)) by (unfold INVALID_PAGE_ID; lia).
  split; [rewrite (read_node_run q IsRootPage s1 xq Hq); unfold IsRootPage; rewrite Hqpar, Hpar; by rewrite (proj2 (Z.eqb_neq _ _)) by lia|].
  split; [done|]. split.
  { apply (on_node_run pp _ (set_pinmap m s1) xp1); [done|]. simpl. rewrite Insert_hdr; [done|].
    destruct (ti_hdr _ _ _ _ _ _ TI) as (? & ? & ?), Hh1 as (? & ? & ? & _). repeat split; congruence. }
  assert (Hleaf1 : is_leaf xp1 = is_leaf xp) by (by destruct Hs1 as (_ & ? & _)).
  split; [done|]. split; [done|]. split; [done|]. split; [done|]. split.
  - eapply (split_below_inv fh ok s G q gq x TI HG Hx Hfull n sep Hsep pp gp xp iq rq HGp Hhp Hxp Hrq Hpq eq_refl Hr _ Hzero
      (nodes s1) SR xp2 Hn2); try done; try congruence. intros j Hj. rewrite <- Hk1. by apply Htail2.
  - eapply (split_below_has fh ok s G q gq x TI HG Hx Hfull n sep Hsep pp gp xp iq rq HGp Hhp Hxp Hrq Hpq eq_refl Hr _ Hzero
      (nodes s1) SR xp2 Hn2); try done; try congruence. intros j Hj. rewrite <- Hk1. by apply Htail2.
Qed.

Lemma root_run : q = root_page (file_hdr s) →
  ∃ s2 k0, read_node q IsRootPage s1 = (Ok true, s1) ∧
    (newRoot ← CreateNode; setNewRoot newRoot q n) s1 = (Ok tt, s2) ∧
    last_leaf (file_hdr s2) = last_leaf (file_hdr s) ∧ root_page (file_hdr s2) = n + 1 ∧
    tree_inv no_full s2 (root_ghost G q gq n (n + 1) sep k0) ∧
    ∀ k v, ok k → has fh s2 (root_ghost G q gq n (n + 1) sep k0) k v ↔ has fh s G k v.
Proof using All.
  intros Hr. destruct (full_len fh ok s G q gq x TI HG Hx Hfull) as (L1 & L2 & L3 & L4).
  destruct (lookup_lt_is_Some_2 (keys x) 0) as [k0 Hk0]; [lia|].
  destruct (ti_page _ _ _ _ _ _ TI q gq HG) as [Hqlt _].
  destruct (sr_q _ _ _ _ _ _ SR) as (xq & Hq & _ & Hqk & _ & _ & Hqpar & _).
  destruct (sr_n _ _ _ _ _ _ SR) as (xn & Hn & _ & _ & _ & Hnk & _).
  destruct (ti_root _ _ _ _ _ _ TI) as (gr & xr & _ & Hxr & Hxrp & _). rewrite <- Hr in Hxr. assert (xr = x) as -> by congruence.
  destruct (ti_hdr _ _ _ _ _ _ TI) as (_ & Hcl & Hor). destruct Hh1 as (E1 & E2 & E3 & E4 & E5).
  destruct (CreateNode_run s1) as (h & Hc & (F1 & F2 & F3 & F4 & F5)). rewrite Hp1 in Hc.
  set (R := n + 1) in *. set (z := zero_node (file_hdr s1)) in *.
  set (sR := MkIx h (<[R := z]> (nodes s1)) (<[R := (1, false)]> (pins s1)) (R + 1)) in *.
  assert (Lz1 : length (keys z) = slots fh) by (unfold z, zero_node, slots; simpl; rewrite length_replicate; congruence).
  assert (Lz2 : length (rids z) = slots fh) by (unfold z, zero_node, slots; simpl; rewrite length_replicate; congruence).
  assert (Hsep0 : keys xn !! O = Some sep).
  { assert (E : live_keys xn !! O = Some sep) by (by rewrite Hnk, lookup_drop, Nat.add_0_r).
    unfold live_keys in E. by apply lookup_take_Some in E as [? _]. }
  destruct (setNewRoot_run sR R q n z xq xn k0 sep) as (s2 & Hrun & Hfh & Hnp & H1 & H2 & H3 & H4);
    try done; try lia; [apply lookup_insert_eq|simpl; rewrite lookup_insert_ne by lia; done
                       |simpl; rewrite lookup_insert_ne by lia; done|by rewrite Hqk|].
  exists s2, k0. split; [rewrite (read_node_run q IsRootPage s1 xq Hq); unfold IsRootPage; by rewrite Hqpar, Hxrp|].
  split; [mstep Hc; exact Hrun|]. split; [rewrite Hfh; simpl; congruence|]. split; [by rewrite Hfh|].
  assert (Hzk : ∀ i k, keys z !! i = Some k → k = zeros (Z.to_nat (col_len fh))).
  { intros i k. unfold z, zero_node. simpl. intros [-> _]%lookup_replicate. congruence. }
  assert (Ho : ∀ p, p ≠ R → p ≠ q → p ≠ n → nodes s2 !! p = nodes s1 !! p).
  { intros p ? ? ?. rewrite H4 by done. simpl. by rewrite lookup_insert_ne. }
  assert (Hhdr2 : ∃ h', hdr_same (file_hdr s) h' ∧ file_hdr s2 = with_root R h').
  { exists h. split; [|done]. repeat split; congruence. }
  split.
  - apply (split_root_inv fh ok s G q gq x TI HG Hx Hfull n R eq_refl eq_refl Hr sep k0 Hsep Hk0 _ Hzero z Lz1 Lz2 Hzk (nodes s1) SR s2); try done.
    + by rewrite H2, Hq.
    + by rewrite H3, Hn.
  - apply (split_root_has fh ok s G q gq x TI HG Hx Hfull n R eq_refl eq_refl Hr sep k0 Hsep Hk0 _ Hzero z Lz1 Lz2 Hzk (nodes s1) SR s2); try done.
    + by rewrite H2, Hq.
    + by rewrite H3, Hn.
Qed.

End OneSplit.

(** ** splitNodeIfFull *)

(** The last steps on the split page: [last_leaf] and the pins. *)
Definition finish_split (q n : Z) : M IxState unit :=
  leaf ← read_node q is_leaf;
  if leaf then
    updateLastLeaf q n ;;
    _ ← UnpinPage q true;
    _ ← UnpinPage n true;
    ret tt
  else ret tt.

Lemma finish_run s q n x : nodes s !! q = Some x →
  ∃ m s', finish_split q n s = (Ok tt, set_pinmap m s') ∧
    s' = if is_leaf x && (q =? last_leaf (file_hdr s)) then set_file_hdr (with_last_leaf n (file_hdr s)) s else s.
Proof.
  intros Hx. unfold finish_split. mstep (read_node_run q is_leaf s x Hx). destruct (is_leaf x); simpl.
  - assert (Hu : updateLastLeaf q n s
                 = (Ok tt, if q =? last_leaf (file_hdr s) then set_file_hdr (with_last_leaf n (file_hdr s)) s else s)).
    { unfold updateLastLeaf, get_last_leaf. unfold st_bind, gets. by destruct (q =? _). }
    mstep Hu. edestruct (UnpinPage_run q true) as (b & m & H1). mstep H1.
    edestruct (UnpinPage_run n true) as (b2 & m2 & H2). mstep H2. by exists m2, (if q =? last_leaf (file_hdr s) then set_file_hdr (with_last_leaf n (file_hdr s)) s else s).
  - exists (pins s), s. split; [by destruct s|done].
Qed.

(** Leaves of the tree after splitting [q] into [q] and [n]. *)
Definition leaves_after G q gq n G' : Prop :=
  (∀ p g, ht g = O → G' !! p = Some g →
     p = n ∧ ht gq = O ∧ hi g = hi gq ∨ p = q ∧ ht gq = O ∧ hi g ≠ None ∨ p ≠ q ∧ p ≠ n ∧ G !! p = Some g) ∧
  (ht gq ≠ O → ∀ p g, ht g = O → G' !! p = Some g ↔ G !! p = Some g).

Lemma split_ghost_leaves G q gq n sep : G !! q = Some gq → G !! n = None → leaves_after G q gq n (split_ghost G q gq n sep).
Proof.
  intros HG HGn. unfold split_ghost. assert (n ≠ q) by congruence. split.
  - intros p g Hh. destruct (decide (p = n)) as [->|Hpn].
    { rewrite lookup_insert_eq. intros [= <-]. left. done. }
    rewrite lookup_insert_ne by done. destruct (decide (p = q)) as [->|Hpq].
    { rewrite lookup_insert_eq. intros [= <-]. right; left. done. }
    rewrite lookup_insert_ne by done. auto.
  - intros Hne p g Hh. destruct (decide (p = n)) as [->|Hpn].
    { rewrite lookup_insert_eq, HGn. split; [intros [= <-]; done|done]. }
    rewrite lookup_insert_ne by done. destruct (decide (p = q)) as [->|Hpq]; [|by rewrite lookup_insert_ne].
    rewrite lookup_insert_eq, HG. split; intros [= <-]; done.
Qed.

Lemma root_ghost_leaves G q gq n R sep k0 :
  G !! q = Some gq → G !! n = None → G !! R = None → R ≠ n → leaves_after G q gq n (root_ghost G q gq n R sep k0).
Proof.
  intros HG HGn HGR HRn. assert (n ≠ q) by congruence. assert (R ≠ q) by congruence. unfold root_ghost. split.
  - intros p g Hh. destruct (decide (p = R)) as [->|HpR]; [rewrite lookup_insert_eq; by intros [= <-]|].
    rewrite lookup_insert_ne by done. destruct (decide (p = n)) as [->|Hpn].
    { rewrite lookup_insert_eq. intros [= <-]. left. done. }
    rewrite lookup_insert_ne by done. destruct (decide (p = q)) as [->|Hpq].
    { rewrite lookup_insert_eq. intros [= <-]. right; left. done. }
    rewrite lookup_insert_ne by done. auto.
  - intros Hne p g Hh. destruct (decide (p = R)) as [->|HpR].
    { rewrite lookup_insert_eq, HGR. split; [intros [= <-]; done|done]. }
    rewrite lookup_insert_ne by done. destruct (decide (p = n)) as [->|Hpn].
    { rewrite lookup_insert_eq, HGn. split; [intros [= <-]; done|done]. }
    rewrite lookup_insert_ne by done. destruct (decide (p = q)) as [->|Hpq]; [|by rewrite lookup_insert_ne].
    rewrite lookup_insert_eq, HG. split; intros [= <-]; done.
Qed.

Lemma finish_done s G q gq n sA GA :
  G !! q = Some gq → tree_inv no_full sA GA → (∀ k v, ok k → has fh sA GA k v ↔ has fh s G k v) →
  (∀ p g, G !! p = Some g → ∃ g', GA !! p = Some g' ∧ ht g' = ht g) →
  last_leaf (file_hdr sA) = last_leaf (file_hdr s) → leaves_after G q gq n GA →
  (∀ gr gr', G !! root_page (file_hdr s) = Some gr → GA !! root_page (file_hdr sA) = Some gr' → (ht gr' ≤ S (ht gr))%nat) →
  ∃ s', finish_split q n sA = (Ok tt, s') ∧ split_done s G gq s' GA.
Proof.
  intros HG TI Hhas Hkeep Hlast [HL1 HL2] Hheight. destruct (Hkeep q gq HG) as (gq' & HGq' & Hhq').
  destruct (page_of _ _ _ _ _ TI HGq') as (xq & Hxq & PO). destruct (finish_run sA q n xq Hxq) as (m & s' & Hrun & ->).
  eexists. split; [exact Hrun|]. apply pins_done.
  assert (Hleaf : is_leaf xq = (ht gq =? 0)%nat) by (by rewrite (po_leaf _ _ _ _ _ _ _ _ _ PO), Hhq').
  match goal with |- split_done _ _ _ ?t _ => set (sB := t) end. assert (HsB : nodes sB = nodes sA ∧ root_page (file_hdr sB) = root_page (file_hdr sA) ∧ tree_inv no_full sB GA).
  { unfold sB. destruct (_ && _); [|done]. split; [done|]. split; [done|]. by apply tree_inv_last. }
  destruct HsB as (HnB & HrB & HtB). split; try done.
  - intros k v Hk. rewrite <- (Hhas k v Hk). unfold has. by rewrite HnB.
  - intros Hne. split; [|by apply HL2]. unfold sB. by rewrite Hleaf, (proj2 (Nat.eqb_neq _ _) Hne).
  - intros Hlo p g Hp Hh Hhi. destruct (HL1 p g Hh Hp) as [(-> & Hz & E)|[(-> & _ & E)|(Hpq & _ & HGp)]]; [|done|].
    + assert (last_leaf (file_hdr sA) = q) as El by (rewrite Hlast; apply (Hlo q gq HG Hz); congruence).
      unfold sB. rewrite Hleaf, Hz, El, Z.eqb_refl. done.
    + assert (last_leaf (file_hdr sA) = p) as El by (rewrite Hlast; by apply (Hlo p g)).
      unfold sB. rewrite El, (proj2 (Z.eqb_neq q p)), andb_false_r by congruence. done.
  - by rewrite HrB.
Qed.

Lemma splitNodeIfFull_unfold fuel q :
  splitNodeIfFull (S fuel) q
  = (full ← on_node q (λ h, gets (is_full h));
     if full then
       newNode ← Split q;
       k ← on_node newNode (λ _, get_key 0);
       (root ← read_node q IsRootPage;
        if root then newRoot ← CreateNode; setNewRoot newRoot q newNode
        else
          pp ← read_node q parent;
          par ← FetchNode pp;
          _ ← on_node par (λ h, Insert h k (MkRid newNode (-1)));
          splitNodeIfFull fuel par ;;
          _ ← UnpinPage par true;
          ret tt) ;;
       finish_split q newNode
     else ret tt).
Proof. done. Qed.

(** A full page is split, and its ancestors as far as needed; with fuel for the
    levels above the page the run returns. *)
Lemma splitNodeIfFull_run fuel s G q gq :
  tree_inv (eq q) s G → G !! q = Some gq →
  (∀ gr, G !! root_page (file_hdr s) = Some gr → (ht gr < ht gq + fuel)%nat) →
  ∃ s' G', splitNodeIfFull fuel q s = (Ok tt, s') ∧ split_done s G gq s' G'.
Proof using All.
  revert s G q gq. induction fuel as [|fuel IH]; intros s G q gq TI HG Hfuel.
  { destruct (ti_root _ _ _ _ _ _ TI) as (gr & _ & HGr & _ & _ & _ & _ & Hmax). specialize (Hfuel gr HGr).
    destruct (Hmax q gq HG). lia. }
  destruct (page_of _ _ _ _ _ TI HG) as (x & Hx & PO). rewrite splitNodeIfFull_unfold.
  mstep (is_full_run (eq q) s G q gq x TI HG Hx). destruct (Z.eqb_spec (num_key x) (order + 1)) as [Hfull|Hne].
  2: { exists s, G. split; [done|]. split; try done; [by eapply tree_inv_relax|by eauto|]. intros gr gr' ? ?. assert (gr' = gr) as -> by congruence. lia. }
  destruct (Split_ready s G q gq x TI HG Hx Hfull) as (s1 & Hs1 & Hh1 & Hp1 & SR). mstep Hs1.
  destruct (sep_exists fh ok s G q gq x TI HG Hx Hfull) as [sep Hsep].
  mstep (new_first_key s G q gq x TI HG Hx Hfull s1 Hh1 Hp1 SR sep Hsep).
  assert (Hlt : ∀ p g, G !! p = Some g → p < next_page s) by (intros p g Hp; destruct (ti_page _ _ _ _ _ _ TI p g Hp); lia).
  assert (Hfresh : ∀ p, next_page s ≤ p → G !! p = None).
  { intros p Hp. destruct (G !! p) as [g|] eqn:E; [|done]. specialize (Hlt p g E). lia. }
  pose proof (Hlt q gq HG) as Hqlt.
  destruct (decide (q = root_page (file_hdr s))) as [Hr|Hr].
  - destruct (root_run s G q gq x TI HG Hx Hfull s1 Hh1 Hp1 SR sep Hsep Hr) as (s2 & k0 & Hrd & Hrun & Hlast & Hroot' & TI2 & Hhas2).
    destruct (finish_done s G q gq (next_page s) s2 (root_ghost G q gq (next_page s) (next_page s + 1) sep k0)) as (s' & Hf & Hd); try done.
    + intros p g Hp. specialize (Hlt p g Hp). unfold root_ghost. rewrite !(lookup_insert_ne _ (_ + 1)), (lookup_insert_ne _ (next_page s)) by lia.
      destruct (decide (p = q)) as [->|Hpq]; [rewrite lookup_insert_eq|rewrite lookup_insert_ne by done; by eauto].
      eexists. split; [done|]. simpl. congruence.
    + apply root_ghost_leaves; [done|apply Hfresh; lia|apply Hfresh; lia|lia].
    + intros gr gr' Hgr. rewrite <- Hr, HG in Hgr. injection Hgr as <-. rewrite Hroot'. unfold root_ghost. rewrite lookup_insert_eq.
      by intros [= <-].
    + exists s', (root_ghost G q gq (next_page s) (next_page s + 1) sep k0). split; [|done].
      rewrite (st_bind_ok _ _ s1 tt s2); [exact Hf|]. mstep Hrd. exact Hrun.
  - destruct (below_run s G q gq x TI HG Hx Hfull s1 Hh1 Hp1 SR sep Hsep Hr) as (pp & gp & m & c & s2 & Hrp & Hrr & Hfe & Hin & Hfh & HGp & Hhp & Hppq & TI2 & Hhas2).
    set (G2 := split_ghost G q gq (next_page s) sep) in *.
    assert (Hkeep2 : ∀ p g, G !! p = Some g → ∃ g', G2 !! p = Some g' ∧ ht g' = ht g).
    { intros p g Hp. specialize (Hlt p g Hp). unfold G2, split_ghost. rewrite (lookup_insert_ne _ (next_page s)) by lia.
      destruct (decide (p = q)) as [->|Hpq]; [rewrite lookup_insert_eq|rewrite lookup_insert_ne by done; by eauto].
      eexists. split; [done|]. simpl. congruence. }
    assert (HGp2 : G2 !! pp = Some gp).
    { specialize (Hlt pp gp HGp). unfold G2, split_ghost. by rewrite !lookup_insert_ne by (congruence || lia). }
    assert (Hroot2 : root_page (file_hdr s2) = root_page (file_hdr s)) by (rewrite Hfh; by destruct Hh1 as (_ & _ & _ & ? & _)).
    destruct (IH s2 G2 pp gp TI2 HGp2) as (s3 & G3 & Hrun3 & Hd3).
    { rewrite Hroot2. intros gr Hgr. destruct (ti_root _ _ _ _ _ _ TI) as (gr0 & _ & HGr & _). 
      destruct (Hkeep2 _ _ HGr) as (gr' & Hgr' & E). specialize (Hfuel gr0 HGr). assert (gr' = gr) as -> by congruence. lia. }
    destruct (UnpinPage_run pp true s3) as (b & m3 & Hun).
    apply (pins_done _ _ _ _ _ m3) in Hd3. destruct Hd3 as [D1 D2 D3 D4 D5 D6]. destruct (D4 ltac:(lia)) as [D4a D4b].
    destruct (finish_done s G q gq (next_page s) (set_pinmap m3 s3) G3) as (s' & Hf & Hd); try done.
    + intros k v Hk. rewrite (D2 k v Hk). by apply Hhas2.
    + intros p g Hp. destruct (Hkeep2 p g Hp) as (g' & Hp' & E). destruct (D3 p g' Hp') as (g'' & ? & ?). exists g''. split; [done|congruence].
    + rewrite D4a, Hfh. by destruct Hh1 as (_ & _ & _ & _ & ?).
    + destruct (split_ghost_leaves G q gq (next_page s) sep HG ltac:(apply Hfresh; lia)) as [A1 A2]. split.
      * intros p g Hh Hp. apply A1; [done|]. by apply D4b.
      * intros Hz p g Hh. rewrite (D4b p g Hh). by apply A2.
    + intros gr gr' Hgr Hgr'. destruct (Hkeep2 _ _ Hgr) as (gr2 & Hgr2 & E). rewrite <- E. apply (D6 gr2 gr'); [by rewrite Hroot2|done].
    + exists s', G3. split; [|done]. rewrite (st_bind_ok _ _ s1 tt (set_pinmap m3 s3)); [exact Hf|].
      mstep Hrr. mstep Hrp. mstep Hfe. mstep Hin. mstep Hrun3. by mstep Hun.
Qed.

(** ** insert_entry *)

Lemma leaf_insert_inv s G q gq x x' k v m :
  tree_inv no_full s G → G !! q = Some gq → ht gq = O → nodes s !! q = Some x → ok k → within fh gq k →
  assoc fh k (entries x) = None → Insert fh k v x = (Ok (num_key x + 1), x') →
  let s' := set_nodes (<[q := x']> (nodes s)) (set_pinmap m s) in
  tree_inv (eq q) s' G ∧ num_key x' = num_key x + 1 ∧
  ∀ k' r, ok k' → has fh s' G k' r ↔ has fh s G k' r ∨ compare fh k' k = 0 ∧ r = v.
Proof using KO.
  intros TI HG Hh Hx Hk Hw Habs Hins s'. destruct (page_of _ _ _ _ _ TI HG) as (x0 & Hx0 & PO).
  assert (x0 = x) as -> by congruence. pose proof (po_node _ _ _ _ _ _ _ _ _ PO) as Hn.
  pose proof (po_len _ _ _ _ _ _ _ _ _ PO) as Hlen.
  assert (Hroom : num_key x < Z.of_nat (length (keys x))) by (destruct (po_room _ _ _ _ _ _ _ _ _ PO); [lia|done]).
  pose proof (Insert_ok fh ok x k v Hn Hk Hroom (page_slot_clear fh ok strict _ _ _ _ _ _ k eq_refl PO Hk (proj2 Hw))) as HI. rewrite Habs in HI.
  destruct HI as (x'' & Hins' & Hn' & Hnum & Hlen' & Hent & Hlk & _ & (Hleaf & Hpar & _ & Hnext) & Htail).
  assert (x'' = x') as -> by congruence. assert (Hpage : page_ok (nodes s') G (eq q) q gq x').
  { split; try done.
    - by rewrite Hlen'.
    - by right.
    - intros _ i c Hi Hc. rewrite (Htail i Hi) in Hc. apply (po_left _ _ _ _ _ _ _ _ _ PO eq_refl i); [lia|done].
    - apply (po_bounds _ _ _ _ _ _ _ _ _ PO).
    - rewrite Hlk. pose proof (po_within _ _ _ _ _ _ _ _ _ PO) as Hf.
      rewrite <- (take_drop (scan_ref fh true k (live_keys x)) (live_keys x)) in Hf. apply Forall_app in Hf as [? ?].
      apply Forall_app. split; [done|]. by constructor.
    - rewrite Hleaf. apply (po_leaf _ _ _ _ _ _ _ _ _ PO).
    - intros _. pose proof (po_next _ _ _ _ _ _ _ _ _ PO Hh) as Hno. unfold next_ok in *. by rewrite Hnext. }
  assert (Hparent : ∀ c xc, nodes s !! c = Some xc → ∃ xc', nodes s' !! c = Some xc' ∧ parent xc' = parent xc).
  { intros c xc Hc. unfold s'. simpl. destruct (decide (c = q)) as [->|Hne].
    - rewrite lookup_insert_eq. exists x'. split; [done|]. congruence.
    - rewrite lookup_insert_ne by done. by exists xc. }
  split; [|split; [done|]].
  - destruct TI as [T1 T2 T3 T4 T5 T6]. split; try done.
    + destruct T3 as [y Hy]. destruct (Hparent _ _ Hy) as (y' & Hy' & _). by exists y'.
    + destruct T4 as (gr & xr & A1 & A2 & A3 & A4). destruct (Hparent _ _ A2) as (xr' & B1 & B2).
      exists gr, xr'. split; [done|]. split; [done|]. split; [congruence|done].
    + intros p g Hp. destruct (T5 p g Hp) as (Hlt & y & Hy & POy). split; [done|].
      destruct (decide (p = q)) as [->|Hne].
      { exists x'. assert (g = gq) as -> by congruence. split; [apply lookup_insert_eq|done]. }
      exists y. split; [unfold s'; simpl; by rewrite lookup_insert_ne|].
      eapply page_ok_frame; [exact POy|done| |by eauto|].
      * destruct (po_room _ _ _ _ _ _ _ _ _ POy); [by left|done].
      * intros _ i r gc xc _ HGc Hxc Hpc. split; [done|]. destruct (Hparent _ _ Hxc) as (xc' & ? & ?). exists xc'. split; [done|congruence].
    + intros p g Hp Hr. destruct (T6 p g Hp Hr) as (q' & gq' & xq' & j & r & A1 & A2 & A3 & A4 & A5).
      destruct (decide (q' = q)) as [->|Hne]; [assert (gq' = gq) as -> by congruence; lia|].
      exists q', gq', xq', j, r. split_and!; try done. unfold s'. simpl. by rewrite lookup_insert_ne.
  - intros k' r Hk'. pose proof (entries_ok fh ok x Hn) as Heok.
    assert (Hassoc : assoc fh k' (entries x') = if compare fh k' k =? 0 then Some v else assoc fh k' (entries x)).
    { rewrite Hent. rewrite (assoc_insert fh ok); rewrite ?take_drop; done. }
    split.
    + intros (p & g & y & Hp & Hhp & Hy & Ha). unfold s' in Hy. simpl in Hy. destruct (decide (p = q)) as [->|Hne].
      * rewrite lookup_insert_eq in Hy. injection Hy as <-. rewrite Hassoc in Ha.
        destruct (Z.eqb_spec (compare fh k' k) 0) as [Hz|Hz]; [right; split; [done|congruence]|]. left. by exists q, gq, x.
      * rewrite lookup_insert_ne in Hy by done. left. by exists p, g, y.
    + intros [(p & g & y & Hp & Hhp & Hy & Ha)|[Hz ->]].
      * destruct (decide (p = q)) as [->|Hne].
        -- assert (y = x) as -> by congruence. exists q, gq, x'. split_and!; try done; [apply lookup_insert_eq|].
           rewrite Hassoc. destruct (Z.eqb_spec (compare fh k' k) 0) as [Hz|Hz]; [|done].
           rewrite (assoc_cong fh ok k' k), Habs in Ha; done.
        -- exists p, g, y. split_and!; try done. unfold s'. simpl. by rewrite lookup_insert_ne.
      * exists q, gq, x'. split_and!; try done; [apply lookup_insert_eq|]. rewrite Hassoc, Hz. done.
Qed.

(** One insertion of a key not below the root's first separator. *)
Lemma insert_entry_run s G k v fuel :
  tree_inv no_full s G → last_ok s G → ok k →
  (∀ g, G !! root_page (file_hdr s) = Some g → (ht g < fuel)%nat) →
  (∀ x c, nodes s !! root_page (file_hdr s) = Some x → is_leaf x = false → live_keys x !! O = Some c →
     compare fh c k ≤ 0) →
  ∃ b s' G', insert_entry fuel k v s = (Ok b, s') ∧ tree_inv no_full s' G' ∧ last_ok s' G' ∧
    (b = false ↔ ∃ r, has fh s G k r) ∧
    (∀ k' r, ok k' → has fh s' G' k' r ↔ has fh s G k' r ∨ b = true ∧ compare fh k' k = 0 ∧ r = v) ∧
    ∀ gr gr', G !! root_page (file_hdr s) = Some gr → G' !! root_page (file_hdr s') = Some gr' → (ht gr' ≤ S (ht gr))%nat.
Proof using All.
  intros TI Hlast Hk Hfuel Hfirst.
  destruct (FindLeafPage_run fh ok strict no_full s G TI k Hk fuel Hfuel) as (q & gq & x & m & Hf & HG & Hx & Hh & Honly & Hre & _).
  assert (Hw : within fh gq k).
  { destruct (ti_root _ _ _ _ _ _ TI) as (gr & xr & HGr & Hxr & _ & Hlo & Hhi & _).
    apply (Hre eq_refl gr xr HGr Hxr). split; [split; congruence|]. intros Hz c Hc. apply (Hfirst xr); [done| |done].
    destruct (page_of _ _ _ _ _ TI HGr) as (xr' & Hxr' & PO). assert (xr' = xr) as -> by congruence.
    rewrite (po_leaf _ _ _ _ _ _ _ _ _ PO). by apply Nat.eqb_neq. }
  destruct (page_of _ _ _ _ _ TI HG) as (x0 & Hx0 & PO). assert (x0 = x) as -> by congruence.
  pose proof (λ v', only_leaf_has fh ok strict no_full s G TI k Hk q gq x v' HG Hx Hh Honly) as Hhas.
  pose proof (po_len _ _ _ _ _ _ _ _ _ PO) as Hlen.
  assert (Hroom : num_key x < Z.of_nat (length (keys x))) by (destruct (po_room _ _ _ _ _ _ _ _ _ PO); [lia|done]).
  pose proof (Insert_ok fh ok x k v (po_node _ _ _ _ _ _ _ _ _ PO) Hk Hroom (page_slot_clear fh ok strict _ _ _ _ _ _ k eq_refl PO Hk (proj2 Hw))) as HI.
  unfold insert_entry. mstep Hf. mstep (read_node_run q num_key (set_pinmap m s) x Hx).
  assert (Hihdr : Insert (file_hdr (set_pinmap m s)) k v = Insert fh k v) by (apply Insert_hdr, (ti_hdr _ _ _ _ _ _ TI)).
  destruct (assoc fh k (entries x)) as [r0|] eqn:Ea.
  - mstep (on_node_pure q (λ h, Insert h k v) (set_pinmap m s) x (num_key x) Hx (eq_trans (f_equal (λ f, f x) Hihdr) HI)).
    rewrite Z.ltb_irrefl. exists false, (set_pinmap m s), G. split; [done|]. split; [by apply tree_inv_pins|].
    split; [done|]. split; [split; [|done]; intros _; exists r0; by apply Hhas|].
    split; [|intros gr gr' E1 E2; simpl in E2; assert (gr' = gr) as -> by congruence; lia].
    intros k' r _. split; [by left|]. by intros [?|[? _]].
  - destruct HI as (x' & Hins & _).
    mstep (on_node_run q (λ h, Insert h k v) (set_pinmap m s) x (num_key x + 1) x' Hx (eq_trans (f_equal (λ f, f x) Hihdr) Hins)).
    rewrite (proj2 (Z.ltb_lt _ _)) by lia.
    destruct (leaf_insert_inv s G q gq x x' k v m TI HG Hh Hx Hk Hw Ea Hins) as (TI2 & _ & Hhas2).
    destruct (splitNodeIfFull_run fuel _ G q gq TI2 HG) as (s' & G' & Hrun & [D1 D2 D3 D4 D5 D6]).
    { intros gr Hgr. rewrite Hh. by apply Hfuel. }
    mstep Hrun. exists true, s', G'. split; [done|]. split; [done|]. split; [by apply D5|]. split.
    + split; [done|]. intros [r Hr]. by apply Hhas in Hr.
    + split; [|done]. intros k' r Hk'. rewrite (D2 k' r Hk'), (Hhas2 k' r Hk'). naive_solver.
Qed.

(** Every binding lies at or above the root's first separator. *)
Lemma first_separator full s G x c b r :
  tree_inv full s G → nodes s !! root_page (file_hdr s) = Some x → is_leaf x = false → live_keys x !! O = Some c →
  ok b → has fh s G b r → compare fh c b ≤ 0.
Proof using KO.
  intros TI Hx Hl Hc Hb (p & g & y & Hp & Hh & Hy & Ha).
  destruct (ti_root _ _ _ _ _ _ TI) as (gr & xr & HGr & Hxr & _ & _ & _ & Hmax). assert (xr = x) as -> by congruence.
  destruct (page_of _ _ _ _ _ TI HGr) as (x' & Hx' & PO). assert (x' = x) as -> by congruence.
  assert (Hz : ht gr ≠ O) by (intros Hz; rewrite (po_leaf _ _ _ _ _ _ _ _ _ PO), Hz in Hl; done).
  assert (Hw : within fh g b) by (by eapply (assoc_within fh ok strict full s G TI b Hb p g y r)).
  assert (Hlt : (ht g < ht gr)%nat) by lia. clear Ha Hy Hh y.
  remember (ht gr - ht g)%nat as d eqn:Ed. revert p g Hp Hw Hlt Ed. induction d as [|d IH]; intros p g Hp Hw Hlt Ed; [lia|].
  destruct (ti_up _ _ _ _ _ _ TI p g Hp) as (q & gq & xq & i & ri & HGq & Hhq & Hxq & Hri & Hrp).
  { intros E. rewrite E in Hp. assert (g = gr) as -> by congruence. lia. }
  destruct (page_of _ _ _ _ _ TI HGq) as (xq' & Hxq' & POq). assert (xq' = xq) as -> by congruence.
  destruct (page_of _ _ _ _ _ TI Hp) as (xc & _ & POc).
  destruct (decide (ht gq = ht gr)) as [E|E].
  - assert (q = root_page (file_hdr s)) as -> by (by apply (Hmax q gq)). assert (xq = x) as -> by congruence.
    assert (gq = gr) as -> by congruence.
    destruct (po_child _ _ _ _ _ _ _ _ _ PO Hz i ri Hri) as (gc & _ & HGc & _ & _ & _ & Hlo & _).
    rewrite Hrp in HGc. assert (gc = g) as -> by congruence. unfold child_lo in Hlo. simpl in Hlo.
    destruct (rid_key fh ok x i ri (po_node _ _ _ _ _ _ _ _ _ PO) Hri) as [ci Hci]. rewrite Hci in Hlo.
    pose proof (po_node _ _ _ _ _ _ _ _ _ PO) as Hn.
    apply (ko_trans c ci b); [exact (live_ok fh ok _ _ _ Hn Hc)|exact (live_ok fh ok _ _ _ Hn Hci)|done| |by apply Hw].
    apply (live_le fh ok x 0 i); [done|done|done|lia].
  - destruct (Hmax q gq HGq). apply (IH q gq HGq); [|lia|lia]. subst p.
    apply (within_parent fh ok strict full (nodes s) G q gq xq b i ri g POq ltac:(lia) Hb Hri Hp); [|done].
    apply (po_bounds _ _ _ _ _ _ _ _ _ POc).
Qed.

Lemma root_first_le s G k :
  tree_inv no_full s G → ok k →
  (∀ g, G !! root_page (file_hdr s) = Some g → ht g ≠ O → ∃ b r, ok b ∧ has fh s G b r ∧ compare fh b k ≤ 0) →
  ∀ x c, nodes s !! root_page (file_hdr s) = Some x → is_leaf x = false → live_keys x !! O = Some c → compare fh c k ≤ 0.
Proof using KO.
  intros TI Hk Hmin x c Hx Hl Hc. destruct (ti_root _ _ _ _ _ _ TI) as (gr & _ & HGr & _).
  destruct (page_of _ _ _ _ _ TI HGr) as (x' & Hx' & PO). assert (x' = x) as -> by congruence.
  destruct (Hmin gr HGr) as (b & r & Hb & Hhas & Hle).
  { intros Hz. rewrite (po_leaf _ _ _ _ _ _ _ _ _ PO), Hz in Hl. done. }
  pose proof (first_separator no_full s G x c b r TI Hx Hl Hc Hb Hhas) as Hcb.
  apply (ko_trans c b k); try done. exact (live_ok fh ok _ _ _ (po_node _ _ _ _ _ _ _ _ _ PO) Hc).
Qed.

(** [C4] Inserting into the tree inserts into the map it stands for.  For a key
    that differs from what unused slots hold and is not below every key of the
    tree (any key, while the root is a leaf), [insert_entry] returns, whatever
    splits it takes, up to a new root; it answers [false] and changes no binding
    when the key is bound, and otherwise answers [true], adds exactly that
    binding and loses none.  The tree invariant (order, balance, parent
    pointers, leaf chain, last leaf) holds again. *)
Theorem insert_entry_correct s G k v fuel :
  tree_inv no_full s G → last_ok s G → ok k →
  (∀ g, G !! root_page (file_hdr s) = Some g → (ht g < fuel)%nat) →
  (∀ g, G !! root_page (file_hdr s) = Some g → ht g ≠ O → ∃ b r, ok b ∧ has fh s G b r ∧ compare fh b k ≤ 0) →
  ∃ b s' G', insert_entry fuel k v s = (Ok b, s') ∧ tree_inv no_full s' G' ∧ last_ok s' G' ∧
    (b = false ↔ ∃ r, has fh s G k r) ∧
    ∀ k' r, ok k' → has fh s' G' k' r ↔ has fh s G k' r ∨ b = true ∧ compare fh k' k = 0 ∧ r = v.
Proof using All.
  intros TI Hlast Hk Hfuel Hmin. destruct (insert_entry_run s G k v fuel TI Hlast Hk Hfuel) as (b & s' & G' & ? & ? & ? & ? & ? & _).
  - by apply (root_first_le s G k).
  - by exists b, s', G'.
Qed.

End InsertRun.
