(* ===== verification/IxFile.v ===== *)
(** Index files: [index/ix_manager.h], and the bytes behind a node.

    [node_view] reads a page the way the pointers of [IxNodeHandle] do (header,
    keys, rids); the stores through those pointers are [put_*].  The layout
    theorem says the three regions of a page never overlap and fit, so that a
    page of bytes is the [IxNode] the rest of the index model works on.
    [IxManager]'s operations are modelled over the disk manager. *)
From S2P Require Import Prelude Config Posix Disk Replacer BufferPool IxKey IxNode.

(** ** Structs as bytes *)

Definition sizeof_IxPageHdr : Z := 24.
Definition sizeof_Rid : Z := 8.
Definition sizeof_IxFileHdr : Z := 36.

Definition ix_hdr_bytes (h : IxFileHdr) : bytes :=
  le32 (ix_first_free_page_no h) ++ le32 (ix_num_pages h) ++ le32 (root_page h)
    ++ le32 (ColType_to_int (col_type h)) ++ le32 (col_len h) ++ le32 (btree_order h)
    ++ le32 (keys_size h) ++ le32 (first_leaf h) ++ le32 (last_leaf h).

(** [None]: the bytes hold no value of [ColType]. *)
Definition bytes_ix_hdr (bs : bytes) : option IxFileHdr :=
  match ColType_of_int (get_int 12 bs) with
  | Some t => Some (MkIxFileHdr (get_int 0 bs) (get_int 4 bs) (get_int 8 bs) t (get_int 16 bs) (get_int 20 bs)
                      (get_int 24 bs) (get_int 28 bs) (get_int 32 bs))
  | None => None
  end.

Definition hdr_len : nat := Z.to_nat sizeof_IxPageHdr.

Section View.
Context (h : IxFileHdr).

Definition key_off (i : nat) : nat := hdr_len + i * Z.to_nat (col_len h).
Definition rid_off (i : nat) : nat := hdr_len + Z.to_nat (keys_size h) + i * Z.to_nat sizeof_Rid.
Definition n_slots : nat := Z.to_nat (btree_order h + 1).

Definition key_at (bs : bytes) (i : nat) : key := slice (key_off i) (Z.to_nat (col_len h)) bs.
Definition rid_at (bs : bytes) (i : nat) : Rid := MkRid (get_int (rid_off i) bs) (get_int (rid_off i + 4) bs).

(** [IxNodeHandle(file_hdr, page)]. *)
Definition node_view (bs : bytes) : IxNode :=
  MkNode (get_int 0 bs) (get_int 4 bs) (get_int 8 bs) (negb (default 0 (bs !! 12%nat) =? 0))
    (get_int 16 bs) (get_int 20 bs) (key_at bs <$> seq 0 n_slots) (rid_at bs <$> seq 0 n_slots).

Definition put_key (i : nat) (k : key) (bs : bytes) : bytes := splice (key_off i) (take (Z.to_nat (col_len h)) k) bs.
Definition put_rid (i : nat) (r : Rid) (bs : bytes) : bytes :=
  set_int (rid_off i + 4) (rid_slot_no r) (set_int (rid_off i) (rid_page_no r) bs).
Definition put_parent (p : Z) (bs : bytes) : bytes := set_int 4 p bs.
Definition put_num_key (n : Z) (bs : bytes) : bytes := set_int 8 n bs.
Definition put_is_leaf (b : bool) (bs : bytes) : bytes := <[12%nat := if b then 1 else 0]> bs.
Definition put_prev_leaf (p : Z) (bs : bytes) : bytes := set_int 16 p bs.
Definition put_next_leaf (p : Z) (bs : bytes) : bytes := set_int 20 p bs.
End View.

(** ** create_index *)

(** [(PAGE_SIZE - sizeof(IxPageHdr)) / (col_len + sizeof(Rid)) - 1] in [size_t],
    narrowed to [int]; [col_len] is converted to [size_t]. *)
Definition make_btree_order (len : Z) : Z :=
  wrap32 (((PAGE_SIZE - sizeof_IxPageHdr) `quot` ((len + sizeof_Rid) `mod` 2 ^ 64) - 1) `mod` 2 ^ 64).

Definition make_ix_hdr (t : ColType) (len : Z) : IxFileHdr :=
  let order := make_btree_order len in
  MkIxFileHdr IX_NO_PAGE IX_INIT_NUM_PAGES IX_INIT_ROOT_PAGE t len order (wrap32 ((order + 1) * len))
    IX_INIT_ROOT_PAGE IX_INIT_ROOT_PAGE.

(** The page buffer after [*phdr = {...}]: a leaf with both links to [link];
    [page_buf] is what the stack held, which is written behind the header (the
    three padding bytes too, which assigning the struct leaves unspecified). *)
Definition fresh_leaf (link : Z) (page_buf : bytes) : bytes :=
  put_next_leaf link (put_prev_leaf link (put_is_leaf true (put_num_key 0 (put_parent IX_NO_PAGE
    (set_int 0 IX_NO_PAGE page_buf))))).

Definition get_index_name (filename : string) (index_no : Z) : string :=
  filename +:+ "." +:+ to_string index_no +:+ ".idx".

Section IxManager.
Context {OS R : Type} {PX : Posix OS} {RP : Replacer R}.
Abbreviation DM := (DiskManager OS).
Abbreviation BPM := (BufferPoolManager DM R).

Definition ix_exists (filename : string) (index_no : Z) : M DM bool := is_file (get_index_name filename index_no).

Definition create_index (page_buf : bytes) (filename : string) (index_no : Z) (t : ColType) (len : Z) : M DM unit :=
  let ix_name := get_index_name filename index_no in
  assert_ (0 <=? index_no) ;;
  create_file ix_name ;;
  fd ← open_file ix_name;
  if IX_MAX_COL_LEN <? len then throw_db (InvalidColLengthError len)
  else
    assert_ (2 <? make_btree_order len) ;;
    write_page fd IX_FILE_HDR_PAGE (ix_hdr_bytes (make_ix_hdr t len)) sizeof_IxFileHdr ;;
    let page_buf := fresh_leaf IX_INIT_ROOT_PAGE page_buf in
    write_page fd IX_LEAF_HEADER_PAGE page_buf PAGE_SIZE ;;
    let page_buf := fresh_leaf IX_LEAF_HEADER_PAGE page_buf in
    write_page fd IX_INIT_ROOT_PAGE page_buf PAGE_SIZE ;;
    set_fd2pageno fd (IX_INIT_NUM_PAGES - 1) ;;
    close_file fd.

Definition destroy_index (filename : string) (index_no : Z) : M DM unit :=
  destroy_file (get_index_name filename index_no).

(** [IxIndexHandle(disk_manager, buffer_pool_manager, fd)]: the header is read
    into the new object and the page counter is moved on by one. *)
Definition new_IxIndexHandle (fd : Z) : M DM (Z * IxFileHdr) := λ d,
  let '(r, (d', buf)) := read_page fd IX_FILE_HDR_PAGE sizeof_IxFileHdr (d, zeros (Z.to_nat sizeof_IxFileHdr)) in
  match r with
  | Ok _ =>
      (n ← get_fd2pageno fd;
       set_fd2pageno fd (wrap32 (n + 1)) ;;
       match bytes_ix_hdr buf with Some h => ret (fd, h) | None => crash_with Uninitialised end) d'
  | Throw e => (Throw e, d')
  | Crash c => (Crash c, d')
  end.

Definition open_index (filename : string) (index_no : Z) : M DM (Z * IxFileHdr) :=
  fd ← open_file (get_index_name filename index_no);
  new_IxIndexHandle fd.

Definition close_index (fd : Z) (file_hdr : IxFileHdr) : M BPM unit :=
  BufferPool.on_disk (write_page fd IX_FILE_HDR_PAGE (ix_hdr_bytes file_hdr) sizeof_IxFileHdr) ;;
  FlushAllPages fd ;;
  BufferPool.on_disk (close_file fd).

End IxManager.

(** ** The layout *)

Lemma fmap_seq_insert {A} (f f' : nat → A) (n i : nat) :
  (∀ j, (j < n)%nat → j ≠ i → f' j = f j) → f' <$> seq 0 n = <[i := f' i]> (f <$> seq 0 n).
Proof.
  intros H. apply list_eq. intros j. destruct (decide (j < n)%nat) as [Hj|Hj].
  - rewrite list_lookup_fmap, lookup_seq_lt by done. simpl. destruct (decide (j = i)) as [->|Hne].
    + by rewrite list_lookup_insert_eq by (by rewrite length_fmap, length_seq).
    + rewrite list_lookup_insert_ne by done. rewrite list_lookup_fmap, lookup_seq_lt by done. simpl. by rewrite H.
  - rewrite !lookup_ge_None_2; [done|rewrite length_insert|]; rewrite length_fmap, length_seq; lia.
Qed.

Lemma fmap_seq_ext {A} (f f' : nat → A) (n : nat) :
  (∀ j, (j < n)%nat → f' j = f j) → f' <$> seq 0 n = f <$> seq 0 n.
Proof. intros H. apply list_fmap_ext. intros i j Hj. apply lookup_seq in Hj as [-> Hj]. by apply H. Qed.

Record layout_ok (h : IxFileHdr) : Prop := {
  lo_len : 0 < col_len h;
  lo_order : 2 < btree_order h;
  lo_keys : keys_size h = (btree_order h + 1) * col_len h;
  lo_fits : sizeof_IxPageHdr + (btree_order h + 1) * (col_len h + sizeof_Rid) ≤ PAGE_SIZE
}.

Lemma make_ix_hdr_ok t len :
  0 < len ≤ IX_MAX_COL_LEN →
  layout_ok (make_ix_hdr t len) ∧ PAGE_SIZE < sizeof_IxPageHdr + (btree_order (make_ix_hdr t len) + 2) * (len + sizeof_Rid).
Proof.
  unfold IX_MAX_COL_LEN. intros Hlen. set (q := 4072 `div` (len + 8)).
  assert (Hq : 4072 = (len + 8) * q + 4072 `mod` (len + 8)) by (apply Z.div_mod; lia).
  pose proof (Z.mod_pos_bound 4072 (len + 8) ltac:(lia)) as Hm.
  assert (7 ≤ q) by (apply Z.div_le_lower_bound; lia). assert (q ≤ 4072 `div` 1) by (apply Z.div_le_compat_l; lia).
  rewrite Z.div_1_r in *.
  assert (Ho : make_btree_order len = q - 1).
  { unfold make_btree_order, PAGE_SIZE, sizeof_IxPageHdr, sizeof_Rid. rewrite (Z.mod_small (len + 8)) by lia.
    rewrite Z.quot_div_nonneg by lia. change (4096 - 24) with 4072. fold q. rewrite Z.mod_small by lia.
    apply wrap32_id. auto with ints. }
  split; [split|]; simpl; rewrite ?Ho; unfold PAGE_SIZE, sizeof_IxPageHdr, sizeof_Rid; try lia.
  apply wrap32_id. unfold is_int, int_min, int_max. nia.
Qed.

Section Layout.
Context (h : IxFileHdr) (LO : layout_ok h).

Lemma key_region i : (i < n_slots h)%nat →
  (hdr_len ≤ key_off h i ∧ key_off h i + Z.to_nat (col_len h) ≤ hdr_len + Z.to_nat (keys_size h))%nat.
Proof using LO.
  destruct LO as [H1 H2 H3 H4]. unfold key_off, n_slots. rewrite H3. intros Hi. split; [lia|].
  rewrite Z2Nat.inj_mul by lia. nia.
Qed.

Lemma rid_region i : (i < n_slots h)%nat →
  (hdr_len + Z.to_nat (keys_size h) ≤ rid_off h i ∧ rid_off h i + 8 ≤ page_len)%nat.
Proof using LO.
  destruct LO as [H1 H2 H3 H4]. unfold rid_off, n_slots, page_len, hdr_len, sizeof_IxPageHdr, sizeof_Rid in *.
  rewrite H3. intros Hi. split; [lia|]. unfold PAGE_SIZE in *. nia.
Qed.

(** Keys of different slots do not overlap; neither do rids. *)
Lemma key_disjoint i j : i ≠ j →
  (key_off h j + Z.to_nat (col_len h) ≤ key_off h i ∨ key_off h i + Z.to_nat (col_len h) ≤ key_off h j)%nat.
Proof. unfold key_off. intros Hij. destruct (decide (i < j)%nat); nia. Qed.

Lemma rid_disjoint i j : i ≠ j → (rid_off h j + 8 ≤ rid_off h i ∨ rid_off h i + 8 ≤ rid_off h j)%nat.
Proof. unfold rid_off, sizeof_Rid. intros Hij. destruct (decide (i < j)%nat); lia. Qed.

Context (bs : bytes) (Hbs : length bs = page_len).

Lemma get_int_splice off off' src : (off + length src ≤ length bs)%nat →
  (off' + 4 ≤ off ∨ off + length src ≤ off')%nat → get_int off' (splice off src bs) = get_int off' bs.
Proof. intros H1 H2. unfold get_int. by rewrite slice_splice_disjoint. Qed.

Lemma node_view_put_key i k : (i < n_slots h)%nat → length k = Z.to_nat (col_len h) →
  node_view h (put_key h i k bs)
  = set_arrays (<[i := k]> (keys (node_view h bs))) (rids (node_view h bs)) (node_view h bs).
Proof using LO Hbs.
  intros Hi Hk. destruct (key_region i Hi) as [R1 R2]. pose proof (rid_region i Hi) as R3.
  assert (Hput : put_key h i k bs = splice (key_off h i) k bs) by (unfold put_key; by rewrite take_ge by lia).
  rewrite Hput. unfold node_view, set_arrays. simpl.
  assert (HR : (hdr_len = 24)%nat) by done.
  rewrite !get_int_splice by (rewrite Hk, ?Hbs; lia). rewrite lookup_splice_out by (rewrite Hk, ?Hbs; lia). f_equal.
  - rewrite (fmap_seq_insert (key_at h bs) (key_at h (splice (key_off h i) k bs)) _ i).
    + f_equal. unfold key_at. rewrite <- Hk. apply slice_splice_same. rewrite Hk, Hbs. lia.
    + intros j _ Hne. unfold key_at. apply slice_splice_disjoint; rewrite Hk, ?Hbs; [lia|].
      pose proof (key_disjoint i j ltac:(done)). lia.
  - apply fmap_seq_ext. intros j Hj. pose proof (rid_region j Hj). unfold rid_at.
    rewrite !get_int_splice by (rewrite Hk, ?Hbs; lia). done.
Qed.

Lemma node_view_put_rid i r : (i < n_slots h)%nat → is_int (rid_page_no r) → is_int (rid_slot_no r) →
  node_view h (put_rid h i r bs)
  = set_arrays (keys (node_view h bs)) (<[i := r]> (rids (node_view h bs))) (node_view h bs).
Proof using LO Hbs.
  intros Hi Hp Hs. pose proof (rid_region i Hi) as R3. assert (HR : (hdr_len = 24)%nat) by done.
  assert (Hl : length (set_int (rid_off h i) (rid_page_no r) bs) = page_len) by (rewrite length_set_int; lia).
  unfold node_view, set_arrays, put_rid. cbn [next_free_page_no parent num_key is_leaf prev_leaf next_leaf keys rids].
  rewrite !get_set_int_ne by (rewrite ?Hl, ?Hbs; lia).
  unfold set_int at 1 2. rewrite !lookup_splice_out by (fold (set_int (rid_off h i) (rid_page_no r) bs); rewrite length_le32, ?Hl, ?Hbs; lia).
  f_equal.
  - apply fmap_seq_ext. intros j Hj. pose proof (key_region j Hj). unfold key_at, set_int.
    rewrite !slice_splice_disjoint; try done;
      fold (set_int (rid_off h i) (rid_page_no r) bs); rewrite length_le32, ?Hl, ?Hbs; lia.
  - rewrite (fmap_seq_insert (rid_at h bs) (rid_at h (set_int (rid_off h i + 4) (rid_slot_no r)
      (set_int (rid_off h i) (rid_page_no r) bs))) _ i).
    + f_equal. unfold rid_at. rewrite (get_set_int (rid_off h i + 4)) by (rewrite ?Hl; try done; lia).
      rewrite get_set_int_ne, get_set_int by (rewrite ?Hl, ?Hbs; try done; lia). by destruct r.
    + intros j Hj Hne. unfold rid_at. pose proof (rid_disjoint i j ltac:(done)).
      rewrite !get_set_int_ne by (rewrite ?Hl, ?Hbs; lia). done.
Qed.

(** A store to a header [int] changes that field only. *)
Lemma node_view_put_int off z : (off + 4 ≤ 12 ∨ off = 16 ∨ off = 20)%nat →
  let bs' := set_int off z bs in
  keys (node_view h bs') = keys (node_view h bs) ∧ rids (node_view h bs') = rids (node_view h bs) ∧
  is_leaf (node_view h bs') = is_leaf (node_view h bs).
Proof using LO Hbs.
  intros Ho bs'. assert (HR : (hdr_len = 24)%nat) by done. assert (HP : (page_len = 4096)%nat) by done.
  unfold bs', node_view. simpl. split_and!.
  - apply fmap_seq_ext. intros j Hj. pose proof (key_region j Hj). unfold key_at, set_int.
    rewrite slice_splice_disjoint; rewrite ?length_le32, ?Hbs; try done; lia.
  - apply fmap_seq_ext. intros j Hj. pose proof (rid_region j Hj). unfold rid_at.
    rewrite !get_set_int_ne by lia. done.
  - unfold set_int. rewrite lookup_splice_out; rewrite ?length_le32; try done; lia.
Qed.

Lemma get_int_insert off k b : (k < off ∨ off + 4 ≤ k)%nat → get_int off (<[k := b]> bs) = get_int off bs.
Proof. intros H. unfold get_int. by rewrite slice_insert_ne. Qed.

Lemma node_view_put_leaf b : node_view h (put_is_leaf b bs) = set_leaf b (node_view h bs).
Proof using LO Hbs.
  assert (HR : (hdr_len = 24)%nat) by done. assert (HP : (page_len = 4096)%nat) by done.
  unfold node_view, put_is_leaf, set_leaf. simpl.
  rewrite !get_int_insert by lia. rewrite list_lookup_insert_eq by lia. f_equal.
  - by destruct b.
  - apply fmap_seq_ext. intros j Hj. pose proof (key_region j Hj). unfold key_at. rewrite slice_insert_ne; [done|lia].
  - apply fmap_seq_ext. intros j Hj. pose proof (rid_region j Hj). unfold rid_at. rewrite !get_int_insert by lia. done.
Qed.

Lemma node_view_put_hdr z : is_int z →
  node_view h (put_parent z bs) = SetParentPageNo z (node_view h bs) ∧
  node_view h (put_num_key z bs) = SetSize z (node_view h bs) ∧
  node_view h (put_prev_leaf z bs) = SetPrevLeaf z (node_view h bs) ∧
  node_view h (put_next_leaf z bs) = SetNextLeaf z (node_view h bs).
Proof using LO Hbs.
  intros Hz. assert (HP : (page_len = 4096)%nat) by done.
  split_and!; unfold put_parent, put_num_key, put_prev_leaf, put_next_leaf.
  1: destruct (node_view_put_int 4 z ltac:(lia)) as (E1 & E2 & E3).
  2: destruct (node_view_put_int 8 z ltac:(lia)) as (E1 & E2 & E3).
  3: destruct (node_view_put_int 16 z ltac:(lia)) as (E1 & E2 & E3).
  4: destruct (node_view_put_int 20 z ltac:(lia)) as (E1 & E2 & E3).
  all: unfold node_view in *; cbn [keys rids is_leaf] in E1, E2, E3; rewrite E1, E2, E3;
    unfold SetParentPageNo, SetSize, SetPrevLeaf, SetNextLeaf; cbn [next_free_page_no parent num_key is_leaf prev_leaf next_leaf keys rids].
  all: rewrite get_set_int by (try done; lia); rewrite !get_set_int_ne by lia; done.
Qed.
End Layout.

(** [C23] A page of an index file is a node: for key lengths from 1 to 512 (above
    512 [create_index] throws; it does not refuse 0 or a negative length, which are
    outside this theorem), the header, the [btree_order + 1] keys and the
    [btree_order + 1] rids fit in a page and no further slot would, and a store
    through the node's pointers changes the field it names and nothing else. *)
Theorem index_page_layout t len bs i k r z b :
  0 < len ≤ IX_MAX_COL_LEN → length bs = page_len →
  let h := make_ix_hdr t len in
  0 ≤ i ≤ btree_order h → length k = Z.to_nat len → is_int (rid_page_no r) → is_int (rid_slot_no r) → is_int z →
  2 < btree_order h ∧
  sizeof_IxPageHdr + (btree_order h + 1) * (len + sizeof_Rid) ≤ PAGE_SIZE
    < sizeof_IxPageHdr + (btree_order h + 2) * (len + sizeof_Rid) ∧
  set_key i k (node_view h bs) = (Ok tt, node_view h (put_key h (Z.to_nat i) k bs)) ∧
  set_rid i r (node_view h bs) = (Ok tt, node_view h (put_rid h (Z.to_nat i) r bs)) ∧
  SetParentPageNo z (node_view h bs) = node_view h (put_parent z bs) ∧
  SetSize z (node_view h bs) = node_view h (put_num_key z bs) ∧
  SetPrevLeaf z (node_view h bs) = node_view h (put_prev_leaf z bs) ∧
  SetNextLeaf z (node_view h bs) = node_view h (put_next_leaf z bs) ∧
  set_leaf b (node_view h bs) = node_view h (put_is_leaf b bs).
Proof.
  intros Hlen Hbs h Hi Hk Hp Hs Hz. destruct (make_ix_hdr_ok t len Hlen) as [LO Hmax]. fold h in LO, Hmax.
  assert (Hslot : (Z.to_nat i < n_slots h)%nat) by (unfold n_slots; lia).
  destruct (node_view_put_hdr h LO bs Hbs z Hz) as (E1 & E2 & E3 & E4).
  split; [apply LO|]. split; [split; [apply (lo_fits h LO)|exact Hmax]|].
  assert (Hin : ∀ A (l : list A), length l = n_slots h → in_array l i = true).
  { intros A l Hl. unfold in_array. rewrite Hl. unfold n_slots. apply andb_true_iff.
    rewrite Z.leb_le, Z.ltb_lt. lia. }
  split_and!; try (by symmetry).
  - unfold set_key. rewrite st_get_bind. rewrite Hin by (unfold node_view; simpl; by rewrite length_fmap, length_seq).
    unfold put_st. by rewrite (node_view_put_key h LO bs Hbs).
  - unfold set_rid. rewrite st_get_bind. rewrite Hin by (unfold node_view; simpl; by rewrite length_fmap, length_seq).
    unfold put_st. by rewrite (node_view_put_rid h LO bs Hbs).
  - by rewrite (node_view_put_leaf h LO bs Hbs).
Qed.

Lemma ColType_to_int_is_int t : is_int (ColType_to_int t).
Proof. destruct t; unfold is_int, int_min, int_max; simpl; lia. Qed.

Lemma bytes_ix_hdr_bytes h :
  is_int (ix_first_free_page_no h) → is_int (ix_num_pages h) → is_int (root_page h) → is_int (col_len h) →
  is_int (btree_order h) → is_int (keys_size h) → is_int (first_leaf h) → is_int (last_leaf h) →
  bytes_ix_hdr (ix_hdr_bytes h) = Some h.
Proof.
  intros. pose proof (ColType_to_int_is_int (col_type h)). unfold bytes_ix_hdr, ix_hdr_bytes. read_ints.
  rewrite ColType_of_to_int. by destruct h.
Qed.

Lemma length_ix_hdr_bytes h : length (ix_hdr_bytes h) = Z.to_nat sizeof_IxFileHdr.
Proof. unfold ix_hdr_bytes. by autorewrite with lens. Qed.

Record ix_hdr_ints (h : IxFileHdr) : Prop := {
  hi_free : is_int (ix_first_free_page_no h); hi_pages : is_int (ix_num_pages h); hi_root : is_int (root_page h);
  hi_len : is_int (col_len h); hi_order : is_int (btree_order h); hi_keys : is_int (keys_size h);
  hi_first : is_int (first_leaf h); hi_last : is_int (last_leaf h)
}.

Section HeaderFile.
Context {OS : Type} {PX : Posix OS}.

(** The header of an index survives on disk: what [create_index] or
    [close_index] wrote to page 0 is what the constructor of [IxIndexHandle]
    reads, every field of it, and the constructor moves the descriptor's page
    counter on by one, unless [read] fails. *)
Theorem ix_header_roundtrip (d d1 : DiskManager OS) fd h :
  disk_inv d → fd_known d (MkPageId fd IX_FILE_HDR_PAGE) → fd_in_range fd → ix_hdr_ints h →
  write_page fd IX_FILE_HDR_PAGE (ix_hdr_bytes h) sizeof_IxFileHdr d = (Ok tt, d1) →
  ∃ r d2, new_IxIndexHandle fd d1 = (r, d2) ∧
    (r = Ok (fd, h) ∧ next_page_no d2 fd = wrap32 (next_page_no d1 fd + 1) ∨ r = Throw (RedBase UnixError)).
Proof.
  intros Hinv Hk Hfd [] Hw. pose proof (length_ix_hdr_bytes h) as Hl.
  assert (sizeof_IxFileHdr = Z.of_nat (length (ix_hdr_bytes h))) as Hs by (by rewrite Hl).
  rewrite Hs in Hw. destruct (fd_known_inode _ _ Hinv Hk) as [ino Hino].
  destruct (write_read_bytes d d1 _ _ (zeros (Z.to_nat sizeof_IxFileHdr)) ino Hino (proj2 Hk)
    ltac:(intros E; by rewrite E in Hl) ltac:(by rewrite Hl) Hw) as (r & d2 & buf & Hr & Ht & Hcase).
  cbn [pid_fd pid_no] in Hr. rewrite <- Hs in Hr. unfold new_IxIndexHandle. rewrite Hr.
  destruct Hcase as [[-> ->]| ->]; [|eexists _, _; split; [done|by right]].
  unfold get_fd2pageno, set_fd2pageno, st_bind. destruct Hfd as [Hfd1%Z.leb_le Hfd2%Z.ltb_lt]. rewrite Hfd1, Hfd2. simpl.
  rewrite bytes_ix_hdr_bytes by done. eexists _, _. split; [reflexivity|]. left. split; [done|].
  unfold next_page_no. simpl. rewrite lookup_insert_eq. simpl. destruct Ht as (_ & _ & _ & ->). done.
Qed.

End HeaderFile.

(** ** Instances and runs *)
Module IxFileRuns.
#[local] Existing Instance MemFS.mem_posix.

Definition junk : bytes := replicate page_len 170.
Definition disk0 : DiskManager fs_view := new_DiskManager MemFS.empty_fs.

(** The file of a new index, and its descriptor after [open_index]. *)
Definition created : DiskManager fs_view := (create_index junk "t" 0 TYPE_INT 4 disk0).2.
Definition opened : DiskManager fs_view := (open_index "t" 0 created).2.

Lemma index_page_layout_witness :
  SetSize 5 (node_view (make_ix_hdr TYPE_INT 4) junk) = node_view (make_ix_hdr TYPE_INT 4) (put_num_key 5 junk).
Proof.
  by apply (index_page_layout TYPE_INT 4 junk 3 [1; 2; 3; 4] (MkRid 1 2) 5 true);
    try (by vm_compute); unfold is_int, int_min, int_max; simpl; lia.
Defined.

(** [create_index] then [open_index] deliver the header [create_index] computed. *)
Lemma create_open_index :
  (create_index junk "t" 0 TYPE_INT 4 ;; open_index "t" 0) disk0
  = (Ok (3, make_ix_hdr TYPE_INT 4), opened) ∧ next_page_no opened 3 = 3.
Proof. split; by vm_compute. Qed.

(** The page counter belongs to the descriptor, not to the file: opened under
    another descriptor, the same index hands out page 1, the leaf header, as its
    first new page. *)
Lemma reopened_index_reuses_pages :
  (create_index junk "t" 0 TYPE_INT 4 ;; create_file "u" ;; _ ← open_file "u";
   '(fd, h) ← open_index "t" 0; AllocatePage fd) disk0
  = (Ok IX_LEAF_HEADER_PAGE, ((create_index junk "t" 0 TYPE_INT 4 ;; create_file "u" ;; _ ← open_file "u";
                               '(fd, h) ← open_index "t" 0; AllocatePage fd) disk0).2).
Proof. by vm_compute. Qed.

Definition disk1 : DiskManager fs_view :=
  disk_run [DCreateFile "t.0.idx"; DOpenFile "t.0.idx"] disk0.
Definition disk2 : DiskManager fs_view :=
  (write_page 3 IX_FILE_HDR_PAGE (ix_hdr_bytes (make_ix_hdr TYPE_INT 4)) sizeof_IxFileHdr disk1).2.

Lemma ix_disk1_inv : disk_inv disk1.
Proof. apply disk_run_inv; [by vm_compute|]. apply new_DiskManager_inv, MemFS.empty_plain. Qed.

Lemma ix_header_roundtrip_witness :
  ∃ d2, new_IxIndexHandle 3 disk2 = (Ok (3, make_ix_hdr TYPE_INT 4), d2) ∧
    next_page_no d2 3 = wrap32 (next_page_no disk2 3 + 1).
Proof.
  destruct (ix_header_roundtrip disk1 disk2 3 (make_ix_hdr TYPE_INT 4)) as (r & d2 & H & [[-> Hn]| ->]);
    [| | | | |by exists d2|by vm_compute in H].
  - apply ix_disk1_inv.
  - split; [by eexists|]. unfold page_no_ok. simpl. unfold IX_FILE_HDR_PAGE. lia.
  - by vm_compute.
  - split; by vm_compute.
  - by vm_compute.
Defined.

End IxFileRuns.
