(* ===== verification/IxBuild.v ===== *)
(** An index from its creation on: the state [open_index] finds after
    [create_index], and what a sequence of insertions makes of it; then runs of
    the tree, with the runs that go wrong. *)
From S2P Require Import Prelude Config IxKey IxNode IxNodeSpec IxTree IxTreeSpec IxTreeSplit IxTreeInsert IxInsert IxFile.

(** ** A new index *)

(** The two pages [create_index] writes, as nodes; [buf] is what the page buffer
    held before, and [np] the page counter of the descriptor the index is opened
    under: 3 when it is the one [create_index] used ([create_open_index] of
    [IxFile]), anything otherwise ([reopened_index_reuses_pages]). *)
Definition new_index (h : IxFileHdr) (buf : bytes) (np : Z) : IxState :=
  MkIx h {[ IX_LEAF_HEADER_PAGE := node_view h (fresh_leaf IX_INIT_ROOT_PAGE buf);
            IX_INIT_ROOT_PAGE := node_view h (fresh_leaf IX_LEAF_HEADER_PAGE (fresh_leaf IX_INIT_ROOT_PAGE buf)) ]}
    ∅ np.

Definition new_ghost : gmap Z info := {[ IX_INIT_ROOT_PAGE := MkInfo 0 None None ]}.

Section Fresh.
Context (h : IxFileHdr) (LO : layout_ok h).

Lemma length_store off z b : length b = page_len → (off + 4 ≤ 4096)%nat → length (set_int off z b) = page_len.
Proof. intros Hb Ho. assert (HP : (page_len = 4096)%nat) by done. rewrite length_set_int; lia. Qed.

Lemma length_fresh_leaf link buf : length buf = page_len → length (fresh_leaf link buf) = page_len.
Proof.
  intros Hb. unfold fresh_leaf, put_next_leaf, put_prev_leaf, put_is_leaf, put_num_key, put_parent.
  do 2 (apply length_store; [|lia]). rewrite length_insert. by do 3 (apply length_store; [|lia]).
Qed.

Lemma view_fresh_leaf link buf :
  length buf = page_len → is_int link →
  let x := node_view h (fresh_leaf link buf) in
  parent x = IX_NO_PAGE ∧ num_key x = 0 ∧ is_leaf x = true ∧ next_leaf x = link ∧
  keys x = keys (node_view h buf) ∧ rids x = rids (node_view h buf) ∧ prev_leaf x = link.
Proof using LO.
  intros Hb Hl x. assert (HP : (page_len = 4096)%nat) by done.
  unfold x, fresh_leaf. set (b0 := set_int 0 IX_NO_PAGE buf).
  assert (L0 : length b0 = page_len) by (unfold b0; rewrite length_set_int; lia).
  destruct (node_view_put_int h LO buf Hb 0 IX_NO_PAGE ltac:(lia)) as (K0 & R0 & _). fold b0 in K0, R0.
  assert (Hm1 : is_int IX_NO_PAGE) by (unfold is_int, IX_NO_PAGE, int_min, int_max; lia).
  assert (Hz : is_int 0) by auto with ints.
  destruct (node_view_put_hdr h LO b0 L0 IX_NO_PAGE Hm1) as (V1 & _). set (b1 := put_parent IX_NO_PAGE b0) in *.
  assert (L1 : length b1 = page_len) by (unfold b1, put_parent; rewrite length_set_int; lia).
  destruct (node_view_put_hdr h LO b1 L1 0 Hz) as (_ & V2 & _). set (b2 := put_num_key 0 b1) in *.
  assert (L2 : length b2 = page_len) by (unfold b2, put_num_key; rewrite length_set_int; lia).
  pose proof (node_view_put_leaf h LO b2 L2 true) as V3. set (b3 := put_is_leaf true b2) in *.
  assert (L3 : length b3 = page_len) by (unfold b3, put_is_leaf; rewrite length_insert; lia).
  destruct (node_view_put_hdr h LO b3 L3 link Hl) as (_ & _ & V4 & _). set (b4 := put_prev_leaf link b3) in *.
  assert (L4 : length b4 = page_len) by (unfold b4, put_prev_leaf; rewrite length_set_int; lia).
  destruct (node_view_put_hdr h LO b4 L4 link Hl) as (_ & _ & _ & V5). rewrite V5, V4, V3, V2, V1.
  split_and!; done.
Qed.

Context (ok : key → Prop) {KO : KeyOrder (compare h) ok} (buf : bytes) (Hbuf : length buf = page_len).
Context (Hroot : root_page h = IX_INIT_ROOT_PAGE) (Hlast : last_leaf h = IX_INIT_ROOT_PAGE) (Hord : btree_order h < int_max).
Context (Hdead : ∀ i, (i < n_slots h)%nat → dead h ok (key_at h buf i)).
Context (np : Z) (Hnp : IX_INIT_NUM_PAGES ≤ np).

Lemma new_index_inv : tree_inv h ok strict (λ _, False) (new_index h buf np) new_ghost ∧ last_ok (new_index h buf np) new_ghost.
Proof using All.
  assert (Hint : ∀ z, 0 ≤ z ≤ 2 → is_int z) by auto with ints.
  destruct (view_fresh_leaf IX_LEAF_HEADER_PAGE (fresh_leaf IX_INIT_ROOT_PAGE buf)) as (V1 & V2 & V3 & V4 & V5 & V6 & _);
    [by apply length_fresh_leaf|by apply Hint|].
  destruct (view_fresh_leaf IX_INIT_ROOT_PAGE buf Hbuf ltac:(by apply Hint)) as (_ & _ & _ & _ & W5 & W6 & _).
  set (x := node_view h (fresh_leaf IX_LEAF_HEADER_PAGE (fresh_leaf IX_INIT_ROOT_PAGE buf))) in *.
  assert (Hx : nodes (new_index h buf np) !! IX_INIT_ROOT_PAGE = Some x).
  { unfold new_index. simpl. by rewrite lookup_insert_ne, lookup_singleton_eq. }
  assert (Hlk : live_keys x = []) by (unfold live_keys; by rewrite V2).
  assert (Hone : ∀ p g, new_ghost !! p = Some g → p = IX_INIT_ROOT_PAGE ∧ g = MkInfo 0 None None).
  { intros p g. unfold new_ghost. by intros [<- <-]%lookup_singleton_Some. }
  assert (Lk : length (keys x) = n_slots h) by (rewrite V5, W5; unfold node_view; simpl; by rewrite length_fmap, length_seq).
  assert (Lr : length (rids x) = n_slots h) by (rewrite V6, W6; unfold node_view; simpl; by rewrite length_fmap, length_seq).
  pose proof (lo_order _ LO) as Hlo. clearbody x. split; [split|].
  - by repeat split.
  - simpl. lia.
  - by eexists.
  - exists (MkInfo 0 None None), x. simpl. rewrite Hroot. split_and!; try done. intros p g [-> ->]%Hone. done.
  - intros p g [-> ->]%Hone. split; [simpl; unfold IX_INIT_ROOT_PAGE, IX_INIT_NUM_PAGES in *; lia|]. exists x. split; [done|].
    split; simpl; try done.
    + split; rewrite ?V2, ?Hlk; [lia|congruence|constructor|constructor].
    + rewrite Lk. unfold n_slots. lia.
    + left. rewrite V2. lia.
    + intros _ i k _ Hk. left. rewrite V5, W5 in Hk. unfold node_view in Hk. simpl in Hk.
      apply list_lookup_fmap_Some in Hk as (j & -> & [-> Hj]%lookup_seq). by apply Hdead.
    + rewrite Hlk. constructor.
  - simpl. rewrite Hroot. intros p g [-> ->]%Hone. done.
  - intros p g [-> ->]%Hone _ _. done.
Qed.

Lemma new_index_empty k v : ¬ has h (new_index h buf np) new_ghost k v.
Proof using All.
  intros (p & g & y & Hp & _ & Hy & Ha). unfold new_ghost in Hp. apply lookup_singleton_Some in Hp as [<- <-].
  assert (Hint : ∀ z, 0 ≤ z ≤ 2 → is_int z) by auto with ints.
  destruct (view_fresh_leaf IX_LEAF_HEADER_PAGE (fresh_leaf IX_INIT_ROOT_PAGE buf)) as (_ & V2 & _);
    [by apply length_fresh_leaf|by apply Hint|].
  unfold new_index in Hy. simpl in Hy. rewrite lookup_insert_ne, lookup_singleton_eq in Hy by done. injection Hy as <-.
  unfold entries, live_keys in Ha. rewrite V2 in Ha. done.
Qed.
End Fresh.

(** ** A sequence of insertions *)

Definition insert_all (fuel : nat) (l : list (key * Rid)) : M IxState unit :=
  st_iter (λ e, _ ← insert_entry fuel e.1 e.2; ret tt) l.

Section Build.
Context (h : IxFileHdr) (ok : key → Prop) {KO : KeyOrder (compare h) ok}.
Context (Hzero : dead h ok (zeros (Z.to_nat (col_len h)))).

(** The tree stands for the insertions made so far. *)
Record stands_for (done : list (key * Rid)) s G : Prop := {
  sf_inv : tree_inv h ok strict (λ _, False) s G;
  sf_last : last_ok s G;
  sf_height : ∀ g, G !! root_page (file_hdr s) = Some g → (ht g ≤ length done)%nat;
  sf_has : ∀ k v, ok k → has h s G k v ↔ assoc h k done = Some v;
  sf_ok : Forall (λ e, ok e.1) done
}.

Lemma insert_all_run l done s G k0 v0 fuel :
  stands_for done s G → ok k0 → assoc h k0 done = Some v0 →
  Forall (λ e, ok e.1 ∧ compare h k0 e.1 ≤ 0) l → (length done + length l < fuel)%nat →
  ∃ s' G', insert_all fuel l s = (Ok tt, s') ∧ stands_for (done ++ l) s' G'.
Proof using All.
  revert done s G. induction l as [|[k v] l IH]; intros done s G SF Hk0 Hbound Hl Hf; simpl.
  - exists s, G. by rewrite app_nil_r.
  - apply Forall_cons in Hl as [[Hk Hle] Hl]. simpl in Hk, Hle, Hf. destruct SF as [S1 S2 S3 S4 S5].
    destruct (insert_entry_run h ok Hzero s G k v fuel S1 S2 Hk) as (b & s1 & G1 & Hrun & T1 & T2 & T3 & T4 & T5).
    { intros g Hg. specialize (S3 g Hg). lia. }
    { apply (root_first_le h ok s G k S1 Hk). intros g _ _. exists k0, v0. split; [done|]. split; [by apply S4|done]. }
    assert (Hins : (λ e, _ ← insert_entry fuel e.1 e.2; ret tt) (k, v) s = (Ok tt, s1)) by (simpl; by mstep Hrun).
    unfold insert_all. simpl. mstep Hins. rewrite cons_middle, app_assoc. apply (IH (done ++ [(k, v)]) s1 G1); try done.
    + destruct (ti_root _ _ _ _ _ _ S1) as (gr & _ & HGr & _). split; try done.
      * intros g Hg. specialize (T5 gr g HGr Hg). specialize (S3 gr HGr). rewrite length_app. simpl. lia.
      * intros k' r Hk'. rewrite (T4 k' r Hk'), (S4 k' r Hk'), assoc_app. simpl.
        assert (Hb : b = false ↔ ∃ r, assoc h k done = Some r).
        { rewrite T3. split; intros [r' Hr']; exists r'; by apply S4. }
        destruct (Z.eqb_spec (compare h k' k) 0) as [Hz|Hz].
        -- rewrite (assoc_cong h ok k' k done Hk' Hk S5 Hz). destruct (assoc h k done) as [r'|] eqn:Ea; destruct b.
           ++ exfalso. discriminate (proj2 Hb). eauto.
           ++ split; [by intros [?|[? _]]|by left].
           ++ split; [by intros [?|(_ & _ & ->)]|]. intros [= <-]. by right.
           ++ exfalso. by destruct (proj1 Hb eq_refl).
        -- destruct (assoc h k' done); split; try (by left); try done; intros [?|(_ & ? & _)]; done.
      * apply Forall_app. split; [done|]. by repeat constructor.
    + by rewrite assoc_app, Hbound.
    + rewrite length_app. simpl. lia.
Qed.
(** From a new index on. *)
Lemma build_run (LO : layout_ok h) buf np k0 v0 l fuel :
  length buf = page_len → IX_INIT_NUM_PAGES ≤ np → root_page h = IX_INIT_ROOT_PAGE → last_leaf h = IX_INIT_ROOT_PAGE → btree_order h < int_max →
  (∀ i, (i < n_slots h)%nat → dead h ok (key_at h buf i)) →
  ok k0 → Forall (λ e, ok e.1 ∧ compare h k0 e.1 ≤ 0) l → (S (length l) < fuel)%nat →
  ∃ s G, insert_all fuel ((k0, v0) :: l) (new_index h buf np) = (Ok tt, s) ∧ stands_for ((k0, v0) :: l) s G.
Proof using All.
  intros Hbuf Hnp Hroot Hlast Hord Hdead Hk0 Hl Hf.
  destruct (new_index_inv h LO ok buf Hbuf Hroot Hlast Hord Hdead np Hnp) as [TI HL].
  pose proof (new_index_empty h LO ok buf Hbuf Hroot Hlast Hord Hdead np Hnp) as Hempty.
  assert (Hroot0 : ∀ g, new_ghost !! root_page (file_hdr (new_index h buf np)) = Some g → ht g = O).
  { intros g. unfold new_ghost, new_index. simpl. rewrite Hroot, lookup_singleton_eq. by intros [= <-]. }
  destruct (insert_entry_run h ok Hzero (new_index h buf np) new_ghost k0 v0 fuel TI HL Hk0) as (b & s1 & G1 & H1 & T1 & T2 & T3 & T4 & T5).
  { intros g Hg. rewrite (Hroot0 g Hg). lia. }
  { apply (root_first_le h ok _ new_ghost k0 TI Hk0). intros g Hg. by rewrite (Hroot0 g Hg). }
  destruct (ti_root _ _ _ _ _ _ TI) as (gr & _ & HGr & _).
  assert (b = true) as -> by (destruct b; [done|]; destruct (proj1 T3 eq_refl) as [r Hr]; by apply Hempty in Hr).
  assert (SF : stands_for [(k0, v0)] s1 G1).
  { split; try done.
    - intros g Hg. specialize (T5 gr g HGr Hg). rewrite (Hroot0 gr HGr) in T5. simpl. lia.
    - intros k' v Hk'. rewrite (T4 k' v Hk'). simpl. destruct (Z.eqb_spec (compare h k' k0) 0).
      + split; [intros [?%Hempty|(_ & _ & ->)]; done|]. intros [= <-]. by right.
      + split; [intros [?%Hempty|(_ & ? & _)]; done|done].
    - by repeat constructor. }
  assert (Hself : assoc h k0 [(k0, v0)] = Some v0) by (simpl; by rewrite (cmp_refl (ok := ok))).
  destruct (insert_all_run l [(k0, v0)] s1 G1 k0 v0 fuel SF Hk0 Hself Hl ltac:(simpl; lia)) as (s & G & H2 & SF').
  exists s, G. split; [|done]. unfold insert_all. simpl. by mstep (st_bind_ok _ (λ _, ret tt) _ _ _ H1).
Qed.
End Build.

(** [C3] An index is a map, end to end: start from the pages [create_index]
    writes for a key length from 1 to 512, with a page counter past them (as when
    [open_index] gets the descriptor [create_index] used), insert a list of pairs
    whose first key is a smallest one, and look up a key; every call returns (with
    fuel for one level per insertion, and a pool that does not fail), and
    [GetValue] answers what the association list answers: the rid inserted first
    under that key, or nothing.  The keys range over a set [ok] ordered by
    [compare] in which no key equals the all-zero key or one of the uninitialised
    keys [create_index] left in its page buffer; such a key is refused
    ([zero_key_refused]). *)
Theorem index_build_correct t len (ok : key → Prop) buf np k0 v0 l k fuel :
  0 < len ≤ IX_MAX_COL_LEN → length buf = page_len → IX_INIT_NUM_PAGES ≤ np →
  let h := make_ix_hdr t len in
  KeyOrder (compare h) ok →
  (∀ k', ok k' → compare h k' (zeros (Z.to_nat len)) ≠ 0) →
  (∀ i k', (i < n_slots h)%nat → ok k' → compare h k' (key_at h buf i) ≠ 0) →
  ok k0 → Forall (λ e, ok e.1 ∧ compare h k0 e.1 ≤ 0) l → ok k → (S (length l) < fuel)%nat →
  ∃ s m, insert_all fuel ((k0, v0) :: l) (new_index h buf np) = (Ok tt, s) ∧
    GetValue fuel k s = (Ok (assoc h k ((k0, v0) :: l)), set_pinmap m s).
Proof.
  intros Hlen Hbuf Hnp h KO Hzero Hdead Hk0 Hl Hk Hf. destruct (make_ix_hdr_ok t len Hlen) as [LO _]. fold h in LO.
  assert (Hord : btree_order h < int_max).
  { pose proof (lo_fits _ LO) as Hfit. pose proof (lo_len _ LO). pose proof (lo_order _ LO).
    unfold PAGE_SIZE, sizeof_IxPageHdr, sizeof_Rid, int_max in *. nia. }
  destruct (build_run h ok Hzero LO buf np k0 v0 l fuel Hbuf Hnp eq_refl eq_refl Hord ltac:(intros i Hi k' Hk'; by apply Hdead) Hk0 Hl Hf)
    as (s & G & Hrun & [S1 S2 S3 S4 _]).
  destruct (GetValue_run h ok strict _ s G k fuel S1 Hk) as (o & m & Hget & Hiff).
  { intros g Hg. specialize (S3 g Hg). simpl in S3. lia. }
  exists s, m. split; [done|].
  rewrite Hget. do 2 f_equal. apply option_eq. intros v. rewrite Hiff. by apply S4.
Qed.

(** ** Runs

    Integer keys other than zero, in pages of zeros. *)
Module IxRuns.
Import NodeRuns.

Definition nonzero (k : key) : Prop := get_int 0 k ≠ 0.
Definition zero_page : bytes := zeros page_len.

Lemma int_order h : col_type h = TYPE_INT → KeyOrder (compare h) nonzero.
Proof.
  intros E. unfold compare. rewrite E. apply (key_order_sub _ (λ _, True)); [|done]. apply (int_key_order (col_len h)).
Qed.

Lemma zero_key_dead h n : col_type h = TYPE_INT → dead h nonzero (zeros n).
Proof.
  intros E k Hk. unfold compare. rewrite E. simpl. unfold int_compare, nonzero in *.
  assert (get_int 0 (zeros n) = 0) as ->.
  { unfold get_int, slice, zeros. rewrite drop_0, take_replicate.
    destruct (Nat.min_spec 4 n) as [[_ ->]|[Hn ->]]; [done|]. do 5 (destruct n as [|n]; [by vm_compute|]). lia. }
  destruct (Z.ltb_spec (get_int 0 k) 0), (Z.ltb_spec 0 (get_int 0 k)); lia.
Qed.

Lemma zero_page_dead h i : col_type h = TYPE_INT → dead h nonzero (key_at h zero_page i).
Proof.
  intros E. unfold key_at, zero_page, slice, zeros. rewrite drop_replicate, take_replicate. by apply (zero_key_dead h).
Qed.

#[local] Instance hdr4_nonzero : KeyOrder (compare hdr4) nonzero := int_order hdr4 eq_refl.

Lemma hdr4_layout : layout_ok hdr4.
Proof. by split. Qed.

(** A new index with four slots to a node. *)
Definition ix0 : IxState := new_index hdr4 zero_page IX_INIT_NUM_PAGES.

Lemma ix0_inv : tree_inv hdr4 nonzero strict (λ _, False) ix0 new_ghost ∧ last_ok ix0 new_ghost.
Proof.
  apply (new_index_inv hdr4 hdr4_layout nonzero zero_page); try done. intros i _. by apply zero_page_dead.
Qed.

Lemma ix0_height g : new_ghost !! root_page (file_hdr ix0) = Some g → ht g = 0%nat.
Proof. unfold new_ghost, ix0, new_index. simpl. rewrite lookup_singleton_eq. by intros [= <-]. Qed.

Lemma ik_nonzero z : is_int z → z ≠ 0 → nonzero (ik z).
Proof. intros H1 H2. unfold nonzero, ik. by rewrite get_int_last. Qed.

Lemma insert_entry_correct_witness :
  ∃ b s' G', insert_entry 1 (ik 10) (rid_of 10) ix0 = (Ok b, s') ∧
    tree_inv hdr4 nonzero strict (λ _, False) s' G' ∧ last_ok s' G'.
Proof.
  destruct (insert_entry_correct hdr4 nonzero (zero_key_dead hdr4 4 eq_refl) ix0 new_ghost (ik 10) (rid_of 10) 1
    (proj1 ix0_inv) (proj2 ix0_inv)) as (b & s' & G' & H1 & H2 & H3 & _).
  - by vm_compute.
  - intros g Hg. rewrite (ix0_height g Hg). lia.
  - intros g Hg Hne. by rewrite (ix0_height g Hg) in Hne.
  - by exists b, s', G'.
Defined.

Lemma index_build_correct_witness :
  ∃ s m, insert_all 4 [(ik 10, rid_of 10); (ik 30, rid_of 30); (ik 20, rid_of 20)] (new_index (make_ix_hdr TYPE_INT 4) zero_page 3)
           = (Ok tt, s) ∧
    GetValue 4 (ik 20) s
    = (Ok (assoc (make_ix_hdr TYPE_INT 4) (ik 20) [(ik 10, rid_of 10); (ik 30, rid_of 30); (ik 20, rid_of 20)]), set_pinmap m s).
Proof.
  apply (index_build_correct TYPE_INT 4 nonzero zero_page 3 (ik 10) (rid_of 10) [(ik 30, rid_of 30); (ik 20, rid_of 20)] (ik 20) 4).
  - by vm_compute.
  - unfold zero_page, zeros. apply length_replicate.
  - unfold IX_INIT_NUM_PAGES. lia.
  - by apply int_order.
  - by apply zero_key_dead.
  - intros i k' _. by apply zero_page_dead.
  - by vm_compute.
  - repeat constructor; by vm_compute.
  - by vm_compute.
  - simpl. lia.
Defined.

(** Runs of the tree with four slots to a node. *)
Definition ins (z : Z) : M IxState bool := insert_entry 10 (ik z) (rid_of z).
Definition del (z : Z) : M IxState bool := delete_entry 10 (ik z).
Definition grow (l : list Z) : IxState := foldl (λ s z, (ins z s).2) ix0 l.
Definition find (s : IxState) (z : Z) : outcome exn (option Rid) := (GetValue 10 (ik z) s).1.

(** The separators on the way to a new smallest key are not lowered.  When the
    leftmost leaf splits, its new sibling's first key equals the separator the
    parent already holds; [Insert] takes it for a duplicate, and the upper half
    of the leaf is cut off from the tree: inserting 20 loses 40 and 50. *)
Lemma descending_insert_loses_keys :
  let s := grow [40; 50; 60; 70; 30] in
  find s 40 = Ok (Some (rid_of 40)) ∧ find s 50 = Ok (Some (rid_of 50)) ∧
  (ins 20 s).1 = Ok true ∧ find (ins 20 s).2 40 = Ok None ∧ find (ins 20 s).2 50 = Ok None.
Proof. by vm_compute. Qed.

(** Deleting the last key sets the root to page -1; the next insertion asks the
    pool for that page and the read fails. *)
Lemma emptied_index_unusable :
  let s := (del 10 (grow [10])).2 in (del 10 (grow [10])).1 = Ok true ∧ (ins 20 s).1 = Throw (RedBase UnixError).
Proof. by vm_compute. Qed.

(** A deleted key stays behind as a leftover of its left neighbour: once the
    separator has moved past it, it cannot be inserted again. *)
Lemma deleted_key_refused :
  let s := (del 30 (grow [10; 20; 30; 40; 50])).2 in
  (del 30 (grow [10; 20; 30; 40; 50])).1 = Ok true ∧ find s 30 = Ok None ∧ (ins 30 s).1 = Ok false.
Proof. by vm_compute. Qed.

(** Deleting it again answers true and takes away the last key of that neighbour. *)
Lemma deleted_twice_loses_key :
  let s := (del 30 (grow [10; 20; 30; 40; 50])).2 in
  find s 20 = Ok (Some (rid_of 20)) ∧ (del 30 s).1 = Ok true ∧ find (del 30 s).2 20 = Ok None.
Proof. by vm_compute. Qed.

(** In a tree of three levels a deletion that merges leaves goes on to merge
    their parent through its leaf links, which an internal page never sets: page
    0, the file header, is taken for a node. *)
Lemma deep_delete_reads_file_header :
  (del 10 (grow [10; 20; 30; 40; 50; 60; 70; 80; 90; 100])).1 = Crash Uninitialised.
Proof. by vm_compute. Qed.

(** A lookup that finds its key leaves the leaf pinned; one that does not
    unpins it. *)
Lemma found_key_stays_pinned :
  let s := grow [10] in
  pin_count (GetValue 10 (ik 10) s).2 2 = pin_count s 2 + 1 ∧ pin_count (GetValue 10 (ik 20) s).2 2 = pin_count s 2.
Proof. by vm_compute. Qed.

End IxRuns.
