(* ===== verification/IxDelete.v ===== *)
(** Deletion from the B+ tree: [delete_entry] of a key whose leaf does not run
    short of entries, with [maintain_parent] carrying a new first key upwards.

    When the smallest key of a leaf goes, the separator that led to the leaf is
    replaced by the leaf's new first key, in the parent and in every ancestor that
    starts with it.  The pages after the run are the pages before with the old
    separator replaced everywhere, which is also what happens to the intervals of
    the invariant. *)
From S2P Require Import Prelude Config IxKey IxNode IxNodeSpec IxTree IxTreeSpec IxTreeSplit IxInsert IxFile IxBuild.

(** ** Pins *)

(** No pin count is negative. *)
Definition pins_ok (s : IxState) : Prop := ∀ p, 0 ≤ pin_count s p.

Lemma pins_set s t p n : pins_ok s → 0 ≤ n.1 → pins_ok (set_pinmap (<[p := n]> (pins s)) t).
Proof.
  intros Hs Hn p'. unfold pin_count, pin_state. simpl. destruct (decide (p' = p)) as [->|Hne].
  - by rewrite lookup_insert_eq.
  - rewrite lookup_insert_ne by done. apply Hs.
Qed.

Lemma FetchNode_pin p s x :
  nodes s !! p = Some x → FetchNode p s = (Ok p, set_pinmap (<[p := (pin_count s p + 1, is_dirty s p)]> (pins s)) s).
Proof. intros Hx. unfold FetchNode. simpl. by rewrite Hx. Qed.

Lemma pin_fetched s p : pins_ok s → 0 < pin_count (set_pinmap (<[p := (pin_count s p + 1, is_dirty s p)]> (pins s)) s) p.
Proof. intros Hs. unfold pin_count at 1, pin_state. simpl. rewrite lookup_insert_eq. simpl. pose proof (Hs p). lia. Qed.

Lemma pins_fetched s p : pins_ok s → pins_ok (set_pinmap (<[p := (pin_count s p + 1, is_dirty s p)]> (pins s)) s).
Proof. intros Hs. apply pins_set; [done|]. simpl. pose proof (Hs p). lia. Qed.

(** An [assert] around [UnpinPage] holds for a pinned page. *)
Lemma unpin_after s p :
  0 < pin_count s p → pins_ok s → ∃ m, assert_unpin p s = (Ok tt, set_pinmap m s) ∧ pins_ok (set_pinmap m s).
Proof.
  intros Hp Hs. eexists. unfold assert_unpin, UnpinPage, st_bind. rewrite (proj2 (Z.ltb_lt _ _)) by done.
  split; [done|]. apply pins_set; [done|]. simpl. lia.
Qed.

(** ** Finding a child *)

Lemma find_child_loop_run fh ok x c i r n (j : nat) :
  node_ok fh ok x → live_rids x !! i = Some r → rid_page_no r = c →
  (∀ j r', live_rids x !! j = Some r' → rid_page_no r' = c → i = j) → (j ≤ i)%nat → (i - j < n)%nat →
  find_child_loop n c (Z.of_nat j) x = (Ok (Z.of_nat i), x).
Proof.
  intros Hx Hr Hc Hone. pose proof (lookup_lt_Some _ _ _ Hr) as Hlt. rewrite (length_live_rids fh ok x Hx) in Hlt.
  revert j. induction n as [|n IH]; intros j Hj Hn; [lia|]. simpl. unfold GetSize. unfold st_bind at 1, gets.
  rewrite (proj2 (Z.ltb_lt _ _)) by lia.
  destruct (lookup_lt_is_Some_2 (live_rids x) j) as [rj Hrj]; [rewrite (length_live_rids fh ok x Hx); lia|].
  assert (Hg : get_rid (Z.of_nat j) x = (Ok rj, x)).
  { unfold get_rid. rewrite st_get_bind. apply array_get_run. unfold live_rids in Hrj. by apply lookup_take_Some in Hrj as [? _]. }
  mstep Hg. destruct (Z.eqb_spec (rid_page_no rj) c) as [E|E].
  - by rewrite (Hone j rj Hrj E).
  - assert (j ≠ i) by (intros ->; congruence). replace (Z.of_nat j + 1) with (Z.of_nat (S j)) by lia. apply IH; lia.
Qed.

Lemma find_child_run fh ok x c i r :
  node_ok fh ok x → live_rids x !! i = Some r → rid_page_no r = c →
  (∀ j r', live_rids x !! j = Some r' → rid_page_no r' = c → i = j) → find_child c x = (Ok (Z.of_nat i), x).
Proof.
  intros Hx Hr Hc Hone. pose proof (lookup_lt_Some _ _ _ Hr) as Hlt. rewrite (length_live_rids fh ok x Hx) in Hlt.
  unfold find_child, GetSize. unfold st_bind at 1, gets.
  mstep (find_child_loop_run fh ok x c i r (Z.to_nat (num_key x)) 0 Hx Hr Hc Hone ltac:(lia) ltac:(lia)).
  unfold assert_. by rewrite (proj2 (Z.ltb_lt _ _)) by lia.
Qed.

(** ** One step towards the root *)

(** The state after a run that may have changed pages and pin counts. *)
Definition moved (t t' : IxState) (ns : gmap Z IxNode) : Prop :=
  file_hdr t' = file_hdr t ∧ next_page t' = next_page t ∧ nodes t' = ns ∧ pins_ok t'.

(** [maintain_parent] at a page [p] that is child [i] of [pp]: it stops when the
    parent has the page's first key, else it writes the key there and goes on. *)
Lemma maintain_parent_step fh ok t p xp pp y (i : nat) rd k0 c fuel :
  pins_ok t → col_len (file_hdr t) = col_len fh → nodes t !! p = Some xp → parent xp = pp → pp ≠ IX_NO_PAGE →
  nodes t !! pp = Some y → node_ok fh ok y → live_rids y !! i = Some rd → rid_page_no rd = p →
  (∀ i' rd', live_rids y !! i' = Some rd' → rid_page_no rd' = p → i = i') → keys y !! i = Some k0 → keys xp !! O = Some c →
  length k0 = Z.to_nat (col_len fh) → length c = Z.to_nat (col_len fh) →
  if decide (k0 = c) then ∃ t', maintain_parent (S fuel) p t = (Ok tt, t') ∧ moved t t' (nodes t)
  else ∃ t', maintain_parent (S fuel) p t = maintain_parent fuel pp t' ∧
         moved t t' (<[pp := set_arrays (<[i := c]> (keys y)) (rids y) y]> (nodes t)).
Proof.
  intros Hps Hcl Hxp Hpar Hpp Hy Hn Hr Hrp Hone Hk Hc Hlk Hlc. cbn [maintain_parent].
  mstep (read_node_run _ parent t xp Hxp). rewrite Hpar, (proj2 (Z.eqb_neq _ _)) by done. simpl.
  mstep (FetchNode_pin pp t y Hy). set (t1 := set_pinmap _ t).
  mstep (on_node_pure pp (λ _, find_child p) t1 y (Z.of_nat i) Hy (find_child_run fh ok y p i rd Hn Hr Hrp Hone)).
  mstep (on_get_key t1 pp y Hy i k0 Hk). mstep (on_get_key t1 p xp Hxp 0 c Hc).
  assert (Hg : gets file_hdr t1 = (Ok (E := exn) (file_hdr t1), t1)) by done. mstep Hg. change (col_len (file_hdr t1)) with (col_len (file_hdr t)). rewrite Hcl.
  destruct (Z.eqb_spec (memcmp k0 c (Z.to_nat (col_len fh))) 0) as [Hz|Hz].
  - apply memcmp_eq in Hz; [|done|done]. rewrite decide_True by done.
    destruct (unpin_after t1 pp) as (m & Hu & Hm); [apply (pin_fetched t pp Hps)|by apply pins_fetched|].
    exists (set_pinmap m t1). by split.
  - rewrite decide_False by (intros E; apply Hz; by apply memcmp_eq). pose proof (lookup_lt_Some _ _ _ Hk) as Hlt.
    mstep (on_set_key t1 pp y Hy i c Hlt). set (t2 := set_nodes _ t1).
    destruct (unpin_after t2 pp) as (m & Hu & Hm); [apply (pin_fetched t pp Hps)|by apply pins_fetched|].
    mstep Hu. exists (set_pinmap m t2). by split.
Qed.

(** The links of a leaf. *)
Definition links (x : IxNode) : Z * Z := (prev_leaf x, next_leaf x).

Section Separators.
Context (fh : IxFileHdr) (ok : key → Prop) {KO : KeyOrder (compare fh) ok}.
Context (md : mode) (full : Z → Prop) (s : IxState) (G : gmap Z info) (TI : tree_inv fh ok md full s G).
Implicit Types (x : IxNode) (k l : key) (g : info) (p q : Z).
Abbreviation cmp := (compare fh).
Abbreviation within := (within fh).

Lemma page_at p g x : G !! p = Some g → nodes s !! p = Some x → page_ok fh ok md (nodes s) G full p g x.
Proof using TI. intros HG Hx. destruct (ti_page _ _ _ _ _ _ TI p g HG) as (_ & y & Hy & PO). by assert (y = x) as -> by congruence. Qed.

Lemma node_at p g : G !! p = Some g → ∃ x, nodes s !! p = Some x.
Proof using TI. intros HG. destruct (ti_page _ _ _ _ _ _ TI p g HG) as (_ & y & Hy & _). by exists y. Qed.

(** Keys the order does not tell apart lie in the same intervals. *)
Lemma within_cong g k k' : ok k → ok k' → bounds_ok ok g → cmp k' k = 0 → within g k → within g k'.
Proof using KO.
  intros Hk Hk' [B1 B2] Hz [W1 W2]. pose proof (cmp_eq_sym (ok := ok) k' k Hk' Hk Hz) as Hz'. split.
  - intros l Hl. apply (ko_trans l k k'); auto; lia.
  - intros u Hu. apply (cmp_le_lt_trans k' k u); auto; lia.
Qed.

(** Pages of one height have disjoint intervals. *)
Lemma same_height k p g q gq :
  ok k → G !! p = Some g → G !! q = Some gq → ht g = ht gq → within g k → within gq k → p = q.
Proof using TI KO.
  intros Hk. destruct (ti_root _ _ _ _ _ _ TI) as (gr & xr & HGr & _ & _ & _ & _ & Hmax).
  remember (ht gr - ht g)%nat as n eqn:Hn. revert p g q gq Hn.
  induction n as [n IH] using lt_wf_ind. intros p g q gq Hn Hp Hq Hh Wp Wq.
  destruct (Hmax p g Hp) as [Hle Hrp], (Hmax q gq Hq) as [_ Hrq].
  destruct (decide (ht g = ht gr)) as [E|E]; [rewrite Hrp, Hrq by congruence; done|].
  destruct (decide (p = root_page (file_hdr s))) as [->|Np]; [congruence|].
  destruct (decide (q = root_page (file_hdr s))) as [->|Nq]; [congruence|].
  destruct (ti_up _ _ _ _ _ _ TI p g Hp Np) as (p1 & g1 & x1 & i & r & HG1 & Hh1 & Hx1 & Hr1 & <-).
  destruct (ti_up _ _ _ _ _ _ TI q gq Hq Nq) as (q2 & g2 & x2 & j & r' & HG2 & Hh2 & Hx2 & Hr2 & <-).
  pose proof (page_at _ _ _ HG1 Hx1) as PO1. pose proof (page_at _ _ _ HG2 Hx2) as PO2.
  destruct (node_at _ _ Hp) as [xp Hxp], (node_at _ _ Hq) as [xq Hxq].
  pose proof (po_bounds _ _ _ _ _ _ _ _ _ (page_at _ _ _ Hp Hxp)) as Bp.
  pose proof (po_bounds _ _ _ _ _ _ _ _ _ (page_at _ _ _ Hq Hxq)) as Bq.
  assert (p1 = q2) as ->.
  { destruct (Hmax _ _ HG1) as [Hle1 _]. apply (IH (ht gr - ht g1)%nat ltac:(lia) p1 g1 q2 g2); try done; try lia.
    - by apply (within_parent fh ok md full _ _ _ _ _ k i r g PO1 ltac:(lia) Hk Hr1 Hp Bp).
    - by apply (within_parent fh ok md full _ _ _ _ _ k j r' gq PO2 ltac:(lia) Hk Hr2 Hq Bq). }
  assert (g1 = g2) as -> by congruence. assert (x1 = x2) as -> by congruence.
  pose proof (lookup_picks fh ok md full _ _ _ _ _ k i r PO1 ltac:(lia) Hk Hr1 ltac:(intros ? ?; congruence)) as L1.
  pose proof (lookup_picks fh ok md full _ _ _ _ _ k j r' PO2 ltac:(lia) Hk Hr2 ltac:(intros ? ?; congruence)) as L2.
  congruence.
Qed.

Context (Ht : tight md = true).

(** The child at place [i] starts at the key at place [i]. *)
Lemma child_at p g x i l :
  G !! p = Some g → nodes s !! p = Some x → ht g ≠ O → live_keys x !! i = Some l →
  ∃ r gc xc, live_rids x !! i = Some r ∧ G !! rid_page_no r = Some gc ∧ nodes s !! rid_page_no r = Some xc ∧
    parent xc = p ∧ ht g = S (ht gc) ∧ lo gc = Some l ∧ hi gc = child_hi x i (hi g).
Proof using TI Ht.
  intros HG Hx Hh Hl. pose proof (page_at _ _ _ HG Hx) as PO. pose proof (po_node _ _ _ _ _ _ _ _ _ PO) as Hn.
  destruct (lookup_lt_is_Some_2 (live_rids x) i) as [r Hr].
  { rewrite (length_live_rids fh ok x Hn), <- (length_live fh ok x Hn). by eapply lookup_lt_Some. }
  destruct (po_child _ _ _ _ _ _ _ _ _ PO Hh i r Hr) as (gc & xc & HGc & Hxc & Hp & Hhc & Hlo & Hhi).
  unfold child_lo in Hlo. rewrite Ht in Hlo. simpl in Hlo. exists r, gc, xc. split_and!; congruence.
Qed.

(** A page below the root is the child its lower end names. *)
Lemma parent_at p g :
  G !! p = Some g → p ≠ root_page (file_hdr s) →
  ∃ q gq x i r l xp, G !! q = Some gq ∧ ht gq = S (ht g) ∧ nodes s !! q = Some x ∧ live_rids x !! i = Some r ∧
    rid_page_no r = p ∧ live_keys x !! i = Some l ∧ lo g = Some l ∧ hi g = child_hi x i (hi gq) ∧
    nodes s !! p = Some xp ∧ parent xp = q.
Proof using TI Ht.
  intros HG Hne. destruct (ti_up _ _ _ _ _ _ TI p g HG Hne) as (q & gq & x & i & r & HGq & Hh & Hx & Hr & <-).
  pose proof (page_at _ _ _ HGq Hx) as PO. destruct (rid_key fh ok x i r (po_node _ _ _ _ _ _ _ _ _ PO) Hr) as [l Hl].
  destruct (child_at q gq x i l HGq Hx ltac:(lia) Hl) as (r' & gc & xc & Hr' & HGc & Hxc & Hp & Hhc & Hlo & Hhi).
  assert (r' = r) as -> by congruence. assert (gc = g) as -> by congruence.
  exists q, gq, x, i, r, l, xc. by split_and!.
Qed.

(** A page's lower end is a key of its interval, and only one page of each height
    starts there. *)
Lemma lower_within p g l : G !! p = Some g → lo g = Some l → ok l ∧ within g l.
Proof using TI Ht KO.
  intros HG Hl. destruct (ti_root _ _ _ _ _ _ TI) as (gr & xr & HGr & _ & _ & Hlr & _).
  destruct (decide (p = root_page (file_hdr s))) as [->|Hne]; [congruence|].
  destruct (parent_at p g HG Hne) as (q & gq & x & i & r & l' & xp & HGq & Hh & Hx & Hr & _ & Hk & Hlo & Hhi & _).
  assert (l' = l) as -> by congruence. pose proof (page_at _ _ _ HGq Hx) as PO.
  pose proof (po_node _ _ _ _ _ _ _ _ _ PO) as Hn. pose proof (live_ok fh ok x i l Hn Hk) as Hok. split; [done|]. split.
  - intros l' E. assert (l' = l) as -> by congruence. by rewrite (cmp_refl (ok := ok)).
  - intros u Hu. rewrite Hhi in Hu. unfold child_hi in Hu. destruct (live_keys x !! S i) as [c|] eqn:Ec.
    + injection Hu as ->. apply (sorted_lookup (λ a b, cmp a b < 0) _ i (S i) l u (no_sorted _ _ _ Hn) Hk Ec). lia.
    + by apply (Forall_lookup_1 _ _ _ _ (po_within _ _ _ _ _ _ _ _ _ PO) Hk).
Qed.

Lemma lower_unique p g q gq l :
  G !! p = Some g → G !! q = Some gq → ht g = ht gq → lo g = Some l → lo gq = Some l → p = q.
Proof using TI Ht KO.
  intros Hp Hq Hh Lp Lq. destruct (lower_within p g l Hp Lp) as [Hok Wp], (lower_within q gq l Hq Lq) as [_ Wq].
  by apply (same_height l p g q gq).
Qed.

(** The first child of a page starts where the page starts. *)
Lemma first_child p g l :
  G !! p = Some g → ht g ≠ O → lo g = Some l →
  ∃ x r gc, nodes s !! p = Some x ∧ live_rids x !! O = Some r ∧ G !! rid_page_no r = Some gc ∧ ht g = S (ht gc) ∧ lo gc = Some l.
Proof using TI Ht.
  intros HG Hh Hl. destruct (node_at p g HG) as [x Hx].
  pose proof (po_tight _ _ _ _ _ _ _ _ _ (page_at p g x HG Hx) Ht Hh l Hl) as Hk.
  destruct (child_at p g x O l HG Hx Hh Hk) as (r & gc & xc & Hr & HGc & _ & _ & Hhc & Hlo & _). exists x, r, gc. by split_and!.
Qed.

Lemma first_descendant p g l h :
  G !! p = Some g → lo g = Some l → (h ≤ ht g)%nat → ∃ q gq, G !! q = Some gq ∧ ht gq = h ∧ lo gq = Some l.
Proof using TI Ht.
  remember (ht g - h)%nat as n eqn:Hn. revert p g Hn. induction n as [|n IH]; intros p g Hn HG Hl Hh.
  - exists p, g. split_and!; [done|lia|done].
  - destruct (first_child p g l HG ltac:(lia) Hl) as (x & r & gc & _ & _ & HGc & Hhc & Hlo).
    apply (IH _ gc ltac:(lia) HGc Hlo ltac:(lia)).
Qed.

(** What the leaf that starts at [l] can hold, every page that starts at [l] can. *)
Lemma first_leaf_within q gq l k :
  G !! q = Some gq → ht gq = O → lo gq = Some l → ok k → within gq k →
  ∀ p g, G !! p = Some g → lo g = Some l → within g k.
Proof using TI Ht KO.
  intros HGq Hh Hl Hk Hw p g. remember (ht g) as n eqn:Hn. revert p g Hn. induction n as [|n IH]; intros p g Hn HG Hlo.
  - assert (p = q) as -> by (apply (lower_unique p g q gq l); congruence). by assert (g = gq) as -> by congruence.
  - destruct (first_child p g l HG ltac:(lia) Hlo) as (x & r & gc & Hx & Hr & HGc & Hhc & Hlc).
    destruct (node_at _ _ HGc) as [xc Hxc]. apply (within_parent fh ok md full (nodes s) G p g x k O r gc); try done.
    + by apply page_at.
    + lia.
    + by apply (po_bounds _ _ _ _ _ _ _ _ _ (page_at _ _ _ HGc Hxc)).
    + apply (IH (rid_page_no r)); [lia|done|done].
Qed.

End Separators.

(** ** Replacing a separator *)

Definition sub_key (old f k : key) : key := if decide (k = old) then f else k.
Definition sub_info (old f : key) (g : info) : info := MkInfo (ht g) (sub_key old f <$> lo g) (sub_key old f <$> hi g).
Definition sub_node (old f : key) (x : IxNode) : IxNode :=
  set_arrays ((sub_key old f <$> live_keys x) ++ drop (Z.to_nat (num_key x)) (keys x)) (rids x) x.

Lemma sub_key_old old f : sub_key old f old = f.
Proof. unfold sub_key. by rewrite decide_True. Qed.

Lemma sub_key_ne old f k : k ≠ old → sub_key old f k = k.
Proof. intros H. unfold sub_key. by rewrite decide_False. Qed.

Lemma sub_key_id f k : sub_key f f k = k.
Proof. unfold sub_key. by case_decide. Qed.

Lemma set_arrays_id x : set_arrays (keys x) (rids x) x = x.
Proof. by destruct x. Qed.

(** A page in which the replaced key does not occur stays as it is. *)
Lemma sub_node_id old f x : (∀ i, live_keys x !! i = Some old → f = old) → sub_node old f x = x.
Proof.
  intros H. unfold sub_node. assert (sub_key old f <$> live_keys x = live_keys x) as ->.
  { apply list_eq. intros i. rewrite list_lookup_fmap. destruct (live_keys x !! i) as [k|] eqn:E; simpl; [|done].
    f_equal. unfold sub_key. case_decide as Hd; [|done]. subst k. by apply (H i). }
  unfold live_keys. rewrite take_drop. apply set_arrays_id.
Qed.

Lemma sub_node_one fh ok `{KO : !KeyOrder (compare fh) ok} old f x i :
  node_ok fh ok x → live_keys x !! i = Some old → sub_node old f x = set_arrays (<[i := f]> (keys x)) (rids x) x.
Proof.
  intros Hn Hi. unfold sub_node. f_equal. pose proof (lookup_lt_Some _ _ _ Hi) as Hlt.
  assert (sub_key old f <$> live_keys x = <[i := f]> (live_keys x)) as ->.
  { apply list_eq. intros j. rewrite list_lookup_fmap. destruct (decide (i = j)) as [<-|Hne].
    - rewrite Hi, list_lookup_insert_eq by done. simpl. by rewrite sub_key_old.
    - rewrite list_lookup_insert_ne by done. destruct (live_keys x !! j) as [k|] eqn:E; simpl; [|done].
      f_equal. apply sub_key_ne. intros ->. apply Hne. by apply (live_inj fh ok x i j old). }
  unfold live_keys in Hlt |- *. rewrite length_take in Hlt.
  rewrite <- insert_app_l by (rewrite length_take; lia). by rewrite take_drop.
Qed.

Section Replace.
Context (fh : IxFileHdr) (ok : key → Prop) {KO : KeyOrder (compare fh) ok}.
Context (md : mode) (s : IxState) (G : gmap Z info) (TI : tree_inv fh ok md (λ _, False) s G) (Ht : tight md = true).
Implicit Types (y : IxNode) (k l : key) (g : info) (p : Z).
Abbreviation cmp := (compare fh).
Abbreviation within := (within fh).
Abbreviation page_at := (page_at fh ok md (λ _, False) s G TI).
Abbreviation node_at := (node_at fh ok md (λ _, False) s G TI).
Abbreviation child_at := (child_at fh ok md (λ _, False) s G TI Ht).

(** The leaf [q] and what it is replaced with: [x'], whose first key is [f].  The
    leaf started at [old], unless it is the root. *)
Context (q : Z) (gq : info) (x x' : IxNode) (old f : key).
Context (HG : G !! q = Some gq) (Hx : nodes s !! q = Some x) (Hq : ht gq = O).
Context (Hn' : node_ok fh ok x') (Hlen' : length (keys x') = length (keys x)) (Hnum' : num_key x' ≤ num_key x).
Context (Hsub : ∀ c, c ∈ live_keys x' → c ∈ live_keys x).
Context (Hleaf' : is_leaf x' = is_leaf x) (Hpar' : parent x' = parent x) (Hnext' : next_leaf x' = next_leaf x).
Context (Hf : live_keys x' !! O = Some f) (Hold : ok old) (Hle : cmp old f ≤ 0).
Context (Hlo : ∀ l, lo gq = Some l → l = old).
Context (Hat : ∀ p g, G !! p = Some g → lo g = Some old → within g f ∧ (ht g = O → p = q)).
Abbreviation sub_key := (sub_key old f).
Abbreviation sub_info := (sub_info old f).
Abbreviation sub_node := (sub_node old f).

Lemma f_ok : ok f.
Proof using Hn' Hf. by apply (live_ok fh ok x' O). Qed.

Lemma sub_ok k : ok k → ok (sub_key k).
Proof using Hn' Hf. unfold IxDelete.sub_key. case_decide; [|done]. intros _. apply f_ok. Qed.

(** Replacing only moves a key up. *)
Lemma sub_ge k : ok k → cmp k (sub_key k) ≤ 0.
Proof using KO Hle. intros Hk. unfold IxDelete.sub_key. case_decide; [by subst|]. by rewrite (cmp_refl (ok := ok)). Qed.

Lemma lt_sub k u : ok k → ok u → cmp k u < 0 → cmp k (sub_key u) < 0.
Proof using KO Hle Hn' Hf. intros Hk Hu Hlt. apply (cmp_lt_le_trans k u); auto using sub_ok, sub_ge. Qed.

(** A separator that is replaced stays below the next one and inside the page. *)
Lemma inner_old p g y i :
  G !! p = Some g → nodes s !! p = Some y → ht g ≠ O → live_keys y !! i = Some old →
  within g f ∧ ∀ u, live_keys y !! S i = Some u → cmp f u < 0.
Proof using All.
  intros HGp Hy Hh Hi. destruct (child_at p g y i old HGp Hy Hh Hi) as (r & gc & xc & Hr & HGc & Hxc & _ & Hhc & Hl & Hhi).
  destruct (Hat _ _ HGc Hl) as [Hw _]. split.
  - apply (within_parent fh ok md _ _ _ _ _ _ f i r gc (page_at _ _ _ HGp Hy) Hh f_ok Hr HGc); [|done].
    by apply (po_bounds _ _ _ _ _ _ _ _ _ (page_at _ _ _ HGc Hxc)).
  - intros u Hu. apply Hw. by rewrite Hhi; unfold child_hi; rewrite Hu.
Qed.

Lemma sorted_sub ks :
  Forall ok ks → StronglySorted (λ a b, cmp a b < 0) ks →
  (∀ i u, ks !! i = Some old → ks !! S i = Some u → cmp f u < 0) →
  StronglySorted (λ a b, cmp a b < 0) (sub_key <$> ks).
Proof using All.
  intros Hok Hs. induction Hs as [|a ks Hs IH Hlt]; intros Hnx; simpl; [constructor|].
  apply Forall_cons in Hok as [Ha Hok]. constructor; [apply IH; [done|]; intros i u; apply (Hnx (S i) u)|].
  rewrite Forall_fmap. rewrite Forall_forall in Hlt, Hok |- *. intros c Hc. simpl.
  pose proof (Hlt _ Hc) as Hac. destruct (decide (a = old)) as [->|Hne]; [|rewrite (sub_key_ne old f a) by done; auto using lt_sub].
  rewrite sub_key_old. apply lt_sub; [apply f_ok|by apply Hok|].
  destruct ks as [|u ks]; [by apply elem_of_nil in Hc|]. pose proof (Hnx O u eq_refl eq_refl) as Hfu.
  apply StronglySorted_inv in Hs as [_ Hs]. apply elem_of_cons in Hc as [->|Hc]; [done|].
  rewrite Forall_forall in Hs. apply (cmp_lt_le_trans f u c); [apply f_ok|apply Hok; left|apply Hok; by right|done|].
  specialize (Hs _ Hc). simpl in Hs. lia.
Qed.

Lemma live_sub y : node_ok fh ok y → live_keys (sub_node y) = sub_key <$> live_keys y.
Proof using All.
  intros Hy. unfold IxDelete.sub_node, live_keys at 1. simpl. apply take_app_length'.
  by rewrite length_fmap, (length_live fh ok y Hy).
Qed.

Lemma length_sub y : node_ok fh ok y → length (keys (sub_node y)) = length (keys y).
Proof using All.
  intros Hy. unfold IxDelete.sub_node. simpl. pose proof (no_num _ _ _ Hy).
  rewrite length_app, length_fmap, (length_live fh ok y Hy), length_drop. lia.
Qed.

(** ** The tree with the separator replaced *)

(** The pages when the replacement has reached height [h]. *)
Definition level (h : nat) (p : Z) : option IxNode :=
  if decide (p = q) then Some x' else
  match G !! p with
  | Some g => if (ht g =? 0)%nat || (h <? ht g)%nat then nodes s !! p else sub_node <$> nodes s !! p
  | None => nodes s !! p
  end.

Lemma level_q h : level h q = Some x'.
Proof. unfold level. by rewrite decide_True. Qed.

Lemma level_leaf h p g : G !! p = Some g → ht g = O → p ≠ q → level h p = nodes s !! p.
Proof. intros E Hh Hne. unfold level. by rewrite decide_False, E, Hh. Qed.

Lemma level_low h p g : G !! p = Some g → ht g ≠ O → (ht g ≤ h)%nat → level h p = sub_node <$> nodes s !! p.
Proof using All.
  intros E Hh Hl. unfold level. rewrite decide_False by congruence.
  by rewrite E, (proj2 (Nat.eqb_neq _ _)), (proj2 (Nat.ltb_ge _ _)) by lia.
Qed.

Lemma level_high h p g : G !! p = Some g → (h < ht g)%nat → level h p = nodes s !! p.
Proof using All.
  intros E Hl. unfold level. rewrite decide_False by (intros ->; assert (g = gq) as -> by congruence; lia).
  by rewrite E, (proj2 (Nat.ltb_lt _ _)), orb_true_r by done.
Qed.

Lemma level_0 p : level 0 p = if decide (p = q) then Some x' else nodes s !! p.
Proof.
  unfold level. destruct (decide (p = q)); [done|]. destruct (G !! p) as [g|]; [|done]. by destruct (ht g).
Qed.

(** Each page keeps its parent, its place in the leaf list and its children. *)
Lemma level_frame h p y : nodes s !! p = Some y →
  ∃ y', level h p = Some y' ∧ parent y' = parent y ∧ next_leaf y' = next_leaf y ∧ is_leaf y' = is_leaf y ∧
    (p ≠ q → num_key y' = num_key y ∧ live_rids y' = live_rids y).
Proof using Hx Hleaf' Hpar' Hnext'.
  intros Hy. unfold level. destruct (decide (p = q)) as [->|Hne].
  - exists x'. assert (y = x) as -> by congruence. by split_and!.
  - destruct (G !! p) as [g|]; [destruct (_ || _)|]; rewrite Hy; eexists; by split_and!.
Qed.

Lemma level_links h p : prev_leaf x' = prev_leaf x → links <$> level h p = links <$> nodes s !! p.
Proof using Hx Hnext'.
  intros Hp. unfold level. destruct (decide (p = q)) as [->|Hne].
  - rewrite Hx. simpl. unfold links. by rewrite Hp, Hnext'.
  - destruct (G !! p) as [g|]; [|done]. destruct (_ || _); [done|]. by destruct (nodes s !! p).
Qed.

(** ** Upwards *)

Section Upwards.
Context (Hlen : ∀ k, ok k → length k = Z.to_nat (col_len fh)) (Hlq : lo gq = Some old) (Hwq : within gq old).

(** Above a page that does not start at the replaced key nothing is replaced. *)
Lemma level_stop p g h p' :
  G !! p = Some g → within g old → (lo g = Some old → f = old) → (ht g ≤ h)%nat → level (ht g) p' = level h p'.
Proof using All.
  intros HGp Hw Hstop Hh. destruct (decide (p' = q)) as [->|Hne]; [by rewrite !level_q|].
  destruct (G !! p') as [g'|] eqn:HG'; [|unfold level; by rewrite !decide_False, HG' by done].
  destruct (decide (ht g' = O)) as [Hz|Hz]; [by rewrite !(level_leaf _ p' g') by done|].
  destruct (decide (ht g' ≤ ht g)%nat) as [Hl|Hl]; [by rewrite !(level_low _ p' g') by (done || lia)|].
  rewrite (level_high _ p' g') by (done || lia).
  destruct (decide (ht g' ≤ h)%nat) as [Hl'|Hl']; [|by rewrite (level_high _ p' g') by (done || lia)].
  rewrite (level_low _ p' g') by done. destruct (nodes s !! p') as [y|] eqn:Hy; [|done]. simpl. f_equal. symmetry.
  apply sub_node_id. intros i Hi.
  destruct (child_at p' g' y i old HG' Hy Hz Hi) as (r & gc & xc & _ & HGc & _ & _ & Hhc & Hl0 & _).
  destruct (first_descendant fh ok md _ s G TI Ht _ _ old (ht g) HGc Hl0 ltac:(lia)) as (d & gd & HGd & Hhd & Hld).
  destruct (lower_within fh ok md _ s G TI Ht d gd old HGd Hld) as [_ Wd].
  assert (d = p) as -> by (by apply (same_height fh ok md _ s G TI old d gd p g)). apply Hstop. congruence.
Qed.

(** One step up: the parent's key for the page is replaced, and no other key at
    the parent's height is. *)
Lemma level_step p g pp gp y i xp :
  G !! p = Some g → lo g = Some old → nodes s !! p = Some xp → parent xp = pp →
  G !! pp = Some gp → ht gp = S (ht g) → nodes s !! pp = Some y → live_keys y !! i = Some old →
  ∀ p', (if decide (p' = pp) then Some (set_arrays (<[i := f]> (keys y)) (rids y) y) else level (ht g) p') = level (S (ht g)) p'.
Proof using All.
  intros HGp Hl Hxp Hpar HGpp Hhp Hy Hi p'. destruct (decide (p' = pp)) as [->|Hne].
  - rewrite (level_low _ pp gp) by (done || lia). rewrite Hy. simpl. f_equal. symmetry.
    apply (sub_node_one fh ok); [|done]. apply (po_node _ _ _ _ _ _ _ _ _ (page_at pp gp y HGpp Hy)).
  - destruct (decide (p' = q)) as [->|Hnq]; [by rewrite !level_q|].
    destruct (G !! p') as [g'|] eqn:HG'; [|unfold level; by rewrite !decide_False, HG' by done].
    destruct (decide (ht g' = O)) as [Hz|Hz]; [by rewrite !(level_leaf _ p' g') by done|].
    destruct (decide (ht g' ≤ ht g)%nat) as [Hle'|Hle']; [by rewrite !(level_low _ p' g') by (done || lia)|].
    rewrite (level_high _ p' g') by (done || lia).
    destruct (decide (ht g' = S (ht g))) as [Hs|Hs]; [|by rewrite (level_high _ p' g') by (done || lia)].
    rewrite (level_low _ p' g') by (done || lia). destruct (nodes s !! p') as [y'|] eqn:Hy'; [|done]. simpl. f_equal. symmetry.
    apply sub_node_id. intros j Hj. exfalso. apply Hne.
    destruct (child_at p' g' y' j old HG' Hy' Hz Hj) as (r & gc & xc & _ & HGc & Hxc & Hpc & Hhc & Hlc & _).
    assert (rid_page_no r = p) as E by (apply (lower_unique fh ok md _ s G TI Ht _ gc p g old); congruence || lia).
    rewrite E in Hxc. congruence.
Qed.

(** The first key of the page [maintain_parent] comes from. *)
Lemma first_key_at p g l :
  G !! p = Some g → lo g = Some l → p = q ∨ ht g ≠ O → ∃ y, level (ht g) p = Some y ∧ keys y !! O = Some (sub_key l).
Proof using All.
  intros HGp Hl Hp. destruct (decide (p = q)) as [->|Hne].
  - exists x'. rewrite level_q. split; [done|]. assert (l = old) as -> by congruence. rewrite sub_key_old.
    unfold live_keys in Hf. by apply lookup_take_Some in Hf as [? _].
  - destruct Hp as [?|Hz]; [done|]. destruct (node_at p g HGp) as [y Hy]. pose proof (page_at p g y HGp Hy) as PO.
    exists (sub_node y). rewrite (level_low _ p g), Hy by (done || lia). split; [done|].
    assert (E : live_keys (sub_node y) !! O = Some (sub_key l)).
    { rewrite live_sub by apply PO. rewrite list_lookup_fmap. by rewrite (po_tight _ _ _ _ _ _ _ _ _ PO Ht Hz l Hl). }
    unfold live_keys at 1 in E. by apply lookup_take_Some in E as [? _].
Qed.

(** The state when the replacement has reached height [h]. *)
Definition stage (h : nat) (t : IxState) : Prop :=
  file_hdr t = file_hdr s ∧ next_page t = next_page s ∧ (∀ p, nodes t !! p = level h p) ∧ pins_ok t.

Lemma maintain_parent_run fuel p g gr t :
  G !! root_page (file_hdr s) = Some gr → G !! p = Some g → p = q ∨ ht g ≠ O → within g old →
  (ht gr - ht g < fuel)%nat → stage (ht g) t →
  ∃ t', maintain_parent fuel p t = (Ok tt, t') ∧ stage (ht gr) t'.
Proof using All.
  intros HGr. revert p g t. induction fuel as [|fuel IH]; intros p g t HGp Hpq Hw Hfuel (S1 & S2 & S3 & S4); [lia|].
  destruct (ti_root _ _ _ _ _ _ TI) as (gr' & xr & HGr' & Hxr & Hpr & _ & _ & Hmax).
  assert (gr' = gr) as -> by congruence. clear HGr'.
  destruct (decide (p = root_page (file_hdr s))) as [->|Hne].
  { assert (g = gr) as -> by congruence. destruct (level_frame (ht gr) _ _ Hxr) as (y & Hy & Hpy & _).
    rewrite <- S3 in Hy. cbn [maintain_parent]. mstep (read_node_run _ parent t y Hy). rewrite Hpy, Hpr. exists t. by split. }
  destruct (parent_at fh ok md _ s G TI Ht p g HGp Hne) as (pp & gp & yp & i & r & l & xp & HGpp & Hhp & Hyp & Hr & Hrp & Hl & Hlg & _ & Hxp & Hpar).
  destruct (level_frame (ht g) _ _ Hxp) as (y & Hy & Hpy & _). destruct (first_key_at p g l HGp Hlg Hpq) as (y0 & Hy0 & Hk0).
  assert (y0 = y) as -> by congruence. rewrite <- S3 in Hy.
  destruct (ti_page _ _ _ _ _ _ TI pp gp HGpp) as [Hpp _]. pose proof (page_at pp gp yp HGpp Hyp) as PO.
  pose proof (po_node _ _ _ _ _ _ _ _ _ PO) as Hn. pose proof (live_ok fh ok yp i l Hn Hl) as Hlok.
  assert (Hyp' : nodes t !! pp = Some yp) by (rewrite S3, (level_high _ pp gp) by (done || lia); done).
  assert (Hki : keys yp !! i = Some l) by (unfold live_keys in Hl; by apply lookup_take_Some in Hl as [? _]).
  assert (Hcl : col_len (file_hdr t) = col_len fh) by (rewrite S1; apply (ti_hdr _ _ _ _ _ _ TI)).
  pose proof (maintain_parent_step fh ok t p y pp yp i r l (sub_key l) fuel S4 Hcl Hy ltac:(congruence) ltac:(unfold IX_NO_PAGE; lia)
    Hyp' Hn Hr Hrp ltac:(intros j r' Hj Ej; apply (kid_inj fh ok md _ _ _ _ _ _ i j r r' Ht PO ltac:(lia) Hr Hj); congruence)
    Hki Hk0 (Hlen l Hlok) (Hlen _ (sub_ok l Hlok))) as Hstep.
  destruct (decide (l = sub_key l)) as [Hz|Hz]; destruct Hstep as (t' & Hrun & (M1 & M2 & M3 & M4)).
  - exists t'. split; [done|]. split_and!; try congruence. intros p'. rewrite M3, S3.
    apply (level_stop p g); try done; [|by apply (Hmax p)]. intros E. assert (l = old) as -> by congruence.
    by rewrite sub_key_old in Hz.
  - assert (l = old) as -> by (destruct (decide (l = old)); [done|]; destruct Hz; by rewrite sub_key_ne).
    rewrite sub_key_old in M3. rewrite Hrun. apply (IH pp gp); [done|right; lia| | |].
    + apply (within_parent fh ok md _ _ _ _ _ _ old i r g PO ltac:(lia) Hold Hr); [congruence| |done].
      by apply (po_bounds _ _ _ _ _ _ _ _ _ (page_at p g xp HGp Hxp)).
    + destruct (Hmax _ _ HGpp) as [? _]. lia.
    + split_and!; try congruence. intros p'. rewrite Hhp, <- (level_step p g pp gp yp i xp) by done. rewrite M3.
      destruct (decide (p' = pp)) as [->|Hnp]; [by rewrite lookup_insert_eq|]. by rewrite lookup_insert_ne, S3.
Qed.

End Upwards.

Context (ns' : gmap Z IxNode) (H : nat) (Hlev : ∀ p, ns' !! p = level H p) (Htop : ∀ p g, G !! p = Some g → (ht g ≤ H)%nat).
Abbreviation G' := (sub_info <$> G).
Abbreviation page_ok' := (page_ok fh ok (MkMode true false) ns' G' (λ _, False)).

Lemma ghost_sub p g : G !! p = Some g → G' !! p = Some (sub_info g).
Proof. intros E. by rewrite lookup_fmap, E. Qed.

Lemma bounds_sub g : bounds_ok ok g → bounds_ok ok (sub_info g).
Proof using Hn' Hf.
  intros [B1 B2]. split; simpl.
  - intros l (l0 & E & ->)%fmap_Some. apply sub_ok, B1, E.
  - intros u (u0 & E & ->)%fmap_Some. apply sub_ok, B2, E.
Qed.

Lemma next_sub g y y' : ht g = O → next_ok G g y → next_leaf y' = next_leaf y → next_ok G' (sub_info g) y'.
Proof.
  intros Hh Hno E. unfold next_ok in *. simpl. rewrite E. destruct (hi g) as [u|]; simpl; [|done].
  destruct Hno as (gn & HGn & Hhn & Hln). exists (sub_info gn). split; [by apply ghost_sub|]. split; [done|]. simpl. by rewrite Hln.
Qed.

Lemma child_sub p g y i r :
  node_ok fh ok y → child_ok fh (tight md) (nodes s) G p g y i r → child_ok fh true ns' G' p (sub_info g) (sub_node y) i r.
Proof using All.
  intros Hy (gc & xc & HGc & Hxc & Hp & Hh & Hl & Hhi). exists (sub_info gc).
  destruct (level_frame H _ _ Hxc) as (xc' & Hxc' & Hp' & _). exists xc'. rewrite Hlev.
  unfold child_lo, child_hi in *. rewrite Ht in Hl. simpl in Hl |- *. rewrite live_sub, !list_lookup_fmap by done.
  split_and!; try done; [by apply ghost_sub|congruence|by rewrite Hl|]. rewrite Hhi. by destruct (live_keys y !! S i).
Qed.

Lemma upper_sub g k : ok k → bounds_ok ok g → within g k → ∀ u, hi (sub_info g) = Some u → cmp k u < 0.
Proof using KO Hle Hn' Hf. intros Hk [_ B] [_ W] u (u0 & E & ->)%fmap_Some. apply lt_sub; auto. Qed.

Lemma inner_within p g y :
  G !! p = Some g → nodes s !! p = Some y → ht g ≠ O → Forall (within (sub_info g)) (sub_key <$> live_keys y).
Proof using All.
  intros HGp Hy Hh. pose proof (page_at p g y HGp Hy) as PO. pose proof (po_node _ _ _ _ _ _ _ _ _ PO) as Hn.
  pose proof (po_bounds _ _ _ _ _ _ _ _ _ PO) as B. apply Forall_lookup. intros i k' Hk'.
  apply list_lookup_fmap_Some in Hk' as (k & -> & Hk).
  pose proof (Forall_lookup_1 _ _ _ _ (po_within _ _ _ _ _ _ _ _ _ PO) Hk) as W.
  pose proof (live_ok fh ok y i k Hn Hk) as Hok. split.
  - intros l' (l & El & ->)%fmap_Some. destruct (decide (l = old)) as [->|Hne].
    + pose proof (po_tight _ _ _ _ _ _ _ _ _ PO Ht Hh old El) as H0. rewrite sub_key_old.
      destruct i as [|i]; [assert (k = old) as -> by congruence; rewrite sub_key_old, (cmp_refl (ok := ok)); [done|apply f_ok]|].
      assert (Hs : StronglySorted (λ a b, cmp a b < 0) (sub_key <$> live_keys y)).
      { apply sorted_sub; [apply (no_keys _ _ _ Hn)|apply (no_sorted _ _ _ Hn)|].
        intros j u Hj Hu. by apply (inner_old p g y j HGp Hy Hh Hj). }
      assert (cmp f (sub_key k) < 0); [|lia]. rewrite <- (sub_key_old old f) at 1.
      apply (sorted_lookup (λ a b, cmp a b < 0) (sub_key <$> live_keys y) O (S i)); [done| | |lia];
        rewrite list_lookup_fmap; [by rewrite H0|by rewrite Hk].
    + rewrite (sub_key_ne old f l) by done. apply (ko_trans l k); [by apply (proj1 B)|done|by apply sub_ok|by apply (proj1 W)|by apply sub_ge].
  - intros u Hu. destruct (decide (k = old)) as [->|Hne].
    + rewrite sub_key_old. apply (upper_sub g f); [apply f_ok|done| |done]. by apply (inner_old p g y i HGp Hy Hh Hk).
    + rewrite (sub_key_ne old f k) by done. by apply (upper_sub g k).
Qed.

Lemma inner_page p g y :
  G !! p = Some g → nodes s !! p = Some y → ht g ≠ O → page_ok' p (sub_info g) (sub_node y).
Proof using All.
  intros HGp Hy Hh. pose proof (page_at p g y HGp Hy) as PO. pose proof (po_node _ _ _ _ _ _ _ _ _ PO) as Hn.
  split; try done.
  - split.
    + rewrite length_sub by done. apply (no_num _ _ _ Hn).
    + rewrite length_sub by done. apply (no_rids _ _ _ Hn).
    + rewrite live_sub by done. apply Forall_fmap, (Forall_impl _ _ _ (no_keys _ _ _ Hn)). intros k. apply sub_ok.
    + rewrite live_sub by done. apply sorted_sub; [apply Hn|apply Hn|]. intros i u Hi Hu.
      by apply (inner_old p g y i HGp Hy Hh Hi).
  - rewrite length_sub by done. apply (po_len _ _ _ _ _ _ _ _ _ PO).
  - destruct (po_room _ _ _ _ _ _ _ _ _ PO) as [?|[]]. by left.
  - apply bounds_sub, PO.
  - rewrite live_sub by done. by apply (inner_within p).
  - apply PO.
  - intros _. apply PO, Hh.
  - intros _ i r Hr. apply child_sub; [done|]. by apply (po_child _ _ _ _ _ _ _ _ _ PO).
  - intros _ _ l' (l & El & ->)%fmap_Some. rewrite live_sub, list_lookup_fmap by done.
    by rewrite (po_tight _ _ _ _ _ _ _ _ _ PO Ht Hh l El).
Qed.

Lemma removed_leaf_page : page_ok' q (sub_info gq) x'.
Proof using All.
  pose proof (page_at q gq x HG Hx) as PO. pose proof (po_bounds _ _ _ _ _ _ _ _ _ PO) as B. split; simpl; try done.
  - rewrite Hlen'. apply PO.
  - destruct (po_room _ _ _ _ _ _ _ _ _ PO) as [?|[]]. left. lia.
  - by apply bounds_sub.
  - apply Forall_lookup. intros i k Hk. pose proof (live_ok fh ok x' i k Hn' Hk) as Hok.
    assert (W : within gq k).
    { pose proof (po_within _ _ _ _ _ _ _ _ _ PO) as W. rewrite Forall_forall in W. apply W, Hsub. by eapply list_elem_of_lookup_2. }
    split; [|by apply (upper_sub gq k)]. intros l' (l & El & ->)%fmap_Some. rewrite (Hlo l El), sub_key_old.
    apply (live_le fh ok x' O i); [done|done|done|lia].
  - rewrite Hleaf'. apply PO.
  - intros _. by apply (next_sub gq x); [|apply PO|].
Qed.

Lemma other_leaf_page p g y :
  G !! p = Some g → nodes s !! p = Some y → ht g = O → p ≠ q → page_ok' p (sub_info g) y.
Proof using All.
  intros HGp Hy Hh Hne. pose proof (page_at p g y HGp Hy) as PO. pose proof (po_bounds _ _ _ _ _ _ _ _ _ PO) as B.
  split; simpl; try done; try apply PO.
  - by apply bounds_sub.
  - apply Forall_lookup. intros i k Hi. pose proof (live_ok fh ok y i k (po_node _ _ _ _ _ _ _ _ _ PO) Hi) as Hk.
    pose proof (Forall_lookup_1 _ _ _ _ (po_within _ _ _ _ _ _ _ _ _ PO) Hi) as W.
    split; [|by apply (upper_sub g k)]. intros l' (l & El & ->)%fmap_Some.
    destruct (decide (l = old)) as [->|Hl]; [by destruct Hne; apply (Hat p g)|]. rewrite sub_key_ne by done. by apply W.
  - intros _. by apply (next_sub g y); [|apply PO|].
Qed.

Lemma level_page p g y :
  G !! p = Some g → nodes s !! p = Some y → ∃ y', level H p = Some y' ∧ page_ok' p (sub_info g) y'.
Proof using All.
  intros HGp Hy. destruct (decide (p = q)) as [->|Hne].
  - exists x'. rewrite level_q. split; [done|]. assert (g = gq) as -> by congruence. apply removed_leaf_page.
  - destruct (decide (ht g = O)) as [Hh|Hh].
    + exists y. rewrite (level_leaf H p g) by done. split; [done|]. by apply other_leaf_page.
    + exists (sub_node y). rewrite (level_low H p g HGp Hh (Htop _ _ HGp)), Hy. split; [done|]. by apply inner_page.
Qed.

Context (s' : IxState) (Eh : file_hdr s' = file_hdr s) (En : nodes s' = ns') (Enext : next_page s' = next_page s).

(** The tree with the separator replaced satisfies the invariant; only what is
    left in the slots past the end is no longer under control. *)
Lemma replaced_inv : tree_inv fh ok (MkMode true false) (λ _, False) s' G'.
Proof using All.
  destruct (TI) as [T1 T2 T3 T4 T5 T6]. split; rewrite ?Eh, ?En, ?Enext; try done.
  - destruct T3 as [y Hy]. destruct (level_frame H _ _ Hy) as (y' & Hy' & _). rewrite Hlev, Hy'. by eexists.
  - destruct T4 as (gr & xr & HGr & Hxr & Hp & L1 & L2 & Hmax). destruct (level_frame H _ _ Hxr) as (y' & Hy' & Hp' & _).
    exists (sub_info gr), y'. rewrite Hlev. split_and!; [by apply ghost_sub|done|congruence|simpl; by rewrite L1|simpl; by rewrite L2|].
    intros p g'. rewrite lookup_fmap. intros (g & E & ->)%fmap_Some. apply (Hmax p g E).
  - intros p g'. rewrite lookup_fmap. intros (g & E & ->)%fmap_Some. destruct (T5 p g E) as (Hlt & y & Hy & _).
    split; [done|]. rewrite Hlev. by apply (level_page p g y).
  - intros p g'. rewrite lookup_fmap. intros (g & E & ->)%fmap_Some Hne.
    destruct (T6 p g E Hne) as (q1 & g1 & x1 & i & r & HG1 & Hh1 & Hx1 & Hr & Hp).
    assert (q1 ≠ q) by (intros ->; assert (g1 = gq) as -> by congruence; lia).
    destruct (level_frame H _ _ Hx1) as (y' & Hy' & _ & _ & _ & Hrest). destruct (Hrest ltac:(done)) as [_ Hlr].
    exists q1, (sub_info g1), y', i, r. rewrite Hlev, Hlr. split_and!; try done. by apply ghost_sub.
Qed.

(** Its bindings are those of the tree before, but for the leaf's. *)
Lemma replaced_has k k' v :
  ok k → ok k' → is_Some (assoc fh k (entries x)) →
  (∀ k', ok k' → assoc fh k' (entries x') = if cmp k' k =? 0 then None else assoc fh k' (entries x)) →
  has fh s' G' k' v ↔ has fh s G k' v ∧ cmp k' k ≠ 0.
Proof using All.
  intros Hk Hk' [r Hr] Has. pose proof (assoc_within fh ok md _ s G TI k Hk q gq x r HG Hx Hr) as Wk.
  pose proof (po_bounds _ _ _ _ _ _ _ _ _ (page_at q gq x HG Hx)) as B. unfold has. rewrite En. split.
  - intros (p & g' & y' & Hg & Hh & Hy' & Ha). rewrite lookup_fmap in Hg. apply fmap_Some in Hg as (g & HGp & ->).
    rewrite Hlev in Hy'. destruct (decide (p = q)) as [->|Hne].
    + rewrite level_q in Hy'. injection Hy' as <-. rewrite Has in Ha by done. destruct (Z.eqb_spec (cmp k' k) 0); [done|].
      split; [by exists q, gq, x|done].
    + rewrite (level_leaf H p g HGp Hh Hne) in Hy'. split; [by exists p, g, y'|]. intros Hz. apply Hne.
      apply (same_height fh ok md _ s G TI k' p g q gq Hk' HGp HG); [simpl in Hh; congruence| |by apply (within_cong fh ok gq k k')].
      by apply (assoc_within fh ok md _ s G TI k' Hk' p g y' v).
  - intros ((p & g & y & HGp & Hh & Hy & Ha) & Hne). destruct (decide (p = q)) as [->|Hnq].
    + exists q, (sub_info gq), x'. rewrite Hlev, level_q, Has by done. split_and!; [by apply ghost_sub|done|done|].
      rewrite (proj2 (Z.eqb_neq _ _)) by done. congruence.
    + exists p, (sub_info g), y. rewrite Hlev, (level_leaf H p g) by done. split_and!; try done. by apply ghost_sub.
Qed.

End Replace.

(** ** delete_entry *)

Lemma Remove_hdr fh h k : key_hdr fh h → Remove h k = Remove fh k.
Proof. intros (E1 & E2 & _). destruct h, fh; simpl in *. by subst. Qed.

Lemma pins_nodes s m : pins_ok s → pins_ok (set_nodes m s).
Proof. intros Hs p. apply (Hs p). Qed.

Lemma pins_unpin s p b r s' : pins_ok s → UnpinPage p b s = (r, s') → pins_ok s'.
Proof.
  intros Hs. unfold UnpinPage. destruct (Z.ltb_spec 0 (pin_count s p)); [|by intros [= _ <-]].
  intros [= _ <-]. apply pins_set; [done|]. simpl. lia.
Qed.

Lemma FetchNode_pins p s r s' : pins_ok s → FetchNode p s = (r, s') → pins_ok s'.
Proof.
  intros Hs. unfold FetchNode. simpl. destruct (nodes s !! p) as [x|].
  - intros [= _ <-]. by apply pins_fetched.
  - by destruct (p =? _); intros [= _ <-].
Qed.

Lemma on_node_pins {A} p (m : IxFileHdr → M IxNode A) s r s' : pins_ok s → on_node p m s = (r, s') → pins_ok s'.
Proof.
  intros Hs. unfold on_node. destruct (nodes s !! p) as [x|]; [|by intros [= _ <-]].
  destruct (m (file_hdr s) x) as [a x']. intros [= _ <-]. by apply pins_nodes.
Qed.

Lemma FindLeafPage_pins fuel k s r s' : pins_ok s → FindLeafPage fuel k s = (r, s') → pins_ok s'.
Proof.
  assert (Hloop : ∀ p s r s', pins_ok s → FindLeafPage_loop fuel k p s = (r, s') → pins_ok s').
  { clear s r s'. induction fuel as [|fuel IH]; intros p s r s' Hs; simpl; [by intros [= _ <-]|]. unfold st_bind.
    destruct (read_node p is_leaf s) as [o1 s1] eqn:E1. pose proof (on_node_pins _ _ _ _ _ Hs E1) as H1.
    destruct o1 as [b| |]; try by intros [= _ <-]. destruct b; simpl; [by intros [= _ <-]|].
    destruct (on_node p _ s1) as [o2 s2] eqn:E2. pose proof (on_node_pins _ _ _ _ _ H1 E2) as H2.
    destruct o2 as [c| |]; try by intros [= _ <-].
    destruct (FetchNode c s2) as [o3 s3] eqn:E3. pose proof (FetchNode_pins _ _ _ _ H2 E3) as H3.
    destruct o3 as [d| |]; try by intros [= _ <-]. by apply IH. }
  intros Hs. unfold FindLeafPage, getRootPageNo, st_bind, gets.
  destruct (FetchNode (root_page (file_hdr s)) s) as [o1 s1] eqn:E1. pose proof (FetchNode_pins _ _ _ _ Hs E1) as H1.
  destruct o1 as [c| |]; try by intros [= _ <-]. by apply Hloop.
Qed.

Section Delete.
Context (fh : IxFileHdr) (ok : key → Prop) {KO : KeyOrder (compare fh) ok}.
Context (Hlen : ∀ k, ok k → length k = Z.to_nat (col_len fh)).
Implicit Types (x : IxNode) (k : key) (s : IxState) (G : gmap Z info) (g : info) (p q : Z).
Abbreviation cmp := (compare fh).
Abbreviation tree_inv c := (tree_inv fh ok (MkMode true c) (λ _, False)).

(** The leaf that holds [k] keeps enough entries without it: half of the slots, or
    one when it is the root. *)
Definition enough s p x : Prop :=
  if decide (p = root_page (file_hdr s)) then 2 ≤ num_key x else GetMinSize (file_hdr s) < num_key x.
Definition no_underflow s G k : Prop :=
  ∀ p g x, G !! p = Some g → ht g = O → nodes s !! p = Some x → is_Some (assoc fh k (entries x)) → enough s p x.

Lemma min_size s c G : tree_inv c s G → 1 ≤ GetMinSize (file_hdr s).
Proof.
  intros TI. unfold GetMinSize, GetMaxSize. destruct (ti_hdr _ _ _ _ _ _ TI) as (_ & _ & ->).
  pose proof (ti_order _ _ _ _ _ _ TI). rewrite wrap32_id by (unfold is_int, int_min; lia).
  rewrite Z.quot_div_nonneg by lia. apply Z.div_le_lower_bound; lia.
Qed.

(** The page that runs [CoalesceOrRedistribute] is the root exactly when it has no
    parent. *)
Lemma IsRootPage_iff c s G p g x :
  tree_inv c s G → G !! p = Some g → nodes s !! p = Some x → IsRootPage x = bool_decide (p = root_page (file_hdr s)).
Proof using KO.
  intros TI HG Hx. unfold IsRootPage. destruct (bool_decide_reflect (p = root_page (file_hdr s))) as [->|Hne].
  - destruct (ti_root _ _ _ _ _ _ TI) as (gr & xr & _ & Hxr & Hp & _). assert (x = xr) as -> by congruence. by rewrite Hp.
  - destruct (parent_at fh ok _ _ s G TI eq_refl p g HG Hne) as (q & gq & y & i & r & l & xp & HGq & _ & _ & _ & _ & _ & _ & _ & Hxp & Hp).
    assert (x = xp) as -> by congruence. rewrite Hp. destruct (ti_page _ _ _ _ _ _ TI q gq HGq) as [Hlt _].
    apply Z.eqb_neq. unfold INVALID_PAGE_ID. lia.
Qed.

Section Hit.
Context (c : bool) (s : IxState) (G : gmap Z info) (TI : tree_inv c s G).
Context (q : Z) (gq : info) (x x' : IxNode) (f : key).
Context (HG : G !! q = Some gq) (Hx : nodes s !! q = Some x) (Hq : ht gq = O).
Context (Hn' : node_ok fh ok x') (Hlen' : length (keys x') = length (keys x)) (Hnum' : num_key x' = num_key x - 1).
Context (Hsub : ∀ c, c ∈ live_keys x' → c ∈ live_keys x).
Context (Hleaf' : is_leaf x' = is_leaf x) (Hpar' : parent x' = parent x) (Hnext' : next_leaf x' = next_leaf x).
Context (Hf : live_keys x' !! O = Some f).
Context (t : IxState) (Et : t = set_nodes (<[q := x']> (nodes s)) t) (Eh : file_hdr t = file_hdr s)
  (En : next_page t = next_page s) (Hpt : pins_ok t).
Context (gr : info) (HGr : G !! root_page (file_hdr s) = Some gr).

(** What the leaf's removal and the walk to the root leave behind, for some
    separator [old] that was replaced. *)
Definition settled old t' : Prop :=
  ok old ∧ cmp old f ≤ 0 ∧ (∀ l, lo gq = Some l → l = old) ∧
  (∀ p g, G !! p = Some g → lo g = Some old → within fh g f ∧ (ht g = O → p = q)) ∧
  stage s G q x' old f (ht gr) t'.

Lemma t_stage old : stage s G q x' old f 0 t.
Proof using Et Eh En Hpt.
  split_and!; try done. intros p. rewrite level_0, Et. simpl. destruct (decide (p = q)) as [->|Hne].
  - by rewrite lookup_insert_eq.
  - by rewrite lookup_insert_ne.
Qed.

Lemma f_within : ok f ∧ within fh gq f.
Proof using TI HG Hx Hn' Hsub Hf.
  split; [by apply (live_ok fh ok x' O)|]. pose proof (po_within _ _ _ _ _ _ _ _ _ (page_at fh ok _ _ s G TI q gq x HG Hx)) as W.
  rewrite Forall_forall in W. apply W, Hsub. by eapply list_elem_of_lookup_2.
Qed.

Lemma root_settled : q = root_page (file_hdr s) → settled f t.
Proof using All.
  intros Hr. destruct f_within as [Hok _]. destruct (ti_root _ _ _ _ _ _ TI) as (gr' & _ & HGr' & _ & _ & L1 & _ & Hmax).
  assert (gr' = gr) as -> by congruence. assert (gq = gr) as E by (subst q; congruence).
  assert (Hall : ∀ p g, G !! p = Some g → g = gr).
  { intros p g Hp. destruct (Hmax p g Hp) as [Hle Heq]. rewrite Heq in Hp by (rewrite <- E in *; lia). congruence. }
  split_and!; [done|by rewrite (cmp_refl (ok := ok))|by rewrite E, L1| |].
  - intros p g Hp Hl. rewrite (Hall p g Hp) in Hl. congruence.
  - rewrite <- E, Hq. apply t_stage.
Qed.

Lemma leaf_settled fuel : q ≠ root_page (file_hdr s) → (ht gr < fuel)%nat →
  ∃ old t', maintain_parent fuel q t = (Ok tt, t') ∧ settled old t'.
Proof using All.
  intros Hne Hfuel. destruct f_within as [Hok Hw].
  destruct (parent_at fh ok _ _ s G TI eq_refl q gq HG Hne) as (pp & gp & y & i & r & l & xp & _ & _ & _ & _ & _ & _ & Hl & _).
  destruct (lower_within fh ok _ _ s G TI eq_refl q gq l HG Hl) as [Hlok Hlw].
  assert (Hat : ∀ p g, G !! p = Some g → lo g = Some l → within fh g f ∧ (ht g = O → p = q)).
  { intros p g Hp Hlo. split; [by apply (first_leaf_within fh ok _ _ s G TI eq_refl q gq l f HG Hq Hl Hok Hw p g)|].
    intros Hz. apply (lower_unique fh ok _ _ s G TI eq_refl p g q gq l); congruence. }
  assert (Hle : cmp l f ≤ 0) by (by apply (proj1 Hw)).
  assert (Hlo : ∀ l', lo gq = Some l' → l' = l) by (intros; congruence).
  exists l. destruct (maintain_parent_run fh ok _ s G TI eq_refl q gq x x' l f HG Hx Hq Hn' Hlen' ltac:(lia) Hsub Hleaf' Hpar' Hnext'
    Hf Hlok Hle Hlo Hat Hlen Hl Hlw fuel q gq gr t HGr HG ltac:(by left) Hlw ltac:(lia)) as (t' & Hrun & Hst).
  - rewrite Hq. apply t_stage.
  - exists t'. by split_and!.
Qed.

Lemma coalesce_run fuel : enough s q x → (ht gr < fuel)%nat →
  ∃ old t', CoalesceOrRedistribute fuel q t = (Ok false, t') ∧ settled old t'.
Proof using All.
  intros Hen Hfuel. destruct fuel as [|fuel]; [lia|].
  assert (Hxt : nodes t !! q = Some x') by (rewrite Et; simpl; apply lookup_insert_eq).
  pose proof (page_at fh ok _ _ s G TI q gq x HG Hx) as PO.
  cbn [CoalesceOrRedistribute]. mstep (read_node_run _ IsRootPage t x' Hxt).
  assert (IsRootPage x' = IsRootPage x) as -> by (unfold IsRootPage; by rewrite Hpar').
  rewrite (IsRootPage_iff c s G q gq x TI HG Hx). unfold enough in Hen.
  destruct (decide (q = root_page (file_hdr s))) as [Hr|Hr].
  - rewrite bool_decide_eq_true_2 by done. exists f, t. split; [|by apply root_settled].
    unfold AdjustRoot. mstep (read_node_run _ is_leaf t x' Hxt). mstep (read_node_run _ num_key t x' Hxt).
    rewrite Hleaf', (po_leaf _ _ _ _ _ _ _ _ _ PO), Hq. simpl. by rewrite (proj2 (Z.eqb_neq _ _)) by lia.
  - rewrite bool_decide_eq_false_2 by done. mstep (read_node_run _ num_key t x' Hxt). unfold st_bind at 1, gets.
    rewrite Eh, (proj2 (Z.leb_le _ _)) by lia. destruct (leaf_settled (S fuel) Hr Hfuel) as (old & t' & Hrun & Hst).
    exists old, t'. split; [|done]. by mstep Hrun.
Qed.

End Hit.

(** A bound key. *)
Lemma delete_hit c s G k fuel :
  tree_inv c s G → pins_ok s → ok k → no_underflow s G k → (∃ v, has fh s G k v) →
  (∀ g, G !! root_page (file_hdr s) = Some g → (ht g < fuel)%nat) →
  ∃ s' G', delete_entry fuel k s = (Ok true, s') ∧ tree_inv false s' G' ∧ pins_ok s' ∧ file_hdr s' = file_hdr s ∧
    (∃ old f, G' = sub_info old f <$> G) ∧ (∀ p, links <$> nodes s' !! p = links <$> nodes s !! p) ∧
    ∀ k' v, ok k' → has fh s' G' k' v ↔ has fh s G k' v ∧ cmp k' k ≠ 0.
Proof using All.
  intros TI Hps Hk Hnu [v0 Hv0] Hfuel.
  destruct (FindLeafPage_run fh ok _ _ s G TI k Hk fuel Hfuel) as (q & gq & x & m & Hfl & HG & Hx & Hq & Honly & _).
  pose proof (FindLeafPage_pins _ _ _ _ _ Hps Hfl) as Hpm.
  apply (only_leaf_has fh ok _ _ s G TI k Hk q gq x v0 HG Hx Hq Honly) in Hv0.
  pose proof (page_at fh ok _ _ s G TI q gq x HG Hx) as PO. pose proof (po_node _ _ _ _ _ _ _ _ _ PO) as Hn.
  assert (Hroom : num_key x < Z.of_nat (length (keys x))).
  { rewrite (po_len _ _ _ _ _ _ _ _ _ PO). destruct (po_room _ _ _ _ _ _ _ _ _ PO) as [?|[]]. lia. }
  pose proof (Hnu q gq x HG Hq Hx ltac:(by eexists)) as Hen.
  destruct (Remove_hit fh ok x k v0 Hn Hk Hroom Hv0) as (x' & Hrm & Hn' & Hnum' & Hlen' & Hsub & Has & Hleaf' & Hpar' & Hprev' & Hnext').
  assert (Hpos : 2 ≤ num_key x).
  { unfold enough in Hen. pose proof (min_size s c G TI). destruct (decide _); lia. }
  destruct (lookup_lt_is_Some_2 (live_keys x') O) as [f Hf]; [rewrite (length_live fh ok x' Hn'); lia|].
  destruct (ti_root _ _ _ _ _ _ TI) as (gr & _ & HGr & _ & _ & _ & _ & Hmax).
  unfold delete_entry. mstep Hfl. mstep (read_node_run q num_key (set_pinmap m s) x Hx).
  set (t := set_nodes (<[q := x']> (nodes s)) (set_pinmap m s)).
  assert (Hon : on_node q (λ h, Remove h k) (set_pinmap m s) = (Ok (num_key x - 1), t)).
  { apply (on_node_run q (λ h, Remove h k) (set_pinmap m s) x); [done|]. cbn [file_hdr set_pinmap]. by rewrite (Remove_hdr fh _ k (ti_hdr _ _ _ _ _ _ TI)). }
  mstep Hon. rewrite (proj2 (Z.eqb_neq _ _)) by lia.
  destruct (coalesce_run c s G TI q gq x x' f HG Hx Hq Hn' Hlen' Hnum' Hsub Hleaf' Hpar' Hnext' Hf t eq_refl eq_refl eq_refl
    (pins_nodes _ _ Hpm) gr HGr fuel Hen (Hfuel gr HGr)) as (old & t' & Hrun & (O1 & O2 & O3 & O4 & S1 & S2 & S3 & S4)).
  mstep Hrun. destruct (UnpinPage_run q true t') as (b & m' & Hu). mstep Hu.
  pose proof (pins_unpin _ _ _ _ _ S4 Hu) as Hpu. exists (set_pinmap m' t'), (sub_info old f <$> G).
  assert (Htop : ∀ p g, G !! p = Some g → (ht g ≤ ht gr)%nat) by (intros p g Hp; by apply (Hmax p g)).
  split; [done|]. split_and!; try done.
  - apply (replaced_inv fh ok _ s G TI eq_refl q gq x x' old f HG Hx Hq Hn' Hlen' ltac:(lia) Hsub Hleaf' Hpar' Hnext' Hf O1 O2 O3 O4
      (nodes t') (ht gr) S3 Htop (set_pinmap m' t') S1 eq_refl S2).
  - by exists old, f.
  - intros p. simpl. rewrite S3. by apply (level_links s G q x x' old f Hx Hnext').
  - intros k' v Hk'. apply (replaced_has fh ok _ s G TI eq_refl q gq x x' old f HG Hx Hq Hn' Hlen' ltac:(lia) Hsub Hleaf' Hpar' Hnext' Hf
      O1 O2 O3 O4 (nodes t') (ht gr) S3 Htop (set_pinmap m' t') S1 eq_refl S2 k k' v Hk Hk'); [by eexists|done].
Qed.

(** An absent key. *)
Lemma delete_miss s G k fuel :
  tree_inv true s G → pins_ok s → ok k → ¬ (∃ v, has fh s G k v) →
  (∀ g, G !! root_page (file_hdr s) = Some g → (ht g < fuel)%nat) →
  ∃ m, delete_entry fuel k s = (Ok false, set_pinmap m s) ∧ pins_ok (set_pinmap m s).
Proof using KO.
  intros TI Hps Hk Hno Hfuel.
  destruct (FindLeafPage_run fh ok _ _ s G TI k Hk fuel Hfuel) as (q & gq & x & m & Hfl & HG & Hx & Hq & Honly & _ & Hbe).
  pose proof (FindLeafPage_pins _ _ _ _ _ Hps Hfl) as Hpm. pose proof (page_at fh ok _ _ s G TI q gq x HG Hx) as PO.
  assert (Ha : assoc fh k (entries x) = None).
  { destruct (assoc fh k (entries x)) as [v|] eqn:E; [|done]. destruct Hno. exists v. by exists q, gq, x. }
  assert (Hroom : num_key x < Z.of_nat (length (keys x))).
  { rewrite (po_len _ _ _ _ _ _ _ _ _ PO). destruct (po_room _ _ _ _ _ _ _ _ _ PO) as [?|[]]. lia. }
  pose proof (page_slot_clear fh ok (MkMode true true) _ _ _ _ _ x k eq_refl PO Hk Hbe) as Hcl.
  unfold delete_entry. mstep Hfl. mstep (read_node_run q num_key (set_pinmap m s) x Hx).
  assert (Hon : on_node q (λ h, Remove h k) (set_pinmap m s) = (Ok (num_key x), set_pinmap m s)).
  { apply (on_node_pure q (λ h, Remove h k) (set_pinmap m s) x); [done|]. cbn [file_hdr set_pinmap].
    rewrite (Remove_hdr fh _ k (ti_hdr _ _ _ _ _ _ TI)). apply (Remove_miss fh ok x k (po_node _ _ _ _ _ _ _ _ _ PO) Hk Hroom Hcl Ha). }
  mstep Hon. rewrite Z.eqb_refl. destruct (UnpinPage_run q false (set_pinmap m s)) as (b & m' & Hu). mstep Hu.
  exists m'. split; [done|]. by apply (pins_unpin _ _ _ _ _ Hpm Hu).
Qed.

Lemma has_cong c s G k k' v :
  tree_inv c s G → ok k → ok k' → cmp k' k = 0 → has fh s G k' v → has fh s G k v.
Proof using KO.
  intros TI Hk Hk' Hz (p & g & x & HG & Hh & Hx & Ha). exists p, g, x. split_and!; try done.
  rewrite <- (assoc_cong fh ok k' k (entries x) Hk' Hk); try done. apply (entries_ok fh ok).
  apply (po_node _ _ _ _ _ _ _ _ _ (page_at fh ok _ _ s G TI p g x HG Hx)).
Qed.

(** Deleting from the tree is deleting from the map it stands for: when the
    leaf of the key keeps enough entries, [delete_entry] returns; it answers
    whether the key was bound, takes away exactly that binding, and the tree
    invariant holds again with the key's separators replaced all the way up.  For
    a key that may be absent the slots past the end must be clean, which a
    deletion that finds its key leaves them not. *)
Theorem delete_entry_correct c s G k fuel :
  tree_inv c s G → pins_ok s → ok k → no_underflow s G k → (c = true ∨ ∃ v, has fh s G k v) →
  (∀ g, G !! root_page (file_hdr s) = Some g → (ht g < fuel)%nat) →
  ∃ b s' G', delete_entry fuel k s = (Ok b, s') ∧ tree_inv (c && negb b) s' G' ∧ pins_ok s' ∧
    file_hdr s' = file_hdr s ∧ (∀ p, ht <$> G' !! p = ht <$> G !! p) ∧ (b = true ↔ ∃ v, has fh s G k v) ∧
    ∀ k' v, ok k' → has fh s' G' k' v ↔ has fh s G k' v ∧ cmp k' k ≠ 0.
Proof using All.
  intros TI Hps Hk Hnu Hc Hfuel.
  destruct (FindLeafPage_run fh ok _ _ s G TI k Hk fuel Hfuel) as (q & gq & x & m & _ & HG & Hx & Hq & Honly & _).
  pose proof (λ v, only_leaf_has fh ok _ _ s G TI k Hk q gq x v HG Hx Hq Honly) as Hhas.
  destruct (assoc fh k (entries x)) as [v0|] eqn:Ea.
  - assert (Hv : ∃ v, has fh s G k v) by (exists v0; by apply Hhas).
    destruct (delete_hit c s G k fuel TI Hps Hk Hnu Hv Hfuel) as (s' & G' & H1 & H2 & H3 & H4 & (old & f & ->) & _ & H6).
    exists true, s', (sub_info old f <$> G). rewrite andb_false_r. split_and!; try done. intros p. rewrite lookup_fmap. by destruct (G !! p).
  - assert (Hno : ¬ ∃ v, has fh s G k v) by (intros [v Hv%Hhas]; done). destruct Hc as [->|?]; [|done].
    destruct (delete_miss s G k fuel TI Hps Hk Hno Hfuel) as (m' & Hrun & Hp').
    exists false, (set_pinmap m' s), G. split_and!; try done; [by apply tree_inv_pins|].
    intros k' v Hk'. split; [|by intros [? _]]. intros Hv. split; [done|]. intros Hz. apply Hno. exists v.
    by apply (has_cong true s G k k' v).
Qed.

End Delete.

(** ** A run

    Five keys in two leaves; deleting 30, the first key of the second leaf, moves
    its separator to 40. *)
Module IxDeleteRuns.
Import NodeRuns IxRuns.

Definition word4 (k : key) : Prop := nonzero k ∧ length k = 4%nat.

#[local] Instance word4_order : KeyOrder (compare hdr4) word4.
Proof. apply (key_order_sub _ nonzero); [by apply int_order|by intros k []]. Qed.

Lemma word4_dead b : dead hdr4 nonzero b → dead hdr4 word4 b.
Proof. intros Hd k [Hk _]. by apply Hd. Qed.

Definition pairs5 : list (key * Rid) := (λ z, (ik z, rid_of z)) <$> [10; 20; 30; 40; 50].
Definition ix5 : IxState := (insert_all 9 pairs5 ix0).2.

Lemma ix5_stands : ∃ G, stands_for hdr4 word4 pairs5 ix5 G.
Proof.
  destruct (build_run hdr4 word4 (word4_dead _ (zero_key_dead hdr4 4 eq_refl)) hdr4_layout zero_page IX_INIT_NUM_PAGES (ik 10)
    (rid_of 10) (tail pairs5) 9) as (s & G & Hrun & SF).
  - unfold zero_page, zeros. apply length_replicate.
  - reflexivity.
  - reflexivity.
  - reflexivity.
  - by vm_compute.
  - intros i _. by apply word4_dead, zero_page_dead.
  - by vm_compute.
  - repeat constructor; by vm_compute.
  - simpl. lia.
  - exists G. change (insert_all 9 pairs5 ix0 = (Ok tt, s)) in Hrun. unfold ix5. by rewrite Hrun.
Qed.

#[local] Opaque ix5.

(** The pages of the run, as one computation. *)
Definition keeps_enough (s : IxState) (k : key) : bool :=
  forallb (λ e : Z * IxNode, let '(p, x) := e in
    negb (is_leaf x && bool_decide (is_Some (assoc hdr4 k (entries x))))
    || if p =? root_page (file_hdr s) then 2 <=? num_key x else GetMinSize (file_hdr s) <? num_key x) (map_to_list (nodes s)).

Lemma keeps_enough_ok c s G k :
  tree_inv hdr4 word4 c (λ _, False) s G → keeps_enough s k = true → no_underflow hdr4 s G k.
Proof.
  intros TI Hb p g x HG Hh Hx Ha. unfold keeps_enough in Hb. rewrite forallb_forall in Hb.
  specialize (Hb (p, x)). rewrite <- list_elem_of_In, elem_of_map_to_list in Hb. specialize (Hb Hx). simpl in Hb.
  rewrite (po_leaf _ _ _ _ _ _ _ _ _ (page_at hdr4 word4 c _ s G TI p g x HG Hx)), Hh, (bool_decide_eq_true_2 _ Ha) in Hb.
  simpl in Hb. unfold enough. destruct (decide (p = root_page (file_hdr s))) as [->|Hne].
  - rewrite Z.eqb_refl in Hb. by apply Z.leb_le.
  - rewrite (proj2 (Z.eqb_neq _ _)) in Hb by done. by apply Z.ltb_lt.
Qed.

Lemma ix5_pins : pins_ok ix5.
Proof.
  assert (H : map_Forall (λ _ z, 0 ≤ z.1) (pins ix5)) by (apply (bool_decide_unpack _); by vm_compute).
  intros p. unfold pin_count, pin_state. destruct (pins ix5 !! p) as [z|] eqn:E; simpl; [by apply (H p)|done].
Qed.

Lemma delete_entry_correct_witness :
  ∃ s' G', delete_entry 9 (ik 30) ix5 = (Ok true, s') ∧ tree_inv hdr4 word4 (MkMode true false) (λ _, False) s' G' ∧
    ¬ (∃ v, has hdr4 s' G' (ik 30) v) ∧ has hdr4 s' G' (ik 40) (rid_of 40).
Proof.
  destruct ix5_stands as [G [S1 S2 S3 S4 S5]].
  assert (W : ∀ z, z ∈ [10; 20; 30; 40; 50] → word4 (ik z)) by (apply Forall_forall; repeat constructor; by vm_compute).
  assert (W3 : word4 (ik 30)) by (apply W; set_solver). assert (W4 : word4 (ik 40)) by (apply W; set_solver).
  assert (H30 : ∃ v, has hdr4 ix5 G (ik 30) v) by (exists (rid_of 30); by apply S4).
  destruct (delete_entry_correct hdr4 word4 ltac:(by intros k [_ ->]) true ix5 G (ik 30) 9 S1 ix5_pins W3
    (keeps_enough_ok strict ix5 G (ik 30) S1 ltac:(by vm_compute)) ltac:(by left)) as (b & s' & G' & H1 & H2 & _ & _ & _ & H6 & H7).
  - intros g Hg. specialize (S3 g Hg). unfold pairs5 in S3. rewrite length_fmap in S3. cbn [length] in S3. lia.
  - assert (b = true) as -> by exact (proj2 H6 H30). exists s', G'. split; [exact H1|]. clear H1. split; [exact H2|]. split.
    + intros [v [_ Hv]%(H7 _ _ W3)]. by apply Hv.
    + apply (H7 _ _ W4). split; [by apply S4|by vm_compute].
Defined.

(** The separator in the root after the run. *)
Lemma ix5_separators :
  let s := (delete_entry 9 (ik 30) ix5).2 in
  live_keys <$> nodes ix5 !! root_page (file_hdr ix5) = Some [ik 10; ik 30] ∧
  live_keys <$> nodes s !! root_page (file_hdr s) = Some [ik 10; ik 40].
Proof. by vm_compute. Qed.

End IxDeleteRuns.
