(* ===== verification/IxMerge.v ===== *)
(** Deletion from the B+ tree when a leaf runs short: [Redistribute] moves an entry
    between two neighbouring leaves, [Coalesce] joins them, and [AdjustRoot] takes
    away a root with one child.

    Both act on two leaves that are neighbours below one parent.  What changes in
    the tree is stated for such a pair: the separator between them moves, or it
    goes and the left leaf takes over the interval of the right one. *)
From S2P Require Import Prelude Config IxKey IxNode IxNodeSpec IxTree IxTreeSpec IxTreeSplit IxTreeInsert IxInsert IxFile IxBuild IxDelete.

Abbreviation loose := (MkMode true false).
Abbreviation no_full := (λ _ : Z, False).

(** The left link of a leaf names the leaf whose right link names it. *)
Definition prev_ok (s : IxState) (G : gmap Z info) : Prop :=
  ∀ p g x u, G !! p = Some g → ht g = O → hi g = Some u → nodes s !! p = Some x →
    ∃ y, nodes s !! next_leaf x = Some y ∧ prev_leaf y = p.

Lemma sorted_of_lookup {A} (R : A → A → Prop) l :
  (∀ i j a b, (i < j)%nat → l !! i = Some a → l !! j = Some b → R a b) → StronglySorted R l.
Proof.
  induction l as [|x l IH]; intros H; constructor.
  - apply IH. intros i j a b Hij Hi Hj. apply (H (S i) (S j)); [lia|done|done].
  - apply Forall_lookup. intros i a Hi. apply (H O (S i)); [lia|done|done].
Qed.

(** Two leaves bind a key together as their entries in one list do. *)
Lemma two_leaves fh ok `{KO : !KeyOrder (compare fh) ok} md full s G k l gl xl r gr xr v :
  tree_inv fh ok md full s G → ok k → l ≠ r → G !! l = Some gl → ht gl = O → nodes s !! l = Some xl →
  G !! r = Some gr → ht gr = O → nodes s !! r = Some xr →
  assoc fh k (entries xl) = Some v ∨ assoc fh k (entries xr) = Some v ↔ assoc fh k (entries xl ++ entries xr) = Some v.
Proof.
  intros TI Hk Nlr HGl Hl Hxl HGr Hr Hxr. rewrite assoc_app. split.
  - intros [->|Hv]; [done|]. destruct (assoc fh k (entries xl)) as [v'|] eqn:E; [|done]. destruct Nlr.
    apply (same_height fh ok _ _ s G TI k l gl r gr); [done|done|done|congruence| |].
    + by apply (assoc_within fh ok _ _ s G TI k Hk l gl xl v').
    + by apply (assoc_within fh ok _ _ s G TI k Hk r gr xr v).
  - destruct (assoc fh k (entries xl)); auto.
Qed.

Lemma prev_ok_keep s G s' G' :
  prev_ok s G → (∀ p, links <$> nodes s' !! p = links <$> nodes s !! p) →
  (∀ p g' u', G' !! p = Some g' → ht g' = O → hi g' = Some u' → ∃ g u, G !! p = Some g ∧ ht g = O ∧ hi g = Some u) →
  prev_ok s' G'.
Proof.
  intros Hp Hk HG p g' x' u' HGp Hh Hu Hx'. destruct (HG p g' u' HGp Hh Hu) as (g & u & HGg & Hhg & Hug).
  pose proof (Hk p) as E. rewrite Hx' in E. simpl in E. symmetry in E. apply fmap_Some in E as (x & Hx & [= _ En]).
  destruct (Hp p g x u HGg Hhg Hug Hx) as (y & Hy & Hpy). rewrite En. pose proof (Hk (next_leaf x)) as E. rewrite Hy in E. simpl in E.
  apply fmap_Some in E as (y' & Hy' & [= E _]). exists y'. split; [done|congruence].
Qed.

(** The pages of the new tree are pages of the old one, at their heights. *)
Definition heights_kept (G G' : gmap Z info) : Prop := ∀ p g', G' !! p = Some g' → ∃ g, G !! p = Some g ∧ ht g' = ht g.

Lemma heights_trans G1 G2 G3 : heights_kept G1 G2 → heights_kept G2 G3 → heights_kept G1 G3.
Proof. intros H1 H2 p g3 H. destruct (H2 p g3 H) as (g2 & Hg2 & ->). by apply H1. Qed.

(** Another tree for the same map. *)
Definition rebalanced fh ok (s : IxState) (G : gmap Z info) (s' : IxState) (G' : gmap Z info) : Prop :=
  tree_inv fh ok loose no_full s' G' ∧ prev_ok s' G' ∧ heights_kept G G' ∧ ∀ k v, ok k → has fh s' G' k v ↔ has fh s G k v.

Lemma rebalanced_refl fh ok s G : tree_inv fh ok loose no_full s G → prev_ok s G → rebalanced fh ok s G s G.
Proof. intros TI PV. split_and!; [done|done|by intros p g; exists g|done]. Qed.

Lemma rebalanced_trans fh ok s G s1 G1 s2 G2 :
  rebalanced fh ok s G s1 G1 → rebalanced fh ok s1 G1 s2 G2 → rebalanced fh ok s G s2 G2.
Proof.
  intros (_ & _ & K1 & H1) (T & P & K2 & H2). split_and!; [done|done|by apply (heights_trans _ G1)|]. intros k v Hk. by rewrite H2, H1.
Qed.

(** Pin counts do not matter. *)
Lemma rebalanced_pins fh ok s G t G' t' :
  rebalanced fh ok s G t G' → file_hdr t' = file_hdr t → next_page t' = next_page t → nodes t' = nodes t → rebalanced fh ok s G t' G'.
Proof.
  intros ([I1 I2 I3 I4 I5 I6] & P & K & H) E1 E2 E3. split_and!; [| |done|].
  - split; rewrite ?E1, ?E2, ?E3; done.
  - apply (prev_ok_keep t G'); [done|by rewrite E3|by intros p g w; exists g, w].
  - intros k v Hk. rewrite <- (H k v Hk). unfold has. by rewrite E3.
Qed.

Section Siblings.
Context (fh : IxFileHdr) (ok : key → Prop) {KO : KeyOrder (compare fh) ok}.
Context (s : IxState) (G : gmap Z info) (TI : tree_inv fh ok loose no_full s G).
Implicit Types (x : IxNode) (k : key) (g : info) (p : Z).
Abbreviation cmp := (compare fh).
Abbreviation within := (within fh).
Abbreviation page_at := (page_at fh ok loose no_full s G TI).
Abbreviation lower_within := (lower_within fh ok loose no_full s G TI eq_refl).
Abbreviation lower_unique := (lower_unique fh ok loose no_full s G TI eq_refl).
Abbreviation child_at := (child_at fh ok loose no_full s G TI eq_refl).

(** Pages of one height that have lower ends and end at one place are the same. *)
Lemma upper_unique p g q gq :
  G !! p = Some g → G !! q = Some gq → ht g = ht gq → is_Some (lo g) → is_Some (lo gq) → hi g = hi gq → p = q.
Proof using TI KO.
  intros Hp Hq Hh [a Ha] [b Hb] Hu. destruct (lower_within p g a Hp Ha) as [Oa Wa], (lower_within q gq b Hq Hb) as [Ob Wb].
  destruct (Z.le_ge_cases (cmp a b) 0) as [Hab|Hab].
  - apply (same_height fh ok _ _ s G TI b p g q gq); try done. split; [|rewrite Hu; apply Wb]. intros l Hl.
    by assert (l = a) as -> by congruence.
  - apply (same_height fh ok _ _ s G TI a p g q gq); try done. split; [|rewrite <- Hu; apply Wa]. intros l Hl.
    assert (l = b) as -> by congruence. by apply cmp_le_flip.
Qed.

Lemma below_root p g w : G !! p = Some g → hi g = Some w → is_Some (lo g).
Proof using TI.
  intros HG Hw. destruct (decide (p = root_page (file_hdr s))) as [->|Hne].
  { destruct (ti_root _ _ _ _ _ _ TI) as (g0 & ? & HG0 & _ & _ & _ & Hi0 & _). congruence. }
  destruct (parent_at fh ok _ _ s G TI eq_refl p g HG Hne) as (? & ? & ? & ? & ? & lp & ? & _ & _ & _ & _ & _ & _ & Hlp & _). by eexists.
Qed.

Lemma ends_at p g q gq w : G !! p = Some g → G !! q = Some gq → ht g = ht gq → hi g = Some w → hi gq = Some w → p = q.
Proof using TI KO.
  intros Hp Hq Hh Wp Wq. apply (upper_unique p g q gq); [done|done|done|by apply (below_root p g w)|by apply (below_root q gq w)|congruence].
Qed.

(** Two leaves that are neighbours below the page [pp]. *)
Record siblings (pp : Z) (gp : info) (y : IxNode) (j : nat) (a u : key)
    (l : Z) (gl : info) (xl : IxNode) (r : Z) (gr : info) (xr : IxNode) : Prop := {
  sb_Gp : G !! pp = Some gp;
  sb_ht : ht gp = 1%nat;
  sb_y : nodes s !! pp = Some y;
  sb_rl : ∃ rl, live_rids y !! j = Some rl ∧ rid_page_no rl = l;
  sb_rr : ∃ rr, live_rids y !! S j = Some rr ∧ rid_page_no rr = r;
  sb_a : live_keys y !! j = Some a;
  sb_u : live_keys y !! S j = Some u;
  sb_Gl : G !! l = Some gl;
  sb_hl : ht gl = O;
  sb_l : nodes s !! l = Some xl;
  sb_parl : parent xl = pp;
  sb_lol : lo gl = Some a;
  sb_hil : hi gl = Some u;
  sb_Gr : G !! r = Some gr;
  sb_hr : ht gr = O;
  sb_r : nodes s !! r = Some xr;
  sb_parr : parent xr = pp;
  sb_lor : lo gr = Some u;
  sb_hir : hi gr = child_hi y (S j) (hi gp)
}.

(** Two places side by side in a page above the leaves give such a pair. *)
Lemma siblings_at pp gp y j a u :
  G !! pp = Some gp → ht gp = 1%nat → nodes s !! pp = Some y → live_keys y !! j = Some a → live_keys y !! S j = Some u →
  ∃ l gl xl r gr xr, siblings pp gp y j a u l gl xl r gr xr.
Proof using TI.
  intros HG Hh Hy Ha Hu. destruct (child_at pp gp y j a HG Hy ltac:(lia) Ha) as (rl & gl & xl & H1 & H2 & H3 & H4 & H5 & H6 & H7).
  destruct (child_at pp gp y (S j) u HG Hy ltac:(lia) Hu) as (rr & gr & xr & J1 & J2 & J3 & J4 & J5 & J6 & J7).
  exists (rid_page_no rl), gl, xl, (rid_page_no rr), gr, xr. unfold child_hi in H7. rewrite Hu in H7.
  split; try done; try lia; by eexists.
Qed.

Context (pp : Z) (gp : info) (y : IxNode) (j : nat) (a u : key) (l : Z) (gl : info) (xl : IxNode) (r : Z) (gr : info) (xr : IxNode).
Context (SB : siblings pp gp y j a u l gl xl r gr xr).

Lemma sib_pages :
  page_ok fh ok loose (nodes s) G no_full pp gp y ∧ page_ok fh ok loose (nodes s) G no_full l gl xl ∧
  page_ok fh ok loose (nodes s) G no_full r gr xr.
Proof using TI SB. destruct (SB). split_and!; by apply page_at. Qed.

Lemma sib_ne : l ≠ r ∧ pp ≠ l ∧ pp ≠ r.
Proof using TI SB KO.
  pose proof (po_node _ _ _ _ _ _ _ _ _ (proj1 sib_pages)) as Hn. destruct (SB). split_and!.
  - intros E. rewrite E in sb_Gl0. assert (gl = gr) as E' by congruence. assert (a = u) as E2 by congruence.
    rewrite E2 in sb_a0. pose proof (live_inj fh ok y j (S j) u Hn sb_a0 sb_u0). lia.
  - intros E. rewrite E in sb_Gp0. assert (gp = gl) as E' by congruence. rewrite E' in sb_ht0. lia.
  - intros E. rewrite E in sb_Gp0. assert (gp = gr) as E' by congruence. rewrite E' in sb_ht0. lia.
Qed.

Lemma sib_keys : ok a ∧ ok u ∧ cmp a u < 0.
Proof using TI SB KO.
  destruct (SB). pose proof (po_node _ _ _ _ _ _ _ _ _ (proj1 sib_pages)) as Hn.
  split_and!; [by apply (live_ok fh ok y j)|by apply (live_ok fh ok y (S j))|].
  by apply (sorted_lookup (λ a b, cmp a b < 0) _ j (S j) a u (no_sorted _ _ _ Hn) sb_a0 sb_u0 ltac:(lia)).
Qed.

Lemma sib_next : next_leaf xl = r.
Proof using TI SB KO.
  destruct (SB). pose proof (po_next _ _ _ _ _ _ _ _ _ (proj1 (proj2 sib_pages)) sb_hl0) as Hno. unfold next_ok in Hno.
  rewrite sb_hil0 in Hno. destruct Hno as (gn & HGn & Hhn & Hln).
  apply (lower_unique _ gn r gr u); congruence.
Qed.

(** Whoever comes before the right leaf is the left leaf. *)
Lemma sib_before p g : G !! p = Some g → ht g = O → hi g = Some u → p = l.
Proof using TI SB KO.
  intros HG Hh Hu. destruct (SB). apply (ends_at p g l gl u); congruence.
Qed.

(** The leaf after the right one is another leaf. *)
Lemma right_next w : hi gr = Some w →
  ∃ gn, G !! next_leaf xr = Some gn ∧ ht gn = O ∧ lo gn = Some w ∧ next_leaf xr ≠ l ∧ next_leaf xr ≠ r.
Proof using TI SB KO.
  intros Ew. destruct sib_keys as (Oa & Ou & Hau). destruct sib_pages as (_ & _ & PO). destruct (SB).
  pose proof (po_next _ _ _ _ _ _ _ _ _ PO sb_hr0) as Hno. unfold next_ok in Hno. rewrite Ew in Hno.
  destruct Hno as (gn & HGn & Hhn & Hln). exists gn. destruct (lower_within r gr u sb_Gr0 sb_lor0) as [_ [_ W]]. specialize (W w Ew).
  split_and!; try done.
  - intros E. rewrite E in HGn. assert (w = a) as -> by congruence. pose proof (ko_flip a u Oa Ou). lia.
  - intros E. rewrite E in HGn. assert (w = u) as -> by congruence. rewrite (cmp_refl (ok := ok)) in W by done. lia.
Qed.

(** ** The entries of the two leaves together *)

Definition both_keys : list key := live_keys xl ++ live_keys xr.
Definition both_rids : list Rid := live_rids xl ++ live_rids xr.

Lemma both_range i k : both_keys !! i = Some k → ok k ∧ cmp a k ≤ 0 ∧ ∀ w, hi gr = Some w → cmp k w < 0.
Proof using TI SB KO.
  destruct sib_pages as (_ & PL & PR). destruct sib_keys as (Oa & Ou & Hau). destruct (SB).
  destruct (lower_within r gr u sb_Gr0 sb_lor0) as [_ [_ Hu]]. pose proof (po_bounds _ _ _ _ _ _ _ _ _ PR) as [_ B].
  intros [Hk|[_ Hk]]%lookup_app_Some.
  - pose proof (live_ok fh ok xl i k (po_node _ _ _ _ _ _ _ _ _ PL) Hk) as Hok.
    destruct (Forall_lookup_1 _ _ _ _ (po_within _ _ _ _ _ _ _ _ _ PL) Hk) as [W1 W2]. split_and!; [done|by apply W1|].
    intros w Hw. specialize (W2 u sb_hil0). apply (cmp_lt_le_trans (ok := ok) k u w); auto. specialize (Hu w Hw). lia.
  - pose proof (live_ok fh ok xr _ k (po_node _ _ _ _ _ _ _ _ _ PR) Hk) as Hok.
    destruct (Forall_lookup_1 _ _ _ _ (po_within _ _ _ _ _ _ _ _ _ PR) Hk) as [W1 W2]. split_and!; [done| |by apply W2].
    specialize (W1 u sb_lor0). apply (ko_trans a u k); auto. lia.
Qed.

Lemma both_sorted : StronglySorted (λ a b, cmp a b < 0) both_keys.
Proof using TI SB KO.
  destruct sib_pages as (_ & PL & PR). destruct sib_keys as (_ & Ou & _). unfold both_keys. apply StronglySorted_app.
  split_and!; [|apply PL|apply PR]. intros k1 k2 H1 H2. apply list_elem_of_lookup in H1 as [i1 H1], H2 as [i2 H2].
  destruct (SB). destruct (Forall_lookup_1 _ _ _ _ (po_within _ _ _ _ _ _ _ _ _ PL) H1) as [_ W1].
  destruct (Forall_lookup_1 _ _ _ _ (po_within _ _ _ _ _ _ _ _ _ PR) H2) as [W2 _].
  apply (cmp_lt_le_trans (ok := ok) k1 u k2); [|done| |by apply W1|by apply W2].
  - by apply (live_ok fh ok xl i1 k1 (po_node _ _ _ _ _ _ _ _ _ PL)).
  - by apply (live_ok fh ok xr i2 k2 (po_node _ _ _ _ _ _ _ _ _ PR)).
Qed.

(** A page that holds a stretch of them. *)
Lemma stretch_node i n x :
  live_keys x = take n (drop i both_keys) → 0 ≤ num_key x ≤ Z.of_nat (length (keys x)) → length (rids x) = length (keys x) →
  node_ok fh ok x.
Proof using TI SB KO.
  intros L Hn Hr. split; try done; rewrite L.
  - apply Forall_take, Forall_drop, Forall_lookup. intros i' k Hk. by apply (both_range i').
  - apply sorted_of_lookup. intros i1 i2 k1 k2 Hlt H1 H2. apply lookup_take_Some in H1 as [H1 _], H2 as [H2 _].
    rewrite lookup_drop in H1, H2. apply (sorted_lookup (λ a b, cmp a b < 0) both_keys (i + i1) (i + i2)); [apply both_sorted|done|done|lia].
Qed.

(** ** What stays *)

Context (ns' : gmap Z IxNode) (G' : gmap Z info).
Context (Hother : ∀ p x, p ≠ l → p ≠ r → p ≠ pp → nodes s !! p = Some x →
  ∃ x', ns' !! p = Some x' ∧ same_node x x' ∧ parent x' = parent x).
Context (Hppar : ∃ y', ns' !! pp = Some y' ∧ parent y' = parent y).
Context (HGother : ∀ p, p ≠ l → p ≠ r → G' !! p = G !! p).
Context (HGl : ∃ g', G' !! l = Some g' ∧ ht g' = O ∧ lo g' = lo gl).

(** A child of another page is neither of the two leaves. *)
Lemma other_child p g x i c gc xc :
  p ≠ pp → page_ok fh ok loose (nodes s) G no_full p g x → ht g ≠ O → live_rids x !! i = Some c →
  G !! rid_page_no c = Some gc → nodes s !! rid_page_no c = Some xc → parent xc = p → rid_page_no c ≠ l ∧ rid_page_no c ≠ r.
Proof using SB. intros Hp PO Hh Hc HGc Hxc Hpar. destruct (SB). split; intros E; rewrite E in Hxc; congruence. Qed.

Lemma other_page_ok p g x :
  p ≠ l → p ≠ r → p ≠ pp → G !! p = Some g → nodes s !! p = Some x →
  ∃ x', ns' !! p = Some x' ∧ page_ok fh ok loose ns' G' no_full p g x'.
Proof using All.
  intros Hl Hr Hp HG Hx. destruct (Hother p x Hl Hr Hp Hx) as (x' & Hx' & Hs & Hpar). exists x'. split; [done|].
  pose proof (page_at p g x HG Hx) as PO. destruct (live_same x x' Hs) as (L1 & L2 & _).
  pose proof (node_ok_same fh ok x x' Hs (po_node _ _ _ _ _ _ _ _ _ PO)) as Hn. destruct Hs as (E1 & E2 & E3 & E4 & E5).
  destruct (PO) as [P1 P2 P3 P4 P5 P6 P7 P8 P9 P10 P11]. split; rewrite ?E1, ?E2, ?E4, ?L1, ?L2; try done.
  - intros Hh. specialize (P8 Hh). unfold next_ok in *. rewrite E3. destruct (hi g) as [w|] eqn:Ew; [|done].
    destruct P8 as (gn & HGn & Hhn & Hln). destruct (decide (next_leaf x = l)) as [E|Hnl].
    + destruct HGl as (g' & HG' & Hh' & Hlo'). exists g'. rewrite E in HGn |- *. split_and!; try done. rewrite Hlo', <- Hln.
      destruct (SB). congruence.
    + exists gn. split_and!; try done. rewrite HGother; [done|done|]. intros E. apply Hl. apply (sib_before p g HG Hh).
      destruct (SB). rewrite E in HGn. congruence.
  - intros Hh i c Hc. destruct (P10 Hh i c Hc) as (gc & xc & HGc & Hxc & Hpc & Hhc & Hlo & Hhi).
    destruct (other_child p g x i c gc xc Hp PO Hh Hc HGc Hxc Hpc) as [Nl Nr].
    assert (Hkid : ∃ xc', ns' !! rid_page_no c = Some xc' ∧ parent xc' = parent xc).
    { destruct (decide (rid_page_no c = pp)) as [E|E].
      - rewrite E in Hxc |- *. destruct (SB). by assert (xc = y) as -> by congruence.
      - destruct (Hother _ xc Nl Nr E Hxc) as (xc' & Hxc' & _ & Hpc'). by exists xc'. }
    destruct Hkid as (xc' & Hxc' & Hpc'). exists gc, xc'.
    split_and!; [by rewrite HGother|done|congruence|done| |]; unfold child_lo, child_hi in *; by rewrite L1.
Qed.

(** The tree put together from its changed and unchanged pages. *)
Lemma assemble s' :
  key_hdr fh (file_hdr s') → root_page (file_hdr s') = root_page (file_hdr s) → nodes s' = ns' → next_page s' = next_page s →
  is_Some (ns' !! IX_LEAF_HEADER_PAGE) →
  (∀ p g', G' !! p = Some g' → ∃ g, G !! p = Some g ∧ ht g' = ht g) →
  (∀ p g, G' !! p = Some g → p = l ∨ p = r ∨ p = pp → ∃ x, ns' !! p = Some x ∧ page_ok fh ok loose ns' G' no_full p g x) →
  (∀ i c y', live_rids y !! i = Some c → is_Some (G' !! rid_page_no c) → ns' !! pp = Some y' →
     ∃ i' c', live_rids y' !! i' = Some c' ∧ rid_page_no c' = rid_page_no c) →
  tree_inv fh ok loose no_full s' G'.
Proof using All.
  intros Hh Hroot En Enx Hhdr Hsub Hpages Hkids. destruct sib_ne as (Nlr & Npl & Npr).
  assert (Hpp : G' !! pp = G !! pp) by (apply HGother; done).
  split; rewrite ?Hroot, ?En, ?Enx; try done; [by apply (ti_order _ _ _ _ _ _ TI)| | |].
  - destruct (ti_root _ _ _ _ _ _ TI) as (g0 & x0 & HG0 & Hx0 & Hp0 & L0 & U0 & Hmax).
    assert (N1 : root_page (file_hdr s) ≠ l) by (intros E; rewrite E in HG0; destruct (SB); congruence).
    assert (N2 : root_page (file_hdr s) ≠ r) by (intros E; rewrite E in HG0; destruct (SB); congruence).
    assert (Hx' : ∃ x', ns' !! root_page (file_hdr s) = Some x' ∧ parent x' = parent x0).
    { destruct (decide (root_page (file_hdr s) = pp)) as [E|E].
      - rewrite E in Hx0 |- *. destruct (SB). by assert (x0 = y) as -> by congruence.
      - destruct (Hother _ x0 N1 N2 E Hx0) as (x' & ? & _ & ?). by exists x'. }
    destruct Hx' as (x' & Hx' & Hp'). exists g0, x'. rewrite HGother by done. split_and!; try done; [congruence|].
    intros p g' Hp. destruct (Hsub p g' Hp) as (g & HG & ->). by apply (Hmax p g).
  - intros p g' Hp. destruct (Hsub p g' Hp) as (g & HG & Hht). destruct (ti_page _ _ _ _ _ _ TI p g HG) as (Hlt & x & Hx & _).
    split; [done|]. destruct (decide (p = l)); [by apply Hpages; [|left]|]. destruct (decide (p = r)); [by apply Hpages; [|right; left]|].
    destruct (decide (p = pp)); [by apply Hpages; [|right; right]|]. rewrite HGother in Hp by done.
    assert (g' = g) as -> by congruence. by apply (other_page_ok p g x).
  - intros p g' Hp Hne. destruct (Hsub p g' Hp) as (g & HG & Hht).
    destruct (ti_up _ _ _ _ _ _ TI p g HG Hne) as (q & gq & xq & i & c & HGq & Hhq & Hxq & Hc & Hcp).
    assert (Nl : q ≠ l) by (intros ->; destruct (SB); assert (gq = gl) as -> by congruence; lia).
    assert (Nr : q ≠ r) by (intros ->; destruct (SB); assert (gq = gr) as -> by congruence; lia).
    destruct (decide (q = pp)) as [->|Nq].
    + destruct Hppar as (y' & Hy' & _). assert (xq = y) as -> by (destruct (SB); congruence).
      destruct (Hkids i c y' Hc ltac:(rewrite Hcp; by eexists) Hy') as (i' & c' & Hc' & Hcc).
      exists pp, gq, y', i', c'. split_and!; try done; [by rewrite Hpp|lia|congruence].
    + destruct (Hother q xq Nl Nr Nq Hxq) as (xq' & Hxq' & Hs & _). destruct (live_same xq xq' Hs) as (_ & L2 & _).
      exists q, gq, xq', i, c. rewrite L2. split_and!; try done; [by rewrite HGother|lia].
Qed.

(** The other leaves bind what they did. *)
Definition bound_elsewhere (ns : gmap Z IxNode) (GG : gmap Z info) (k : key) (v : Rid) : Prop :=
  ∃ p g x, p ≠ l ∧ p ≠ r ∧ GG !! p = Some g ∧ ht g = O ∧ ns !! p = Some x ∧ assoc fh k (entries x) = Some v.

Lemma elsewhere_same k v : bound_elsewhere (nodes s) G k v ↔ bound_elsewhere ns' G' k v.
Proof using All.
  assert (Npp : ∀ p g, G !! p = Some g → ht g = O → p ≠ pp) by (intros p g Hp Hh ->; destruct (SB); assert (g = gp) as -> by congruence; lia).
  split.
  - intros (p & g & x & Nl & Nr & HG & Hh & Hx & Ha). destruct (Hother p x Nl Nr (Npp p g HG Hh) Hx) as (x' & Hx' & Hs & _).
    destruct (live_same x x' Hs) as (_ & _ & E). exists p, g, x'. rewrite HGother, E by done. by split_and!.
  - intros (p & g & x' & Nl & Nr & HG & Hh & Hx' & Ha). rewrite HGother in HG by done.
    destruct (node_at fh ok _ _ s G TI p g HG) as [x Hx]. destruct (Hother p x Nl Nr (Npp p g HG Hh) Hx) as (x0 & Hx0 & Hs & _).
    assert (x0 = x') as -> by congruence. destruct (live_same x x' Hs) as (_ & _ & E). rewrite E in Ha. by exists p, g, x.
Qed.

Lemma has_split k v : ok k → has fh s G k v ↔ assoc fh k (entries xl ++ entries xr) = Some v ∨ bound_elsewhere (nodes s) G k v.
Proof using All.
  intros Hk. destruct sib_ne as (Nlr & _ & _). destruct (SB).
  rewrite <- (two_leaves fh ok loose no_full s G k l gl xl r gr xr v) by done. split.
  - intros (p & g & x & HG & Hh & Hx & Ha). destruct (decide (p = l)) as [->|Nl]; [left; left; congruence|].
    destruct (decide (p = r)) as [->|Nr]; [left; right; congruence|]. right. by exists p, g, x.
  - intros [[Ha|Ha]|(p & g & x & _ & _ & HG & Hh & Hx & Ha)]; [by exists l, gl, xl|by exists r, gr, xr|by exists p, g, x].
Qed.

(** ** The separator moves *)

Section Shift.
Context (c : key) (xl' xr' : IxNode).
Abbreviation gl' := (MkInfo 0 (Some a) (Some c)).
Abbreviation gr' := (MkInfo 0 (Some c) (hi gr)).
Abbreviation y' := (set_arrays (<[S j := c]> (keys y)) (rids y) y).
Context (Hl' : ns' !! l = Some xl') (Hr' : ns' !! r = Some xr') (Hy' : ns' !! pp = Some y').
Context (HGl' : G' !! l = Some gl') (HGr' : G' !! r = Some gr').
Context (Hok_c : ok c) (Hac : cmp a c < 0) (Hcw : ∀ w, hi gr = Some w → cmp c w < 0).
Context (Hnl : node_ok fh ok xl') (Hnr : node_ok fh ok xr').
Context (Hlenl : length (keys xl') = length (keys xl)) (Hlenr : length (keys xr') = length (keys xr)).
Context (Hrooml : num_key xl' ≤ btree_order fh) (Hroomr : num_key xr' ≤ btree_order fh).
Context (Hsl : is_leaf xl' = is_leaf xl ∧ parent xl' = parent xl ∧ next_leaf xl' = next_leaf xl).
Context (Hsr : is_leaf xr' = is_leaf xr ∧ parent xr' = parent xr ∧ next_leaf xr' = next_leaf xr).
Context (Hwl : Forall (within gl') (live_keys xl')) (Hwr : Forall (within gr') (live_keys xr')).

Lemma live_y : live_keys y' = <[S j := c]> (live_keys y) ∧ live_rids y' = live_rids y.
Proof using All.
  split; [|done]. destruct (SB). unfold live_keys at 1 2. simpl. pose proof (lookup_lt_Some _ _ _ sb_u0) as Hlt.
  unfold live_keys in Hlt. rewrite length_take in Hlt. apply take_insert_lt. lia.
Qed.

Lemma shift_bounds : bounds_ok ok gl' ∧ bounds_ok ok gr'.
Proof using All.
  destruct sib_keys as (Oa & _ & _). pose proof (po_bounds _ _ _ _ _ _ _ _ _ (proj2 (proj2 sib_pages))) as [_ B2].
  split; split; simpl; try done; by intros ? [= <-].
Qed.

Lemma shift_left_page : page_ok fh ok loose ns' G' no_full l gl' xl'.
Proof using All.
  destruct sib_pages as (_ & PO & _). destruct Hsl as (S1 & S2 & S3). split; simpl; try done.
  - rewrite Hlenl. apply PO.
  - by left.
  - apply shift_bounds.
  - rewrite S1, (po_leaf _ _ _ _ _ _ _ _ _ PO), (sb_hl _ _ _ _ _ _ _ _ _ _ _ _ SB). done.
  - intros _. unfold next_ok. simpl. rewrite S3, sib_next. by exists gr'.
Qed.

Lemma shift_right_page : page_ok fh ok loose ns' G' no_full r gr' xr'.
Proof using All.
  destruct sib_pages as (_ & _ & PO). destruct Hsr as (S1 & S2 & S3). pose proof (sb_hr _ _ _ _ _ _ _ _ _ _ _ _ SB) as Hh.
  split; simpl; try done.
  - rewrite Hlenr. apply PO.
  - by left.
  - apply shift_bounds.
  - rewrite S1, (po_leaf _ _ _ _ _ _ _ _ _ PO), Hh. done.
  - intros _. pose proof (po_next _ _ _ _ _ _ _ _ _ PO Hh) as Hno. unfold next_ok in *. simpl. rewrite S3.
    destruct (hi gr) as [w|] eqn:Ew; [|done]. destruct (right_next w Ew) as (gn & HGn & Hhn & Hln & Nl & Nr).
    exists gn. by rewrite HGother.
Qed.

Lemma shift_sorted : StronglySorted (λ a b, cmp a b < 0) (<[S j := c]> (live_keys y)).
Proof using All.
  destruct sib_pages as (PO & _ & _). pose proof (po_node _ _ _ _ _ _ _ _ _ PO) as Hn. destruct (SB). destruct sib_keys as (Oa & Ou & _).
  apply sorted_of_lookup. intros i1 i2 k1 k2 Hij H1 H2.
  apply list_lookup_insert_Some in H1 as [(<- & <- & _)|[N1 H1]], H2 as [(E2 & E2' & _)|[N2 H2]]; subst; try lia.
  - destruct (live_keys y !! S (S j)) as [w|] eqn:Ew.
    2:{ apply lookup_lt_Some in H2. apply lookup_ge_None in Ew. lia. }
    assert (Hw : hi gr = Some w) by (rewrite sb_hir0; unfold child_hi; by rewrite Ew).
    apply (cmp_lt_le_trans (ok := ok) c w k2); [done|by apply (live_ok fh ok y (S (S j)))|by apply (live_ok fh ok y i2)|by apply Hcw|].
    apply (live_le fh ok y (S (S j)) i2); [done|done|done|lia].
  - apply (cmp_le_lt_trans (ok := ok) k1 a k2); [by apply (live_ok fh ok y i1)|done|done| |done].
    apply (live_le fh ok y i1 j); [done|done|done|lia].
  - by apply (sorted_lookup (λ a b, cmp a b < 0) _ i1 i2 k1 k2 (no_sorted _ _ _ Hn)).
Qed.

Lemma c_within : within gp c.
Proof using All.
  destruct sib_pages as (PO & _ & _). pose proof (po_within _ _ _ _ _ _ _ _ _ PO) as W. destruct (SB). destruct sib_keys as (Oa & _ & _).
  pose proof (po_bounds _ _ _ _ _ _ _ _ _ PO) as [B1 B2]. split.
  - intros l0 Hl0. assert (cmp l0 c < 0); [|lia]. apply (cmp_le_lt_trans (ok := ok) l0 a c); auto.
    by apply (Forall_lookup_1 _ _ _ _ W sb_a0).
  - intros w Hw. rewrite sb_hir0 in Hcw. unfold child_hi in Hcw. destruct (live_keys y !! S (S j)) as [k2|] eqn:E; [|by apply Hcw].
    apply (cmp_lt_le_trans (ok := ok) c k2 w); auto; [by apply (live_ok fh ok y (S (S j))), E; apply PO|].
    assert (cmp k2 w < 0); [|lia]. by apply (Forall_lookup_1 _ _ _ _ W E).
Qed.

Lemma shift_parent_page : page_ok fh ok loose ns' G' no_full pp gp y'.
Proof using All.
  destruct sib_pages as (PO & _ & _). pose proof (po_node _ _ _ _ _ _ _ _ _ PO) as Hn. destruct live_y as [Lk Lr].
  destruct sib_ne as (Nlr & Npl & Npr). pose proof (sb_ht _ _ _ _ _ _ _ _ _ _ _ _ SB) as Hhp.
  split; rewrite ?Lk, ?Lr; try done; try (by rewrite Hhp).
  - split; rewrite ?Lk.
    + simpl. rewrite length_insert. apply Hn.
    + simpl. rewrite length_insert. apply Hn.
    + apply Forall_insert; [apply Hn|done].
    + apply shift_sorted.
  - simpl. rewrite length_insert. apply PO.
  - apply PO.
  - apply PO.
  - apply Forall_insert; [apply PO|apply c_within].
  - apply PO.
  - intros _. apply PO. lia.
  - intros _ i q Hq. destruct (po_child _ _ _ _ _ _ _ _ _ PO ltac:(lia) i q Hq) as (gc & xc & HGc & Hxc & Hpc & Hhc & Hlo & Hhi).
    unfold child_lo, child_hi in *. simpl in Hlo |- *.
    assert (Hi : ∀ j0 z rd, live_rids y !! j0 = Some rd ∧ rid_page_no rd = z → rid_page_no q = z → i = j0).
    { intros j0 z rd [Hrd Ez] E. apply (kid_inj fh ok loose no_full _ _ _ _ _ i j0 q rd eq_refl PO ltac:(lia) Hq Hrd). congruence. }
    destruct (sb_rl _ _ _ _ _ _ _ _ _ _ _ _ SB) as [rdl Hrdl], (sb_rr _ _ _ _ _ _ _ _ _ _ _ _ SB) as [rdr Hrdr].
    unfold child_ok, child_lo, child_hi. simpl. rewrite Lk.
    destruct (decide (rid_page_no q = l)) as [El|Nl]; [|destruct (decide (rid_page_no q = r)) as [Er|Nr]].
    + rewrite (Hi j l rdl Hrdl El), El. exists gl', xl'. destruct Hsl as (_ & S2 & _). destruct (SB).
      rewrite list_lookup_insert_ne by lia. split_and!; try done; [congruence|].
      simpl. by rewrite list_lookup_insert_eq by (by eapply lookup_lt_Some).
    + rewrite (Hi (S j) r rdr Hrdr Er), Er. exists gr', xr'. destruct Hsr as (_ & S2 & _). destruct (SB).
      rewrite list_lookup_insert_eq by (by eapply lookup_lt_Some). rewrite list_lookup_insert_ne by lia. split_and!; try done; congruence.
    + assert (Nij : i ≠ j). { intros ->. destruct Hrdl as [Hrd Ez]. congruence. }
      assert (Nis : i ≠ S j). { intros ->. destruct Hrdr as [Hrd Ez]. congruence. }
      assert (Nqp : rid_page_no q ≠ pp) by (intros E; rewrite E in HGc; destruct (SB); assert (gc = gp) as -> by congruence; lia).
      destruct (Hother _ xc Nl Nr Nqp Hxc) as (xc' & Hxc' & _ & Hpc'). exists gc, xc'. rewrite HGother by done.
      rewrite !list_lookup_insert_ne by lia. split_and!; try done. congruence.
  - intros _ _ l0 Hl0. rewrite list_lookup_insert_ne by lia. apply PO; [done|lia|done].
Qed.

Lemma shift_heights : heights_kept G G'.
Proof using All.
  intros p g' Hp. destruct (decide (p = l)) as [->|Nl]; [|destruct (decide (p = r)) as [->|Nr]].
  - exists gl. destruct (SB). split; [done|]. rewrite HGl' in Hp. injection Hp as <-. done.
  - exists gr. destruct (SB). split; [done|]. rewrite HGr' in Hp. injection Hp as <-. done.
  - rewrite HGother in Hp by done. by exists g'.
Qed.

Lemma shift_inv s' :
  file_hdr s' = file_hdr s → nodes s' = ns' → next_page s' = next_page s → is_Some (ns' !! IX_LEAF_HEADER_PAGE) →
  tree_inv fh ok loose no_full s' G'.
Proof using All.
  intros Eh En Enx Hhdr. destruct sib_ne as (Nlr & Npl & Npr). pose proof (sb_Gp _ _ _ _ _ _ _ _ _ _ _ _ SB) as HGp.
  apply assemble; rewrite ?Eh; try done; [apply (ti_hdr _ _ _ _ _ _ TI)| | |].
  - apply shift_heights.
  - intros p g Hp [-> | [-> | ->]].
    + exists xl'. split; [done|]. rewrite HGl' in Hp. injection Hp as <-. apply shift_left_page.
    + exists xr'. split; [done|]. rewrite HGr' in Hp. injection Hp as <-. apply shift_right_page.
    + exists y'. split; [done|]. rewrite HGother in Hp by done. assert (g = gp) as -> by congruence. apply shift_parent_page.
  - intros i q y0 Hq _ Hy0. rewrite Hy' in Hy0. injection Hy0 as <-. by exists i, q.
Qed.

Lemma shift_has s' k v :
  file_hdr s' = file_hdr s → nodes s' = ns' → next_page s' = next_page s → is_Some (ns' !! IX_LEAF_HEADER_PAGE) →
  entries xl' ++ entries xr' = entries xl ++ entries xr → ok k → has fh s' G' k v ↔ has fh s G k v.
Proof using All.
  intros Eh En Enx Hhdr HE Hk. pose proof (shift_inv s' Eh En Enx Hhdr) as TI'. destruct sib_ne as (Nlr & _ & _).
  rewrite has_split, <- HE, elsewhere_same by done.
  rewrite <- (two_leaves fh ok loose no_full s' G' k l gl' xl' r gr' xr' v); rewrite ?En; try done. split.
  - intros (p & g & x & HG & Hh & Hx & Ha). rewrite En in Hx. destruct (decide (p = l)) as [->|Nl]; [left; left; congruence|].
    destruct (decide (p = r)) as [->|Nr]; [left; right; congruence|]. right. by exists p, g, x.
  - unfold has. rewrite En. intros [[Ha|Ha]|(p & g & x & _ & _ & HG & Hh & Hx & Ha)]; [by exists l, gl', xl'|by exists r, gr', xr'|by exists p, g, x].
Qed.

(** The leaf list is as before. *)
Lemma shift_prev s' :
  nodes s' = ns' → (∀ p, links <$> ns' !! p = links <$> nodes s !! p) → prev_ok s G → prev_ok s' G'.
Proof using All.
  intros En Hk Hp. apply (prev_ok_keep s G); [done|by rewrite En|]. intros p g' u' Hg Hh Hu.
  destruct (decide (p = l)) as [->|Nl]; [|destruct (decide (p = r)) as [->|Nr]].
  - destruct (SB). by exists gl, u.
  - destruct (SB). rewrite HGr' in Hg. injection Hg as <-. by exists gr, u'.
  - rewrite HGother in Hg by done. by exists g', u'.
Qed.

Lemma shift_tree s' :
  file_hdr s' = file_hdr s → nodes s' = ns' → next_page s' = next_page s → is_Some (ns' !! IX_LEAF_HEADER_PAGE) →
  entries xl' ++ entries xr' = entries xl ++ entries xr → (∀ p, links <$> ns' !! p = links <$> nodes s !! p) → prev_ok s G →
  rebalanced fh ok s G s' G'.
Proof using All.
  intros Eh En Enx Hhdr HE Hk Hp. split_and!; [by apply shift_inv|by apply shift_prev|apply shift_heights|]. intros k v Ok. by apply shift_has.
Qed.

End Shift.

(** ** The right leaf goes *)

Section Merge.
Context (xl' y' : IxNode).
Abbreviation gl' := (MkInfo 0 (Some a) (hi gr)).
Context (Hl' : ns' !! l = Some xl') (Hy' : ns' !! pp = Some y') (HGl' : G' !! l = Some gl') (HGr' : G' !! r = None).
Context (Hnl : node_ok fh ok xl') (Hlenl : length (keys xl') = length (keys xl)) (Hrooml : num_key xl' ≤ btree_order fh).
Context (Hsl : is_leaf xl' = is_leaf xl ∧ parent xl' = parent xl ∧ next_leaf xl' = next_leaf xr).
Context (Hwl : Forall (within gl') (live_keys xl')).
Context (Hny : num_key y' = num_key y - 1) (Hleny : length (keys y') = length (keys y)) (Hlenr : length (rids y') = length (rids y)).
Context (Lk : live_keys y' = delete (S j) (live_keys y)) (Lr : live_rids y' = delete (S j) (live_rids y)).
Context (Hsy : is_leaf y' = is_leaf y).

Lemma merge_left_page : page_ok fh ok loose ns' G' no_full l gl' xl'.
Proof using All.
  destruct sib_pages as (_ & PO & POr). destruct Hsl as (S1 & S2 & S3). destruct sib_keys as (Oa & _ & _). split; simpl; try done.
  - rewrite Hlenl. apply PO.
  - by left.
  - split; simpl; [by intros ? [= <-]|]. apply (po_bounds _ _ _ _ _ _ _ _ _ POr).
  - rewrite S1, (po_leaf _ _ _ _ _ _ _ _ _ PO), (sb_hl _ _ _ _ _ _ _ _ _ _ _ _ SB). done.
  - intros _. pose proof (po_next _ _ _ _ _ _ _ _ _ POr (sb_hr _ _ _ _ _ _ _ _ _ _ _ _ SB)) as Hno. unfold next_ok in *. simpl. rewrite S3.
    destruct (hi gr) as [w|] eqn:Ew; [|done]. destruct (right_next w Ew) as (gn & HGn & Hhn & Hln & Nl & Nr).
    exists gn. by rewrite HGother.
Qed.

Lemma merge_node : node_ok fh ok y'.
Proof using All.
  destruct sib_pages as (PO & _ & _). pose proof (po_node _ _ _ _ _ _ _ _ _ PO) as Hn.
  pose proof (lookup_lt_Some _ _ _ (sb_u _ _ _ _ _ _ _ _ _ _ _ _ SB)) as Hlt. rewrite (length_live fh ok y Hn) in Hlt.
  pose proof (no_num _ _ _ Hn). split.
  - lia.
  - rewrite Hlenr, Hleny. apply Hn.
  - rewrite Lk. apply Forall_delete, Hn.
  - rewrite Lk, delete_take_drop. apply StronglySorted_delete, Hn.
Qed.

(** The places of the children that stay. *)
Definition place (i : nat) : nat := if decide (i < S j)%nat then i else S i.

Lemma lookup_place {A} (ls : list A) i : delete (S j) ls !! i = ls !! place i.
Proof. unfold place. destruct (decide (i < S j)%nat); [by apply list_lookup_delete_lt|apply list_lookup_delete_ge; lia]. Qed.

Lemma merge_parent_page : page_ok fh ok loose ns' G' no_full pp gp y'.
Proof using All.
  destruct sib_pages as (PO & _ & _). pose proof (po_node _ _ _ _ _ _ _ _ _ PO) as Hn. pose proof merge_node as Hn'.
  destruct sib_ne as (Nlr & Npl & Npr). pose proof (sb_ht _ _ _ _ _ _ _ _ _ _ _ _ SB) as Hhp.
  pose proof (lookup_lt_Some _ _ _ (sb_u _ _ _ _ _ _ _ _ _ _ _ _ SB)) as Hlt. rewrite (length_live fh ok y Hn) in Hlt.
  split; try done; try (by rewrite Hhp).
  - rewrite Hleny. apply PO.
  - destruct (po_room _ _ _ _ _ _ _ _ _ PO) as [?|[]]. left. lia.
  - apply PO.
  - rewrite Lk. apply Forall_delete, PO.
  - rewrite Hsy. apply PO.
  - intros _. lia.
  - intros _ i q Hq. rewrite Lr, lookup_place in Hq.
    destruct (po_child _ _ _ _ _ _ _ _ _ PO ltac:(lia) _ q Hq) as (gc & xc & HGc & Hxc & Hpc & Hhc & Hlo & Hhi).
    unfold child_ok, child_lo, child_hi in *. simpl in Hlo |- *. rewrite Lk, !lookup_place.
    destruct (sb_rl _ _ _ _ _ _ _ _ _ _ _ _ SB) as [rdl [Hrdl El]], (sb_rr _ _ _ _ _ _ _ _ _ _ _ _ SB) as [rdr [Hrdr Er]].
    assert (Hi : ∀ i0 rd, live_rids y !! i0 = Some rd → rid_page_no q = rid_page_no rd → place i = i0).
    { intros i0 rd Hrd E. by apply (kid_inj fh ok loose no_full _ _ _ _ _ (place i) i0 q rd eq_refl PO ltac:(lia) Hq Hrd). }
    destruct (decide (rid_page_no q = l)) as [Eq|Nl].
    + assert (Hp : place i = j) by (apply (Hi j rdl Hrdl); congruence). assert (i = j) as -> by (unfold place in Hp; destruct (decide _); lia).
      rewrite Eq, Hp. exists gl', xl'. destruct Hsl as (_ & S2 & _). destruct (SB).
      split_and!; try done; [congruence|]. simpl. rewrite sb_hir0. unfold child_hi, place. by rewrite decide_False by lia.
    + assert (Nr : rid_page_no q ≠ r).
      { intros E. assert (Hp : place i = S j) by (apply (Hi (S j) rdr Hrdr); congruence). unfold place in Hp. destruct (decide _); lia. }
      assert (Nj : i ≠ j). { intros ->. unfold place in Hq. rewrite decide_True in Hq by lia. congruence. }
      assert (Nqp : rid_page_no q ≠ pp) by (intros E; rewrite E in HGc; destruct (SB); assert (gc = gp) as -> by congruence; lia).
      destruct (Hother _ xc Nl Nr Nqp Hxc) as (xc' & Hxc' & _ & Hpc'). exists gc, xc'. rewrite HGother by done.
      split_and!; try done; [congruence|]. rewrite Hhi. assert (place (S i) = S (place i)) as ->; [|done].
      unfold place. repeat destruct (decide _); lia.
  - intros _ _ l0 Hl0. rewrite Lk, lookup_place. unfold place. rewrite decide_True by lia. apply PO; [done|lia|done].
Qed.

Lemma merge_heights : heights_kept G G'.
Proof using All.
  intros p g' Hp. destruct (decide (p = l)) as [->|Nl]; [|destruct (decide (p = r)) as [->|Nr]].
  - exists gl. destruct (SB). split; [done|]. rewrite HGl' in Hp. injection Hp as <-. done.
  - congruence.
  - rewrite HGother in Hp by done. by exists g'.
Qed.

Lemma merge_inv s' :
  key_hdr fh (file_hdr s') → root_page (file_hdr s') = root_page (file_hdr s) → nodes s' = ns' → next_page s' = next_page s →
  is_Some (ns' !! IX_LEAF_HEADER_PAGE) → tree_inv fh ok loose no_full s' G'.
Proof using All.
  intros Eh Er En Enx Hhdr. destruct sib_ne as (Nlr & Npl & Npr). pose proof (sb_Gp _ _ _ _ _ _ _ _ _ _ _ _ SB) as HGp.
  apply assemble; try done.
  - apply merge_heights.
  - intros p g Hp [-> | [-> | ->]].
    + exists xl'. split; [done|]. rewrite HGl' in Hp. injection Hp as <-. apply merge_left_page.
    + congruence.
    + exists y'. split; [done|]. rewrite HGother in Hp by done. assert (g = gp) as -> by congruence. apply merge_parent_page.
  - intros i q y0 Hq Hin Hy0. rewrite Hy' in Hy0. injection Hy0 as <-.
    destruct (sb_rr _ _ _ _ _ _ _ _ _ _ _ _ SB) as [rdr [Hrdr Er']].
    assert (Ni : i ≠ S j). { intros ->. assert (q = rdr) as -> by congruence. rewrite Er', HGr' in Hin. by destruct Hin. }
    exists (if decide (i < S j)%nat then i else (i - 1)%nat), q. split; [|done]. rewrite Lr, lookup_place. unfold place.
    destruct (decide (i < S j)%nat); [by rewrite decide_True|]. rewrite decide_False by lia. by replace (S (i - 1)) with i by lia.
Qed.

Lemma merge_has s' k v :
  nodes s' = ns' → entries xl' = entries xl ++ entries xr → ok k → has fh s' G' k v ↔ has fh s G k v.
Proof using All.
  intros En HE Hk. rewrite has_split, <- HE, elsewhere_same by done. unfold has. rewrite En. split.
  - intros (p & g & x & HG & Hh & Hx & Ha). destruct (decide (p = l)) as [->|Nl]; [left; congruence|]. right.
    exists p, g, x. split_and!; try done. intros ->. congruence.
  - intros [Ha|(p & g & x & _ & _ & HG & Hh & Hx & Ha)]; [by exists l, gl', xl'|by exists p, g, x].
Qed.

(** The leaf after the right one is linked back to the left one. *)
Definition links_merged : Prop :=
  (∀ p, p ≠ l → p ≠ next_leaf xr → links <$> ns' !! p = links <$> nodes s !! p) ∧ prev_leaf xl' = prev_leaf xl ∧
  ∃ z, ns' !! next_leaf xr = Some z ∧ prev_leaf z = l ∧ ∀ z0, nodes s !! next_leaf xr = Some z0 → next_leaf z = next_leaf z0.

Lemma merge_prev s' :
  nodes s' = ns' → links_merged → prev_ok s G → prev_ok s' G'.
Proof using All.
  intros En (Hk & Hpl & z & Hz & Hpz & Hnz) Hp p g x' u' Hg Hh Hu Hx'. rewrite En in Hx' |- *.
  destruct (decide (p = l)) as [->|Nl].
  { assert (x' = xl') as -> by congruence. exists z. destruct Hsl as (_ & _ & ->). done. }
  assert (Nr : p ≠ r) by (intros ->; congruence). rewrite HGother in Hg by done.
  destruct (node_at fh ok _ _ s G TI p g Hg) as [x Hx]. pose proof (page_at p g x Hg Hx) as PO.
  assert (Enx : next_leaf x' = next_leaf x).
  { destruct (decide (p = next_leaf xr)) as [E|N].
    - rewrite <- E in Hz, Hnz. assert (x' = z) as -> by congruence. by apply Hnz.
    - pose proof (Hk p Nl N) as E. rewrite Hx', Hx in E. simpl in E. injection E as _ E. done. }
  destruct (Hp p g x u' Hg Hh Hu Hx) as (n & Hn & Hpn). rewrite Enx.
  pose proof (po_next _ _ _ _ _ _ _ _ _ PO Hh) as Hno. unfold next_ok in Hno. rewrite Hu in Hno. destruct Hno as (gn & HGn & Hhn & Hln).
  destruct (decide (next_leaf x = l)) as [E|N1].
  { rewrite E in Hn |- *. exists xl'. split; [done|]. destruct (SB). congruence. }
  destruct (decide (next_leaf x = next_leaf xr)) as [E|N2].
  { exfalso. destruct (SB). destruct (hi gr) as [w|] eqn:Ew.
    - destruct (right_next w Ew) as (gn' & HGn' & _ & Hln' & _ & _). rewrite E in HGn. assert (w = u') as -> by congruence.
      apply Nr. apply (ends_at p g r gr u'); congruence.
    - pose proof (po_next _ _ _ _ _ _ _ _ _ (proj2 (proj2 sib_pages)) sb_hr0) as Hnr. unfold next_ok in Hnr. rewrite Ew in Hnr.
      rewrite E, Hnr in HGn. destruct (ti_page _ _ _ _ _ _ TI _ _ HGn) as [Hlt _]. unfold IX_LEAF_HEADER_PAGE in Hlt. lia. }
  pose proof (Hk _ N1 N2) as E. rewrite Hn in E. simpl in E. apply fmap_Some in E as (n' & Hn' & [= E _]). exists n'. split; [done|congruence].
Qed.

Lemma merge_tree s' :
  key_hdr fh (file_hdr s') → root_page (file_hdr s') = root_page (file_hdr s) → nodes s' = ns' → next_page s' = next_page s →
  is_Some (ns' !! IX_LEAF_HEADER_PAGE) → entries xl' = entries xl ++ entries xr → links_merged → prev_ok s G →
  rebalanced fh ok s G s' G'.
Proof using All.
  intros Eh Er En Enx Hhdr HE Hk Hp. split_and!; [by apply merge_inv|by apply merge_prev|apply merge_heights|]. intros k v Ok. by apply merge_has.
Qed.

End Merge.
End Siblings.
