(* ===== verification/IxRebalance.v ===== *)
(** Deletion from the B+ tree in full: [CoalesceOrRedistribute] on a leaf that has
    run short, and [delete_entry] with it.

    Three changes of the tree are put together: a leaf loses an entry, two
    neighbouring leaves share their entries anew or become one ([IxMerge]), and a
    root with one child gives way to it. *)
From S2P Require Import Prelude Config IxKey IxNode IxNodeSpec IxTree IxTreeSpec IxTreeSplit IxTreeInsert IxInsert IxFile IxBuild IxDelete IxMerge.

(** Leftover keys need not be looked at. *)
Lemma tree_inv_loose fh ok c full s G : tree_inv fh ok (MkMode true c) full s G → tree_inv fh ok loose full s G.
Proof.
  intros [T1 T2 T3 T4 T5 T6]. split; try done. intros p g HG. destruct (T5 p g HG) as (Hlt & x & Hx & PO).
  split; [done|]. exists x. split; [done|]. by destruct PO; split.
Qed.

(** ** A leaf loses entries *)

Section Removed.
Context (fh : IxFileHdr) (ok : key → Prop) {KO : KeyOrder (compare fh) ok}.
Context (s : IxState) (G : gmap Z info) (TI : tree_inv fh ok loose no_full s G).
Context (q : Z) (gq : info) (x x' : IxNode).
Context (HG : G !! q = Some gq) (Hx : nodes s !! q = Some x) (Hq : ht gq = O).
Context (Hn' : node_ok fh ok x') (Hlen' : length (keys x') = length (keys x)) (Hnum' : num_key x' ≤ num_key x).
Context (Hsub : ∀ c, c ∈ live_keys x' → c ∈ live_keys x).
Context (Hleaf' : is_leaf x' = is_leaf x) (Hpar' : parent x' = parent x) (Hlinks : links x' = links x).
Context (s' : IxState) (Eh : file_hdr s' = file_hdr s) (En : nodes s' = <[q := x']> (nodes s)) (Enx : next_page s' = next_page s).
Abbreviation cmp := (compare fh).
Abbreviation page_at := (page_at fh ok loose no_full s G TI).

Lemma removed_frame p y : nodes s !! p = Some y →
  ∃ y', nodes s' !! p = Some y' ∧ parent y' = parent y ∧ links y' = links y ∧ (p ≠ q → y' = y).
Proof using En Hx Hpar' Hlinks.
  intros Hy. rewrite En. destruct (decide (p = q)) as [->|Hne].
  - exists x'. rewrite lookup_insert_eq. assert (y = x) as -> by congruence. by split_and!.
  - exists y. by rewrite lookup_insert_ne.
Qed.

Lemma removed_page p g y : G !! p = Some g → nodes s !! p = Some y →
  ∃ y', nodes s' !! p = Some y' ∧ page_ok fh ok loose (nodes s') G no_full p g y'.
Proof using All.
  intros HGp Hy. pose proof (page_at p g y HGp Hy) as PO. destruct (removed_frame p y Hy) as (y' & Hy' & _ & _ & Hsame).
  exists y'. split; [done|]. destruct (decide (p = q)) as [->|Hne].
  - rewrite En, lookup_insert_eq in Hy'. injection Hy' as <-. assert (y = x) as -> by congruence. assert (g = gq) as -> by congruence.
    destruct PO as [P1 P2 P3 P4 P5 P6 P7 P8 P9 P10 P11]. injection Hlinks as _ Hnext. split; try done.
    + by rewrite Hlen'.
    + destruct P3 as [?|[]]. left. lia.
    + rewrite Forall_forall in P6 |- *. intros c Hc. apply P6, Hsub, Hc.
    + by rewrite Hleaf'.
    + intros Hh. specialize (P8 Hh). unfold next_ok in *. by rewrite Hnext.
  - rewrite (Hsame Hne). destruct PO as [P1 P2 P3 P4 P5 P6 P7 P8 P9 P10 P11]. split; try done.
    intros Hh i c Hc. destruct (P10 Hh i c Hc) as (gc & xc & HGc & Hxc & Hpc & Hrest).
    destruct (removed_frame _ xc Hxc) as (xc' & Hxc' & Hpc' & _). exists gc, xc'. split_and!; try done; try apply Hrest. congruence.
Qed.

Lemma removed_inv : tree_inv fh ok loose no_full s' G.
Proof using All.
  destruct (TI) as [T1 T2 T3 T4 T5 T6]. split; rewrite ?Eh, ?Enx; try done.
  - destruct T3 as [y Hy]. destruct (removed_frame _ _ Hy) as (y' & Hy' & _). by exists y'.
  - destruct T4 as (gr & xr & HGr & Hxr & Hp & Hrest). destruct (removed_frame _ _ Hxr) as (y' & Hy' & Hp' & _).
    exists gr, y'. split_and!; try done; try apply Hrest. congruence.
  - intros p g HGp. destruct (T5 p g HGp) as (Hlt & y & Hy & _). split; [done|]. by apply (removed_page p g y).
  - intros p g HGp Hne. destruct (T6 p g HGp Hne) as (q1 & g1 & x1 & i & rd & HG1 & Hh1 & Hx1 & Hr & Hp).
    assert (N : q1 ≠ q) by (intros ->; assert (g1 = gq) as -> by congruence; lia).
    exists q1, g1, x1, i, rd. split_and!; try done. by rewrite En, lookup_insert_ne.
Qed.

Lemma removed_prev : prev_ok s G → prev_ok s' G.
Proof using All.
  intros Hp. apply (prev_ok_keep s G); [done| |by intros p g u; exists g, u].
  intros p. destruct (nodes s !! p) as [y|] eqn:Hy.
  - destruct (removed_frame p y Hy) as (y' & -> & _ & E & _). simpl. by rewrite E.
  - rewrite En, lookup_insert_ne by congruence. by rewrite Hy.
Qed.

Lemma removed_has k k' v :
  ok k → ok k' → is_Some (assoc fh k (entries x)) →
  (∀ k', ok k' → assoc fh k' (entries x') = if cmp k' k =? 0 then None else assoc fh k' (entries x)) →
  has fh s' G k' v ↔ has fh s G k' v ∧ cmp k' k ≠ 0.
Proof using All.
  intros Hk Hk' [v0 Hv0] Has. pose proof (assoc_within fh ok _ _ s G TI k Hk q gq x v0 HG Hx Hv0) as Wk.
  pose proof (po_bounds _ _ _ _ _ _ _ _ _ (page_at q gq x HG Hx)) as B. unfold has. rewrite En. split.
  - intros (p & g & y & HGp & Hh & Hy & Ha). destruct (decide (p = q)) as [->|Hne].
    + rewrite lookup_insert_eq in Hy. injection Hy as <-. rewrite Has in Ha by done. destruct (Z.eqb_spec (cmp k' k) 0); [done|].
      split; [by exists q, gq, x|done].
    + rewrite lookup_insert_ne in Hy by done. split; [by exists p, g, y|]. intros Hz. apply Hne.
      apply (same_height fh ok _ _ s G TI k' p g q gq Hk' HGp HG); [congruence| |by apply (within_cong fh ok gq k k')].
      by apply (assoc_within fh ok _ _ s G TI k' Hk' p g y v).
  - intros ((p & g & y & HGp & Hh & Hy & Ha) & Hz). destruct (decide (p = q)) as [->|Hne].
    + exists q, gq, x'. rewrite lookup_insert_eq, Has, (proj2 (Z.eqb_neq _ _)) by done. split_and!; try done. congruence.
    + exists p, g, y. by rewrite lookup_insert_ne.
Qed.

End Removed.

(** ** A root with one child *)

Section Collapse.
Context (fh : IxFileHdr) (ok : key → Prop) {KO : KeyOrder (compare fh) ok}.
Context (s : IxState) (G : gmap Z info) (TI : tree_inv fh ok loose no_full s G).
Abbreviation root := (root_page (file_hdr s)).
Abbreviation page_at := (page_at fh ok loose no_full s G TI).
Context (gr : info) (x : IxNode) (HG : G !! root = Some gr) (Hx : nodes s !! root = Some x) (Hh : ht gr ≠ O) (Hone : num_key x = 1).
Context (rd : Rid) (Hrd : live_rids x !! O = Some rd).
Abbreviation c := (rid_page_no rd).
Context (gc : info) (xc : IxNode) (HGc : G !! c = Some gc) (Hxc : nodes s !! c = Some xc) (Hhc : ht gr = S (ht gc)) (Hic : hi gc = None).
Abbreviation gc' := (MkInfo (ht gc) None None).
Abbreviation G' := (<[c := gc']> (delete root G)).
Context (s' : IxState) (Ehdr : key_hdr fh (file_hdr s')) (Eroot : root_page (file_hdr s') = c)
  (En : nodes s' = <[c := SetParentPageNo INVALID_PAGE_ID xc]> (nodes s)) (Enx : next_page s' = next_page s).

Lemma root_height : lo gr = None ∧ hi gr = None ∧ ∀ p g, G !! p = Some g → (ht g ≤ ht gr)%nat ∧ (ht g = ht gr → p = root).
Proof using TI HG.
  destruct (ti_root _ _ _ _ _ _ TI) as (g0 & x0 & HG0 & _ & _ & L & U & Hmax). assert (g0 = gr) as -> by congruence. done.
Qed.

(** The child is alone at its height. *)
Lemma only_child p g : G !! p = Some g → ht g = ht gc → p = c.
Proof using All.
  intros Hp E. destruct root_height as (_ & _ & Hmax). assert (Hne : p ≠ root) by (intros ->; assert (g = gr) as -> by congruence; lia).
  destruct (ti_up _ _ _ _ _ _ TI p g Hp Hne) as (q & gq & y & i & r & HGq & Hhq & Hy & Hr & Hrp).
  destruct (Hmax q gq HGq) as [_ Hq]. rewrite Hq in HGq, Hy by lia. assert (y = x) as -> by congruence.
  pose proof (lookup_lt_Some _ _ _ Hr) as Hlt. unfold live_rids in Hlt. rewrite length_take, Hone in Hlt.
  assert (i = O) as -> by lia. congruence.
Qed.

Lemma c_ne_root : c ≠ root.
Proof using All. intros E. rewrite E in HGc. assert (gc = gr) as E' by congruence. rewrite E' in Hhc. lia. Qed.

Lemma collapsed_ghost p g : G' !! p = Some g → p = c ∧ g = gc' ∨ p ≠ c ∧ p ≠ root ∧ G !! p = Some g ∧ (ht g < ht gc)%nat.
Proof using All.
  intros Hp. destruct (decide (p = c)) as [->|Hne]; [rewrite lookup_insert_eq in Hp; left; by injection Hp as <-|].
  rewrite lookup_insert_ne in Hp by done. apply lookup_delete_Some in Hp as [Hr Hp]. right. split_and!; [done|done|done|].
  destruct root_height as (_ & _ & Hmax). destruct (Hmax p g Hp) as [Hle Hr']. assert (ht g ≠ ht gc) by (intros E; by apply Hne, (only_child p g)).
  assert (ht g ≠ ht gr) by (intros E; apply Hr; symmetry; by apply Hr'). lia.
Qed.

Lemma ghost_kept p g : G !! p = Some g → p ≠ c → p ≠ root → G' !! p = Some g.
Proof. intros Hp Nc Nr. rewrite lookup_insert_ne, lookup_delete_ne by done. done. Qed.

(** A page in its new surroundings, for its interval as it is now. *)
Lemma collapsed_page p g g' y y' :
  p ≠ root → G !! p = Some g → nodes s !! p = Some y → ht g' = ht g → hi g' = hi g → (lo g' = lo g ∨ lo g' = None) →
  num_key y' = num_key y → is_leaf y' = is_leaf y → next_leaf y' = next_leaf y → keys y' = keys y → rids y' = rids y →
  page_ok fh ok loose (nodes s') G' no_full p g' y'.
Proof using All.
  intros Nr HGp Hy E1 E2 E3 Y1 Y2 Y3 Y4 Y5. destruct (page_at p g y HGp Hy) as [P1 P2 P3 P4 P5 P6 P7 P8 P9 P10 P11].
  assert (Hs : same_node y y') by done. destruct (live_same y y' Hs) as (L1 & L2 & _).
  split; rewrite ?E1, ?L1, ?L2, ?Y1, ?Y2, ?Y4; try done.
  - by apply (node_ok_same fh ok y).
  - destruct P5 as [B1 B2]. split; [|by rewrite E2]. intros l Hl. destruct E3 as [E|E]; rewrite E in Hl; [by apply B1|done].
  - apply (Forall_impl _ _ _ P6). intros k [W1 W2]. split; [|by rewrite E2]. intros l Hl.
    destruct E3 as [E|E]; rewrite E in Hl; [by apply W1|done].
  - intros Hz. specialize (P8 Hz). unfold next_ok in *. rewrite E2, Y3. destruct (hi g) as [w|] eqn:Ew; [|done].
    destruct P8 as (gn & HGn & Hhn & Hln). exists gn. split_and!; try done. apply ghost_kept; [done| |].
    + intros E. assert (p = c) as -> by (apply (only_child p g); [done|]; rewrite E in HGn; congruence). congruence.
    + intros E. rewrite E in HGn. assert (gn = gr) as -> by congruence. lia.
  - intros Hz i r Hr. destruct (P10 Hz i r Hr) as (gk & xk & HGk & Hxk & Hpk & Hhk & Hlk & Hik).
    assert (Nc : rid_page_no r ≠ c).
    { intros E. rewrite E in HGk, Hxk. assert (gk = gc) as -> by congruence. destruct root_height as (_ & _ & Hmax).
      apply Nr, (Hmax p g HGp). lia. }
    assert (Nrt : rid_page_no r ≠ root).
    { intros E. rewrite E in HGk. assert (gk = gr) as -> by congruence. destruct root_height as (_ & _ & Hmax).
      destruct (Hmax p g HGp). lia. }
    exists gk, xk. rewrite En, (lookup_insert_ne (nodes s)) by done. unfold child_lo, child_hi in *. simpl in *. rewrite L1, E1, E2.
    split_and!; try done. by apply ghost_kept.
  - intros _ Hz l Hl. destruct E3 as [E|E]; rewrite E in Hl; [by apply P11|done].
Qed.

Lemma collapsed_inv : tree_inv fh ok loose no_full s' G'.
Proof using All.
  destruct (TI) as [T1 T2 T3 T4 T5 T6]. pose proof c_ne_root as Ncr. split; rewrite ?Eroot, ?Enx; try done.
  - rewrite En. destruct T3 as [y Hy]. destruct (decide (IX_LEAF_HEADER_PAGE = c)) as [E|E].
    + rewrite <- E, lookup_insert_eq. by eexists.
    + rewrite lookup_insert_ne by done. by eexists.
  - exists gc', (SetParentPageNo INVALID_PAGE_ID xc). rewrite En, !lookup_insert_eq. split_and!; try done.
    intros p g Hp. destruct (collapsed_ghost p g Hp) as [[-> ->]|(_ & _ & _ & Hlt)]; simpl; [done|lia].
  - intros p g Hp. destruct (collapsed_ghost p g Hp) as [[-> ->]|(Nc & Nr & HGp & _)].
    + destruct (T5 c gc HGc) as (Hlt & _). split; [done|]. exists (SetParentPageNo INVALID_PAGE_ID xc). rewrite En, lookup_insert_eq.
      split; [done|]. rewrite <- En. by apply (collapsed_page c gc gc' xc); auto.
    + destruct (T5 p g HGp) as (Hlt & y & Hy & _). split; [done|]. exists y. rewrite En, lookup_insert_ne by done. split; [done|].
      rewrite <- En. apply (collapsed_page p g g y); auto.
  - intros p g Hp Hne. destruct (collapsed_ghost p g Hp) as [[-> _]|(Nc & Nr & HGp & Hlt)]; [done|].
    destruct (T6 p g HGp Nr) as (q & gq & y & i & r & HGq & Hhq & Hy & Hr & Hrp). destruct (decide (q = c)) as [->|Nq].
    + exists c, gc', (SetParentPageNo INVALID_PAGE_ID xc), i, r. rewrite En, !lookup_insert_eq. assert (y = xc) as -> by congruence.
      split_and!; try done. simpl. congruence.
    + exists q, gq, y, i, r. rewrite En, (lookup_insert_ne (nodes s)) by done. split_and!; try done. apply ghost_kept; [done|done|].
      intros ->. assert (gq = gr) as -> by congruence. lia.
Qed.

Lemma collapsed_heights : heights_kept G G'.
Proof using All.
  intros p g Hp. destruct (collapsed_ghost p g Hp) as [[-> ->]|(_ & _ & HGp & _)]; [by exists gc|by exists g].
Qed.

Lemma collapsed_prev : prev_ok s G → prev_ok s' G'.
Proof using All.
  intros Hp. apply (prev_ok_keep s G); [done| |].
  - intros p. rewrite En. destruct (decide (p = c)) as [->|Hne]; [by rewrite lookup_insert_eq, Hxc|by rewrite lookup_insert_ne].
  - intros p g u Hg Hz Hu. destruct (collapsed_ghost p g Hg) as [[-> ->]|(_ & _ & HGp & _)]; [done|]. by exists g, u.
Qed.

Lemma collapsed_has k v : has fh s' G' k v ↔ has fh s G k v.
Proof using All.
  unfold has. rewrite En. split.
  - intros (p & g & y & Hg & Hz & Hy & Ha). destruct (collapsed_ghost p g Hg) as [[-> ->]|(Nc & _ & HGp & _)].
    + rewrite lookup_insert_eq in Hy. injection Hy as <-. by exists c, gc, xc.
    + rewrite lookup_insert_ne in Hy by done. by exists p, g, y.
  - intros (p & g & y & Hg & Hz & Hy & Ha). assert (Nr : p ≠ root) by (intros ->; congruence). destruct (decide (p = c)) as [->|Nc].
    + exists c, gc', (SetParentPageNo INVALID_PAGE_ID xc). rewrite !lookup_insert_eq. assert (y = xc) as -> by congruence.
      split_and!; try done. simpl. congruence.
    + exists p, g, y. rewrite (lookup_insert_ne (nodes s)) by done. split_and!; try done. by apply ghost_kept.
Qed.

End Collapse.

(** ** Runs *)

(** An inner page starts with the key its parent has for it. *)
Lemma maintain_stop fh ok `{KO : !KeyOrder (compare fh) ok} t G p g x fuel :
  (∀ k, ok k → length k = Z.to_nat (col_len fh)) → tree_inv fh ok loose no_full t G → pins_ok t →
  G !! p = Some g → ht g ≠ O → nodes t !! p = Some x →
  ∃ t', maintain_parent (S fuel) p t = (Ok tt, t') ∧ moved t t' (nodes t).
Proof.
  intros Hlen TI Hps HG Hh Hx. destruct (decide (p = root_page (file_hdr t))) as [E|Hne].
  - destruct (ti_root _ _ _ _ _ _ TI) as (g0 & x0 & HG0 & Hx0 & Hp0 & _). rewrite <- E in Hx0. assert (x0 = x) as -> by congruence.
    exists t. cbn [maintain_parent]. mstep (read_node_run _ parent t x Hx). rewrite Hp0. by split.
  - destruct (parent_at fh ok _ _ t G TI eq_refl p g HG Hne) as (pp & gp & y & i & r & k & xp & HGp & Hhp & Hy & Hr & Hrp & Hk & Hlo & _ & Hxp & Hpar).
    assert (xp = x) as -> by congruence. pose proof (page_at fh ok _ _ t G TI p g x HG Hx) as PO.
    pose proof (page_at fh ok _ _ t G TI pp gp y HGp Hy) as POp. destruct (ti_page _ _ _ _ _ _ TI pp gp HGp) as [Hpp _].
    pose proof (po_node _ _ _ _ _ _ _ _ _ POp) as Hn. pose proof (Hlen k (live_ok fh ok y i k Hn Hk)) as Hlk.
    pose proof (po_tight _ _ _ _ _ _ _ _ _ PO eq_refl Hh k Hlo) as Hk0. unfold live_keys in Hk, Hk0.
    apply lookup_take_Some in Hk as [Hk _], Hk0 as [Hk0 _].
    pose proof (maintain_parent_step fh ok t p x pp y i r k k fuel Hps ltac:(apply (ti_hdr _ _ _ _ _ _ TI)) Hx Hpar
      ltac:(unfold IX_NO_PAGE; lia) Hy Hn Hr Hrp ltac:(intros i' r' Hi Ei; apply (kid_inj fh ok loose no_full _ _ _ _ _ i i' r r' eq_refl POp ltac:(lia) Hr Hi); congruence)
      Hk Hk0 Hlk Hlk) as H. by rewrite decide_True in H.
Qed.

Lemma maintain_child_leaf p x t i : nodes t !! p = Some x → is_leaf x = true → maintain_child p i t = (Ok tt, t).
Proof. intros Hx Hl. unfold maintain_child. mstep (read_node_run _ is_leaf t x Hx). by rewrite Hl. Qed.

Section Pair.
Context (fh : IxFileHdr) (ok : key → Prop) {KO : KeyOrder (compare fh) ok}.
Context (Hlen : ∀ k, ok k → length k = Z.to_nat (col_len fh)).
Context (s : IxState) (G : gmap Z info) (TI : tree_inv fh ok loose no_full s G) (PV : prev_ok s G).
Context (pp : Z) (gp : info) (y : IxNode) (j : nat) (a u : key) (l : Z) (gl : info) (xl : IxNode) (r : Z) (gr : info) (xr : IxNode).
Context (SB : siblings s G pp gp y j a u l gl xl r gr xr).
Abbreviation cmp := (compare fh).
Abbreviation ks := (both_keys xl xr).
Abbreviation rs := (both_rids xl xr).
Abbreviation sib_pages := (sib_pages fh ok s G TI pp gp y j a u l gl xl r gr xr SB).
Abbreviation sib_ne := (sib_ne fh ok s G TI pp gp y j a u l gl xl r gr xr SB).
Abbreviation both_range := (both_range fh ok s G TI pp gp y j a u l gl xl r gr xr SB).
Abbreviation both_sorted := (both_sorted fh ok s G TI pp gp y j a u l gl xl r gr xr SB).

(** What a page keeps when its entries change. *)
Definition same_place (x x' : IxNode) : Prop :=
  is_leaf x' = is_leaf x ∧ parent x' = parent x ∧ links x' = links x ∧
  length (keys x') = length (keys x) ∧ length (rids x') = length (rids x).

(** The two leaves share their entries: the first [i] on the left, the rest on the
    right, from the key [c] on. *)
Record shared (i : nat) (c : key) (xl' xr' : IxNode) : Prop := {
  sh_kl : live_keys xl' = take i ks; sh_rl : live_rids xl' = take i rs;
  sh_kr : live_keys xr' = drop i ks; sh_rr : live_rids xr' = drop i rs;
  sh_c : ks !! i = Some c; sh_pos : (0 < i)%nat; sh_new : c ≠ u;
  sh_numl : 0 ≤ num_key xl' ≤ btree_order fh; sh_numr : 0 ≤ num_key xr' ≤ btree_order fh;
  sh_left : same_place xl xl'; sh_right : same_place xr xr'
}.

Lemma both_rids_length : length rs = length ks.
Proof using TI SB.
  destruct sib_pages as (_ & PL & PR). unfold both_keys, both_rids.
  rewrite !length_app, !(length_live fh ok), !(length_live_rids fh ok) by (apply PL || apply PR). done.
Qed.

Lemma both_entries : entries xl ++ entries xr = zip ks rs.
Proof using TI SB.
  destruct sib_pages as (_ & PL & _). unfold entries, both_keys, both_rids. rewrite zip_with_app; [done|].
  rewrite (length_live fh ok), (length_live_rids fh ok) by apply PL. done.
Qed.

Lemma shared_entries i c xl' xr' : shared i c xl' xr' → entries xl' ++ entries xr' = entries xl ++ entries xr.
Proof using TI SB.
  intros [E1 E2 E3 E4 _ _ _ _ _ _ _]. rewrite both_entries. unfold entries. rewrite E1, E2, E3, E4, <- zip_with_take, <- zip_with_drop.
  apply take_drop.
Qed.

Lemma shared_nodes i c xl' xr' : shared i c xl' xr' → node_ok fh ok xl' ∧ node_ok fh ok xr'.
Proof using TI SB KO.
  intros [E1 _ E3 _ _ _ _ Nl Nr (_ & _ & _ & Kl & Rl) (_ & _ & _ & Kr & Rr)]. destruct sib_pages as (_ & PL & PR).
  pose proof (po_len _ _ _ _ _ _ _ _ _ PL). pose proof (po_len _ _ _ _ _ _ _ _ _ PR).
  pose proof (no_rids _ _ _ (po_node _ _ _ _ _ _ _ _ _ PL)). pose proof (no_rids _ _ _ (po_node _ _ _ _ _ _ _ _ _ PR)).
  split.
  - apply (stretch_node fh ok s G TI pp gp y j a u l gl xl r gr xr SB 0 i); [done|lia|congruence].
  - apply (stretch_node fh ok s G TI pp gp y j a u l gl xl r gr xr SB i (length ks)); [|lia|congruence].
    rewrite E3, take_ge; [done|]. rewrite length_drop. lia.
Qed.

Lemma shared_ranges i c xl' xr' : shared i c xl' xr' →
  cmp a c < 0 ∧ Forall (within fh (MkInfo 0 (Some a) (Some c))) (live_keys xl') ∧ Forall (within fh (MkInfo 0 (Some c) (hi gr))) (live_keys xr').
Proof using TI SB KO.
  intros [E1 _ E3 _ Hc Hi _ _ _ _ _]. pose proof both_sorted as Hs.
  assert (Hlt : ∀ n k, (n < i)%nat → ks !! n = Some k → cmp k c < 0).
  { intros n k Hn Hk. apply (sorted_lookup (λ a b, cmp a b < 0) ks n i k c Hs Hk Hc Hn). }
  destruct (both_range i c Hc) as (Oc & _ & _). split_and!.
  - destruct (lookup_lt_is_Some_2 ks 0) as [k0 Hk0]; [apply lookup_lt_Some in Hc; lia|]. destruct (both_range 0 k0 Hk0) as (O0 & A0 & _).
    destruct (sib_keys fh ok s G TI pp gp y j a u l gl xl r gr xr SB) as (Oa & _ & _).
    apply (cmp_le_lt_trans (ok := ok) a k0 c); [done|done|done|done|]. by apply (Hlt 0%nat).
  - rewrite E1. apply Forall_lookup. intros n k Hk. apply lookup_take_Some in Hk as [Hk Hn]. destruct (both_range n k Hk) as (_ & A & _).
    split; simpl; [by intros ? [= <-]|]. intros w [= <-]. by apply (Hlt n).
  - rewrite E3. apply Forall_lookup. intros n k Hk. rewrite lookup_drop in Hk. destruct (both_range _ k Hk) as (Ok & _ & W).
    split; simpl; [|done]. intros w [= <-]. destruct n as [|n].
    + rewrite Nat.add_0_r in Hk. assert (k = c) as -> by congruence. by rewrite (cmp_refl (ok := ok)).
    + assert (cmp c k < 0); [|lia]. apply (sorted_lookup (λ a b, cmp a b < 0) ks i (i + S n) c k Hs Hc Hk). lia.
Qed.

(** The state with the two leaves replaced. *)
Definition two_pages (t : IxState) (xl' xr' : IxNode) : Prop :=
  file_hdr t = file_hdr s ∧ next_page t = next_page s ∧ pins_ok t ∧ nodes t !! l = Some xl' ∧ nodes t !! r = Some xr' ∧
  ∀ p, p ≠ l → p ≠ r → nodes t !! p = nodes s !! p.

Lemma separator_step i c xl' xr' t fuel : shared i c xl' xr' → two_pages t xl' xr' →
  ∃ t', maintain_parent (S fuel) r t = maintain_parent fuel pp t' ∧
    moved t t' (<[pp := set_arrays (<[S j := c]> (keys y)) (rids y) y]> (nodes t)).
Proof using TI SB KO Hlen.
  intros [_ _ E3 _ Hc _ Hnew _ _ _ (_ & Hpar & _)] (T1 & _ & T3 & _ & T5 & T6).
  destruct sib_ne as (_ & Npl & Npr). destruct sib_pages as (PO & _ & _). pose proof (po_node _ _ _ _ _ _ _ _ _ PO) as Hn.
  destruct (sib_keys fh ok s G TI pp gp y j a u l gl xl r gr xr SB) as (_ & Ou & _). destruct (both_range i c Hc) as (Oc & _ & _).
  destruct (SB). destruct sb_rr as (rd & Hrd & Erd). destruct (ti_page _ _ _ _ _ _ TI pp gp sb_Gp) as [Hlt _].
  unfold live_keys in sb_u. apply lookup_take_Some in sb_u as [Hku _].
  assert (Hk0 : live_keys xr' !! 0%nat = Some c) by (by rewrite E3, lookup_drop, Nat.add_0_r).
  unfold live_keys in Hk0. apply lookup_take_Some in Hk0 as [Hk0 _].
  pose proof (maintain_parent_step fh ok t r xr' pp y (S j) rd u c fuel T3 ltac:(rewrite T1; apply (ti_hdr _ _ _ _ _ _ TI)) T5
    ltac:(congruence) ltac:(unfold IX_NO_PAGE; lia) ltac:(by rewrite T6) Hn Hrd Erd
    ltac:(intros i' r' Hi Ei; apply (kid_inj fh ok loose no_full _ _ _ _ _ (S j) i' rd r' eq_refl PO ltac:(lia) Hrd Hi); congruence)
    Hku Hk0 (Hlen u Ou) (Hlen c Oc)) as H. by rewrite decide_False in H.
Qed.

Lemma shared_tree i c xl' xr' t fuel : shared i c xl' xr' → two_pages t xl' xr' →
  ∃ t' G', maintain_parent (S (S fuel)) r t = (Ok tt, t') ∧ pins_ok t' ∧ file_hdr t' = file_hdr s ∧ rebalanced fh ok s G t' G'.
Proof using TI SB KO Hlen PV.
  intros Hsh Htp. destruct (separator_step i c xl' xr' t (S fuel) Hsh Htp) as (t1 & Hrun & (M1 & M2 & M3 & M4)).
  destruct (shared_ranges i c xl' xr' Hsh) as (Hac & Wl & Wr). destruct (shared_nodes i c xl' xr' Hsh) as [Nl Nr].
  pose proof (shared_entries i c xl' xr' Hsh) as HE. destruct sib_ne as (Nlr & Npl & Npr).
  destruct Hsh as [_ _ _ _ Hc _ _ Rl Rr (Fl1 & Fl2 & Fl3 & Fl4 & _) (Fr1 & Fr2 & Fr3 & Fr4 & _)].
  destruct (both_range i c Hc) as (Oc & _ & Wc). destruct Htp as (T1 & T2 & T3 & T4 & T5 & T6).
  injection Fl3 as Fl5 Fl6. injection Fr3 as Fr5 Fr6.
  set (G' := <[l := MkInfo 0 (Some a) (Some c)]> (<[r := MkInfo 0 (Some c) (hi gr)]> G)).
  assert (RB : rebalanced fh ok s G t1 G').
  { apply (shift_tree fh ok s G TI pp gp y j a u l gl xl r gr xr SB (nodes t1) G') with (c := c) (xl' := xl') (xr' := xr'); try done; try lia; try congruence.
    - intros p x N1 N2 N3 Hx. exists x. rewrite M3, lookup_insert_ne, T6 by done. split_and!; try done.
    - eexists. rewrite M3, lookup_insert_eq. by split.
    - intros p N1 N2. unfold G'. by rewrite !lookup_insert_ne by done.
    - eexists. unfold G'. rewrite lookup_insert_eq. split_and!; try done. destruct (SB). done.
    - by rewrite M3, lookup_insert_ne.
    - by rewrite M3, lookup_insert_ne.
    - by rewrite M3, lookup_insert_eq.
    - unfold G'. by rewrite lookup_insert_eq.
    - unfold G'. by rewrite lookup_insert_ne, lookup_insert_eq.
    - destruct (ti_header _ _ _ _ _ _ TI) as [z Hz]. rewrite M3. destruct (decide (IX_LEAF_HEADER_PAGE = pp)) as [<-|N1]; [rewrite lookup_insert_eq; by eexists|].
      rewrite lookup_insert_ne by done. destruct (decide (IX_LEAF_HEADER_PAGE = l)) as [->|N2]; [by eexists|].
      destruct (decide (IX_LEAF_HEADER_PAGE = r)) as [->|N3]; [by eexists|]. rewrite T6 by done. by eexists.
    - intros p. rewrite M3. destruct (SB). destruct (decide (p = pp)) as [->|N1]; [by rewrite lookup_insert_eq, sb_y|].
      rewrite lookup_insert_ne by done. destruct (decide (p = l)) as [->|N2]; [rewrite T4, sb_l; unfold links; simpl; congruence|].
      destruct (decide (p = r)) as [->|N3]; [rewrite T5, sb_r; unfold links; simpl; congruence|]. by rewrite T6. }
  rewrite Hrun. pose proof (proj1 RB) as TI1.
  destruct (maintain_stop fh ok t1 G' pp gp (set_arrays (<[S j := c]> (keys y)) (rids y) y) fuel Hlen TI1 M4) as (t2 & Hrun2 & (K1 & K2 & K3 & K4)).
  - unfold G'. rewrite !lookup_insert_ne by done. by destruct (SB).
  - destruct (SB). lia.
  - by rewrite M3, lookup_insert_eq.
  - exists t2, G'. split_and!; [done|done|congruence|]. by apply (rebalanced_pins fh ok s G t1 G').
Qed.

(** ** Redistribute *)

Lemma live_keys_at (x : IxNode) (i : nat) k : live_keys x !! i = Some k → keys x !! i = Some k.
Proof. unfold live_keys. by intros [? _]%lookup_take_Some. Qed.

Lemma live_rids_at (x : IxNode) (i : nat) k : live_rids x !! i = Some k → rids x !! i = Some k.
Proof. unfold live_rids. by intros [? _]%lookup_take_Some. Qed.

(** From the right leaf's front to the left leaf's end. *)
Lemma pass_left m fuel :
  pins_ok (set_pinmap m s) → 2 ≤ num_key xr → num_key xl < btree_order fh →
  ∃ t i c xl' xr', Redistribute fuel r l 0 (set_pinmap m s) = maintain_parent fuel r t ∧ shared i c xl' xr' ∧ two_pages t xl' xr'.
Proof using TI SB KO.
  intros Hps Hnr Hnl. destruct sib_ne as (Nlr & _ & _). destruct sib_pages as (_ & PL & PR).
  pose proof (po_node _ _ _ _ _ _ _ _ _ PL) as NL. pose proof (po_node _ _ _ _ _ _ _ _ _ PR) as NR.
  pose proof (length_live fh ok xr NR) as Lr. pose proof (length_live_rids fh ok xr NR) as Lrr. pose proof (length_live fh ok xl NL) as Ll.
  pose proof (length_live_rids fh ok xl NL) as Llr. pose proof (no_num _ _ _ NL) as Hn0. pose proof (po_len _ _ _ _ _ _ _ _ _ PL) as Kl.
  pose proof (po_len _ _ _ _ _ _ _ _ _ PR) as Kr. destruct (po_room _ _ _ _ _ _ _ _ _ PR) as [Room|[]].
  destruct (live_keys xr) as [|k1 [|c tk]] eqn:Ek; [simpl in Lr; lia..|]. destruct (live_rids xr) as [|r1 tr] eqn:Er; [simpl in Lrr; lia|].
  pose proof (sb_l _ _ _ _ _ _ _ _ _ _ _ _ _ _ SB) as Hxl. pose proof (sb_r _ _ _ _ _ _ _ _ _ _ _ _ _ _ SB) as Hxr.
  set (s0 := set_pinmap m s) in *. unfold Redistribute. simpl.
  mstep (read_node_run l num_key s0 xl Hxl). mstep (on_get_key s0 r xr Hxr 0 k1 ltac:(apply live_keys_at; by rewrite Ek)).
  mstep (on_get_rid s0 r xr Hxr 0 r1 ltac:(apply live_rids_at; by rewrite Er)).
  destruct (insert_pairs_run xl (num_key xl) [k1] [r1] 1) as (xl' & Hins & I1 & I2 & I3 & I4 & I5 & (I6 & I7 & I8 & I9) & _);
    [lia|lia|lia|apply NL|done|done|].
  mstep (on_node_run l (λ _, insert_pair (num_key xl) k1 r1) s0 xl tt xl' Hxl Hins). set (s1 := set_nodes _ s0).
  assert (Hxr1 : nodes s1 !! r = Some xr) by (unfold s1; simpl; by rewrite lookup_insert_ne).
  destruct (erase_pair_run xr 0) as (xr' & Her & J1 & J2 & J3 & J4 & J5 & J6 & J7 & J8 & J9); [lia|lia|apply NR|].
  mstep (on_node_run r (λ _, erase_pair 0) s1 xr tt xr' Hxr1 Her). set (t := set_nodes _ s1).
  assert (Hxlt : nodes t !! l = Some xl') by (unfold t; simpl; by rewrite lookup_insert_ne, lookup_insert_eq).
  mstep (read_node_run l num_key t xl' Hxlt).
  mstep (maintain_child_leaf l xl' t (num_key xl' - 1) Hxlt ltac:(rewrite I6, (po_leaf _ _ _ _ _ _ _ _ _ PL), (sb_hl _ _ _ _ _ _ _ _ _ _ _ _ _ _ SB); done)).
  exists t, (S (length (live_keys xl))), c, xl', xr'. split; [done|].
  rewrite (take_ge (live_keys xl)), (drop_ge (live_keys xl)), app_nil_r in I4 by lia.
  rewrite (take_ge (live_rids xl)), (drop_ge (live_rids xl)), app_nil_r in I5 by lia. rewrite Ek in J4. rewrite Er in J5. simpl in J4, J5.
  assert (Eks : ks = (live_keys xl ++ [k1]) ++ c :: tk) by (unfold both_keys; by rewrite Ek, <- app_assoc).
  assert (Ers : rs = (live_rids xl ++ [r1]) ++ tr) by (unfold both_rids; by rewrite Er, <- app_assoc).
  split.
  - split; rewrite ?Eks, ?Ers; try (unfold same_place, links; split_and!; congruence); try lia.
    + rewrite take_app_length'; [done|rewrite length_app; simpl; lia].
    + rewrite take_app_length'; [done|rewrite length_app; simpl; lia].
    + rewrite drop_app_length'; [done|rewrite length_app; simpl; lia].
    + rewrite drop_app_length'; [done|rewrite length_app; simpl; lia].
    + rewrite lookup_app_r by (rewrite length_app; simpl; lia). rewrite length_app. simpl.
      by replace (S (length (live_keys xl)) - (length (live_keys xl) + 1))%nat with 0%nat by lia.
    + intros ->. pose proof (no_keys _ _ _ NR) as Ok. pose proof (no_sorted _ _ _ NR) as St. rewrite Ek in Ok, St.
      apply Forall_cons in Ok as [O1 [O2 _]%Forall_cons]. apply StronglySorted_inv in St as [_ [Hlt _]%Forall_cons].
      pose proof (po_within _ _ _ _ _ _ _ _ _ PR) as W. rewrite Ek in W. apply Forall_cons in W as [[W _] _].
      specialize (W u (sb_lor _ _ _ _ _ _ _ _ _ _ _ _ _ _ SB)). pose proof (cmp_le_lt_trans (ok := ok) u k1 u O2 O1 O2 W Hlt) as H.
      rewrite (cmp_refl (ok := ok)) in H by done. lia.
  - split_and!; try done.
    + unfold t. simpl. by rewrite lookup_insert_eq.
    + intros p N1 N2. unfold t. simpl. by rewrite !lookup_insert_ne.
Qed.

(** From the left leaf's end to the right leaf's front. *)
Lemma pass_right m fuel pos :
  pins_ok (set_pinmap m s) → pos ≠ 0 → 2 ≤ num_key xl → num_key xr < btree_order fh →
  ∃ t i c xl' xr', Redistribute fuel l r pos (set_pinmap m s) = maintain_parent fuel r t ∧ shared i c xl' xr' ∧ two_pages t xl' xr'.
Proof using TI SB KO.
  intros Hps Hpos Hnl Hnr. destruct sib_ne as (Nlr & _ & _). destruct sib_pages as (_ & PL & PR).
  pose proof (po_node _ _ _ _ _ _ _ _ _ PL) as NL. pose proof (po_node _ _ _ _ _ _ _ _ _ PR) as NR.
  pose proof (length_live fh ok xl NL) as Ll. pose proof (length_live_rids fh ok xl NL) as Llr. pose proof (no_num _ _ _ NR) as Hn0.
  pose proof (po_len _ _ _ _ _ _ _ _ _ PL) as Kl. pose proof (po_len _ _ _ _ _ _ _ _ _ PR) as Kr.
  destruct (po_room _ _ _ _ _ _ _ _ _ PL) as [Room|[]].
  pose proof (sb_l _ _ _ _ _ _ _ _ _ _ _ _ _ _ SB) as Hxl. pose proof (sb_r _ _ _ _ _ _ _ _ _ _ _ _ _ _ SB) as Hxr.
  set (n := (Z.to_nat (num_key xl) - 1)%nat). assert (En : num_key xl - 1 = Z.of_nat n) by (unfold n; lia).
  destruct (lookup_lt_is_Some_2 (live_keys xl) n) as [c Hc]; [lia|]. destruct (lookup_lt_is_Some_2 (live_rids xl) n) as [r1 Hr1]; [lia|].
  set (s0 := set_pinmap m s) in *. unfold Redistribute. rewrite (proj2 (Z.eqb_neq pos 0)) by done. simpl.
  mstep (read_node_run l num_key s0 xl Hxl). rewrite En. mstep (on_get_key s0 l xl Hxl n c (live_keys_at _ _ _ Hc)).
  mstep (on_get_rid s0 l xl Hxl n r1 (live_rids_at _ _ _ Hr1)).
  destruct (insert_pairs_run xr 0 [c] [r1] 1) as (xr' & Hins & I1 & I2 & I3 & I4 & I5 & (I6 & I7 & I8 & I9) & _);
    [lia|lia|lia|apply NR|done|done|].
  mstep (on_node_run r (λ _, insert_pair 0 c r1) s0 xr tt xr' Hxr Hins). set (s1 := set_nodes _ s0).
  assert (Hxl1 : nodes s1 !! l = Some xl) by (unfold s1; simpl; by rewrite lookup_insert_ne).
  destruct (erase_pair_run xl (Z.of_nat n)) as (xl' & Her & J1 & J2 & J3 & J4 & J5 & J6 & J7 & J8 & J9); [lia|lia|apply NL|].
  mstep (on_node_run l (λ _, erase_pair (Z.of_nat n)) s1 xl tt xl' Hxl1 Her). set (t := set_nodes _ s1).
  assert (Hxrt : nodes t !! r = Some xr') by (unfold t; simpl; by rewrite lookup_insert_ne, lookup_insert_eq).
  mstep (maintain_child_leaf r xr' t 0 Hxrt ltac:(rewrite I6, (po_leaf _ _ _ _ _ _ _ _ _ PR), (sb_hr _ _ _ _ _ _ _ _ _ _ _ _ _ _ SB); done)).
  exists t, n, c, xl', xr'. split; [done|]. rewrite Nat2Z.id in J4, J5. rewrite (drop_ge (live_keys xl)), app_nil_r in J4 by lia. rewrite (drop_ge (live_rids xl)), app_nil_r in J5 by lia.
  simpl in I4, I5. rewrite ?take_0, ?drop_0 in I4, I5. simpl in I4, I5.
  assert (Eks : ks = take n (live_keys xl) ++ c :: live_keys xr).
  { unfold both_keys. rewrite <- (take_drop_middle _ _ _ Hc) at 1. rewrite (drop_ge _ (S n)) by lia. by rewrite <- app_assoc. }
  assert (Ers : rs = take n (live_rids xl) ++ r1 :: live_rids xr).
  { unfold both_rids. rewrite <- (take_drop_middle _ _ _ Hr1) at 1. rewrite (drop_ge _ (S n)) by lia. by rewrite <- app_assoc. }
  split.
  - split; rewrite ?Eks, ?Ers; try (unfold same_place, links; split_and!; congruence); try lia.
    + rewrite take_app_length'; [done|rewrite length_take; lia].
    + rewrite take_app_length'; [done|rewrite length_take; lia].
    + rewrite drop_app_length'; [done|rewrite length_take; lia].
    + rewrite drop_app_length'; [done|rewrite length_take; lia].
    + rewrite lookup_app_r by (rewrite length_take; lia). rewrite length_take. by replace (n - n `min` length (live_keys xl))%nat with 0%nat by lia.
    + intros ->. destruct (Forall_lookup_1 _ _ _ _ (po_within _ _ _ _ _ _ _ _ _ PL) Hc) as [_ W].
      specialize (W u (sb_hil _ _ _ _ _ _ _ _ _ _ _ _ _ _ SB)). rewrite (cmp_refl (ok := ok)) in W by (by apply (live_ok fh ok xl n)). lia.
  - split_and!; try done.
    + unfold t. simpl. by rewrite lookup_insert_eq.
    + intros p N1 N2. unfold t. simpl. by rewrite !lookup_insert_ne.
Qed.

(** ** Coalesce *)

Lemma sib_prev : prev_leaf xr = l.
Proof using TI SB KO PV.
  pose proof (sib_next fh ok s G TI pp gp y j a u l gl xl r gr xr SB) as Hn. destruct (SB).
  destruct (PV l gl xl u sb_Gl sb_hl sb_hil sb_l) as (z & Hz & Hp). rewrite Hn in Hz. congruence.
Qed.

(** The page after the right leaf: a leaf or the leaf header. *)
Lemma after_right : ∃ z, nodes s !! next_leaf xr = Some z ∧ next_leaf xr ≠ l ∧ next_leaf xr ≠ r ∧ next_leaf xr ≠ pp.
Proof using TI SB KO.
  destruct sib_pages as (_ & _ & PR). destruct (SB). destruct (hi gr) as [w|] eqn:Ew.
  - destruct (right_next fh ok s G TI pp gp y j a u l gl xl r gr xr SB w Ew) as (gn & HGn & Hhn & _ & N1 & N2).
    destruct (node_at fh ok _ _ s G TI _ gn HGn) as [z Hz]. exists z. split_and!; try done.
    intros E. rewrite E in HGn. assert (gn = gp) as -> by congruence. lia.
  - pose proof (po_next _ _ _ _ _ _ _ _ _ PR sb_hr) as Hno. unfold next_ok in Hno. rewrite Ew in Hno. rewrite Hno.
    destruct (ti_header _ _ _ _ _ _ TI) as [z Hz]. exists z. destruct (ti_page _ _ _ _ _ _ TI l gl sb_Gl) as [H1 _].
    destruct (ti_page _ _ _ _ _ _ TI r gr sb_Gr) as [H2 _]. destruct (ti_page _ _ _ _ _ _ TI pp gp sb_Gp) as [H3 _].
    unfold IX_LEAF_HEADER_PAGE in *. split_and!; [done|lia..].
Qed.

Lemma maintain_children_leaf p x t idx : nodes t !! p = Some x → is_leaf x = true → st_iter (maintain_child p) idx t = (Ok tt, t).
Proof.
  intros Hx Hl. induction idx as [|i idx IH]; [done|]. simpl. by mstep (maintain_child_leaf p x t i Hx Hl).
Qed.

Lemma insert_pairs_take pos keys rids n x :
  insert_pairs pos keys rids n x = insert_pairs pos (take (Z.to_nat n) keys) (take (Z.to_nat n) rids) n x.
Proof. unfold insert_pairs. by rewrite !take_take, !Nat.min_id. Qed.

(** The left leaf takes the right one's entries. *)
Lemma merged_left : num_key xl + num_key xr ≤ btree_order fh →
  ∃ xl', insert_pairs (num_key xl) (keys xr) (rids xr) (num_key xr) xl = (Ok tt, xl') ∧ num_key xl' = num_key xl + num_key xr ∧
    live_keys xl' = ks ∧ live_rids xl' = rs ∧ same_place xl xl'.
Proof using TI SB.
  intros Hfit. destruct sib_pages as (_ & PL & PR). pose proof (po_node _ _ _ _ _ _ _ _ _ PL) as NL. pose proof (po_node _ _ _ _ _ _ _ _ _ PR) as NR.
  pose proof (length_live fh ok xl NL) as Ll. pose proof (length_live_rids fh ok xl NL) as Llr. pose proof (no_num _ _ _ NL).
  pose proof (no_num _ _ _ NR). pose proof (po_len _ _ _ _ _ _ _ _ _ PL) as Kl.
  rewrite insert_pairs_take. change (take _ (keys xr)) with (live_keys xr). change (take _ (rids xr)) with (live_rids xr).
  destruct (insert_pairs_run xl (num_key xl) (live_keys xr) (live_rids xr) (num_key xr)) as (x' & Hrun & I1 & I2 & I3 & I4 & I5 & (I6 & I7 & I8 & I9) & _);
    [lia|lia|lia|apply NL|by apply (length_live fh ok)|by apply (length_live_rids fh ok)|].
  exists x'. split_and!; try done.
  - rewrite I4, take_ge, drop_ge, app_nil_r by lia. done.
  - rewrite I5, take_ge, drop_ge, app_nil_r by lia. done.
  - unfold same_place, links. split_and!; congruence.
Qed.

(** [merge_nodes]: the pages and the header after it. *)
Definition joined (t : IxState) (xl' : IxNode) : Prop :=
  key_hdr fh (file_hdr t) ∧ root_page (file_hdr t) = root_page (file_hdr s) ∧ next_page t = next_page s ∧ pins_ok t ∧
  ∃ z, nodes s !! next_leaf xr = Some z ∧
    nodes t = <[next_leaf xr := SetPrevLeaf l z]> (<[l := SetNextLeaf (next_leaf xr) xl']> (nodes s)).

Lemma erase_leaf_run t xl' :
  pins_ok t → nodes t !! l = Some xl' → nodes t !! r = Some xr → (∀ z, nodes s !! next_leaf xr = Some z → nodes t !! next_leaf xr = Some z) →
  ∃ t' z, erase_leaf r t = (Ok tt, t') ∧ file_hdr t' = file_hdr t ∧ next_page t' = next_page t ∧ pins_ok t' ∧ nodes s !! next_leaf xr = Some z ∧
    nodes t' = <[next_leaf xr := SetPrevLeaf l z]> (<[l := SetNextLeaf (next_leaf xr) xl']> (nodes t)).
Proof using TI SB KO PV.
  intros Hps Hl Hr Hnx. destruct sib_ne as (Nlr & _ & _). destruct sib_pages as (_ & _ & PR).
  destruct after_right as (z & Hz & N1 & N2 & _). specialize (Hnx z Hz). unfold erase_leaf.
  mstep (read_node_run r is_leaf t xr Hr). rewrite (po_leaf _ _ _ _ _ _ _ _ _ PR), (sb_hr _ _ _ _ _ _ _ _ _ _ _ _ _ _ SB). simpl.
  unfold assert_. unfold st_bind at 1, st_ret. mstep (read_node_run r prev_leaf t xr Hr). rewrite sib_prev.
  mstep (FetchNode_pin l t xl' Hl). set (t1 := set_pinmap _ t). pose proof (pins_fetched t l Hps : pins_ok t1) as P1.
  mstep (read_node_run r next_leaf t1 xr Hr). mstep (upd_node_run l (SetNextLeaf (next_leaf xr)) t1 xl' Hl). set (t2 := set_nodes _ t1).
  destruct (UnpinPage_run l true t2) as (b & m2 & Hu). mstep Hu. pose proof (pins_unpin _ _ _ _ _ (pins_nodes _ _ P1 : pins_ok t2) Hu) as P2.
  set (t3 := set_pinmap m2 t2) in *. assert (Hr3 : nodes t3 !! r = Some xr) by (unfold t3, t2; simpl; by rewrite lookup_insert_ne).
  assert (Hz3 : nodes t3 !! next_leaf xr = Some z) by (unfold t3, t2; simpl; by rewrite lookup_insert_ne).
  mstep (read_node_run r next_leaf t3 xr Hr3). mstep (FetchNode_pin _ t3 z Hz3). set (t4 := set_pinmap _ t3).
  pose proof (pins_fetched t3 (next_leaf xr) P2 : pins_ok t4) as P4.
  mstep (read_node_run r prev_leaf t4 xr Hr3). rewrite sib_prev. mstep (upd_node_run (next_leaf xr) (SetPrevLeaf l) t4 z Hz3). set (t5 := set_nodes _ t4).
  destruct (UnpinPage_run (next_leaf xr) true t5) as (b' & m6 & Hu'). mstep Hu'.
  pose proof (pins_unpin _ _ _ _ _ (pins_nodes _ _ P4 : pins_ok t5) Hu') as P6. by exists (set_pinmap m6 t5), z.
Qed.

Lemma merge_nodes_run m : pins_ok (set_pinmap m s) → num_key xl + num_key xr ≤ btree_order fh →
  ∃ t xl', merge_nodes l r (set_pinmap m s) = (Ok tt, t) ∧ joined t xl' ∧ num_key xl' = num_key xl + num_key xr ∧
    live_keys xl' = ks ∧ live_rids xl' = rs ∧ same_place xl xl'.
Proof using TI SB KO PV.
  intros Hps Hfit. destruct (merged_left Hfit) as (xl' & Hins & E1 & E2 & E3 & Hsp). destruct sib_ne as (Nlr & _ & _).
  destruct sib_pages as (_ & PL & _). destruct after_right as (z0 & Hz0 & N1 & N2 & _).
  pose proof (sb_l _ _ _ _ _ _ _ _ _ _ _ _ _ _ SB) as Hxl. pose proof (sb_r _ _ _ _ _ _ _ _ _ _ _ _ _ _ SB) as Hxr.
  set (s0 := set_pinmap m s) in *. unfold merge_nodes. mstep (read_node_run l num_key s0 xl Hxl). mstep (read_node_run r num_key s0 xr Hxr).
  mstep (read_node_run r keys s0 xr Hxr). mstep (read_node_run r rids s0 xr Hxr).
  mstep (on_node_run l (λ _, insert_pairs (num_key xl) (keys xr) (rids xr) (num_key xr)) s0 xl tt xl' Hxl Hins). set (s1 := set_nodes _ s0).
  assert (Hxl1 : nodes s1 !! l = Some xl') by (unfold s1; simpl; by rewrite lookup_insert_eq).
  assert (Hleaf : is_leaf xl' = true) by (destruct Hsp as (-> & _); rewrite (po_leaf _ _ _ _ _ _ _ _ _ PL), (sb_hl _ _ _ _ _ _ _ _ _ _ _ _ _ _ SB); done).
  mstep (read_node_run l num_key s1 xl' Hxl1). mstep (maintain_children_leaf l xl' s1 ((λ i, num_key xl + i) <$> zseq (num_key xl' - num_key xl)) Hxl1 Hleaf).
  unfold get_last_leaf. unfold st_bind at 1, gets.
  set (h := if r =? last_leaf (file_hdr s1) then with_last_leaf l (file_hdr s1) else file_hdr s1).
  assert (Hlast : (if r =? last_leaf (file_hdr s1) then set_last_leaf l else ret tt) s1 = (Ok tt, set_file_hdr h s1)).
  { unfold h. by destruct (r =? last_leaf (file_hdr s1)). }
  mstep Hlast. destruct (erase_leaf_run (set_file_hdr h s1) xl') as (t' & z & Hrun & T1 & T2 & T3 & T4 & T5).
  - intros p. apply (Hps p).
  - done.
  - unfold s1. simpl. by rewrite lookup_insert_ne.
  - intros z Hz. unfold s1. simpl. by rewrite lookup_insert_ne.
  - mstep Hrun. unfold release_node_handle, upd_hdr, modify. eexists _, xl'. split; [done|]. split; [|done]. split_and!; try done.
    + simpl. rewrite T1. unfold h, key_hdr. simpl. destruct (ti_hdr _ _ _ _ _ _ TI) as (A & B & C). by destruct (_ =? _).
    + simpl. rewrite T1. unfold h. simpl. by destruct (_ =? _).
    + exists z. split; [done|]. simpl. rewrite T5. unfold s1. simpl. by rewrite insert_insert_eq.
Qed.

(** The parent loses the right leaf's place. *)
Lemma merged_tree t xl' : joined t xl' → num_key xl' ≤ btree_order fh → 0 ≤ num_key xl' → live_keys xl' = ks → live_rids xl' = rs → same_place xl xl' →
  ∃ t1 G' y', on_node pp (λ _, erase_pair (Z.of_nat (S j))) t = (Ok tt, t1) ∧ pins_ok t1 ∧ file_hdr t1 = file_hdr t ∧
    G' !! pp = Some gp ∧ nodes t1 !! pp = Some y' ∧ num_key y' = num_key y - 1 ∧ rebalanced fh ok s G t1 G'.
Proof using TI SB KO PV.
  intros (J1 & J2 & J3 & J4 & z & Hz & J5) Hroom Hnum Ek Er (F1 & F2 & F3 & F4 & F5). injection F3 as F6 F7.
  destruct sib_ne as (Nlr & Npl & Npr). destruct sib_pages as (PO & PL & PR). destruct after_right as (z0 & Hz0 & N1 & N2 & N3).
  pose proof (po_node _ _ _ _ _ _ _ _ _ PO) as NO. pose proof (po_len _ _ _ _ _ _ _ _ _ PL) as Kl.
  pose proof (po_len _ _ _ _ _ _ _ _ _ PO) as Ky. destruct (po_room _ _ _ _ _ _ _ _ _ PO) as [Ry|[]].
  pose proof (lookup_lt_Some _ _ _ (sb_u _ _ _ _ _ _ _ _ _ _ _ _ _ _ SB)) as Hlt. rewrite (length_live fh ok y NO) in Hlt.
  assert (Hy : nodes t !! pp = Some y) by (rewrite J5, !lookup_insert_ne by done; apply SB).
  destruct (erase_pair_run y (Z.of_nat (S j))) as (y' & Her & Y1 & Y2 & Y3 & Y4 & Y5 & Y6 & Y7 & Y8 & Y9); [lia|lia|apply NO|].
  rewrite Nat2Z.id, <- delete_take_drop in Y4. rewrite Nat2Z.id, <- delete_take_drop in Y5. set (t1 := set_nodes (<[pp := y']> (nodes t)) t).
  set (G' := <[l := MkInfo 0 (Some a) (hi gr)]> (delete r G)). exists t1, G', y'.
  assert (Hone : nodes t1 = <[pp := y']> (<[next_leaf xr := SetPrevLeaf l z]> (<[l := SetNextLeaf (next_leaf xr) xl']> (nodes s)))) by (unfold t1; simpl; by rewrite J5).
  split; [by apply (on_node_run pp (λ _, erase_pair (Z.of_nat (S j))) t y)|]. split_and!; try done.
  { unfold G'. rewrite lookup_insert_ne, lookup_delete_ne by done. apply SB. }
  { rewrite Hone. apply lookup_insert_eq. }
  assert (Hl1 : nodes t1 !! l = Some (SetNextLeaf (next_leaf xr) xl')) by (rewrite Hone, !lookup_insert_ne, lookup_insert_eq by done; done).
  apply (merge_tree fh ok s G TI pp gp y j a u l gl xl r gr xr SB (nodes t1) G') with (xl' := SetNextLeaf (next_leaf xr) xl') (y' := y'); try done.
  - intros p x M1 M2 M3 Hx. rewrite Hone, lookup_insert_ne by done. destruct (decide (p = next_leaf xr)) as [->|M4].
    + exists (SetPrevLeaf l x). rewrite lookup_insert_eq. assert (z = x) as -> by congruence. done.
    + exists x. rewrite !lookup_insert_ne by done. done.
  - exists y'. rewrite Hone, lookup_insert_eq. done.
  - intros p M1 M2. unfold G'. by rewrite lookup_insert_ne, lookup_delete_ne.
  - eexists. unfold G'. rewrite lookup_insert_eq. split_and!; try done. symmetry. apply SB.
  - rewrite Hone. apply lookup_insert_eq.
  - unfold G'. by rewrite lookup_insert_eq.
  - unfold G'. rewrite lookup_insert_ne by done. apply lookup_delete_eq.
  - apply (stretch_node fh ok s G TI pp gp y j a u l gl xl r gr xr SB 0 (length ks)); simpl; [by rewrite take_ge|lia|].
    rewrite F4, F5. apply PL.
  - apply Forall_lookup. intros n k Hk. change (live_keys (SetNextLeaf (next_leaf xr) xl')) with (live_keys xl') in Hk. rewrite Ek in Hk.
    destruct (both_range n k Hk) as (_ & A & W). split; simpl; [by intros ? [= <-]|done].
  - destruct (ti_header _ _ _ _ _ _ TI) as [w Hw]. rewrite Hone. destruct (ti_page _ _ _ _ _ _ TI l gl ltac:(apply SB)) as [B1 _].
    destruct (ti_page _ _ _ _ _ _ TI pp gp ltac:(apply SB)) as [B2 _].
    rewrite lookup_insert_ne by (unfold IX_LEAF_HEADER_PAGE; lia). destruct (decide (next_leaf xr = IX_LEAF_HEADER_PAGE)) as [E|E].
    + rewrite E, lookup_insert_eq. by eexists.
    + rewrite !lookup_insert_ne by (done || unfold IX_LEAF_HEADER_PAGE; lia). by eexists.
  - change (entries (SetNextLeaf (next_leaf xr) xl')) with (entries xl'). unfold entries at 1. rewrite Ek, Er. symmetry. apply both_entries.
  - split_and!; [|done|].
    + intros p M1 M2. rewrite Hone. destruct (decide (p = pp)) as [->|M3].
      * rewrite lookup_insert_eq, (sb_y _ _ _ _ _ _ _ _ _ _ _ _ _ _ SB). simpl. unfold links. congruence.
      * by rewrite !lookup_insert_ne.
    + exists (SetPrevLeaf l z). rewrite Hone, lookup_insert_ne, lookup_insert_eq by done. split_and!; try done.
      intros z1 Hz1. simpl. congruence.
Qed.

End Pair.

(** ** CoalesceOrRedistribute *)

Section Coalesce.
Context (fh : IxFileHdr) (ok : key → Prop) {KO : KeyOrder (compare fh) ok}.
Context (Hlen : ∀ k, ok k → length k = Z.to_nat (col_len fh)).
Implicit Types (s t : IxState) (G : gmap Z info) (x y : IxNode) (g : info) (p q : Z).
Abbreviation tree_inv := (tree_inv fh ok loose no_full).
Abbreviation rebalanced := (rebalanced fh ok).

(** What a run of [CoalesceOrRedistribute] has to do. *)
Definition settles fuel p s G : Prop :=
  ∃ b s' G', CoalesceOrRedistribute fuel p s = (Ok b, s') ∧ pins_ok s' ∧ rebalanced s G s' G'.

Lemma min_size_range s G : tree_inv s G → 1 ≤ GetMinSize (file_hdr s) ∧ GetMinSize (file_hdr s) < btree_order fh ∧ 2 * GetMinSize (file_hdr s) ≤ btree_order fh + 1.
Proof.
  intros TI. split; [by apply (min_size fh ok s false G)|]. unfold GetMinSize, GetMaxSize. destruct (ti_hdr _ _ _ _ _ _ TI) as (_ & _ & ->).
  pose proof (ti_order _ _ _ _ _ _ TI). rewrite wrap32_id by (unfold is_int, int_min; lia). rewrite Z.quot_div_nonneg by lia.
  pose proof (Z.mul_div_le (btree_order fh + 1) 2 ltac:(lia)). lia.
Qed.

(** A root with one child gives way to it. *)
Lemma adjust_root s G x g :
  tree_inv s G → prev_ok s G → pins_ok s → G !! root_page (file_hdr s) = Some g → ht g ≠ O → nodes s !! root_page (file_hdr s) = Some x →
  ∃ b s' G', AdjustRoot (root_page (file_hdr s)) s = (Ok b, s') ∧ pins_ok s' ∧ rebalanced s G s' G'.
Proof using KO.
  intros TI PV Hps HG Hh Hx. pose proof (page_at fh ok _ _ s G TI _ g x HG Hx) as PO. unfold AdjustRoot.
  mstep (read_node_run _ is_leaf s x Hx). mstep (read_node_run _ num_key s x Hx).
  rewrite (po_leaf _ _ _ _ _ _ _ _ _ PO), (proj2 (Nat.eqb_neq _ _)) by done.
  destruct (Z.eqb_spec (num_key x) 1) as [Hone|Hne]; [|exists false, s, G; split_and!; by try apply rebalanced_refl].
  pose proof (po_node _ _ _ _ _ _ _ _ _ PO) as Hn. destruct (lookup_lt_is_Some_2 (live_rids x) 0) as [rd Hrd]; [rewrite (length_live_rids fh ok x Hn); lia|].
  destruct (po_child _ _ _ _ _ _ _ _ _ PO Hh 0 rd Hrd) as (gc & xc & HGc & Hxc & Hpc & Hhc & _ & Hhi).
  assert (Hic : hi gc = None).
  { rewrite Hhi. unfold child_hi. rewrite lookup_ge_None_2 by (rewrite (length_live fh ok x Hn); lia).
    by destruct (ti_root _ _ _ _ _ _ TI) as (g0 & ? & HG0 & _ & _ & _ & U & _); assert (g0 = g) as <- by congruence. }
  assert (Hval : ValueAt 0 x = (Ok (rid_page_no rd), x)).
  { unfold ValueAt, get_rid. pose proof (live_rids_at x 0 rd Hrd) as Hr0. assert (Hg : (x ← get_st; array_get (rids x) 0) x = (Ok rd, x)).
    { rewrite st_get_bind. by apply (array_get_run (rids x) 0 rd). } by mstep Hg. }
  mstep (on_node_pure _ (λ _, ValueAt 0) s x (rid_page_no rd) Hx Hval). mstep (FetchNode_pin _ s xc Hxc). set (s1 := set_pinmap _ s).
  pose proof (pins_fetched s (rid_page_no rd) Hps : pins_ok s1) as P1.
  mstep (upd_node_run (rid_page_no rd) (SetParentPageNo INVALID_PAGE_ID) s1 xc Hxc). unfold upd_hdr, release_node_handle, upd_hdr.
  unfold st_bind at 1 2, modify. simpl. set (s2 := set_file_hdr _ _).
  destruct (UnpinPage_run (rid_page_no rd) true s2) as (b & m & Hu). mstep Hu.
  assert (P2 : pins_ok s2) by (intros p; apply (P1 p)). pose proof (pins_unpin _ _ _ _ _ P2 Hu) as P3.
  exists true, (set_pinmap m s2), (<[rid_page_no rd := MkInfo (ht gc) None None]> (delete (root_page (file_hdr s)) G)). split; [done|]. split; [done|].
  assert (Eh : key_hdr fh (file_hdr (set_pinmap m s2))) by apply (ti_hdr _ _ _ _ _ _ TI).
  split_and!.
  - by apply (collapsed_inv fh ok s G TI g x HG Hx Hh Hone rd Hrd gc xc HGc Hxc Hhc Hic (set_pinmap m s2) Eh).
  - by apply (collapsed_prev fh ok s G TI g x HG Hx Hh Hone rd Hrd gc xc HGc Hxc Hhc Hic (set_pinmap m s2) Eh).
  - by apply (collapsed_heights fh ok s G TI g x HG Hx Hh Hone rd Hrd gc xc HGc Hxc Hhc Hic (set_pinmap m s2) Eh).
  - intros k v _. by apply (collapsed_has fh ok s G TI g x HG Hx Hh Hone rd Hrd gc xc HGc Hxc Hhc Hic (set_pinmap m s2) Eh).
Qed.

(** An inner page that has enough children left. *)
Lemma inner_settles s G p g x fuel :
  tree_inv s G → prev_ok s G → pins_ok s → G !! p = Some g → ht g ≠ O → nodes s !! p = Some x →
  p = root_page (file_hdr s) ∨ GetMinSize (file_hdr s) ≤ num_key x → settles (S fuel) p s G.
Proof using KO Hlen.
  intros TI PV Hps HG Hh Hx Hen. unfold settles. cbn [CoalesceOrRedistribute]. mstep (read_node_run _ IsRootPage s x Hx).
  rewrite (IsRootPage_iff fh ok false s G p g x TI HG Hx). destruct (decide (p = root_page (file_hdr s))) as [->|Hne].
  - rewrite bool_decide_eq_true_2 by done. by apply (adjust_root s G x g).
  - rewrite bool_decide_eq_false_2 by done. destruct Hen as [?|Hen]; [done|]. mstep (read_node_run _ num_key s x Hx).
    unfold st_bind at 1, gets. rewrite (proj2 (Z.leb_le _ _)) by done.
    destruct (maintain_stop fh ok s G p g x fuel Hlen TI Hps HG Hh Hx) as (t' & Hrun & (M1 & M2 & M3 & M4)). mstep Hrun.
    exists false, t', G. split; [done|]. split; [done|]. apply (rebalanced_pins fh ok s G s G); try done. by apply rebalanced_refl.
Qed.

(** ** A short leaf *)

Section Short.
Context (s : IxState) (G : gmap Z info) (TI : tree_inv s G) (PV : prev_ok s G).
Context (pp : Z) (gp : info) (y : IxNode) (j : nat) (a u : key) (l : Z) (gl : info) (xl : IxNode) (r : Z) (gr : info) (xr : IxNode).
Context (SB : siblings s G pp gp y j a u l gl xl r gr xr).
Abbreviation minsize := (GetMinSize (file_hdr s)).

(** The short leaf is the left one of the pair, when it is the parent's first child,
    or the right one. *)
Definition side (pos node brother : Z) (x bx : IxNode) : Prop :=
  pos = 0 ∧ j = O ∧ node = l ∧ x = xl ∧ brother = r ∧ bx = xr ∨
  pos = Z.of_nat (S j) ∧ node = r ∧ x = xr ∧ brother = l ∧ bx = xl.

(** [getNeighbor] would find the brother that [CoalesceOrRedistribute] finds through
    the leaf's links. *)
Lemma getNeighbor_brother pos node brother x bx :
  side pos node brother x bx → ∃ m, getNeighbor pos pp s = (Ok brother, set_pinmap m s).
Proof using SB.
  intros Hside. destruct (SB). destruct sb_rl as (rl & Hrl & El), sb_rr as (rr & Hrr & Er). unfold getNeighbor.
  destruct Hside as [(-> & Ej & _ & _ & -> & _)|(-> & _ & _ & -> & _)].
  - rewrite Ej in Hrr. simpl. mstep (on_get_rid s pp y sb_y 1 rr (live_rids_at _ _ _ Hrr)). rewrite Er. by apply (FetchNode_run r s xr).
  - rewrite (proj2 (Z.eqb_neq _ _)) by lia. cbn [negb]. replace (Z.of_nat (S j) - 1) with (Z.of_nat j) by lia.
    mstep (on_get_rid s pp y sb_y j rl (live_rids_at _ _ _ Hrl)). rewrite El. by apply (FetchNode_run l s xl).
Qed.

Lemma redistribute_settles m fuel pos node brother x bx :
  side pos node brother x bx → pins_ok (set_pinmap m s) → num_key x < minsize → minsize * 2 ≤ num_key x + num_key bx →
  ∃ t G', Redistribute (S (S fuel)) brother node pos (set_pinmap m s) = (Ok tt, t) ∧ pins_ok t ∧ rebalanced s G t G'.
Proof using All.
  intros Hside Hps Hshort Hmany. destruct (min_size_range s G TI) as (M1 & M2 & _).
  assert (H : ∃ t i c xl' xr', Redistribute (S (S fuel)) brother node pos (set_pinmap m s) = maintain_parent (S (S fuel)) r t ∧
    shared fh u xl xr i c xl' xr' ∧ two_pages s l r t xl' xr').
  { destruct Hside as [(-> & _ & -> & -> & -> & ->)|(-> & -> & -> & -> & ->)].
    - apply (pass_left fh ok s G TI pp gp y j a u l gl xl r gr xr SB); [done|lia|lia].
    - apply (pass_right fh ok s G TI pp gp y j a u l gl xl r gr xr SB); [done|lia|lia|lia]. }
  destruct H as (t & i & c & xl' & xr' & Hrun & Hsh & Htp).
  destruct (shared_tree fh ok Hlen s G TI PV pp gp y j a u l gl xl r gr xr SB i c xl' xr' t fuel Hsh Htp) as (t' & G' & Hrun' & P & _ & RB).
  exists t', G'. rewrite Hrun. done.
Qed.

Lemma coalesce_settles m fuel :
  pins_ok (set_pinmap m s) → num_key xl + num_key xr < minsize * 2 → 2 ≤ num_key y → pp = root_page (file_hdr s) ∨ minsize < num_key y →
  ∃ t1 t2 t3 b G', merge_nodes l r (set_pinmap m s) = (Ok tt, t1) ∧ on_node pp (λ _, erase_pair (Z.of_nat (S j))) t1 = (Ok tt, t2) ∧
    CoalesceOrRedistribute (S fuel) pp t2 = (Ok b, t3) ∧ pins_ok t3 ∧ rebalanced s G t3 G'.
Proof using All.
  intros Hps Hfew Hy2 Hkeep. destruct (min_size_range s G TI) as (M1 & M2 & M3).
  destruct (sib_pages fh ok s G TI pp gp y j a u l gl xl r gr xr SB) as (_ & PL & PR).
  pose proof (no_num _ _ _ (po_node _ _ _ _ _ _ _ _ _ PL)). pose proof (no_num _ _ _ (po_node _ _ _ _ _ _ _ _ _ PR)).
  destruct (merge_nodes_run fh ok s G TI PV pp gp y j a u l gl xl r gr xr SB m Hps ltac:(lia)) as (t1 & xl' & Hm & J & En & Ek & Er & Hsp).
  destruct (merged_tree fh ok s G TI PV pp gp y j a u l gl xl r gr xr SB t1 xl' J ltac:(lia) ltac:(lia) Ek Er Hsp)
    as (t2 & G2 & y' & Her & P2 & Eh & HG2 & Hy' & Ny & RB).
  destruct J as ((_ & _ & J1) & J2 & _). destruct (RB) as (TI2 & PV2 & _).
  assert (Emin : GetMinSize (file_hdr t2) = minsize).
  { unfold GetMinSize, GetMaxSize. rewrite Eh, J1. by destruct (ti_hdr _ _ _ _ _ _ TI) as (_ & _ & ->). }
  destruct (inner_settles t2 G2 pp gp y' fuel TI2 PV2 P2 HG2) as (b & t3 & G3 & Hrun & P3 & RB3); [|done| |].
  - rewrite (sb_ht _ _ _ _ _ _ _ _ _ _ _ _ _ _ SB). done.
  - rewrite Eh, J2, <- Eh, Emin. destruct Hkeep as [?|?]; [by left|right; lia].
  - exists t1, t2, t3, b, G3. split_and!; try done. by apply (rebalanced_trans fh ok s G t2 G2).
Qed.

(** The whole of [CoalesceOrRedistribute] at the short leaf. *)
Lemma short_settles pos node brother x bx fuel :
  side pos node brother x bx → pins_ok s → num_key x < minsize → 2 ≤ num_key y →
  pp = root_page (file_hdr s) ∨ minsize < num_key y ∨ minsize * 2 ≤ num_key x + num_key bx →
  settles (S (S fuel)) node s G.
Proof using All.
  intros Hside Hps Hshort Hy2 Hkeep. pose proof (sib_prev fh ok s G TI PV pp gp y j a u l gl xl r gr xr SB) as Hprev.
  pose proof (sib_next fh ok s G TI pp gp y j a u l gl xl r gr xr SB) as Hnext.
  destruct (sib_pages fh ok s G TI pp gp y j a u l gl xl r gr xr SB) as (PO & _ & _). pose proof (po_node _ _ _ _ _ _ _ _ _ PO) as Hn.
  assert (HB : nodes s !! node = Some x ∧ nodes s !! brother = Some bx ∧ parent x = pp ∧ (∃ g, G !! node = Some g ∧ is_Some (lo g)) ∧
    find_child node y = (Ok pos, y) ∧ (if negb (pos =? 0) then prev_leaf x else next_leaf x) = brother).
  { assert (HF : ∀ i rd, live_rids y !! i = Some rd → find_child (rid_page_no rd) y = (Ok (Z.of_nat i), y)).
    { intros i rd Hrd. apply (find_child_run fh ok y _ i rd Hn Hrd eq_refl). intros i' rd' Hrd' E.
      apply (kid_inj fh ok loose no_full _ _ _ _ _ i i' rd rd' eq_refl PO ltac:(rewrite (sb_ht _ _ _ _ _ _ _ _ _ _ _ _ _ _ SB); done) Hrd Hrd'). congruence. }
    destruct (SB). destruct sb_rl as (rl & Hrl & El), sb_rr as (rr & Hrr & Err).
    destruct Hside as [(-> & Ej & -> & -> & -> & ->)|(-> & -> & -> & -> & ->)]; split_and!; try done.
    - exists gl. rewrite sb_lol. split; [done|by eexists].
    - rewrite <- El. rewrite (HF j rl Hrl). by rewrite Ej.
    - exists gr. rewrite sb_lor. split; [done|by eexists].
    - rewrite <- Err. by apply HF. }
  destruct HB as (Hx & Hbx & Hpar & (g & HG & [lg Hlg]) & Hfind & Hbro). pose proof (sb_y _ _ _ _ _ _ _ _ _ _ _ _ _ _ SB) as Hy.
  assert (Nroot : node ≠ root_page (file_hdr s)).
  { intros E. destruct (ti_root _ _ _ _ _ _ TI) as (g0 & ? & HG0 & _ & _ & L0 & _). rewrite <- E in HG0. congruence. }
  unfold settles. cbn [CoalesceOrRedistribute]. mstep (read_node_run _ IsRootPage s x Hx).
  rewrite (IsRootPage_iff fh ok false s G node g x TI HG Hx), bool_decide_eq_false_2 by done.
  mstep (read_node_run _ num_key s x Hx). unfold st_bind at 1, gets. rewrite (proj2 (Z.leb_gt _ _)) by done.
  mstep (read_node_run _ parent s x Hx). rewrite Hpar. mstep (FetchNode_pin pp s y Hy). set (s1 := set_pinmap _ s).
  pose proof (pins_fetched s pp Hps : pins_ok s1) as P1. mstep (on_node_pure pp (λ _, find_child node) s1 y pos Hy Hfind).
  set (m := <[brother := (pin_count s1 brother + 1, is_dirty s1 brother)]> (pins s1)).
  assert (Hfetch : (if negb (pos =? 0) then p ← read_node node prev_leaf; FetchNode p else p ← read_node node next_leaf; FetchNode p) s1
    = (Ok brother, set_pinmap m s)).
  { destruct (negb (pos =? 0)).
    - mstep (read_node_run node prev_leaf s1 x Hx). rewrite Hbro. apply (FetchNode_pin brother s1 bx Hbx).
    - mstep (read_node_run node next_leaf s1 x Hx). rewrite Hbro. apply (FetchNode_pin brother s1 bx Hbx). }
  mstep Hfetch. pose proof (pins_fetched s1 brother P1 : pins_ok (set_pinmap m s)) as P2. mstep (read_node_run brother num_key (set_pinmap m s) bx Hbx).
  destruct (Z.leb_spec (minsize * 2) (num_key x + num_key bx)) as [Hmany|Hfew].
  - destruct (redistribute_settles m fuel pos node brother x bx Hside P2 Hshort Hmany) as (t & G' & Hrun & P3 & RB). mstep Hrun.
    destruct (UnpinPage_run pp true t) as (b1 & m1 & Hu1). mstep Hu1. pose proof (pins_unpin _ _ _ _ _ P3 Hu1) as P4.
    destruct (UnpinPage_run brother true (set_pinmap m1 t)) as (b2 & m2 & Hu2). mstep Hu2. pose proof (pins_unpin _ _ _ _ _ P4 Hu2) as P5.
    eexists false, _, G'. split; [done|]. split; [done|]. by apply (rebalanced_pins fh ok s G t G').
  - assert (Hsum : num_key xl + num_key xr < minsize * 2).
    { destruct Hside as [(_ & _ & _ & Ex & _ & Eb)|(_ & _ & Ex & _ & Eb)]; rewrite Ex, Eb in Hfew; lia. }
    assert (Hkeep' : pp = root_page (file_hdr s) ∨ minsize < num_key y) by (destruct Hkeep as [?|[?|?]]; [by left|by right|lia]).
    destruct (coalesce_settles m fuel P2 Hsum Hy2 Hkeep') as (t1 & t2 & t3 & b & G' & R1 & R2 & R3 & P3 & RB).
    assert (Hsel : (if pos =? 0 then (node, brother, 1) else (brother, node, pos)) = (l, r, Z.of_nat (S j))).
    { destruct Hside as [(-> & -> & -> & _ & -> & _)|(-> & -> & _ & -> & _)]; [done|]. by rewrite (proj2 (Z.eqb_neq _ _)) by lia. }
    rewrite Hsel. mstep R1. mstep R2. mstep R3. destruct (UnpinPage_run pp true t3) as (b1 & m1 & Hu1). mstep Hu1.
    pose proof (pins_unpin _ _ _ _ _ P3 Hu1) as P4. destruct (UnpinPage_run l true (set_pinmap m1 t3)) as (b2 & m2 & Hu2). mstep Hu2.
    pose proof (pins_unpin _ _ _ _ _ P4 Hu2) as P5. eexists true, _, G'. split; [done|]. split; [done|]. by apply (rebalanced_pins fh ok s G t3 G').
Qed.

End Short.

(** The neighbour [CoalesceOrRedistribute] takes for the leaf [q] with parent [y]: the
    right one of a first child, else the left one. *)
Definition brother_of (q : Z) (x y : IxNode) : Z :=
  if decide (rid_page_no <$> rids y !! O = Some q) then next_leaf x else prev_leaf x.

(** A leaf that runs short, with [n] entries left, does no harm to its parent: the
    parent can lose a child (the root has two, any other page more than half of its
    slots), or the neighbour has an entry to give. *)
Definition parent_keeps s (q : Z) x (n : Z) : Prop :=
  ∀ y, nodes s !! parent x = Some y → 2 ≤ num_key y ∧
    (parent x = root_page (file_hdr s) ∨ GetMinSize (file_hdr s) < num_key y ∨
     ∀ bx, brother_of q x y ≠ q → nodes s !! brother_of q x y = Some bx → GetMinSize (file_hdr s) * 2 ≤ n + num_key bx).

Lemma leaf_settles s G q g x fuel :
  tree_inv s G → prev_ok s G → pins_ok s → G !! q = Some g → ht g = O → nodes s !! q = Some x → q ≠ root_page (file_hdr s) →
  num_key x < GetMinSize (file_hdr s) → parent_keeps s q x (num_key x) → settles (S (S fuel)) q s G.
Proof using KO Hlen.
  intros TI PV Hps HG Hh Hx Hne Hshort Hkeep.
  destruct (parent_at fh ok _ _ s G TI eq_refl q g HG Hne) as (pp & gp & y & i & rd & k & xp & HGp & Hhp & Hy & Hrd & Erd & Hk & _ & _ & Hxp & Hpar).
  assert (xp = x) as -> by congruence. unfold parent_keeps in Hkeep. rewrite Hpar in Hkeep. destruct (Hkeep y Hy) as [Hy2 Hroot].
  pose proof (page_at fh ok _ _ s G TI pp gp y HGp Hy) as PO. pose proof (po_node _ _ _ _ _ _ _ _ _ PO) as Hn. destruct i as [|j].
  - destruct (lookup_lt_is_Some_2 (live_keys y) 1) as [u Hu]; [rewrite (length_live fh ok y Hn); lia|].
    destruct (siblings_at fh ok s G TI pp gp y 0 k u HGp ltac:(lia) Hy Hk Hu) as (l & gl & xl & r & gr & xr & SB).
    pose proof (sib_next fh ok s G TI pp gp y 0 k u l gl xl r gr xr SB) as Hnext.
    pose proof (sb_rl _ _ _ _ _ _ _ _ _ _ _ _ _ _ SB) as (rl & Hrl & El). assert (l = q) as -> by congruence.
    assert (xl = x) as -> by (destruct (SB); congruence).
    apply (short_settles s G TI PV pp gp y 0 k u q gl x r gr xr SB 0 q r x xr); try done; [left; by split_and!|].
    unfold brother_of in Hroot. rewrite decide_True in Hroot by (rewrite (live_rids_at _ _ _ Hrd); simpl; by rewrite Erd).
    destruct (sib_ne fh ok s G TI pp gp y 0 k u q gl x r gr xr SB) as [Hlr _].
    rewrite Hnext in Hroot. destruct Hroot as [?|[?|Hb]]; [by left|by right; left|right; right]. apply Hb; [congruence|]. by destruct (SB).
  - destruct (lookup_lt_is_Some_2 (live_keys y) j) as [a Ha]; [apply lookup_lt_Some in Hk; lia|].
    destruct (siblings_at fh ok s G TI pp gp y j a k HGp ltac:(lia) Hy Ha Hk) as (l & gl & xl & r & gr & xr & SB).
    pose proof (sib_prev fh ok s G TI PV pp gp y j a k l gl xl r gr xr SB) as Hprev.
    pose proof (sb_rr _ _ _ _ _ _ _ _ _ _ _ _ _ _ SB) as (rr & Hrr & Er). assert (r = q) as -> by congruence.
    assert (xr = x) as -> by (destruct (SB); congruence).
    apply (short_settles s G TI PV pp gp y j a k l gl xl q gr x SB (Z.of_nat (S j)) q l x xl); try done; [right; by split_and!|].
    unfold brother_of in Hroot. rewrite decide_False in Hroot.
    + destruct (sib_ne fh ok s G TI pp gp y j a k l gl xl q gr x SB) as [Hlr _].
      rewrite Hprev in Hroot. destruct Hroot as [?|[?|Hb]]; [by left|by right; left|right; right]. apply Hb; [done|]. by destruct (SB).
    + intros (r0 & Hr0 & E0)%fmap_Some.
      assert (Hl0 : live_rids y !! O = Some r0) by (unfold live_rids; rewrite lookup_take_lt; [done|lia]).
      pose proof (kid_inj fh ok loose no_full _ _ _ _ _ (S j) O rd r0 eq_refl PO ltac:(lia) Hrd Hl0 ltac:(congruence)). lia.
Qed.

(** ** delete_entry *)

(** The leaf that holds [k] keeps enough entries, or running short does no harm. *)
Definition keeps_shape s G k : Prop :=
  ∀ p g x, G !! p = Some g → ht g = O → nodes s !! p = Some x → is_Some (assoc fh k (entries x)) →
    enough s p x ∨ p ≠ root_page (file_hdr s) ∧ parent_keeps s p x (num_key x - 1).

Lemma delete_short s G k fuel q g x :
  tree_inv s G → prev_ok s G → pins_ok s → ok k → (∀ gr, G !! root_page (file_hdr s) = Some gr → (ht gr < fuel)%nat) →
  G !! q = Some g → ht g = O → nodes s !! q = Some x → is_Some (assoc fh k (entries x)) →
  q ≠ root_page (file_hdr s) → parent_keeps s q x (num_key x - 1) → num_key x ≤ GetMinSize (file_hdr s) →
  ∃ s' G', delete_entry fuel k s = (Ok true, s') ∧ tree_inv s' G' ∧ prev_ok s' G' ∧ heights_kept G G' ∧ pins_ok s' ∧
    ∀ k' v, ok k' → has fh s' G' k' v ↔ has fh s G k' v ∧ compare fh k' k ≠ 0.
Proof using KO Hlen.
  intros TI PV Hps Hk Hfuel HG Hh Hx [v0 Hv0] Hne Hkeep Hfew.
  destruct (FindLeafPage_run fh ok _ _ s G TI k Hk fuel Hfuel) as (q' & gq & x0 & m & Hfl & HGq & Hxq & Hhq & Honly & _).
  assert (q = q') as <- by (apply (Honly q g HG); [congruence|by apply (assoc_within fh ok _ _ s G TI k Hk q g x v0)]).
  assert (gq = g) as -> by congruence. assert (x0 = x) as -> by congruence. pose proof (FindLeafPage_pins _ _ _ _ _ Hps Hfl) as Hpm.
  pose proof (page_at fh ok _ _ s G TI q g x HG Hx) as PO. pose proof (po_node _ _ _ _ _ _ _ _ _ PO) as Hn.
  assert (Hroom : num_key x < Z.of_nat (length (keys x))) by (rewrite (po_len _ _ _ _ _ _ _ _ _ PO); destruct (po_room _ _ _ _ _ _ _ _ _ PO) as [?|[]]; lia).
  destruct (Remove_hit fh ok x k v0 Hn Hk Hroom Hv0) as (x' & Hrm & Hn' & Hnum' & Hlen' & Hsub & Has & Hleaf' & Hpar' & Hprev' & Hnext').
  unfold delete_entry. mstep Hfl. mstep (read_node_run q num_key (set_pinmap m s) x Hx).
  set (t := set_nodes (<[q := x']> (nodes s)) (set_pinmap m s)).
  assert (Hon : on_node q (λ h, Remove h k) (set_pinmap m s) = (Ok (num_key x - 1), t)).
  { apply (on_node_run q (λ h, Remove h k) (set_pinmap m s) x); [done|]. cbn [file_hdr set_pinmap]. by rewrite (Remove_hdr fh _ k (ti_hdr _ _ _ _ _ _ TI)). }
  mstep Hon. rewrite (proj2 (Z.eqb_neq _ _)) by lia.
  assert (Hlk : links x' = links x) by (unfold links; congruence). assert (Hle : num_key x' ≤ num_key x) by lia.
  pose proof (removed_inv fh ok s G TI q g x x' HG Hx Hh Hn' Hlen' Hle Hsub Hleaf' Hpar' Hlk t eq_refl eq_refl eq_refl) as TI1.
  pose proof (removed_prev fh ok s G TI q g x x' HG Hx Hh Hn' Hlen' Hle Hsub Hleaf' Hpar' Hlk t eq_refl eq_refl eq_refl PV) as PV1.
  destruct (parent_at fh ok _ _ s G TI eq_refl q g HG Hne) as (pp & gp & y & i & rd & k1 & xp & HGp & Hhp & Hy & _ & _ & _ & _ & _ & Hxp & Hpar).
  assert (Nq : pp ≠ q) by (intros ->; assert (gp = g) as -> by congruence; lia).
  assert (Hfuel2 : ∃ fuel', fuel = S (S fuel')).
  { destruct (ti_root _ _ _ _ _ _ TI) as (gr & _ & HGr & _ & _ & _ & _ & Hmax). destruct (Hmax pp gp HGp) as [Hge _]. specialize (Hfuel gr HGr).
    destruct fuel as [|[|fuel']]; [lia|lia|by eexists]. }
  destruct Hfuel2 as [fuel' ->].
  destruct (leaf_settles t G q g x' fuel' TI1 PV1) as (b & t1 & G' & Hrun & P1 & (TI2 & PV2 & HK & Hhas)); try done.
  - apply lookup_insert_eq.
  - unfold t. simpl. lia.
  - intros y' Hy'. assert (xp = x) as -> by congruence. unfold t in Hy' |- *. simpl in Hy' |- *. rewrite Hpar' in Hy' |- *.
    rewrite lookup_insert_ne in Hy' by (rewrite Hpar; done). destruct (Hkeep y' Hy') as [K1 K2]. split; [done|].
    assert (Eb : brother_of q x' y' = brother_of q x y') by (unfold brother_of; by rewrite Hprev', Hnext').
    rewrite Eb, Hnum'. destruct K2 as [?|[?|K2]]; [by left|by right; left|right; right]. intros bx Hbq Hbx.
    rewrite lookup_insert_ne in Hbx by done. by apply K2.
  - mstep Hrun. destruct (UnpinPage_run q true t1) as (b' & m' & Hu). mstep Hu. pose proof (pins_unpin _ _ _ _ _ P1 Hu) as P2.
    exists (set_pinmap m' t1), G'. split; [done|]. split_and!; try done; [by apply tree_inv_pins|].
    intros k' v Hk'. unfold has at 1. simpl. fold (has fh t1 G' k' v). rewrite (Hhas k' v Hk').
    apply (removed_has fh ok s G TI q g x x' HG Hx Hh Hn' Hlen' Hle Hsub Hleaf' Hpar' Hlk t eq_refl eq_refl eq_refl k k' v); [done|done|by eexists|done].
Qed.

Lemma delete_run c s G k fuel :
  IxTreeSpec.tree_inv fh ok (MkMode true c) no_full s G → prev_ok s G → pins_ok s → ok k → keeps_shape s G k →
  (c = true ∨ ∃ v, has fh s G k v) → (∀ g, G !! root_page (file_hdr s) = Some g → (ht g < fuel)%nat) →
  ∃ b s' G', delete_entry fuel k s = (Ok b, s') ∧ IxTreeSpec.tree_inv fh ok (MkMode true (c && negb b)) no_full s' G' ∧
    prev_ok s' G' ∧ pins_ok s' ∧ heights_kept G G' ∧ (b = true ↔ ∃ v, has fh s G k v) ∧
    ∀ k' v, ok k' → has fh s' G' k' v ↔ has fh s G k' v ∧ compare fh k' k ≠ 0.
Proof using KO Hlen.
  intros TIc PV Hps Hk Hshape Hc Hfuel. pose proof (tree_inv_loose fh ok c _ s G TIc) as TI.
  destruct (FindLeafPage_run fh ok _ _ s G TI k Hk fuel Hfuel) as (q & g & x & m & _ & HG & Hx & Hq & Honly & _).
  pose proof (λ v, only_leaf_has fh ok _ _ s G TI k Hk q g x v HG Hx Hq Honly) as Hhas.
  destruct (assoc fh k (entries x)) as [v0|] eqn:Ea.
  - assert (Hv : ∃ v, has fh s G k v) by (exists v0; by apply Hhas).
    assert (Hen : enough s q x ∨ q ≠ root_page (file_hdr s) ∧ parent_keeps s q x (num_key x - 1) ∧ num_key x ≤ GetMinSize (file_hdr s)).
    { destruct (Hshape q g x HG Hq Hx ltac:(rewrite Ea; by eexists)) as [He|[Hne Hkeep]]; [by left|]. unfold enough. rewrite decide_False by done.
      destruct (Z.lt_ge_cases (GetMinSize (file_hdr s)) (num_key x)); [by left|by right]. }
    destruct Hen as [Hen|(Hne & Hkeep & Hfew)].
    + assert (Hnu : no_underflow fh s G k).
      { intros p gp xp HGp Hhp Hxp [vp Hvp]. assert (p = q) as -> by (apply (Honly p gp HGp); [congruence|by apply (assoc_within fh ok _ _ s G TI k Hk p gp xp vp)]).
        by assert (xp = x) as -> by congruence. }
      destruct (delete_hit fh ok Hlen c s G k fuel TIc Hps Hk Hnu Hv Hfuel) as (s' & G' & H1 & H2 & H3 & H4 & (old & f & ->) & H5 & H6).
      exists true, s', (sub_info old f <$> G). rewrite andb_false_r. split_and!; try done.
      * apply (prev_ok_keep s G); [done|done|]. intros p g' u' Hg' Hh' Hu'. rewrite lookup_fmap in Hg'. apply fmap_Some in Hg' as (g1 & Hg1 & ->).
        simpl in Hh', Hu'. apply fmap_Some in Hu' as (u1 & Hu1 & _). by exists g1, u1.
      * intros p g'. rewrite lookup_fmap. intros (g1 & Hg1 & ->)%fmap_Some. by exists g1.
    + destruct (delete_short s G k fuel q g x TI PV Hps Hk Hfuel HG Hq Hx ltac:(rewrite Ea; by eexists) Hne Hkeep Hfew) as (s' & G' & H1 & H2 & H3 & H4 & H5 & H6).
      exists true, s', G'. rewrite andb_false_r. by split_and!.
  - assert (Hno : ¬ ∃ v, has fh s G k v) by (intros [v Hv%Hhas]; done). destruct Hc as [->|?]; [|done].
    destruct (delete_miss fh ok s G k fuel TIc Hps Hk Hno Hfuel) as (m' & Hrun & Hp').
    exists false, (set_pinmap m' s), G. split_and!; try done; [by apply tree_inv_pins|by intros p g'; exists g'|].
    intros k' v Hk'. split; [|by intros [? _]]. intros Hv. split; [done|]. intros Hz. apply Hno. exists v.
    by apply (has_cong fh ok true s G k k' v).
Qed.

(** [C5] Deleting from the tree is deleting from the map it stands for, also when the
    leaf runs short: [delete_entry] returns, over a pool that does not fail; it
    answers whether the key was bound and takes away exactly that binding; and the
    tree invariant holds again, after the separators have been replaced upwards, an
    entry has been moved from a neighbouring leaf ([Redistribute]), or two leaves
    have become one ([Coalesce]) and a root with a single child has given way to it
    ([AdjustRoot]).  The left and right links of the leaves stay inverse to each
    other.  Three cases are excluded, in which the source goes wrong: the last key of
    an index that is one leaf ([emptied_index_unusable]); a leaf that must be merged
    under a parent that is not the root and has no child to lose, so that inner pages
    would be merged ([deep_delete_reads_file_header]); and a key that is absent once
    a deletion has left keys behind in unused slots ([deleted_twice_loses_key]). *)
Theorem delete_entry_rebalances c s G k fuel :
  IxTreeSpec.tree_inv fh ok (MkMode true c) no_full s G → prev_ok s G → pins_ok s → ok k → keeps_shape s G k →
  (c = true ∨ ∃ v, has fh s G k v) → (∀ g, G !! root_page (file_hdr s) = Some g → (ht g < fuel)%nat) →
  ∃ b s' G', delete_entry fuel k s = (Ok b, s') ∧ IxTreeSpec.tree_inv fh ok (MkMode true (c && negb b)) no_full s' G' ∧
    prev_ok s' G' ∧ pins_ok s' ∧ heights_kept G G' ∧ (b = true ↔ ∃ v, has fh s G k v) ∧
    ∀ k' v, ok k' → has fh s' G' k' v ↔ has fh s G k' v ∧ compare fh k' k ≠ 0.
Proof using KO Hlen. apply delete_run. Qed.

End Coalesce.
