(* ===== verification/IxLinks.v ===== *)
(** The leaves as a ring, and pin counts, through insertions.

    [insertLeaf] puts a new leaf between two neighbours of a doubly linked list that
    ends in the leaf header page.  That the two links stay inverse to each other does
    not depend on the tree: it holds for any run of [insert_entry] that returns, and
    is proved by an invariant that every step of the run keeps, except for the steps
    inside [Split], which are followed one by one. *)
From S2P Require Import Prelude Config IxKey IxNode IxNodeSpec IxTree IxTreeSpec IxTreeSplit IxTreeInsert IxInsert IxFile IxBuild IxDelete IxMerge.

(** ** Invariants of runs that return *)

Definition holds {S A} (I : S → Prop) (m : M S A) : Prop := ∀ s a s', I s → m s = (Ok a, s') → I s'.

Section Holds.
Context {S : Type} (I : S → Prop).

Lemma holds_ret {A} (a : A) : holds I (ret a).
Proof. by intros s a' s' HI [= _ <-]. Qed.

Lemma holds_gets {A} (f : S → A) : holds I (gets f).
Proof. by intros s a' s' HI [= _ <-]. Qed.

Lemma holds_get : holds I get_st.
Proof. by intros s a' s' HI [= _ <-]. Qed.

Lemma holds_crash {A} c : holds I (crash_with (A := A) c).
Proof. by intros s a' s' HI. Qed.

Lemma holds_assert b : holds I (assert_ b).
Proof. destruct b; [apply holds_ret|apply holds_crash]. Qed.

Lemma holds_bind {A B} (m : M S A) (k : A → M S B) : holds I m → (∀ a, holds I (k a)) → holds I (st_bind m k).
Proof.
  intros Hm Hk s b s' HI H. apply st_bind_inv in H as [(a & s1 & H1 & H2)|[(? & _ & ?)|(? & _ & ?)]]; [|done..].
  apply (Hk a s1 b s'); [|done]. by apply (Hm s a).
Qed.

Lemma holds_if {A} (b : bool) (m m' : M S A) : holds I m → holds I m' → holds I (if b then m else m').
Proof. by destruct b. Qed.

Lemma holds_iter {A} (f : A → M S unit) l : (∀ x, holds I (f x)) → holds I (st_iter f l).
Proof. intros Hf. induction l as [|x l IH]; simpl; [apply holds_ret|]. by apply holds_bind. Qed.

Lemma holds_run {A} (m : M S A) s a s' : I s → m s = (Ok a, s') → holds I m → I s'.
Proof. intros HI H Hm. by apply (Hm s a s'). Qed.
End Holds.

Create HintDb runs.
#[export] Hint Resolve holds_ret holds_gets holds_get holds_crash holds_assert holds_if holds_iter : runs.

(** Through the binds of a program. *)
Ltac run := repeat match goal with
  | |- holds _ _ => solve [eauto with runs]
  | |- holds _ (st_bind _ _) => apply holds_bind; [|intros ?]
  | |- holds _ (if _ then _ else _) => apply holds_if
  end.

(** ** Nodes keep their links *)

Definition shape (x : IxNode) : bool * Z * Z := (is_leaf x, prev_leaf x, next_leaf x).
Definition node_kept {A} (m : M IxNode A) : Prop := ∀ w, holds (λ x, shape x = w) m.

Lemma put_kept g : (∀ x, shape (g x) = shape x) → node_kept (modify g).
Proof. intros Hg w s a s' HI [= _ <-]. by rewrite Hg. Qed.

Lemma array_get_kept {A} (l : list A) i : node_kept (array_get l i).
Proof. intros w. unfold array_get. destruct (0 <=? i); [|apply holds_crash]. destruct (l !! Z.to_nat i); run. Qed.

Lemma get_key_kept i : node_kept (get_key i).
Proof. intros w. unfold get_key. run. apply array_get_kept. Qed.

Lemma get_rid_kept i : node_kept (get_rid i).
Proof. intros w. unfold get_rid. run. apply array_get_kept. Qed.

Lemma set_key_kept i k : node_kept (set_key i k).
Proof.
  intros w x a x' Hw. unfold set_key. rewrite st_get_bind. destruct (in_array (keys x) i); [|done]. intros [= _ <-]. done.
Qed.

Lemma set_rid_kept i r : node_kept (set_rid i r).
Proof.
  intros w x a x' Hw. unfold set_rid. rewrite st_get_bind. destruct (in_array (rids x) i); [|done]. intros [= _ <-]. done.
Qed.

Lemma bound_loop_kept fh fuel op target l r : node_kept (bound_loop fh fuel op target l r).
Proof.
  intros w. revert l r. induction fuel as [|fuel IH]; intros l r; simpl; [apply holds_crash|].
  run. apply get_key_kept.
Qed.

Lemma insert_pairs_kept pos ks rs n : node_kept (insert_pairs pos ks rs n).
Proof.
  intros w x a x' Hw. unfold insert_pairs. rewrite st_get_bind. destruct (0 <=? _); [|by intros [= _ <-]].
  destruct (_ && _); [|done]. intros [= _ <-]. done.
Qed.

#[export] Hint Resolve array_get_kept get_key_kept get_rid_kept set_key_kept set_rid_kept bound_loop_kept insert_pairs_kept : runs.

Lemma ValueAt_kept i : node_kept (ValueAt i).
Proof. intros w. unfold ValueAt. run. apply get_rid_kept. Qed.

Lemma InternalLookup_kept fh k : node_kept (InternalLookup fh k).
Proof. intros w. unfold InternalLookup, upper_bound, GetSize. run; [apply bound_loop_kept|apply ValueAt_kept]. Qed.

Lemma Insert_kept fh k v : node_kept (Insert fh k v).
Proof.
  intros w. unfold Insert, lower_bound, insert_pair, GetSize. run; [apply bound_loop_kept|apply get_key_kept|apply insert_pairs_kept].
Qed.

Lemma gets_kept {A} (g : IxNode → A) : node_kept (gets g).
Proof. intros w. apply holds_gets. Qed.

#[export] Hint Resolve put_kept ValueAt_kept InternalLookup_kept Insert_kept gets_kept : runs.

(** ** The steps of an insertion *)

Lemma on_node_inv {A} p (m : IxFileHdr → M IxNode A) s a s' :
  on_node p m s = (Ok a, s') →
  ∃ x x', nodes s !! p = Some x ∧ m (file_hdr s) x = (Ok a, x') ∧ s' = set_nodes (<[p := x']> (nodes s)) s.
Proof.
  unfold on_node. destruct (nodes s !! p) as [x|]; [|done]. destruct (m (file_hdr s) x) as [r x'] eqn:E. intros [= -> <-]. by exists x, x'.
Qed.

Section Walk.
Context (I : IxState → Prop).
Context (Hnode : ∀ A p (m : IxFileHdr → M IxNode A), (∀ h, node_kept (m h)) → holds I (on_node p m)).
Context (Hfetch : ∀ p, holds I (FetchNode p)) (Hunpin : ∀ p b, holds I (UnpinPage p b)) (Hhdr : ∀ g, holds I (upd_hdr g)).

Lemma read_node_holds {A} p (g : IxNode → A) : holds I (read_node p g).
Proof using Hnode. apply Hnode. intros h. apply gets_kept. Qed.

Lemma upd_node_holds p g : (∀ x, shape (g x) = shape x) → holds I (upd_node p g).
Proof using Hnode. intros Hg. apply Hnode. intros h. by apply put_kept. Qed.

Hint Resolve read_node_holds : runs.

Lemma FindLeafPage_holds fuel k : holds I (FindLeafPage fuel k).
Proof using Hnode Hfetch.
  assert (Hloop : ∀ p, holds I (FindLeafPage_loop fuel k p)).
  { induction fuel as [|fuel IH]; intros p; simpl; [apply holds_crash|]. run. }
  unfold FindLeafPage, getRootPageNo. run.
Qed.

Lemma maintain_child_holds p i : holds I (maintain_child p i).
Proof using Hnode Hfetch Hunpin.
  pose proof upd_node_holds. unfold maintain_child. run.
Qed.

Lemma updateLastLeaf_holds p q : holds I (updateLastLeaf p q).
Proof using Hhdr. unfold updateLastLeaf, get_last_leaf, set_last_leaf. run. Qed.

(** [Split] and the making of a root are each one step here. *)
Context (Hsplit : ∀ q s a s', I s → is_Some (nodes s !! q) → Split q s = (Ok a, s') → I s').
Context (Hroot : ∀ l r, holds I (newRoot ← CreateNode; setNewRoot newRoot l r)).

Lemma splitNodeIfFull_holds fuel p : holds I (splitNodeIfFull fuel p).
Proof using All.
  revert p. induction fuel as [|fuel IH]; intros p; [apply holds_crash|]. intros s a s' HI H. cbn [splitNodeIfFull] in H.
  apply st_bind_inv in H as [(full & s1 & H1 & H)|[(? & _ & ?)|(? & _ & ?)]]; [|done..].
  pose proof (Hnode _ p (λ h, gets (is_full h)) (λ h, gets_kept _) s full s1 HI H1) as HI1.
  apply on_node_inv in H1 as (x & x' & _ & _ & ->). destruct full; [|by injection H as _ <-].
  apply st_bind_inv in H as [(n & s2 & H2 & H)|[(? & _ & ?)|(? & _ & ?)]]; [|done..].
  assert (HI2 : I s2). { apply (Hsplit p _ n s2 HI1); [|done]. simpl. rewrite lookup_insert_eq. by eexists. }
  pose proof updateLastLeaf_holds. apply (holds_run I _ s2 a s' HI2 H). run.
Qed.

Lemma insert_entry_holds fuel k v : holds I (insert_entry fuel k v).
Proof using All.
  unfold insert_entry. pose proof FindLeafPage_holds. pose proof splitNodeIfFull_holds. run.
Qed.

Lemma insert_all_holds fuel l : holds I (insert_all fuel l).
Proof using All. unfold insert_all. apply holds_iter. intros e. pose proof insert_entry_holds. run. Qed.

End Walk.

(** ** Pin counts *)

Lemma pins_node A p (m : IxFileHdr → M IxNode A) : holds pins_ok (on_node p m).
Proof. intros s a s' Hs H. by apply (on_node_pins p m s (Ok a) s'). Qed.

Lemma pins_fetch p : holds pins_ok (FetchNode p).
Proof. intros s a s' Hs H. by apply (FetchNode_pins p s (Ok a) s'). Qed.

Lemma pins_unpin_holds p b : holds pins_ok (UnpinPage p b).
Proof. intros s a s' Hs H. by apply (pins_unpin s p b (Ok a) s'). Qed.

Lemma pins_hdr g : holds pins_ok (upd_hdr g).
Proof. intros s a s' Hs [= _ <-]. apply Hs. Qed.

Lemma pins_create : holds pins_ok CreateNode.
Proof.
  unfold CreateNode. apply holds_bind; [apply pins_hdr|]. intros _ s a s' Hs [= _ <-] p. unfold pin_count, pin_state. simpl.
  destruct (decide (p = next_page s)) as [->|Hne]; [by rewrite lookup_insert_eq|]. rewrite lookup_insert_ne by done. apply Hs.
Qed.

#[export] Hint Resolve pins_node pins_fetch pins_unpin_holds pins_hdr pins_create : runs.

Lemma pins_read {A} p (g : IxNode → A) : holds pins_ok (read_node p g).
Proof. apply pins_node. Qed.

Lemma pins_upd p g : holds pins_ok (upd_node p g).
Proof. apply pins_node. Qed.

#[export] Hint Resolve pins_read pins_upd : runs.

Lemma pins_children p i : holds pins_ok (maintain_child p i).
Proof. apply maintain_child_holds; auto with runs. Qed.

#[export] Hint Resolve pins_children : runs.

Lemma pins_split q : holds pins_ok (Split q).
Proof.
  unfold Split, evenlyDistributePairs, insertLeaf. run. apply holds_iter. intros i. unfold copy_pairs. run.
Qed.

Lemma pins_new_root l r : holds pins_ok (newRoot ← CreateNode; setNewRoot newRoot l r).
Proof. unfold setNewRoot, UpdateRootPageNo. run. Qed.

Lemma insert_all_pins fuel l : holds pins_ok (insert_all fuel l).
Proof.
  apply insert_all_holds; auto using pins_new_root with runs. intros q s a s' HI _ H. by apply (pins_split q s a s').
Qed.

(** ** The ring of leaves *)

Definition shapes (s : IxState) : gmap Z (bool * Z * Z) := shape <$> nodes s.

(** Following the right link and then the left link leads back. *)
Definition ring (f : gmap Z (bool * Z * Z)) : Prop :=
  ∀ p a b, f !! p = Some (true, a, b) → b ≠ p ∧ ∃ c, f !! b = Some (true, p, c).

Definition ring_ok (s : IxState) : Prop := ring (shapes s) ∧ 0 ≤ next_page s ∧ ∀ p, is_Some (nodes s !! p) → 0 ≤ p < next_page s.

Lemma ring_fresh f n a b : ring f → f !! n = None → ring (<[n := (false, a, b)]> f).
Proof.
  intros Hf Hn p a' b' Hp. apply lookup_insert_Some in Hp as [[_ ?]|[_ Hp]]; [done|].
  destruct (Hf p a' b' Hp) as (Hne & c & Hc). split; [done|]. exists c. rewrite lookup_insert_ne; [done|congruence].
Qed.

(** A new leaf between two neighbours. *)
Lemma ring_insert f q n a b c :
  ring f → f !! n = None → f !! q = Some (true, a, b) → f !! b = Some (true, q, c) →
  ring (<[b := (true, n, c)]> (<[q := (true, a, n)]> (<[n := (true, q, b)]> f))).
Proof.
  intros Hf Hn Hq Hb. destruct (Hf q a b Hq) as [Hbq _]. assert (Hqn : q ≠ n) by congruence. assert (Hbn : b ≠ n) by congruence.
  intros p a' b' Hp. destruct (decide (p = b)) as [->|Nb].
  { rewrite lookup_insert_eq in Hp. injection Hp as <- <-. destruct (Hf b q c Hb) as (Hne & c' & Hc').
    split; [done|]. rewrite lookup_insert_ne by done. destruct (decide (c = q)) as [->|Nq].
    - exists n. rewrite lookup_insert_eq. congruence.
    - exists c'. rewrite !lookup_insert_ne by congruence. done. }
  rewrite lookup_insert_ne in Hp by done. destruct (decide (p = q)) as [->|Nq].
  { rewrite lookup_insert_eq in Hp. injection Hp as <- <-. split; [done|]. exists b. rewrite !lookup_insert_ne, lookup_insert_eq by done. done. }
  rewrite lookup_insert_ne in Hp by done. destruct (decide (p = n)) as [->|Nn].
  { rewrite lookup_insert_eq in Hp. injection Hp as <- <-. split; [done|]. exists c. by rewrite lookup_insert_eq. }
  rewrite lookup_insert_ne in Hp by done. destruct (Hf p a' b' Hp) as (Hne & c' & Hc'). split; [done|].
  destruct (decide (b' = b)) as [->|N1]; [congruence|]. destruct (decide (b' = q)) as [->|N2].
  - exists n. rewrite lookup_insert_ne, lookup_insert_eq by done. congruence.
  - exists c'. rewrite !lookup_insert_ne by congruence. done.
Qed.

(** What the steps outside [Split] leave alone. *)
Definition looks (W : gmap Z (bool * Z * Z)) (m : Z) (s : IxState) : Prop := shapes s = W ∧ next_page s = m.

Lemma looks_node W n A p (m : IxFileHdr → M IxNode A) : (∀ h, node_kept (m h)) → holds (looks W n) (on_node p m).
Proof.
  intros Hm s a s' [HW Hn] H. apply on_node_inv in H as (x & x' & Hx & Hr & ->). split; [|done]. unfold shapes. simpl.
  rewrite fmap_insert, (Hm _ (shape x) x a x' eq_refl Hr). rewrite insert_id; [done|]. by rewrite lookup_fmap, Hx.
Qed.

Lemma looks_fetch W n p : holds (looks W n) (FetchNode p).
Proof. intros s a s' HI. unfold FetchNode. simpl. destruct (nodes s !! p); [by intros [= _ <-]|]. by destruct (p =? _). Qed.

Lemma looks_unpin W n p b : holds (looks W n) (UnpinPage p b).
Proof. intros s a s' HI. unfold UnpinPage. destruct (0 <? _); by intros [= _ <-]. Qed.

Lemma looks_hdr W n g : holds (looks W n) (upd_hdr g).
Proof. by intros s a s' HI [= _ <-]. Qed.

Lemma ring_looks s s' : looks (shapes s) (next_page s) s' → ring_ok s → ring_ok s'.
Proof.
  intros [HW Hn] (Hr & Hz & Hp). split; [by rewrite HW|]. split; [by rewrite Hn|]. intros p Hs. rewrite Hn. apply Hp. rewrite <- (fmap_is_Some shape), <- lookup_fmap in Hs |- *.
  change (shape <$> nodes s') with (shapes s') in Hs. by rewrite HW in Hs.
Qed.

(** A step that keeps the looks of every state keeps the ring. *)
Lemma ring_of_looks {A} (m : M IxState A) : (∀ W n, holds (looks W n) m) → holds ring_ok m.
Proof. intros Hm s a s' Hs H. apply (ring_looks s s'); [|done]. by apply (Hm (shapes s) (next_page s) s a s'). Qed.

Section Looks.
Context (W : gmap Z (bool * Z * Z)) (n : Z).

Lemma looks_read {A} p (g : IxNode → A) : holds (looks W n) (read_node p g).
Proof. apply read_node_holds, looks_node. Qed.

Lemma looks_upd p g : (∀ x, shape (g x) = shape x) → holds (looks W n) (upd_node p g).
Proof. apply upd_node_holds, looks_node. Qed.

Lemma looks_child p i : holds (looks W n) (maintain_child p i).
Proof. apply maintain_child_holds; auto using looks_node, looks_fetch, looks_unpin. Qed.

Lemma looks_copy p q k i : holds (looks W n) (copy_pairs p q k i).
Proof. unfold copy_pairs. pose proof (looks_node W n). run. Qed.
End Looks.

#[export] Hint Resolve looks_node looks_fetch looks_unpin looks_hdr looks_read looks_upd looks_child looks_copy : runs.

Lemma upd_node_inv p g s a s' :
  upd_node p g s = (Ok a, s') → ∃ x, nodes s !! p = Some x ∧ s' = set_nodes (<[p := g x]> (nodes s)) s.
Proof. intros H. apply on_node_inv in H as (x & x' & Hx & [= _ <-] & ->). by exists x. Qed.

Lemma read_node_inv {A} p (g : IxNode → A) s a s' :
  read_node p g s = (Ok a, s') → ∃ x, nodes s !! p = Some x ∧ a = g x ∧ s' = s.
Proof.
  intros H. apply on_node_inv in H as (x & x' & Hx & [= <- <-] & ->). exists x. split_and!; try done.
  rewrite insert_id by done. by destruct s.
Qed.

(** The first half of [Split]: the new page is a leaf if the old one is. *)
Lemma distribute_looks n q s s' x z :
  n ≠ q → nodes s !! q = Some x → nodes s !! n = Some z → evenlyDistributePairs n q s = (Ok tt, s') →
  looks (<[n := shape (set_leaf (is_leaf x) z)]> (shapes s)) (next_page s) s'.
Proof.
  intros Hne Hx Hz H. unfold evenlyDistributePairs in H. mstep (read_node_run q num_key s x Hx) in H. mstep (read_node_run q is_leaf s x Hx) in H.
  mstep (upd_node_run n (set_leaf (is_leaf x)) s z Hz) in H. revert H. apply holds_bind.
  - by apply looks_upd.
  - intros _. run.
  - split; [|done]. unfold shapes. simpl. by rewrite fmap_insert.
Qed.

Lemma looks_lookup W m s p w : looks W m s → W !! p = Some w → ∃ x, nodes s !! p = Some x ∧ shape x = w.
Proof.
  intros [HW _] Hp. rewrite <- HW in Hp. unfold shapes in Hp. rewrite lookup_fmap in Hp. apply fmap_Some in Hp as (x & Hx & ->). by exists x.
Qed.

Lemma ring_split q s a s' : ring_ok s → is_Some (nodes s !! q) → Split q s = (Ok a, s') → ring_ok s'.
Proof.
  intros (Hr & Hz & Hp) [x Hx] H. unfold Split in H. destruct (CreateNode_run s) as (h & Hc & _). mstep Hc in H.
  set (n := next_page s) in *. set (z := zero_node (file_hdr s)) in *. set (s1 := MkIx h _ _ _) in *.
  apply st_bind_inv in H as [([] & s2 & H2 & H)|[(? & _ & ?)|(? & _ & ?)]]; [|done..].
  assert (Hnone : nodes s !! n = None) by (destruct (nodes s !! n) eqn:E; [destruct (Hp n ltac:(by eexists)); unfold n in *; lia|done]).
  assert (Hfn : shapes s !! n = None) by (unfold shapes; by rewrite lookup_fmap, Hnone). assert (Hqn : n ≠ q) by congruence.
  pose proof (Hp q ltac:(by eexists)) as Hq0.
  pose proof (distribute_looks n q s1 s2 x z Hqn ltac:(unfold s1; simpl; by rewrite lookup_insert_ne) ltac:(unfold s1; simpl; by rewrite lookup_insert_eq) H2) as HL.
  assert (E1 : <[n := shape (set_leaf (is_leaf x) z)]> (shapes s1) = <[n := (is_leaf x, 0, 0)]> (shapes s)).
  { unfold s1, shapes. simpl. rewrite fmap_insert, insert_insert_eq. done. }
  rewrite E1 in HL. clear E1 H2. change (next_page s1) with (n + 1) in HL.
  assert (Hpages : ∀ p, is_Some (<[n := (is_leaf x, 0, 0)]> (shapes s) !! p) → 0 ≤ p < n + 1).
  { intros p. destruct (decide (p = n)) as [->|Hne]; [unfold n in *; lia|]. rewrite lookup_insert_ne by done. unfold shapes.
    rewrite lookup_fmap, fmap_is_Some. intros Hs. specialize (Hp p Hs). unfold n. lia. }
  assert (Hback : ∀ t, looks (<[n := (is_leaf x, 0, 0)]> (shapes s)) (n + 1) t → ∀ p, is_Some (nodes t !! p) → 0 ≤ p < next_page t).
  { intros t [HW Hn] p Hs. rewrite Hn. apply Hpages. rewrite <- HW. unfold shapes. by rewrite lookup_fmap, fmap_is_Some. }
  destruct (looks_lookup _ _ _ n (is_leaf x, 0, 0) HL ltac:(apply lookup_insert_eq)) as (xn & Hxn & Sn).
  apply st_bind_inv in H as [(leaf & s3 & H3 & H)|[(? & _ & ?)|(? & _ & ?)]]; [|done..].
  apply read_node_inv in H3 as (xn' & Hxn' & -> & ->). assert (xn' = xn) as -> by congruence. injection Sn as Sn1 Sn2 Sn3. rewrite Sn1 in H.
  apply st_bind_inv in H as [([] & s4 & H4 & H)|[(? & _ & ?)|(? & _ & ?)]]; [|done..]. injection H as <- <-.
  destruct (is_leaf x) eqn:Ex.
  - assert (Hfq : shapes s !! q = Some (true, prev_leaf x, next_leaf x)) by (unfold shapes, shape; rewrite lookup_fmap, Hx; simpl; by rewrite Ex).
    destruct (Hr q _ _ Hfq) as (Hbq & c & Hb). assert (Hbn : next_leaf x ≠ n) by congruence.
    destruct (looks_lookup _ _ _ q (true, prev_leaf x, next_leaf x) HL ltac:(by rewrite lookup_insert_ne)) as (xq & Hxq & Sq).
    destruct (looks_lookup _ _ _ (next_leaf x) (true, q, c) HL ltac:(by rewrite lookup_insert_ne)) as (y & Hy & Sy).
    injection Sq as Sq1 Sq2 Sq3. injection Sy as Sy1 Sy2 Sy3. rewrite <- Sq3 in Hy, Hbq, Hbn.
    assert (Hb0 : next_leaf xq ≠ INVALID_PAGE_ID).
    { destruct (Hback s2 HL (next_leaf xq) ltac:(by eexists)). unfold INVALID_PAGE_ID. lia. }
    destruct (insertLeaf_run s2 q n xq xn y Hxq Hxn ltac:(congruence) Hb0 Hy Hbq Hbn) as [m Hm]. rewrite Hm in H4. injection H4 as <-.
    destruct (HL) as [_ HLn]. split_and!; [|simpl; rewrite HLn; unfold n; lia|].
    + unfold shapes. simpl. rewrite !fmap_insert. destruct HL as [HW _]. unfold shapes in HW. rewrite HW, insert_insert_eq.
      unfold shape. simpl. rewrite Sn1, Sq1, Sq2, Sq3, Sy1, Sy3. by apply ring_insert.
    + intros p. simpl. intros Hs. apply (Hback s2 HL). destruct (decide (p = next_leaf xq)) as [->|N1]; [by eexists|].
      rewrite lookup_insert_ne in Hs by done. destruct (decide (p = q)) as [->|N2]; [by eexists|]. rewrite lookup_insert_ne in Hs by done.
      destruct (decide (p = n)) as [->|N3]; [by eexists|]. by rewrite lookup_insert_ne in Hs.
  - assert (HL4 : looks (<[n := (false, 0, 0)]> (shapes s)) (n + 1) s4).
    { apply (holds_run _ _ s2 tt s4 HL H4). run. }
    split_and!; [|destruct HL4 as [_ ->]; unfold n; lia|by apply Hback]. destruct HL4 as [-> _]. by apply ring_fresh.
Qed.

Lemma ring_new_root l r : holds ring_ok (newRoot ← CreateNode; setNewRoot newRoot l r).
Proof.
  intros s a s' (Hr & Hz & Hp) H. destruct (CreateNode_run s) as (h & Hc & _). mstep Hc in H.
  set (n := next_page s) in *. set (z := zero_node (file_hdr s)) in *. set (s1 := MkIx h _ _ _) in *.
  assert (Hnone : nodes s !! n = None) by (destruct (nodes s !! n) eqn:E; [destruct (Hp n ltac:(by eexists)); unfold n in *; lia|done]).
  unfold setNewRoot in H. mstep (upd_node_run n (set_leaf false) s1 z ltac:(unfold s1; simpl; by rewrite lookup_insert_eq)) in H.
  set (W := <[n := (false, 0, 0)]> (shapes s)).
  assert (HL : looks W (n + 1) s').
  { assert (H0 : looks W (n + 1) (set_nodes (<[n := set_leaf false z]> (nodes s1)) s1)).
    { split; [|done]. unfold shapes, s1, W. simpl. rewrite insert_insert_eq, fmap_insert. done. }
    apply (holds_run _ _ _ a s' H0 H). unfold UpdateRootPageNo. run. }
  destruct HL as [HW Hn]. split_and!; [|rewrite Hn; unfold n; lia|].
  - rewrite HW. apply ring_fresh; [done|]. unfold shapes. by rewrite lookup_fmap, Hnone.
  - intros p Hs. rewrite Hn. rewrite <- (fmap_is_Some shape), <- lookup_fmap in Hs. change (shape <$> nodes s') with (shapes s') in Hs.
    rewrite HW in Hs. unfold W in Hs. destruct (decide (p = n)) as [->|Hne].
    + unfold n. lia.
    + rewrite lookup_insert_ne in Hs by done. unfold shapes in Hs. rewrite lookup_fmap, fmap_is_Some in Hs. specialize (Hp p Hs). unfold n. lia.
Qed.

Lemma insert_all_ring fuel l : holds ring_ok (insert_all fuel l).
Proof.
  apply insert_all_holds; [intros; apply ring_of_looks; auto with runs..|apply ring_split|apply ring_new_root].
Qed.

(** ** From a new index on *)

Lemma new_index_ring h buf np : layout_ok h → length buf = page_len → IX_INIT_NUM_PAGES ≤ np →
  ring_ok (new_index h buf np) ∧ pins_ok (new_index h buf np).
Proof.
  intros LO Hbuf Hnp. unfold IX_INIT_NUM_PAGES in Hnp. assert (Hint : ∀ z, 0 ≤ z ≤ 2 → is_int z) by auto with ints.
  destruct (view_fresh_leaf h LO IX_LEAF_HEADER_PAGE (fresh_leaf IX_INIT_ROOT_PAGE buf)) as (_ & _ & V3 & V4 & _ & _ & V7);
    [by apply length_fresh_leaf|by apply Hint|].
  destruct (view_fresh_leaf h LO IX_INIT_ROOT_PAGE buf Hbuf ltac:(by apply Hint)) as (_ & _ & U3 & U4 & _ & _ & U7).
  split; [|done]. split_and!; [|simpl; lia|].
  - unfold shapes, new_index. simpl. rewrite fmap_insert, map_fmap_singleton. unfold shape. rewrite V3, V4, V7, U3, U4, U7.
    intros p a b. destruct (decide (p = IX_LEAF_HEADER_PAGE)) as [->|N1].
    + rewrite lookup_insert_eq. intros [= <- <-]. split; [done|]. exists IX_LEAF_HEADER_PAGE. by rewrite lookup_insert_ne, lookup_singleton_eq.
    + rewrite lookup_insert_ne by done. intros [<- [= <- <-]]%lookup_singleton_Some. split; [done|]. exists IX_INIT_ROOT_PAGE. by rewrite lookup_insert_eq.
  - intros p [x Hx]. unfold new_index in Hx. simpl in Hx. simpl.
    apply lookup_insert_Some in Hx as [[<- _]|[_ [<- _]%lookup_singleton_Some]]; unfold IX_LEAF_HEADER_PAGE, IX_INIT_ROOT_PAGE; lia.
Qed.

(** In a tree the ring is what deletion needs of the links. *)
Lemma ring_prev fh ok md full s G : tree_inv fh ok md full s G → ring_ok s → prev_ok s G.
Proof.
  intros TI [Hr _] p g x u HG Hh _ Hx. destruct (ti_page _ _ _ _ _ _ TI p g HG) as (_ & x' & Hx' & PO). assert (x' = x) as -> by congruence.
  pose proof (po_leaf _ _ _ _ _ _ _ _ _ PO) as Hl. rewrite Hh in Hl.
  destruct (Hr p (prev_leaf x) (next_leaf x)) as (_ & c & Hc).
  { unfold shapes, shape. rewrite lookup_fmap, Hx. simpl. by rewrite Hl. }
  unfold shapes in Hc. rewrite lookup_fmap in Hc. apply fmap_Some in Hc as (y & Hy & [= _ E _]). by exists y.
Qed.
