(* ===== verification/IxHistory.v ===== *)
(** The life of an index: created, filled, keys deleted, keys looked up.  The theorems
    on insertion and deletion are put together; the conditions of the deletions are
    stated on the pages the run comes to, without the invariant's ghost state. *)
From S2P Require Import Prelude Config IxKey IxNode IxNodeSpec IxTree IxTreeSpec IxTreeSplit IxTreeInsert IxInsert IxFile IxBuild IxDelete IxMerge IxRebalance IxLinks.

Definition delete_all (fuel : nat) (ks : list key) : M IxState unit :=
  st_iter (λ k, _ ← delete_entry fuel k; ret tt) ks.

(** The leaf the search for [k] ends in can lose an entry: it keeps enough, or running
    short it takes one from its neighbour, or its parent can lose a child. *)
Definition can_shrink (fuel : nat) (s : IxState) (k : key) : Prop :=
  ∀ q s1 x, FindLeafPage fuel k s = (Ok q, s1) → nodes s !! q = Some x →
    enough s q x ∨ q ≠ root_page (file_hdr s) ∧ parent_keeps s q x (num_key x - 1).

Fixpoint all_shrink (fuel : nat) (ks : list key) (s : IxState) : Prop :=
  match ks with
  | [] => True
  | k :: ks' => can_shrink fuel s k ∧ all_shrink fuel ks' (delete_entry fuel k s).2
  end.

(** The conditions as a test. *)
Definition can_shrink_b (fuel : nat) (s : IxState) (k : key) : bool :=
  match (FindLeafPage fuel k s).1 with
  | Ok q =>
      match nodes s !! q with
      | Some x =>
          if q =? root_page (file_hdr s) then 2 <=? num_key x
          else (GetMinSize (file_hdr s) <? num_key x)
               || match nodes s !! parent x with
                  | Some y =>
                      (2 <=? num_key y) &&
                      ((parent x =? root_page (file_hdr s)) || (GetMinSize (file_hdr s) <? num_key y)
                       || match nodes s !! brother_of q x y with
                          | Some bx => GetMinSize (file_hdr s) * 2 <=? num_key x - 1 + num_key bx
                          | None => true
                          end)
                  | None => true
                  end
      | None => true
      end
  | _ => true
  end.

Fixpoint all_shrink_b (fuel : nat) (ks : list key) (s : IxState) : bool :=
  match ks with
  | [] => true
  | k :: ks' => can_shrink_b fuel s k && all_shrink_b fuel ks' (delete_entry fuel k s).2
  end.

Lemma can_shrink_b_ok fuel s k : can_shrink_b fuel s k = true → can_shrink fuel s k.
Proof.
  intros Hb q s1 x Hrun Hx. unfold can_shrink_b in Hb. rewrite Hrun in Hb. simpl in Hb. rewrite Hx in Hb. unfold enough.
  destruct (decide (q = root_page (file_hdr s))) as [->|Hne].
  - rewrite Z.eqb_refl in Hb. left. by apply Z.leb_le.
  - rewrite (proj2 (Z.eqb_neq _ _)) in Hb by done. apply orb_prop in Hb as [Hb|Hb]; [left; by apply Z.ltb_lt|]. right. split; [done|].
    intros y Hy. rewrite Hy in Hb. apply andb_prop in Hb as [H1 H2]. split; [by apply Z.leb_le|].
    apply orb_prop in H2 as [[H2|H2]%orb_prop|H2]; [left; by apply Z.eqb_eq|right; left; by apply Z.ltb_lt|right; right].
    intros bx _ Hbx. rewrite Hbx in H2. by apply Z.leb_le.
Qed.

Lemma all_shrink_b_ok fuel ks s : all_shrink_b fuel ks s = true → all_shrink fuel ks s.
Proof.
  revert s. induction ks as [|k ks IH]; intros s; simpl; [done|]. intros [H1 H2]%andb_prop. split; [by apply can_shrink_b_ok|by apply IH].
Qed.

Section History.
Context (fh : IxFileHdr) (ok : key → Prop) {KO : KeyOrder (compare fh) ok}.
Context (Hlen : ∀ k, ok k → length k = Z.to_nat (col_len fh)).
Abbreviation cmp := (compare fh).

(** What is left of the list. *)
Definition lookup_without (gone : list key) (k : key) (es : list (key * Rid)) : option Rid :=
  if existsb (λ k', cmp k k' =? 0) gone then None else assoc fh k es.

(** The tree stands for the list without the deleted keys. *)
Record left_over (fuel : nat) (es : list (key * Rid)) (gone : list key) (s : IxState) (G : gmap Z info) : Prop := {
  lf_inv : tree_inv fh ok loose no_full s G;
  lf_prev : prev_ok s G;
  lf_pins : pins_ok s;
  lf_fuel : ∀ g, G !! root_page (file_hdr s) = Some g → (ht g < fuel)%nat;
  lf_has : ∀ k v, ok k → has fh s G k v ↔ lookup_without gone k es = Some v
}.

Lemma can_shrink_shape fuel s G k :
  tree_inv fh ok loose no_full s G → ok k → (∀ g, G !! root_page (file_hdr s) = Some g → (ht g < fuel)%nat) →
  can_shrink fuel s k → keeps_shape fh s G k.
Proof using KO.
  intros TI Hk Hfuel Hs p g x HG Hh Hx [v Hv].
  destruct (FindLeafPage_run fh ok _ _ s G TI k Hk fuel Hfuel) as (q & gq & xq & m & Hrun & _ & _ & Hq & Honly & _).
  assert (p = q) as -> by (apply (Honly p g HG); [congruence|by apply (assoc_within fh ok _ _ s G TI k Hk p g x v)]).
  by apply (Hs q _ x Hrun).
Qed.

Lemma lookup_without_cons gone k k' es v :
  lookup_without (k' :: gone) k es = Some v ↔ lookup_without gone k es = Some v ∧ cmp k k' ≠ 0.
Proof.
  unfold lookup_without. simpl. destruct (Z.eqb_spec (cmp k k') 0) as [Hz|Hz]; simpl; [by split; [|intros [_ ?]]|].
  split; [by intros|by intros [? _]].
Qed.

(** Deleting one more key. *)
Lemma delete_one fuel es gone s G k :
  left_over fuel es gone s G → ok k → is_Some (lookup_without gone k es) → can_shrink fuel s k →
  ∃ s' G', delete_entry fuel k s = (Ok true, s') ∧ left_over fuel es (k :: gone) s' G'.
Proof using All.
  intros [L1 L2 L3 L4 L5] Hk [v Hv] Hs. apply L5 in Hv; [|done].
  destruct (delete_run fh ok Hlen false s G k fuel L1 L2 L3 Hk (can_shrink_shape fuel s G k L1 Hk L4 Hs) ltac:(right; by exists v) L4)
    as (b & s' & G' & H1 & H2 & H3 & H4 & H5 & H6 & H7).
  assert (b = true) as -> by (apply H6; by exists v). exists s', G'. split; [done|]. split; try done.
  - intros g' Hg'. destruct (H5 _ g' Hg') as (g & Hg & ->). destruct (ti_root _ _ _ _ _ _ L1) as (gr & _ & HGr & _ & _ & _ & _ & Hmax).
    destruct (Hmax _ g Hg) as [Hle _]. specialize (L4 gr HGr). lia.
  - intros k' v' Hk'. rewrite (H7 k' v' Hk'), (L5 k' v' Hk'), lookup_without_cons. done.
Qed.

(** Each key is bound when its turn comes. *)
Definition present (es : list (key * Rid)) (gone ks : list key) : Prop :=
  ∀ i k, ks !! i = Some k → ok k ∧ is_Some (lookup_without (reverse (take i ks) ++ gone) k es).

Lemma delete_all_run fuel es ks gone s G :
  left_over fuel es gone s G → present es gone ks → all_shrink fuel ks s →
  ∃ s' G', delete_all fuel ks s = (Ok tt, s') ∧ left_over fuel es (reverse ks ++ gone) s' G'.
Proof using All.
  revert gone s G. induction ks as [|k ks IH]; intros gone s G LF Hp Hs; [by exists s, G|]. destruct Hs as [Hs Hrest].
  destruct (Hp 0%nat k eq_refl) as [Hk Hb]. destruct (delete_one fuel es gone s G k LF Hk Hb Hs) as (s1 & G1 & H1 & LF1).
  rewrite H1 in Hrest. simpl in Hrest. destruct (IH (k :: gone) s1 G1 LF1) as (s2 & G2 & H2 & LF2); [|done|].
  - intros i k' Hi. specialize (Hp (S i) k' Hi). simpl in Hp. by rewrite reverse_cons, <- app_assoc in Hp.
  - exists s2, G2. rewrite reverse_cons, <- app_assoc. split; [|done]. unfold delete_all. simpl.
    assert (Hd : (_ ← delete_entry fuel k; ret tt) s = (Ok tt, s1)) by (by mstep H1). by mstep Hd.
Qed.

Lemma lookup_without_reverse gone k es : lookup_without (reverse gone) k es = lookup_without gone k es.
Proof.
  unfold lookup_without. assert (existsb (λ k', cmp k k' =? 0) (reverse gone) = existsb (λ k', cmp k k' =? 0) gone) as ->; [|done].
  induction gone as [|g gone IH]; [done|]. rewrite reverse_cons, existsb_app, IH. simpl. rewrite orb_false_r. apply orb_comm.
Qed.

(** [C2] An index lives as a map: start from the pages [create_index] writes, for any
    layout of nodes that fits a page, with a page counter past them (as when
    [open_index] gets the descriptor [create_index] used); insert a list of pairs
    whose first key is a smallest one; delete keys, each while it is bound; look up a
    key.  Over a pool that does not fail every call returns, and [GetValue] answers
    what the list answers without the deleted keys.  The keys range over a set [ok] in
    which no key equals the all-zero key or one of the uninitialised keys
    [create_index] left in its page buffer.  A deletion may take leaves below half,
    take entries from neighbours, join leaves and lower the tree; it may not take the
    last key, nor come to an inner page that would have to be joined with another. *)
Theorem index_history_correct buf np k0 v0 l ks k fuel :
  layout_ok fh → IX_INIT_NUM_PAGES ≤ np → root_page fh = IX_INIT_ROOT_PAGE → last_leaf fh = IX_INIT_ROOT_PAGE → btree_order fh < int_max →
  length buf = page_len → (∀ k', ok k' → cmp k' (zeros (Z.to_nat (col_len fh))) ≠ 0) →
  (∀ i k', (i < n_slots fh)%nat → ok k' → cmp k' (key_at fh buf i) ≠ 0) →
  ok k0 → Forall (λ e, ok e.1 ∧ cmp k0 e.1 ≤ 0) l → (S (length l) < fuel)%nat →
  let es := (k0, v0) :: l in
  present es [] ks → all_shrink fuel ks (insert_all fuel es (new_index fh buf np)).2 → ok k →
  ∃ s1 s2 m, insert_all fuel es (new_index fh buf np) = (Ok tt, s1) ∧ delete_all fuel ks s1 = (Ok tt, s2) ∧
    GetValue fuel k s2 = (Ok (lookup_without ks k es), set_pinmap m s2).
Proof using All.
  intros LO Hnp Hroot Hlast Hord Hbuf Hzero Hdead Hk0 Hl Hf es Hpr Hsh Hk.
  destruct (build_run fh ok Hzero LO buf np k0 v0 l fuel Hbuf Hnp Hroot Hlast Hord ltac:(intros i Hi k' Hk'; by apply Hdead) Hk0 Hl Hf) as (s1 & G & Hrun & [S1 S2 S3 S4 _]).
  fold es in Hrun, S3, S4. rewrite Hrun in Hsh. simpl in Hsh. destruct (new_index_ring fh buf np LO Hbuf Hnp) as [Hr Hp].
  pose proof (insert_all_ring fuel es _ tt s1 Hr Hrun) as Hr1. pose proof (insert_all_pins fuel es _ tt s1 Hp Hrun) as Hp1.
  assert (LF : left_over fuel es [] s1 G).
  { split; [by apply (tree_inv_loose fh ok true)|by apply (ring_prev fh ok strict no_full)|done| |done].
    intros g Hg. specialize (S3 g Hg). simpl in S3. lia. }
  destruct (delete_all_run fuel es ks [] s1 G LF Hpr Hsh) as (s2 & G2 & Hdel & [L1 L2 L3 L4 L5]).
  destruct (GetValue_run fh ok loose _ s2 G2 k fuel L1 Hk L4) as (o & m & Hget & Hiff). exists s1, s2, m. split_and!; try done.
  rewrite Hget. do 2 f_equal. apply option_eq. intros v. rewrite Hiff, (L5 k v Hk), app_nil_r. by rewrite lookup_without_reverse.
Qed.

End History.

(** ** Runs

    Five keys in two leaves of two and three.  Deleting 10 leaves one key on the left
    and moves 30 over; deleting 50 and then 40 leaves one key on the right, the leaves
    become one, and the root gives way to it. *)
Module IxHistoryRuns.
Import NodeRuns IxRuns IxDeleteRuns.
#[local] Existing Instance word4_order.

Lemma index_history_correct_witness :
  ∃ s1 s2 m, insert_all 9 pairs5 ix0 = (Ok tt, s1) ∧ delete_all 9 [ik 50; ik 10; ik 40] s1 = (Ok tt, s2) ∧
    GetValue 9 (ik 30) s2 = (Ok (lookup_without hdr4 [ik 50; ik 10; ik 40] (ik 30) pairs5), set_pinmap m s2).
Proof.
  apply (index_history_correct hdr4 word4 ltac:(by intros k [_ ->]) zero_page IX_INIT_NUM_PAGES (ik 10) (rid_of 10) (tail pairs5) [ik 50; ik 10; ik 40] (ik 30) 9).
  - apply hdr4_layout.
  - reflexivity.
  - reflexivity.
  - reflexivity.
  - by vm_compute.
  - unfold zero_page, zeros. apply length_replicate.
  - apply word4_dead, zero_key_dead. reflexivity.
  - intros i k' _. by apply word4_dead, zero_page_dead.
  - by vm_compute.
  - repeat constructor; by vm_compute.
  - simpl. lia.
  - intros i k Hi. do 3 (destruct i as [|i]; [injection Hi as <-; split; [by vm_compute|eexists; by vm_compute]|]). done.
  - apply all_shrink_b_ok. vm_compute. reflexivity.
  - by vm_compute.
Defined.

Lemma history_pages :
  let s := (delete_all 9 [ik 50; ik 10; ik 40] ix5).2 in
  (λ x, (is_leaf x, live_keys x)) <$> nodes s !! root_page (file_hdr s) = Some (true, [ik 20; ik 30]).
Proof. by vm_compute. Qed.

Lemma moved_over :
  let s := (delete_entry 9 (ik 10) ix5).2 in
  live_keys <$> nodes s !! root_page (file_hdr s) = Some [ik 10; ik 40] ∧
  live_keys <$> nodes s !! first_leaf (file_hdr s) = Some [ik 20; ik 30].
Proof. by vm_compute. Qed.

Definition ix4 : IxState := (delete_entry 9 (ik 50) ix5).2.

Lemma joined_pages :
  let s := (delete_entry 9 (ik 40) ix4).2 in
  (λ x, (is_leaf x, live_keys x)) <$> nodes ix4 !! root_page (file_hdr ix4) = Some (false, [ik 10; ik 30]) ∧
  (λ x, (is_leaf x, live_keys x)) <$> nodes s !! root_page (file_hdr s) = Some (true, [ik 10; ik 20; ik 30]).
Proof. by vm_compute. Qed.

Lemma ix5_ring : ring_ok ix5.
Proof.
  assert (E : (insert_all 9 pairs5 ix0).1 = Ok tt) by (vm_compute; reflexivity).
  destruct (new_index_ring hdr4 zero_page IX_INIT_NUM_PAGES hdr4_layout ltac:(unfold zero_page, zeros; apply length_replicate) ltac:(reflexivity)) as [Hr _].
  apply (insert_all_ring 9 pairs5 ix0 tt ix5 Hr). unfold ix5. rewrite <- E. apply surjective_pairing.
Qed.

#[local] Opaque ix5.

Lemma delete_entry_rebalances_witness :
  ∃ s' G', delete_entry 9 (ik 40) ix4 = (Ok true, s') ∧ tree_inv hdr4 word4 (MkMode true false) no_full s' G' ∧ prev_ok s' G' ∧
    ¬ (∃ v, has hdr4 s' G' (ik 40) v) ∧ has hdr4 s' G' (ik 30) (rid_of 30).
Proof.
  destruct ix5_stands as [G [S1 S2 S3 S4 S5]].
  assert (W : ∀ z, z ∈ [10; 20; 30; 40; 50] → word4 (ik z)) by (apply Forall_forall; repeat constructor; by vm_compute).
  assert (W3 : word4 (ik 30)) by (apply W; set_solver). assert (W4 : word4 (ik 40)) by (apply W; set_solver).
  assert (W5 : word4 (ik 50)) by (apply W; set_solver). assert (WL : ∀ k, word4 k → length k = Z.to_nat (col_len hdr4)) by (by intros k [_ ->]).
  assert (Hf : ∀ g, G !! root_page (file_hdr ix5) = Some g → (ht g < 9)%nat).
  { intros g Hg. specialize (S3 g Hg). unfold pairs5 in S3. rewrite length_fmap in S3. cbn [length] in S3. lia. }
  assert (K5 : can_shrink_b 9 ix5 (ik 50) = true) by (vm_compute; reflexivity).
  assert (K4 : can_shrink_b 9 ix4 (ik 40) = true) by (vm_compute; reflexivity).
  pose proof (can_shrink_shape hdr4 word4 9 ix5 G (ik 50) (tree_inv_loose _ _ true _ _ _ S1) W5 Hf (can_shrink_b_ok _ _ _ K5)) as Sh5.
  destruct (delete_entry_rebalances hdr4 word4 WL true ix5 G (ik 50) 9 S1 (ring_prev _ _ _ _ ix5 G S1 ix5_ring) ix5_pins W5 Sh5
    ltac:(by left) Hf) as (b & s1 & G1 & H1 & H2 & H3 & H4 & H5 & H6 & H7).
  assert (b = true) as -> by (apply H6; exists (rid_of 50); by apply S4).
  assert (E1 : s1 = ix4) by (unfold ix4; by rewrite H1). clear H1. rewrite E1 in H2, H3, H4, H7. clear E1 s1.
  assert (Hf4 : ∀ g, G1 !! root_page (file_hdr ix4) = Some g → (ht g < 9)%nat).
  { intros g Hg. destruct (H5 _ g Hg) as (g0 & Hg0 & ->). destruct (ti_root _ _ _ _ _ _ S1) as (gr & _ & HGr & _ & _ & _ & _ & Hmax).
    destruct (Hmax _ g0 Hg0) as [Hle _]. specialize (Hf gr HGr). lia. }
  assert (H40 : ∃ v, has hdr4 ix4 G1 (ik 40) v) by (exists (rid_of 40); apply H7; [done|]; split; [by apply S4|by vm_compute]).
  pose proof (can_shrink_shape hdr4 word4 9 ix4 G1 (ik 40) H2 W4 Hf4 (can_shrink_b_ok _ _ _ K4)) as Sh4.
  destruct (delete_entry_rebalances hdr4 word4 WL false ix4 G1 (ik 40) 9 H2 H3 H4 W4 Sh4 ltac:(by right) Hf4)
    as (b2 & s2 & G2 & J1 & J2 & J3 & J4 & J5 & J6 & J7).
  assert (b2 = true) as -> by exact (proj2 J6 H40). exists s2, G2. split; [exact J1|]. clear J1. split; [exact J2|]. split; [exact J3|]. split.
  - intros [v [_ Hv]%(J7 _ _ W4)]. by apply Hv.
  - apply (J7 _ _ W3). split; [|by vm_compute]. apply (H7 _ _ W3). split; [by apply S4|by vm_compute].
Defined.

End IxHistoryRuns.
