(* ===== verification/IxPool.v ===== *)
(** The index over a pool that may fail, and the dirty flags it reports.

    The theorems on the tree are about a pool that never fails ([no_faults]).
    [faults_only_stop]: over any other pool an operation does what it does there,
    or it ends because the pool answered [nullptr] or threw; there is no third
    way, so what those theorems say of a returning call holds over every pool
    ([insert_entry_any_pool]).

    [held]: a page is safe from eviction without being written when it is pinned
    or when it has been reported dirty.  A page that was changed through a handle
    and then unpinned with the wrong flag would not be held, and its change would be
    lost with the frame.  [changes_kept] shows that no operation does so. *)
From S2P Require Import Prelude Config IxKey IxNode IxNodeSpec IxTree IxTreeSpec IxTreeInsert IxInsert IxBuild.

(** ** Failing pools *)

Section Upto.
Context (F : PoolFaults).

Definition fault_outcome {A} (f : pool_fault) : outcome exn A :=
  match f with NoFrame => Crash NullDeref | DiskFault => Throw (RedBase UnixError) end.

(** The run ended in a call of the pool that failed: the pages and the pins are as
    they were at that call. *)
Definition pool_stopped {A} (o : outcome exn A * IxState) : Prop :=
  ∃ f, o.1 = fault_outcome f ∧
    ((∃ p, fetch_fault o.2 p = Some f) ∨ ∃ s1, new_fault s1 = Some f ∧ nodes o.2 = nodes s1 ∧ pins o.2 = pins s1).

(** [m] does what [m'] does, or the pool stopped it. *)
Definition upto {A} (m m' : M IxState A) : Prop := ∀ s, m s = m' s ∨ pool_stopped (m s).

Lemma upto_refl {A} (m : M IxState A) : upto m m.
Proof. by left. Qed.

Lemma upto_bind {A B} (m m' : M IxState A) (f f' : A → M IxState B) :
  upto m m' → (∀ a, upto (f a) (f' a)) → upto (st_bind m f) (st_bind m' f').
Proof.
  intros Hm Hf s. unfold st_bind. destruct (Hm s) as [<-|Hs].
  - destruct (m s) as [[a|e|c] s1]; [apply Hf|by left..].
  - right. destruct Hs as (fl & Hr & Hs). destruct (m s) as [r s1]. simpl in *. subst r. exists fl. by destruct fl.
Qed.

Lemma upto_if {A} (b : bool) (m m' n n' : M IxState A) :
  upto m m' → upto n n' → upto (if b then m else n) (if b then m' else n').
Proof. by destruct b. Qed.

Lemma upto_iter {A} (f f' : A → M IxState unit) l : (∀ a, upto (f a) (f' a)) → upto (st_iter f l) (st_iter f' l).
Proof. intros Hf. induction l as [|x l IH]; [apply upto_refl|]. by apply upto_bind. Qed.

End Upto.

Create HintDb upto.

(** Follow the shape of the two programs. *)
Ltac upto_tac :=
  repeat match goal with
    | |- upto _ ?m ?m => apply upto_refl
    | |- upto _ (st_bind _ _) (st_bind _ _) => apply upto_bind; [|intros ?]
    | |- upto _ (st_iter _ _) (st_iter _ _) => apply upto_iter; intros ?
    | |- upto _ (if _ then _ else _) _ => apply upto_if
    | |- upto _ (match ?x with _ => _ end) _ => destruct x
    | |- upto _ _ _ => solve [auto with upto nocore]
    end.

Section Faults.
Context {F : PoolFaults}.

Lemma upto_FetchNode p : upto F (@FetchNode F p) (@FetchNode no_faults p).
Proof.
  intros s. unfold FetchNode. simpl. destruct (fetch_fault s p) as [f|] eqn:E; [|by left].
  right. exists f. destruct f; (split; [done|]); left; by exists p.
Qed.

Lemma upto_CreateNode : upto F (@CreateNode F) (@CreateNode no_faults).
Proof.
  apply upto_bind; [apply upto_refl|]. intros _ s. simpl. destruct (new_fault s) as [f|] eqn:E; [|by left].
  right. exists f. destruct f; (split; [done|]); right; by exists s.
Qed.
#[local] Hint Resolve upto_FetchNode upto_CreateNode : upto.

Lemma upto_FindLeafPage fuel k : upto F (@FindLeafPage F fuel k) (@FindLeafPage no_faults fuel k).
Proof.
  unfold FindLeafPage. upto_tac. revert a0. induction fuel as [|fuel IH]; intros node; [apply upto_refl|]. simpl. upto_tac.
Qed.
#[local] Hint Resolve upto_FindLeafPage : upto.

Lemma upto_GetValue fuel k : upto F (@GetValue F fuel k) (@GetValue no_faults fuel k).
Proof. unfold GetValue. upto_tac. Qed.

Lemma upto_maintain_child node i : upto F (@maintain_child F node i) (@maintain_child no_faults node i).
Proof. unfold maintain_child. upto_tac. Qed.
#[local] Hint Resolve upto_maintain_child : upto.

Lemma upto_insertLeaf o n keep : upto F (@insertLeaf F o n keep) (@insertLeaf no_faults o n keep).
Proof. unfold insertLeaf. upto_tac. Qed.
#[local] Hint Resolve upto_insertLeaf : upto.

Lemma upto_Split node : upto F (@Split F node) (@Split no_faults node).
Proof. unfold Split. upto_tac. Qed.

Lemma upto_setNewRoot r a b : upto F (@setNewRoot F r a b) (@setNewRoot no_faults r a b).
Proof. unfold setNewRoot. upto_tac. Qed.
#[local] Hint Resolve upto_Split upto_setNewRoot : upto.

Lemma upto_splitNodeIfFull fuel node : upto F (@splitNodeIfFull F fuel node) (@splitNodeIfFull no_faults fuel node).
Proof. revert node. induction fuel as [|fuel IH]; intros node; [apply upto_refl|]. simpl. upto_tac. Qed.
#[local] Hint Resolve upto_splitNodeIfFull : upto.

Lemma upto_insert_entry fuel k v : upto F (@insert_entry F fuel k v) (@insert_entry no_faults fuel k v).
Proof. unfold insert_entry. upto_tac. Qed.

Lemma upto_maintain_parent fuel curr : upto F (@maintain_parent F fuel curr) (@maintain_parent no_faults fuel curr).
Proof. revert curr. induction fuel as [|fuel IH]; intros curr; [apply upto_refl|]. simpl. upto_tac. Qed.

Lemma upto_erase_leaf leaf : upto F (@erase_leaf F leaf) (@erase_leaf no_faults leaf).
Proof. unfold erase_leaf. upto_tac. Qed.

Lemma upto_AdjustRoot node : upto F (@AdjustRoot F node) (@AdjustRoot no_faults node).
Proof. unfold AdjustRoot. upto_tac. Qed.
#[local] Hint Resolve upto_maintain_parent upto_erase_leaf upto_AdjustRoot : upto.

Lemma upto_Redistribute fuel b n i : upto F (@Redistribute F fuel b n i) (@Redistribute no_faults fuel b n i).
Proof. unfold Redistribute. upto_tac. Qed.

Lemma upto_merge_nodes a b : upto F (@merge_nodes F a b) (@merge_nodes no_faults a b).
Proof. unfold merge_nodes. upto_tac. Qed.
#[local] Hint Resolve upto_Redistribute upto_merge_nodes : upto.

Lemma upto_CoalesceOrRedistribute fuel node :
  upto F (@CoalesceOrRedistribute F fuel node) (@CoalesceOrRedistribute no_faults fuel node).
Proof. revert node. induction fuel as [|fuel IH]; intros node; [apply upto_refl|]. cbn [CoalesceOrRedistribute].
  upto_tac. Qed.
#[local] Hint Resolve upto_CoalesceOrRedistribute : upto.

Lemma upto_delete_entry fuel k : upto F (@delete_entry F fuel k) (@delete_entry no_faults fuel k).
Proof. unfold delete_entry. upto_tac. Qed.

Lemma upto_ix_lower_bound fuel k : upto F (@ix_lower_bound F fuel k) (@ix_lower_bound no_faults fuel k).
Proof. unfold ix_lower_bound. upto_tac. Qed.

Lemma upto_leaf_end : upto F (@leaf_end F) (@leaf_end no_faults).
Proof. unfold leaf_end. upto_tac. Qed.
#[local] Hint Resolve upto_leaf_end : upto.

Lemma upto_ix_upper_bound fuel k : upto F (@ix_upper_bound F fuel k) (@ix_upper_bound no_faults fuel k).
Proof. unfold ix_upper_bound. upto_tac. Qed.

Lemma upto_ix_get_rid iid : upto F (@ix_get_rid F iid) (@ix_get_rid no_faults iid).
Proof. unfold ix_get_rid. upto_tac. Qed.

Lemma upto_ix_scan_next sc : upto F (@ix_scan_next F sc) (@ix_scan_next no_faults sc).
Proof. unfold ix_scan_next. upto_tac. Qed.

End Faults.

(** ** Changed pages *)

Definition held (s : IxState) (p : Z) : Prop := 0 < pin_count s p ∨ is_dirty s p = true.
Definition pins_ok (s : IxState) : Prop := ∀ p, 0 ≤ pin_count s p.

(** From [s] to [s'] pages stay held, and every page that changed is held. *)
Record kept (s s' : IxState) : Prop := {
  kept_pins : pins_ok s';
  kept_held p : held s p → held s' p;
  kept_changed p : nodes s' !! p = nodes s !! p ∨ held s' p
}.

Lemma kept_refl s : pins_ok s → kept s s.
Proof. split; [done|done|by left]. Qed.

Lemma kept_trans s1 s2 s3 : kept s1 s2 → kept s2 s3 → kept s1 s3.
Proof.
  intros [A1 A2 A3] [B1 B2 B3]. split; [done|by auto|]. intros p.
  destruct (A3 p) as [E|E]; [|by auto]. rewrite <- E. apply B3.
Qed.

(** From a state in which the pages of [X] are held, [m] keeps what it changes, and
    the pages its result names are held. *)
Definition keeps {A} (X : list Z) (m : M IxState A) (Y : A → list Z) : Prop :=
  ∀ s, pins_ok s → (∀ p, p ∈ X → held s p) →
    kept s (m s).2 ∧ ∀ a, (m s).1 = Ok a → ∀ p, p ∈ Y a → held (m s).2 p.

Lemma keeps_bind {A B} X (m : M IxState A) (f : A → M IxState B) Y Z :
  keeps X m Y → (∀ a, keeps (Y a ++ X) (f a) Z) → keeps X (st_bind m f) Z.
Proof.
  intros Hm Hf s Hs HX. destruct (Hm s Hs HX) as [K1 R1]. unfold st_bind.
  destruct (m s) as [[a|e|c] s1] eqn:E; simpl in *; [|by split..].
  destruct (Hf a s1 (kept_pins _ _ K1)) as [K2 R2].
  { intros p [Hp|Hp]%elem_of_app; [by eapply R1|by apply K1, HX]. }
  split; [by eapply kept_trans|done].
Qed.

Lemma keeps_if {A} X (b : bool) (m n : M IxState A) Y : keeps X m Y → keeps X n Y → keeps X (if b then m else n) Y.
Proof. by destruct b. Qed.

Lemma keeps_iter {A} X (f : A → M IxState unit) l : (∀ a, keeps X (f a) (λ _, [])) → keeps X (st_iter f l) (λ _, []).
Proof.
  intros Hf. induction l as [|x l IH]; [|by eapply keeps_bind; [apply Hf|]].
  intros s Hs _. split; [by apply kept_refl|]. by intros ? _ ? ?%not_elem_of_nil.
Qed.

(** Where no page matters. *)
Lemma keeps_none {A} X (m : M IxState A) :
  (∀ s, pins_ok s → (∀ p, p ∈ X → held s p) → kept s (m s).2) → keeps X m (λ _, []).
Proof. intros H s Hs HX. split; [by apply H|]. by intros ? _ ? ?%not_elem_of_nil. Qed.

Lemma keeps_state {A} X (m : M IxState A) : (∀ s, (m s).2 = s) → keeps X m (λ _, []).
Proof. intros H. apply keeps_none. intros s Hs _. rewrite H. by apply kept_refl. Qed.

Lemma keeps_ret {A} X (a : A) (Y : A → list Z) : (∀ p, p ∈ Y a → p ∈ X) → keeps X (st_ret a) Y.
Proof. intros H s Hs HX. split; [by apply kept_refl|]. intros ? [= <-] p Hp. by apply HX, H. Qed.

Lemma keeps_stop {A} X (m : M IxState A) Y : (∀ s, (m s).2 = s ∧ ¬ returns (m s).1) → keeps X m Y.
Proof.
  intros H s Hs HX. destruct (H s) as [-> Hn]. split; [by apply kept_refl|]. intros a Ha. destruct Hn. by exists a.
Qed.

Lemma keeps_on_node {A} X p (m : IxFileHdr → M IxNode A) : p ∈ X → keeps X (on_node p m) (λ _, []).
Proof.
  intros Hp. apply keeps_none. intros s Hs HX. unfold on_node.
  destruct (nodes s !! p) as [x|]; [|by apply kept_refl]. destruct (m (file_hdr s) x) as [r x']. simpl.
  split; [done|done|]. intros q. simpl. destruct (decide (p = q)) as [<-|Hne]; [by right; apply HX|].
  left. by rewrite lookup_insert_ne.
Qed.

Lemma keeps_upd_hdr X g : keeps X (upd_hdr g) (λ _, []).
Proof. apply keeps_none. intros s Hs _. split; [done|done|by left]. Qed.

Lemma pin_state_set s m p q : pin_state (set_pinmap (<[p := m]> (pins s)) s) q = if decide (p = q) then m else pin_state s q.
Proof. unfold pin_state. simpl. rewrite lookup_insert. by case_decide. Qed.

Lemma keeps_unpin X p : keeps X (UnpinPage p true) (λ _, []).
Proof.
  apply keeps_none. intros s Hs _. unfold UnpinPage. destruct (Z.ltb_spec 0 (pin_count s p)) as [Hp|Hp]; [|by apply kept_refl].
  cbn [snd]. split; [| |by left]; intros q; unfold held, pin_count, is_dirty; rewrite !pin_state_set; case_decide; subst; simpl; auto.
  - unfold pin_count in *. lia.
  - apply Hs.
  - right. apply orb_true_r.
Qed.

Lemma keeps_done {A} X (a : A) : keeps X (st_ret a) (λ _, []).
Proof. apply keeps_ret. by intros p ?%not_elem_of_nil. Qed.

Lemma keeps_gets {A} X (g : IxState → A) : keeps X (gets g) (λ _, []).
Proof. by apply keeps_state. Qed.

Lemma keeps_assert X b : keeps X (assert_ b) (λ _, []).
Proof. apply keeps_state. by destruct b. Qed.

Lemma keeps_crash {A} X c Y : keeps X (crash_with c : M IxState A) Y.
Proof. apply keeps_stop. intros s. split; [done|by intros [? [=]]]. Qed.

Lemma keeps_read_node {A} X p (g : IxNode → A) : p ∈ X → keeps X (read_node p g) (λ _, []).
Proof. apply keeps_on_node. Qed.

Lemma keeps_upd_node X p g : p ∈ X → keeps X (upd_node p g) (λ _, []).
Proof. apply keeps_on_node. Qed.

Create HintDb keeps.
#[export] Hint Resolve keeps_on_node keeps_read_node keeps_upd_node keeps_upd_hdr keeps_unpin keeps_gets keeps_assert keeps_crash : keeps.

Ltac in_pages := cbn [app]; solve [repeat first [assumption | apply list_elem_of_here | apply list_elem_of_further]].
#[export] Hint Extern 2 (_ ∈ _) => in_pages : keeps.

(** Follow the shape of the program. *)
Ltac keeps_tac :=
  repeat match goal with
    | |- ∀ _, _ => intros ?
    | |- keeps _ (st_bind _ _) _ => eapply keeps_bind; [|intros ?]
    | |- keeps _ (st_iter _ _) _ => apply keeps_iter; intros ?
    | |- keeps _ (if _ then _ else _) _ => apply keeps_if
    | |- keeps _ (match (if ?b then _ else _) with _ => _ end) _ => destruct b
    | |- keeps _ (match ?x with _ => _ end) _ => destruct x
    | |- keeps _ (st_ret _) _ => first [apply keeps_done | apply keeps_ret; by intros p ->%list_elem_of_singleton; in_pages]
    | |- keeps _ _ _ => solve [eauto with keeps nocore]
    end.

Section Kept.
Context {F : PoolFaults}.

Lemma keeps_FetchNode X p : keeps X (FetchNode p) (λ q, [q]).
Proof.
  intros s Hs HX. unfold FetchNode. destruct (fetch_fault s p) as [f|].
  { destruct f; (split; [by apply kept_refl|done]). }
  destruct (nodes s !! p); [|destruct (p =? _); (split; [by apply kept_refl|done])]. simpl.
  pose proof (Hs p). split.
  - split; [| |by left]; intros q; unfold held, pin_count, is_dirty; rewrite !pin_state_set; case_decide; subst; simpl; auto.
    + unfold pin_count in *. lia.
    + apply Hs.
    + intros _. left. unfold pin_count in *. lia.
  - intros a [= <-] q ->%list_elem_of_singleton. left. unfold pin_count. rewrite pin_state_set, decide_True by done.
    unfold pin_count in *. simpl. lia.
Qed.

Lemma keeps_CreateNode X : keeps X CreateNode (λ q, [q]).
Proof.
  intros s Hs HX. unfold CreateNode, st_bind, upd_hdr, modify. simpl.
  set (s1 := set_file_hdr _ s). destruct (new_fault s1) as [[]|]; [split; [split; [done|done|by left]|done]..|].
  assert (Hp : ∀ q, pin_state (MkIx (file_hdr s1) (<[next_page s := zero_node (file_hdr s1)]> (nodes s))
      (<[next_page s := (1, false)]> (pins s)) (next_page s + 1)) q
    = if decide (next_page s = q) then (1, false) else pin_state s q).
  { intros q. unfold pin_state. simpl. rewrite lookup_insert. by case_decide. }
  split.
  - split; intros q; simpl; unfold held, pin_count, is_dirty; rewrite ?Hp; case_decide as E; simpl; try lia; try done.
    + apply Hs.
    + left. by rewrite lookup_insert_ne.
  - intros a [= <-] q ->%list_elem_of_singleton. left. simpl. unfold pin_count. rewrite Hp, decide_True by done. simpl. lia.
Qed.

#[local] Hint Resolve keeps_FetchNode keeps_CreateNode : keeps.

Lemma keeps_FindLeafPage_loop X fuel k node : node ∈ X → keeps X (FindLeafPage_loop fuel k node) (λ q, [q]).
Proof. revert X node. induction fuel as [|fuel IH]; intros X node Hn; simpl; keeps_tac. Qed.
#[local] Hint Resolve keeps_FindLeafPage_loop : keeps.

Lemma keeps_FindLeafPage X fuel k : keeps X (FindLeafPage fuel k) (λ q, [q]).
Proof. unfold FindLeafPage, getRootPageNo. keeps_tac. Qed.
#[local] Hint Resolve keeps_FindLeafPage : keeps.

Lemma keeps_maintain_child X node i : node ∈ X → keeps X (maintain_child node i) (λ _, []).
Proof. intros Hn. unfold maintain_child. keeps_tac. Qed.
#[local] Hint Resolve keeps_maintain_child : keeps.

Lemma keeps_evenlyDistributePairs X n o : n ∈ X → o ∈ X → keeps X (evenlyDistributePairs n o) (λ _, []).
Proof. intros Hn Ho. unfold evenlyDistributePairs, copy_pairs. keeps_tac. Qed.

Lemma keeps_insertLeaf X o n keep : o ∈ X → n ∈ X → keeps X (insertLeaf o n keep) (λ _, []).
Proof. intros Ho Hn. unfold insertLeaf. keeps_tac. Qed.

Lemma keeps_setNewRoot X r a b : r ∈ X → a ∈ X → b ∈ X → keeps X (setNewRoot r a b) (λ _, []).
Proof. intros Hr Ha Hb. unfold setNewRoot, UpdateRootPageNo. keeps_tac. Qed.
#[local] Hint Resolve keeps_evenlyDistributePairs keeps_insertLeaf keeps_setNewRoot : keeps.

Lemma keeps_Split X node : node ∈ X → keeps X (Split node) (λ q, [q]).
Proof. intros Hn. unfold Split. keeps_tac. Qed.
#[local] Hint Resolve keeps_Split : keeps.

Lemma keeps_splitNodeIfFull X fuel node : node ∈ X → keeps X (splitNodeIfFull fuel node) (λ _, []).
Proof.
  revert X node. induction fuel as [|fuel IH]; intros X node Hn; simpl; unfold updateLastLeaf, get_last_leaf, set_last_leaf; keeps_tac.
Qed.
#[local] Hint Resolve keeps_splitNodeIfFull : keeps.

Lemma keeps_insert_entry fuel k v : keeps [] (insert_entry fuel k v) (λ _, []).
Proof. unfold insert_entry. keeps_tac. Qed.

Lemma keeps_maintain_parent X fuel curr : curr ∈ X → keeps X (maintain_parent fuel curr) (λ _, []).
Proof. revert X curr. induction fuel as [|fuel IH]; intros X curr Hc; simpl; unfold assert_unpin; keeps_tac. Qed.

Lemma keeps_erase_leaf X leaf : leaf ∈ X → keeps X (erase_leaf leaf) (λ _, []).
Proof. intros Hl. unfold erase_leaf. keeps_tac. Qed.

Lemma keeps_AdjustRoot X node : node ∈ X → keeps X (AdjustRoot node) (λ _, []).
Proof. intros Hn. unfold AdjustRoot, release_node_handle. keeps_tac. Qed.
#[local] Hint Resolve keeps_maintain_parent keeps_erase_leaf keeps_AdjustRoot : keeps.

Lemma keeps_Redistribute X fuel b n i : b ∈ X → n ∈ X → keeps X (Redistribute fuel b n i) (λ _, []).
Proof. intros Hb Hn. unfold Redistribute. keeps_tac. Qed.

Lemma keeps_merge_nodes X l r : l ∈ X → r ∈ X → keeps X (merge_nodes l r) (λ _, []).
Proof. intros Hl Hr. unfold merge_nodes, get_last_leaf, set_last_leaf, release_node_handle. keeps_tac. Qed.
#[local] Hint Resolve keeps_Redistribute keeps_merge_nodes : keeps.

Lemma keeps_CoalesceOrRedistribute X fuel node : node ∈ X → keeps X (CoalesceOrRedistribute fuel node) (λ _, []).
Proof.
  revert X node. induction fuel as [|fuel IH]; intros X node Hn; cbn [CoalesceOrRedistribute]; keeps_tac.
Qed.
#[local] Hint Resolve keeps_CoalesceOrRedistribute : keeps.

(** *** A deletion that finds nothing

    It unpins the leaf as clean, which is right because it has changed nothing: the
    search only pins, and [Remove] without effect leaves the node alone. *)

Definition looks {A} (m : M IxNode A) : Prop := ∀ x, (m x).2 = x.

Lemma looks_bind {A B} (m : M IxNode A) (f : A → M IxNode B) : looks m → (∀ a, looks (f a)) → looks (st_bind m f).
Proof.
  intros Hm Hf x. unfold st_bind. specialize (Hm x). destruct (m x) as [[a|e|c] y]; simpl in *; subst; [apply Hf|done..].
Qed.

Lemma looks_get_key i : looks (get_key i).
Proof. intros x. unfold get_key, st_bind, get_st, array_get. by destruct (0 <=? i); [destruct (keys x !! _)|]. Qed.

Lemma looks_get_rid i : looks (get_rid i).
Proof. intros x. unfold get_rid, st_bind, get_st, array_get. by destruct (0 <=? i); [destruct (rids x !! _)|]. Qed.

Lemma looks_bound_loop h fuel op k l r : looks (bound_loop h fuel op k l r).
Proof.
  revert l r. induction fuel as [|fuel IH]; intros l r; simpl; [done|]. destruct (l <? r); [|done].
  apply looks_bind; [apply looks_get_key|]. intros k'. by destruct (0 <=? _); [destruct (op && _)|].
Qed.

Lemma looks_lower_bound h k : looks (lower_bound h k).
Proof. apply looks_bind; [done|]. intros n. apply looks_bound_loop. Qed.

Lemma looks_InternalLookup h k : looks (InternalLookup h k).
Proof.
  apply looks_bind; [apply looks_bind; [done|intros n; apply looks_bound_loop]|]. intros i.
  apply looks_bind; [apply looks_get_rid|done].
Qed.

Lemma looks_on_node {A} p (m : IxFileHdr → M IxNode A) s : (∀ h, looks (m h)) → (on_node p m s).2 = s.
Proof.
  intros Hm. unfold on_node. destruct (nodes s !! p) as [x|] eqn:E; [|done]. specialize (Hm (file_hdr s) x).
  destruct (m (file_hdr s) x) as [r y]. simpl in *. subst y. rewrite insert_id by done. by destruct s.
Qed.

Lemma Remove_nothing h k x y : Remove h k x = (Ok (num_key x), y) → y = x.
Proof.
  intros H. unfold Remove in H. pose proof (looks_lower_bound h k x) as L. unfold st_bind at 1 in H.
  destruct (lower_bound h k x) as [[i|e|c] x1]; simpl in L; subst x1; [|done..].
  pose proof (looks_get_key i x) as G. unfold st_bind at 1 in H.
  destruct (get_key i x) as [[k'|e|c] x1]; simpl in G; subst x1; [|done..].
  destruct (compare h k k' =? 0); [|by injection H].
  apply st_bind_inv in H as [([] & x1 & H1 & [= Hn <-])|[(? & _ & [=])|(? & _ & [=])]].
  unfold erase_pair, GetSize, st_bind at 1, gets in H1.
  apply st_bind_inv in H1 as [([] & x2 & _ & [= <-])|[(? & _ & [=])|(? & _ & [=])]]. simpl in Hn. lia.
Qed.

(** [s'] is [s] with more pins. *)
Record pinned_more (s s' : IxState) : Prop := {
  pm_nodes : nodes s' = nodes s;
  pm_dirty p : is_dirty s' p = is_dirty s p;
  pm_pins p : pin_count s p ≤ pin_count s' p
}.

Lemma FetchNode_pins_more p s r s' :
  FetchNode p s = (r, s') → pinned_more s s' ∧ ∀ q, r = Ok q → pin_count s q < pin_count s' q.
Proof.
  unfold FetchNode. destruct (fetch_fault s p) as [[]|]; [by intros [= <- <-]..|].
  destruct (nodes s !! p); [|by destruct (p =? _); intros [= <- <-]]. intros [= <- <-]. split; [split; [done|..]|];
    intros q; unfold is_dirty, pin_count; rewrite pin_state_set; case_decide; subst; simpl; try done; try lia.
  by intros [= ->].
Qed.

Lemma pinned_more_trans s1 s2 s3 : pinned_more s1 s2 → pinned_more s2 s3 → pinned_more s1 s3.
Proof.
  intros [A1 A2 A3] [B1 B2 B3]. split; [congruence|congruence|]. intros p. specialize (A3 p). specialize (B3 p). lia.
Qed.

Lemma FindLeafPage_loop_pins fuel k node s0 s r s' :
  pinned_more s0 s → pin_count s0 node < pin_count s node → FindLeafPage_loop fuel k node s = (r, s') →
  pinned_more s0 s' ∧ ∀ q, r = Ok q → pin_count s0 q < pin_count s' q.
Proof.
  revert node s. induction fuel as [|fuel IH]; intros node s Hm Hp; simpl; [by intros [= <- <-]|].
  pose proof (looks_on_node node (λ _, gets is_leaf) s ltac:(done)) as L1. unfold st_bind at 1, read_node.
  destruct (on_node node (λ _, gets is_leaf) s) as [[lf|e|c] s1]; simpl in L1; subst s1; [|by intros [= <- <-]..].
  destruct (negb lf); [|intros [= <- <-]; split; [done|by intros ? [= <-]]].
  pose proof (looks_on_node node (λ h, InternalLookup h k) s (λ h, looks_InternalLookup h k)) as L2. unfold st_bind at 1.
  destruct (on_node node (λ h, InternalLookup h k) s) as [[now|e|c] s1]; simpl in L2; subst s1; [|by intros [= <- <-]..].
  unfold st_bind. destruct (FetchNode now s) as [o s1] eqn:E. apply FetchNode_pins_more in E as [M1 P1].
  pose proof (pinned_more_trans _ _ _ Hm M1) as M2. destruct o as [node'|e|c]; [|by intros [= <- <-]..].
  apply IH; [done|]. pose proof (pm_pins _ _ Hm node'). specialize (P1 node' eq_refl). lia.
Qed.

Lemma FindLeafPage_pins_more fuel k s r s' :
  FindLeafPage fuel k s = (r, s') → pinned_more s s' ∧ ∀ q, r = Ok q → pin_count s q < pin_count s' q.
Proof.
  unfold FindLeafPage, st_bind at 1, getRootPageNo, gets. unfold st_bind.
  destruct (FetchNode (root_page (file_hdr s)) s) as [o s1] eqn:E. apply FetchNode_pins_more in E as [M1 P1].
  destruct o as [node|e|c]; [|by intros [= <- <-]..]. by apply FindLeafPage_loop_pins; [|apply P1].
Qed.

(** The leaf found is unpinned as clean: what was held before is held. *)
Lemma unpin_clean_kept leaf s s1 :
  pins_ok s → pinned_more s s1 → pin_count s leaf < pin_count s1 leaf → kept s (UnpinPage leaf false s1).2.
Proof.
  intros Hs [A1 A2 A3] Hp. specialize (Hs leaf) as Hl. unfold UnpinPage. rewrite (proj2 (Z.ltb_lt _ _)) by lia. cbn [snd].
  split; [| |left; simpl; by rewrite A1].
  - intros q. unfold pin_count. rewrite pin_state_set. case_decide; simpl; [unfold pin_count in *; lia|]. specialize (Hs q). specialize (A3 q).
    unfold pin_count in *. lia.
  - intros q. unfold held, is_dirty, pin_count. rewrite pin_state_set. specialize (A2 q). specialize (A3 q).
    unfold is_dirty, pin_count in *. case_decide; subst; simpl; rewrite ?A2, ?orb_false_r; intros [?|?]; auto; left; lia.
Qed.

Lemma kept_delete_entry fuel k s : pins_ok s → kept s (delete_entry fuel k s).2.
Proof.
  intros Hs. destruct (keeps_FindLeafPage [] fuel k s Hs) as [K1 R1]; [by intros ? ?%not_elem_of_nil|].
  unfold delete_entry. unfold st_bind at 1. destruct (FindLeafPage fuel k s) as [[leaf|e|c] s1] eqn:E; simpl in *; [|done..].
  specialize (R1 leaf eq_refl leaf ltac:(in_pages)). apply FindLeafPage_pins_more in E as [M1 P1]. specialize (P1 leaf eq_refl).
  assert (∀ p, p ∈ [leaf] → held s1 p) as H1 by (by intros p ->%list_elem_of_singleton).
  destruct (nodes s1 !! leaf) as [x|] eqn:Ex; [|by unfold st_bind, read_node, on_node; rewrite Ex].
  mstep (read_node_run leaf num_key s1 x Ex).
  destruct (keeps_on_node [leaf] leaf (λ h, Remove h k) ltac:(in_pages) s1 (kept_pins _ _ K1) H1) as [K2 _].
  unfold st_bind at 1. unfold on_node in *. rewrite Ex in *. destruct (Remove (file_hdr s1) k x) as [[n|e|c] y] eqn:Er;
    simpl in *; [|by eapply kept_trans..].
  destruct (Z.eqb_spec n (num_key x)) as [->|Hne].
  - apply Remove_nothing in Er as ->. rewrite insert_id by done.
    replace (set_nodes (nodes s1) s1) with s1 by (by destruct s1).
    pose proof (unpin_clean_kept leaf s s1 Hs M1 P1) as K. unfold st_bind. by destruct (UnpinPage leaf false s1) as [[] ?].
  - eapply kept_trans; [exact K1|]. eapply kept_trans; [exact K2|].
    assert (keeps [leaf] (_ ← CoalesceOrRedistribute fuel leaf; _ ← UnpinPage leaf true; ret true) (λ _, [])) as K by keeps_tac.
    apply K; [apply K2|]. intros p Hp. by apply (kept_held _ _ K2), H1.
Qed.

End Kept.

(** [C7] Whatever the pool does, no change of an index page can be lost through a
    wrong flag.  However [insert_entry] or [delete_entry] ends, answer, exception
    or crash, every page whose contents differ from before is still pinned or has
    been reported dirty to the pool ([held]), so that it is not dropped from memory
    without being written; and every page that was pinned or dirty before still is one or
    the other. *)
Theorem changes_kept (F : PoolFaults) (s : IxState) fuel k v :
  pins_ok s →
  ∀ s', s' = (insert_entry fuel k v s).2 ∨ s' = (delete_entry fuel k s).2 →
  ∀ p, (nodes s' !! p = nodes s !! p ∨ held s' p) ∧ (held s p → held s' p).
Proof.
  intros Hs s' Hs' p. assert (kept s s') as [_ H2 H3].
  { destruct Hs' as [->| ->]; [apply keeps_insert_entry; [done|by intros ? ?%not_elem_of_nil]|by apply kept_delete_entry]. }
  split; [apply H3|apply H2].
Qed.


(** So an insertion over any pool is stopped by the pool, or does what
    [insert_entry_run] says of it. *)
Lemma insert_entry_any_pool (F : PoolFaults) fh ok {KO : KeyOrder (compare fh) ok} s G k v fuel :
  dead fh ok (zeros (Z.to_nat (col_len fh))) →
  tree_inv fh ok strict (λ _, False) s G → last_ok s G → ok k →
  (∀ g, G !! root_page (file_hdr s) = Some g → (ht g < fuel)%nat) →
  (∀ g, G !! root_page (file_hdr s) = Some g → ht g ≠ O → ∃ b r, ok b ∧ has fh s G b r ∧ compare fh b k ≤ 0) →
  pool_stopped F (insert_entry fuel k v s) ∨
  ∃ b s' G', insert_entry fuel k v s = (Ok b, s') ∧ tree_inv fh ok strict (λ _, False) s' G' ∧ last_ok s' G' ∧
    ∀ k' r, ok k' → has fh s' G' k' r ↔ has fh s G k' r ∨ b = true ∧ compare fh k' k = 0 ∧ r = v.
Proof.
  intros Hz TI Hl Hk Hf Hm. destruct (upto_insert_entry fuel k v s) as [->|Hs]; [right|by left].
  destruct (insert_entry_run fh ok Hz s G k v fuel TI Hl Hk Hf) as (b & s' & G' & ? & ? & ? & _ & ? & _).
  - by eapply root_first_le.
  - by exists b, s', G'.
Qed.

Module IxPoolRuns.
Import NodeRuns IxRuns.

(** Five keys in two leaves, nothing pinned and nothing dirty; the insertion of 60
    splits the right one. *)
Definition clean : IxState := set_pinmap ∅ (grow [10; 20; 30; 40; 50]).
Definition after : IxState := (ins 60 clean).2.

(** A pool of no free frame: it can fetch pages, and give no new one. *)
Definition full_pool : PoolFaults := {| fetch_fault _ _ := None; new_fault _ := Some NoFrame |}.

Lemma changes_kept_witness :
  pins_ok clean ∧
  nodes after !! 3 ≠ nodes clean !! 3 ∧ is_dirty clean 3 = false ∧
  held after 3.
Proof.
  assert (pins_ok clean) as Hs by done.
  assert (nodes after !! 3 ≠ nodes clean !! 3) as Hne by (vm_compute; discriminate).
  split; [done|]. split; [done|]. split; [done|].
  destruct (changes_kept no_faults clean 10 (ik 60) (rid_of 60) Hs after (or_introl eq_refl) 3) as [[E|H] _].
  - destruct (Hne E).
  - exact H.
Defined.

(** Over that pool the insertion that must split follows a null pointer. *)
Lemma full_pool_stops : (insert_entry (F := full_pool) 10 (ik 60) (rid_of 60) clean).1 = Crash NullDeref.
Proof. by vm_compute. Qed.

End IxPoolRuns.
