(* ===== verification/IxRange.v ===== *)
(** Range scans of an index: [IxScan] from [lower_bound] of a key to [leaf_end],
    driven by the loop of [IndexScanExecutor::beginTuple].

    The leaves to the right of a leaf follow each other through [next_leaf], each
    starting where the one before it ends.  The scan walks this list and delivers
    the bindings from its start on in key order. *)
From S2P Require Import Prelude Config IxKey IxNode IxNodeSpec IxTree IxTreeSpec IxInsert IxBuild.

(** [while (!scan->is_end()) { rid = scan->rid(); ... scan->next(); }]. *)
Fixpoint ix_scan_each (rounds : nat) (sc : IxScan) (acc : list Rid) : M IxState (list Rid) :=
  match rounds with
  | O => crash_with OutOfFuel
  | S rounds' =>
      if ix_scan_is_end sc then ret acc
      else
        r ← ix_scan_rid sc;
        sc' ← ix_scan_next sc;
        ix_scan_each rounds' sc' (acc ++ [r])
  end.

(** From [lower_bound(k)] to [leaf_end()]. *)
Definition range_scan (fuel rounds : nat) (k : key) : M IxState (list Rid) :=
  upper ← leaf_end;
  lower ← ix_lower_bound fuel k;
  ix_scan_each rounds (MkScan lower upper) [].

Section Range.
Context (fh : IxFileHdr) (ok : key → Prop) {KO : KeyOrder (compare fh) ok}.
Context (md : mode) (full : Z → Prop) (s : IxState) (G : gmap Z info).
Context (TI : tree_inv fh ok md full s G) (HL : last_ok s G).
Abbreviation cmp := (compare fh).

Definition leaf p g x : Prop := G !! p = Some g ∧ ht g = O ∧ nodes s !! p = Some x.

(** No leaf is empty. *)
Context (HN : ∀ p g x, leaf p g x → 0 < num_key x).

Lemma leaf_page p g x : leaf p g x → page_ok fh ok md (nodes s) G full p g x.
Proof using TI.
  intros (HG & _ & Hx). destruct (ti_page _ _ _ _ _ _ TI p g HG) as (_ & x' & Hx' & PO). by assert (x' = x) as <- by congruence.
Qed.

(** One leaf per key. *)
Lemma same_leaf k p gp q gq :
  ok k → G !! p = Some gp → ht gp = O → within fh gp k → G !! q = Some gq → ht gq = O → within fh gq k → p = q.
Proof using TI KO.
  intros Hk Hp Hhp Hwp Hq Hhq Hwq. destruct (ti_root _ _ _ _ _ _ TI) as (gr & xr & Hgr & _).
  destruct (FindLeafPage_run fh ok md full s G TI k Hk (S (ht gr))) as (q0 & g0 & x0 & m & _ & _ & _ & Hh & Ho & _).
  { intros g Hg. assert (g = gr) as -> by congruence. lia. }
  transitivity q0; [|symmetry]; [apply (Ho p gp)|apply (Ho q gq)]; congruence || done.
Qed.

Definition key_lt (e1 e2 : key * Rid) : Prop := cmp e1.1 e2.1 < 0.

Lemma assoc_sorted l k v :
  StronglySorted key_lt l → Forall (λ e, ok e.1) l → (k, v) ∈ l → assoc fh k l = Some v.
Proof using KO.
  induction 1 as [|[a r] l _ IH Hf]; intros Hok Hin; [by apply not_elem_of_nil in Hin|].
  apply Forall_cons in Hok as [Ha Hok]. simpl in *. apply elem_of_cons in Hin as [[= <- <-]|Hin].
  - by rewrite (cmp_refl k Ha).
  - rewrite Forall_forall in Hf, Hok. pose proof (Hf _ Hin) as Hlt. unfold key_lt in Hlt. simpl in Hlt.
    apply ko_flip in Hlt; [|done|exact (Hok _ Hin)]. rewrite (proj2 (Z.eqb_neq _ _)) by lia. apply IH; [|done].
    by apply Forall_forall.
Qed.

Lemma StronglySorted_zip {A B} (R : relation A) (l : list A) (m : list B) :
  StronglySorted R l → StronglySorted (λ e1 e2 : A * B, R e1.1 e2.1) (zip l m).
Proof.
  intros H. revert m. induction H as [|x l _ IH Hf]; intros [|y m]; simpl; constructor; [done|].
  apply Forall_forall. intros [x' y'] Hin%elem_of_zip_l. rewrite Forall_forall in Hf. by apply Hf.
Qed.

Lemma leaf_entries p g x :
  leaf p g x → StronglySorted key_lt (entries x) ∧ Forall (λ e, ok e.1 ∧ within fh g e.1) (entries x).
Proof using TI.
  intros Hlf. pose proof (leaf_page _ _ _ Hlf) as PO. pose proof (po_node _ _ _ _ _ _ _ _ _ PO) as Hn. split.
  - exact (StronglySorted_zip _ _ _ (no_sorted _ _ _ Hn)).
  - apply Forall_forall. intros [k v] Hin%elem_of_zip_l. simpl.
    pose proof (no_keys _ _ _ Hn) as Hk. pose proof (po_within _ _ _ _ _ _ _ _ _ PO) as Hw.
    rewrite Forall_forall in Hk, Hw. auto.
Qed.

(** ** The leaves to the right *)

Inductive leaf_run : Z → list (key * Rid) → Prop :=
  | run_last p g x : leaf p g x → hi g = None → leaf_run p (entries x)
  | run_more p g x u l : leaf p g x → hi g = Some u → leaf_run (next_leaf x) l → leaf_run p (entries x ++ l).

Lemma next_leaf_ok p g x u :
  leaf p g x → hi g = Some u → ∃ gn xn, leaf (next_leaf x) gn xn ∧ lo gn = Some u.
Proof using TI.
  intros Hlf Hu. pose proof (po_next _ _ _ _ _ _ _ _ _ (leaf_page _ _ _ Hlf) (proj1 (proj2 Hlf))) as Hn.
  unfold next_ok in Hn. rewrite Hu in Hn. destruct Hn as (gn & HGn & Hhn & Hlo).
  destruct (ti_page _ _ _ _ _ _ TI _ _ HGn) as (_ & xn & Hxn & _). by exists gn, xn.
Qed.

(** A leaf's interval is not empty. *)
Lemma leaf_interval p g x l u : leaf p g x → lo g = Some l → hi g = Some u → cmp l u < 0 ∧ ok l ∧ ok u.
Proof using TI HN KO.
  intros Hlf Hl Hu. pose proof (leaf_page _ _ _ Hlf) as PO. destruct (po_bounds _ _ _ _ _ _ _ _ _ PO) as [B1 B2].
  pose proof (po_node _ _ _ _ _ _ _ _ _ PO) as Hn. specialize (HN _ _ _ Hlf).
  destruct (lookup_lt_is_Some_2 (live_keys x) 0) as [k Hk]; [rewrite (length_live fh ok x Hn); lia|].
  destruct (Forall_lookup_1 _ _ _ _ (po_within _ _ _ _ _ _ _ _ _ PO) Hk) as [W1 W2].
  pose proof (Forall_lookup_1 _ _ _ _ (no_keys _ _ _ Hn) Hk) as Hok.
  split; [|by auto]. apply (cmp_le_lt_trans l k u); auto.
Qed.

(** The leaves that start at or after the end of [g]. *)
Definition beyond (g : info) (q : Z) : bool :=
  match G !! q ≫= lo, hi g with Some l, Some u => cmp u l <=? 0 | _, _ => false end.

Definition right_of (g : info) : gset Z := filter (λ q, beyond g q = true) (dom G).

Lemma right_of_next p g x u gn xn :
  leaf p g x → hi g = Some u → leaf (next_leaf x) gn xn → lo gn = Some u → right_of gn ⊂ right_of g.
Proof using TI HN KO.
  intros Hlf Hu Hn Hlo. unfold right_of. pose proof (leaf_page _ _ _ Hlf) as PO.
  pose proof (proj2 (po_bounds _ _ _ _ _ _ _ _ _ PO) _ Hu) as Hoku. split.
  - intros q [Hb Hq]%elem_of_filter. apply elem_of_filter. split; [|done]. unfold beyond in *.
    destruct (G !! q) as [gq|] eqn:HGq; [|done]. simpl in *. destruct (lo gq) as [l|] eqn:El; [|done].
    destruct (hi gn) as [un|] eqn:Eu; [|done]. rewrite Hu. apply Z.leb_le in Hb. apply Z.leb_le.
    destruct (leaf_interval _ _ _ _ _ Hn Hlo Eu) as (Hlt & _ & Hokn).
    destruct (ti_page _ _ _ _ _ _ TI _ _ HGq) as (_ & xq & _ & POq).
    pose proof (proj1 (po_bounds _ _ _ _ _ _ _ _ _ POq) _ El) as Hokl.
    pose proof (cmp_lt_le_trans u un l Hoku Hokn Hokl Hlt Hb). lia.
  - intros Hsub. assert (Hin : next_leaf x ∈ filter (λ q, beyond g q = true) (dom G)).
    { apply elem_of_filter. unfold beyond. rewrite (proj1 Hn), Hu. simpl. rewrite Hlo.
      split; [apply Z.leb_le; by rewrite (cmp_refl u Hoku)|]. apply elem_of_dom. by rewrite (proj1 Hn). }
    apply Hsub in Hin as [Hb _]%elem_of_filter. unfold beyond in Hb. rewrite (proj1 Hn) in Hb. simpl in Hb. rewrite Hlo in Hb.
    destruct (hi gn) as [un|] eqn:Eu; [|done]. apply Z.leb_le in Hb.
    destruct (leaf_interval _ _ _ _ _ Hn Hlo Eu) as (Hlt & Ho1 & Ho2). apply ko_flip in Hlt; [lia|done|done].
Qed.

Lemma leaf_run_exists p g x : leaf p g x → ∃ l, leaf_run p l.
Proof using TI HN KO.
  remember (size (right_of g)) as n eqn:Hn. revert p g x Hn. induction n as [n IH] using lt_wf_ind; intros p g x -> Hlf.
  destruct (hi g) as [u|] eqn:Hu; [|exists (entries x); by eapply run_last].
  destruct (next_leaf_ok _ _ _ _ Hlf Hu) as (gn & xn & Hnl & Hlo).
  pose proof (subset_size _ _ (right_of_next _ _ _ _ _ _ Hlf Hu Hnl Hlo)) as Hlt.
  destruct (IH _ Hlt _ _ _ eq_refl Hnl) as [l Hl]. exists (entries x ++ l). by eapply run_more.
Qed.

Lemma leaf_run_sorted p l g x :
  leaf_run p l → leaf p g x →
  StronglySorted key_lt l ∧ Forall (λ e, ok e.1 ∧ ∀ k0, lo g = Some k0 → cmp k0 e.1 ≤ 0) l.
Proof using TI HN KO.
  intros Hr. revert g x. induction Hr as [p g0 x0 Hlf Hu|p g0 x0 u l Hlf Hu Hr IH]; intros g x Hlf';
    (assert (g0 = g ∧ x0 = x) as [-> ->] by (destruct Hlf as (?&?&?), Hlf' as (?&?&?); split; congruence));
    destruct (leaf_entries _ _ _ Hlf) as [Hs Hf].
  - split; [done|]. eapply Forall_impl; [exact Hf|]. intros e [He [Hw _]]. auto.
  - destruct (next_leaf_ok _ _ _ _ Hlf Hu) as (gn & xn & Hnl & Hlo). destruct (IH _ _ Hnl) as [Hs' Hf']. rewrite Forall_forall in Hf, Hf'.
    pose proof (proj2 (po_bounds _ _ _ _ _ _ _ _ _ (leaf_page _ _ _ Hlf)) _ Hu) as Hoku. split.
    + apply StronglySorted_app. split; [|done]. intros e1 e2 H1 H2. destruct (Hf _ H1) as [Ho1 [_ Hw]], (Hf' _ H2) as [Ho2 Hle].
      apply (cmp_lt_le_trans e1.1 u e2.1); auto.
    + apply Forall_app. split; apply Forall_forall.
      * intros e He. destruct (Hf _ He) as [Ho [Hw _]]. auto.
      * intros e He. destruct (Hf' _ He) as [Ho Hle]. split; [done|]. intros k0 Hk0.
        destruct (leaf_interval _ _ _ _ _ Hlf Hk0 Hu) as (Hlt & Hok0 & _). apply (ko_trans k0 u e.1); auto. lia.
Qed.

(** The leaves from [p] on bind exactly what the tree binds from [p]'s lower end on. *)
Lemma leaf_run_has p l g x k v :
  leaf_run p l → leaf p g x → ok k → (∀ k0, lo g = Some k0 → cmp k0 k ≤ 0) →
  has fh s G k v ↔ assoc fh k l = Some v.
Proof using TI HN KO.
  intros Hr Hlf' Hk. revert g x Hlf'. induction Hr as [p g0 x0 Hlf Hu|p g0 x0 u l Hlf Hu Hr IH]; intros g x Hlf' Hlow;
    (assert (g0 = g ∧ x0 = x) as [-> ->] by (destruct Hlf as (?&?&?), Hlf' as (?&?&?); split; congruence)).
  - split; [|intros Ha; exists p, g, x; by destruct Hlf as (?&?&?)].
    intros (q & gq & xq & HGq & Hhq & Hxq & Ha). destruct Hlf as (HG & Hh & Hx).
    assert (p = q) as -> by (apply (same_leaf k p g q gq); try done; [split; [done|by rewrite Hu]|by eapply assoc_within]).
    congruence.
  - destruct (next_leaf_ok _ _ _ _ Hlf Hu) as (gn & xn & Hnl & Hlo). rewrite assoc_app.
    pose proof (proj2 (po_bounds _ _ _ _ _ _ _ _ _ (leaf_page _ _ _ Hlf)) _ Hu) as Hoku.
    destruct Hlf as (HG & Hh & Hx). destruct (decide (cmp k u < 0)) as [Hlt|Hge].
    + assert (Hw : within fh g k) by (split; [done|rewrite Hu; by intros ? [= <-]]).
      assert (Hone : has fh s G k v ↔ assoc fh k (entries x) = Some v).
      { apply (only_leaf_has fh ok md full s G TI k Hk p g x v HG Hx Hh).
        intros q gq HGq Hhq Hwq. apply (same_leaf k q gq p g); congruence || done. }
      rewrite Hone. destruct (assoc fh k (entries x)) as [v'|]; [done|]. split; [done|]. intros Ha. exfalso.
      destruct (leaf_run_sorted _ _ _ _ Hr Hnl) as [_ Hf]. rewrite Forall_forall in Hf.
      assert (Hn : assoc fh k l = None); [|congruence]. apply assoc_None. intros k' r Hin. destruct (Hf _ Hin) as [Ho Hle].
      pose proof (cmp_lt_le_trans k u k' Hk Hoku Ho Hlt (Hle _ Hlo)). lia.
    + assert (Hn : assoc fh k (entries x) = None).
      { destruct (assoc fh k (entries x)) as [v'|] eqn:Ha; [|done]. exfalso.
        destruct (assoc_within fh ok md full s G TI k Hk p g x v' HG Hx Ha) as [_ Hw]. specialize (Hw _ Hu). lia. }
      rewrite Hn. apply (IH _ _ Hnl). intros k0 Hk0. assert (k0 = u) as -> by congruence.
      apply cmp_le_flip; [done|done|]. lia.
Qed.

(** ** The scan *)

(** The last leaf is the one without an upper end. *)
Lemma last_leaf_iff p g x : leaf p g x → p = last_leaf (file_hdr s) ↔ hi g = None.
Proof using TI HL HN KO.
  intros Hlf. split.
  - intros Hp. destruct (leaf_run_exists _ _ _ Hlf) as [l Hr].
    assert (∃ q gq, G !! q = Some gq ∧ ht gq = O ∧ hi gq = None) as (q & gq & HGq & Hhq & Hu).
    { clear -Hr. induction Hr as [p g x (?&?&?) ?|]; [by exists p, g|done]. }
    pose proof (HL q gq HGq Hhq Hu) as Hq. destruct Hlf as (HG & _ & _). congruence.
  - intros Hu. symmetry. apply (HL p g); [apply Hlf|apply Hlf|done].
Qed.

Lemma get_rid_at p g x i k v m :
  leaf p g x → entries x !! i = Some (k, v) →
  ∃ m', ix_get_rid (MkIid p (Z.of_nat i)) (set_pinmap m s) = (Ok v, set_pinmap m' s).
Proof using TI.
  intros Hlf [Hk Hv]%lookup_entries. pose proof (po_node _ _ _ _ _ _ _ _ _ (leaf_page _ _ _ Hlf)) as Hn.
  destruct Hlf as (HG & Hh & Hx). unfold ix_get_rid. cbn [iid_page_no iid_slot_no].
  destruct (FetchNode_run p (set_pinmap m s) x Hx) as [m1 Hf]. mstep Hf.
  mstep (read_node_run p num_key (set_pinmap m1 s) x Hx). apply lookup_lt_Some in Hk as Hlt. rewrite (length_live fh ok x Hn) in Hlt.
  rewrite (proj2 (Z.leb_gt _ _)) by lia. destruct (UnpinPage_run p false (set_pinmap m1 s)) as (b & m2 & Hu). mstep Hu.
  exists m2. apply (on_node_pure _ _ _ x); [done|]. unfold get_rid, array_get. rewrite st_get_bind.
  rewrite (proj2 (Z.leb_le _ _)), Nat2Z.id by lia. unfold live_rids in Hv. rewrite lookup_take_lt in Hv by done. by rewrite Hv.
Qed.

Lemma scan_next_at p g x i e m :
  leaf p g x → (i < Z.to_nat (num_key x))%nat → MkIid p (Z.of_nat i) ≠ e →
  ∃ m', ix_scan_next (MkScan (MkIid p (Z.of_nat i)) e) (set_pinmap m s)
        = (Ok (MkScan (if decide (hi g ≠ None ∧ S i = Z.to_nat (num_key x)) then MkIid (next_leaf x) 0
                       else MkIid p (Z.of_nat (S i))) e), set_pinmap m' s).
Proof using TI HL HN KO.
  intros Hlf Hi Hne. pose proof (last_leaf_iff _ _ _ Hlf) as Hlast. pose proof (leaf_page _ _ _ Hlf) as PO.
  destruct Hlf as (HG & Hh & Hx). unfold ix_scan_next, ix_scan_is_end. cbn [iid_ end_ iid_page_no iid_slot_no].
  rewrite bool_decide_eq_false_2 by done. unfold assert_ at 1. cbn [negb].
  destruct (FetchNode_run p (set_pinmap m s) x Hx) as [m1 Hf]. unfold st_bind at 1, st_ret at 1. mstep Hf. exists m1.
  mstep (read_node_run p is_leaf (set_pinmap m1 s) x Hx). rewrite (po_leaf _ _ _ _ _ _ _ _ _ PO), Hh. cbn [Nat.eqb]. unfold assert_ at 1.
  unfold st_bind at 1, st_ret at 1. mstep (read_node_run p num_key (set_pinmap m1 s) x Hx).
  rewrite (proj2 (Z.ltb_lt _ _)) by lia. unfold assert_, st_bind at 1, st_ret at 1.
  unfold get_last_leaf. unfold st_bind at 1, gets. cbn [file_hdr set_pinmap].
  destruct (Z.eqb_spec p (last_leaf (file_hdr s))) as [Hp|Hp]; cbn [negb andb].
  - rewrite decide_False by (intros [Hu _]; by apply Hu, Hlast). unfold st_ret. do 4 f_equal. lia.
  - assert (hi g ≠ None) as Hu by (intros Hu; by apply Hp, Hlast).
    destruct (Z.eqb_spec (Z.of_nat i + 1) (num_key x)) as [Hn|Hn].
    + rewrite decide_True by (split; [done|lia]). by mstep (read_node_run p next_leaf (set_pinmap m1 s) x Hx).
    + rewrite decide_False by (intros [_ ?]; lia). unfold st_ret. do 4 f_equal. lia.
Qed.

(** The end position: past the last entry of the last leaf. *)
Definition at_end (e : Iid) : Prop :=
  ∃ xl, nodes s !! last_leaf (file_hdr s) = Some xl ∧ e = MkIid (last_leaf (file_hdr s)) (num_key xl).

Lemma before_end p g x i e : leaf p g x → at_end e → (i < Z.to_nat (num_key x))%nat → MkIid p (Z.of_nat i) ≠ e.
Proof. intros (_ & _ & Hx) (xl & Hxl & ->) Hi [= Hp Hn]. rewrite <- Hp, Hx in Hxl. injection Hxl as ->. lia. Qed.

Lemma length_entries p g x : leaf p g x → length (entries x) = Z.to_nat (num_key x).
Proof using TI.
  intros Hlf. pose proof (po_node _ _ _ _ _ _ _ _ _ (leaf_page _ _ _ Hlf)) as Hn. unfold entries.
  rewrite length_zip_with, (length_live fh ok x Hn), (length_live_rids fh ok x Hn). lia.
Qed.

(** One round: deliver the entry, move on. *)
Lemma scan_round_at p g x i k v e m acc rounds :
  leaf p g x → at_end e → entries x !! i = Some (k, v) →
  ∃ m', ix_scan_each (S rounds) (MkScan (MkIid p (Z.of_nat i)) e) acc (set_pinmap m s)
        = ix_scan_each rounds (MkScan (if decide (hi g ≠ None ∧ S i = Z.to_nat (num_key x)) then MkIid (next_leaf x) 0
                                       else MkIid p (Z.of_nat (S i))) e) (acc ++ [v]) (set_pinmap m' s).
Proof using TI HL HN KO.
  intros Hlf He Hi. pose proof (lookup_lt_Some _ _ _ Hi) as Hlt. rewrite (length_entries _ _ _ Hlf) in Hlt.
  pose proof (before_end _ _ _ _ _ Hlf He Hlt) as Hne. cbn [ix_scan_each]. unfold ix_scan_is_end at 1. cbn [iid_ end_].
  rewrite bool_decide_eq_false_2 by done. unfold ix_scan_rid. cbn [iid_].
  destruct (get_rid_at p g x i k v m Hlf Hi) as [m1 H1]. mstep H1.
  destruct (scan_next_at p g x i e m1 Hlf Hlt Hne) as [m2 H2]. mstep H2. by exists m2.
Qed.

Lemma scan_each_end rounds e acc s' : ix_scan_each (S rounds) (MkScan e e) acc s' = (Ok acc, s').
Proof. cbn [ix_scan_each]. unfold ix_scan_is_end. cbn [iid_ end_]. by rewrite bool_decide_eq_true_2. Qed.

Lemma scan_leaf_run p l g x e :
  leaf_run p l → leaf p g x → at_end e → ∀ n i rounds m acc,
  n = (Z.to_nat (num_key x) - i)%nat → (i < Z.to_nat (num_key x))%nat → (length (drop i l) < rounds)%nat →
  ∃ m', ix_scan_each rounds (MkScan (MkIid p (Z.of_nat i)) e) acc (set_pinmap m s)
        = (Ok (acc ++ (drop i l).*2), set_pinmap m' s).
Proof using TI HL HN KO.
  intros Hr Hlf' He. revert g x Hlf'. induction Hr as [p g0 x0 Hlf Hu|p g0 x0 u l Hlf Hu Hr IH]; intros g x Hlf';
    (assert (g0 = g ∧ x0 = x) as [-> ->] by (destruct Hlf as (?&?&?), Hlf' as (?&?&?); split; congruence));
    pose proof (length_entries _ _ _ Hlf) as Hlen;
    (induction n as [|n IHn]; intros i [|rounds] m acc Hn Hi Hf; try lia);
    (destruct (lookup_lt_is_Some_2 (entries x) i) as [[k v] Hkv]; [lia|]);
    destruct (scan_round_at p g x i k v e m acc rounds Hlf He Hkv) as [m1 ->].
  - rewrite (drop_S _ _ _ Hkv) in *. simpl in Hf. rewrite decide_False by (by rewrite Hu; intros [? _]).
    destruct (decide (S i = Z.to_nat (num_key x))) as [HS|HS].
    + destruct rounds as [|rounds]; [lia|]. exists m1. rewrite drop_ge by lia. simpl.
      assert (e = MkIid p (Z.of_nat (S i))) as ->; [|apply scan_each_end].
      destruct He as (xl & Hxl & ->). rewrite <- (proj2 (last_leaf_iff _ _ _ Hlf) Hu) in *.
      assert (xl = x) as -> by (destruct Hlf as (_ & _ & ?); congruence). f_equal. lia.
    + destruct (IHn (S i) rounds m1 (acc ++ [v])) as [m2 ->]; [lia|lia|lia|]. exists m2. simpl. by rewrite <- (assoc_L (++)).
  - rewrite (drop_S (entries x ++ l) (k, v) i) in * by (by rewrite lookup_app_l by lia). simpl in Hf.
    destruct (decide (S i = Z.to_nat (num_key x))) as [HS|HS].
    + rewrite decide_True by (by rewrite Hu). destruct (next_leaf_ok _ _ _ _ Hlf Hu) as (gn & xn & Hnl & _).
      rewrite drop_app_length' in * by lia.
      destruct (IH _ _ Hnl _ 0%nat rounds m1 (acc ++ [v]) eq_refl) as [m2 H2];
        [specialize (HN _ _ _ Hnl); lia|rewrite drop_0; lia|].
      exists m2. change 0 with (Z.of_nat 0). rewrite H2, drop_0. simpl. by rewrite <- (assoc_L (++)).
    + rewrite decide_False by (intros [_ ?]; done).
      destruct (IHn (S i) rounds m1 (acc ++ [v])) as [m2 ->]; [lia|lia|lia|]. exists m2. simpl. by rewrite <- (assoc_L (++)).
Qed.

(** ** From a key on *)

Lemma lower_bound_hdr h k : key_hdr fh h → lower_bound h k = lower_bound fh k.
Proof. intros (E1 & E2 & _). destruct h, fh; simpl in *. by subst. Qed.

Lemma leaf_end_run : ∀ p g x m, leaf p g x → ∃ e m', leaf_end (set_pinmap m s) = (Ok e, set_pinmap m' s) ∧ at_end e.
Proof using TI HL HN KO.
  intros p g x m Hlf. destruct (leaf_run_exists _ _ _ Hlf) as [l Hr].
  assert (∃ xl, nodes s !! last_leaf (file_hdr s) = Some xl) as [xl Hxl].
  { clear Hlf. induction Hr as [p' g' x' Hlf Hu|]; [|done]. rewrite <- (proj2 (last_leaf_iff _ _ _ Hlf) Hu). exists x'. apply Hlf. }
  unfold leaf_end, get_last_leaf. unfold st_bind at 1, gets. cbn [file_hdr set_pinmap].
  destruct (FetchNode_run _ (set_pinmap m s) xl Hxl) as [m1 Hf]. mstep Hf.
  mstep (read_node_run _ num_key (set_pinmap m1 s) xl Hxl).
  destruct (UnpinPage_run (last_leaf (file_hdr s)) false (set_pinmap m1 s)) as (b & m2 & Hu). mstep Hu.
  eexists _, m2. split; [done|]. by exists xl.
Qed.

(** The part of a sorted list from the place of [c] on. *)
Lemma assoc_drop l i c v k' :
  StronglySorted key_lt l → Forall (λ e, ok e.1) l → l !! i = Some (c, v) → ok k' →
  assoc fh k' (drop i l) = if decide (cmp c k' ≤ 0) then assoc fh k' l else None.
Proof using KO.
  intros Hs Hok Hi Hk'. assert (Hokc : ok c) by exact (Forall_lookup_1 _ _ _ _ Hok Hi).
  assert (Hsp : l = take i l ++ (c, v) :: drop (S i) l) by (by rewrite take_drop_middle).
  pose proof Hs as Hs'. rewrite Hsp in Hs'. apply StronglySorted_app in Hs' as (Hpre & _ & [_ Hpost]%StronglySorted_inv).
  rewrite Forall_forall in Hok, Hpost. case_decide as Hd.
  - rewrite <- (take_drop i l) at 2. rewrite assoc_app.
    assert (assoc fh k' (take i l) = None) as ->; [|done]. apply assoc_None. intros a r Ha.
    assert (Hoka : ok a). { apply (Hok (a, r)). by eapply elem_of_take in Ha as (j & Hj & _); apply list_elem_of_lookup_2 in Hj. }
    pose proof (Hpre (a, r) (c, v) Ha ltac:(left)) as Hlt. unfold key_lt in Hlt. simpl in Hlt.
    pose proof (cmp_lt_le_trans a c k' Hoka Hokc Hk' Hlt Hd) as H. apply ko_flip in H; [lia|done|done].
  - rewrite (drop_S _ _ _ Hi). apply assoc_None. intros a r [[= -> ->]|Ha]%elem_of_cons.
    + intros Hz. apply cmp_eq_sym in Hz; [lia|done|done].
    + assert (Hoka : ok a). { apply (Hok (a, r)). rewrite Hsp, elem_of_app, elem_of_cons. auto. }
      pose proof (Hpost _ Ha) as Hlt. unfold key_lt in Hlt. simpl in Hlt. intros Hz.
      assert (cmp k' c < 0) as H by (apply ko_flip; [done|done|lia]).
      pose proof (cmp_lt_le_trans k' c a Hk' Hokc Hoka H ltac:(lia)). lia.
Qed.

(** Where [lower_bound] of a bound key points. *)
Lemma ix_lower_bound_run k v fuel m :
  ok k → has fh s G k v → (∀ g, G !! root_page (file_hdr s) = Some g → (ht g < fuel)%nat) →
  ∃ q g x i c m', ix_lower_bound fuel k (set_pinmap m s) = (Ok (MkIid q (Z.of_nat i)), set_pinmap m' s) ∧ leaf q g x ∧
    entries x !! i = Some (c, v) ∧ cmp k c = 0 ∧ (i < Z.to_nat (num_key x))%nat ∧ within fh g k.
Proof using TI KO.
  intros Hk Hv Hf. pose proof (tree_inv_pins fh ok md full s G m TI) as TI'.
  destruct (FindLeafPage_run fh ok md full (set_pinmap m s) G TI' k Hk fuel Hf) as (q & g & x & m1 & H1 & HG & Hx & Hh & Ho & _).
  assert (Hlf : leaf q g x) by done. pose proof (leaf_page _ _ _ Hlf) as PO. pose proof (po_node _ _ _ _ _ _ _ _ _ PO) as Hn.
  pose proof (proj1 (only_leaf_has fh ok md full s G TI k Hk q g x v HG Hx Hh Ho) Hv) as Ha.
  pose proof (assoc_within fh ok md full s G TI k Hk q g x v HG Hx Ha) as Hw.
  rewrite (assoc_at_bound fh ok x k Hn Hk) in Ha. set (i := scan_ref fh true k (live_keys x)) in *.
  destruct (live_keys x !! i) as [c|] eqn:Hc; [|done]. destruct (Z.eqb_spec (cmp k c) 0) as [Hz|]; [|done].
  unfold ix_lower_bound. mstep H1.
  assert (Hlb : on_node q (λ h, lower_bound h k) (set_pinmap m1 s) = (Ok (Z.of_nat i), set_pinmap m1 s)).
  { apply (on_node_pure _ _ _ x); [done|]. cbn [file_hdr set_pinmap]. rewrite (lower_bound_hdr _ k (ti_hdr _ _ _ _ _ _ TI)).
    by apply (lower_bound_run fh ok). }
  mstep Hlb. destruct (UnpinPage_run q false (set_pinmap m1 s)) as (b & m2 & Hu). mstep Hu.
  exists q, g, x, i, c, m2. split; [done|]. split; [done|]. split; [by apply lookup_entries|]. split; [done|].
  split; [|done]. apply lookup_lt_Some in Hc. by rewrite (length_live fh ok x Hn) in Hc.
Qed.

End Range.

(** [C6] A range scan delivers the index in order: for a key [k] the index binds, the
    loop over [IxScan] from [lower_bound(k)] to [leaf_end()] terminates after one
    round more than there are bindings from [k] on, and delivers exactly the rids
    of those bindings, in increasing order of their keys, across all leaves.  It
    asks that no leaf is empty. *)
Theorem range_scan_correct fh ok `{KO : !KeyOrder (compare fh) ok} md full s G k v fuel :
  tree_inv fh ok md full s G → last_ok s G → (∀ p g x, leaf s G p g x → 0 < num_key x) →
  ok k → has fh s G k v → (∀ g, G !! root_page (file_hdr s) = Some g → (ht g < fuel)%nat) →
  ∃ L, StronglySorted (key_lt fh) L ∧
    (∀ k' v', ok k' → assoc fh k' L = Some v' ↔ has fh s G k' v' ∧ compare fh k k' ≤ 0) ∧
    ∀ rounds, (length L < rounds)%nat → ∃ m, range_scan fuel rounds k s = (Ok L.*2, set_pinmap m s).
Proof.
  intros TI HL HN Hk Hv Hf. assert (Hs0 : set_pinmap (pins s) s = s) by (by destruct s).
  destruct (ix_lower_bound_run fh ok md full s G TI k v fuel (pins s) Hk Hv Hf) as (q & g & x & i & c & m0 & _ & Hlf & _).
  destruct (leaf_end_run fh ok md full s G TI HL HN q g x (pins s) Hlf) as (e & m1 & He & Hend). rewrite Hs0 in He.
  destruct (ix_lower_bound_run fh ok md full s G TI k v fuel m1 Hk Hv Hf) as (q' & g' & x' & j & d & m2 & Hlb & Hlf' & Hd & Hz & Hj & Hw).
  destruct (leaf_run_exists fh ok md full s G TI HN _ _ _ Hlf') as [l Hr].
  destruct (leaf_run_sorted fh ok md full s G TI HN _ _ _ _ Hr Hlf') as [Hsort Hall].
  assert (Hokl : Forall (λ e, ok e.1) l) by (eapply Forall_impl; [exact Hall|]; by intros ? [? _]).
  assert (Hlj : l !! j = Some (d, v)).
  { inversion Hr as [? ? y Hy Hu|? ? y u l' Hy Hu Hr']; subst; assert (y = x') as -> by (destruct Hy as (_&_&?), Hlf' as (_&_&?); congruence);
      [done|]. by apply lookup_app_l_Some. }
  assert (Hokd : ok d) by exact (Forall_lookup_1 _ _ _ _ Hokl Hlj).
  exists (drop j l). split; [|split].
  - rewrite <- (take_drop j l) in Hsort. by apply StronglySorted_app in Hsort as (_ & _ & ?).
  - intros k' v' Hk'. rewrite (assoc_drop fh ok l j d v k' Hsort Hokl Hlj Hk').
    assert (Hiff : compare fh d k' ≤ 0 ↔ compare fh k k' ≤ 0).
    { pose proof (cmp_eq_sym _ _ Hk Hokd Hz). split; intros; [apply (ko_trans k d k')|apply (ko_trans d k k')]; done || lia. }
    case_decide as Hle; [|split; [done|intros [_ H]; by apply Hiff in H]].
    rewrite (leaf_run_has fh ok md full s G TI HN q' l g' x' k' v' Hr Hlf' Hk'); [tauto|].
    intros k0 Hk0. destruct (po_bounds _ _ _ _ _ _ _ _ _ (leaf_page fh ok md full s G TI _ _ _ Hlf')) as [B1 _].
    apply (ko_trans k0 k k'); [by apply B1|done|done|by apply Hw|by apply Hiff].
  - intros rounds Hro. unfold range_scan. mstep He. mstep Hlb.
    exact (scan_leaf_run fh ok md full s G TI HL HN _ _ _ _ _ Hr Hlf' Hend _ j rounds m2 [] eq_refl Hj Hro).
Qed.

(** ** A tree of two leaves *)

Module RangeRuns.
Import NodeRuns IxRuns.

#[local] Instance hdr4_order : KeyOrder (compare hdr4) nonzero := int_order hdr4 eq_refl.

Definition z4 : key := zeros 4.
Definition no_rid : Rid := MkRid 0 0.

Definition leaf_a : IxNode :=
  MkNode (-1) 4 2 true 1 3 [ik 10; ik 20; ik 30; ik 40] [rid_of 10; rid_of 20; rid_of 30; rid_of 40].
Definition leaf_b : IxNode :=
  MkNode 0 4 2 true 2 1 [ik 30; ik 40; z4; z4] [rid_of 30; rid_of 40; no_rid; no_rid].
Definition root_ab : IxNode :=
  MkNode 0 (-1) 2 false 0 0 [ik 10; ik 30; z4; z4] [MkRid 2 (-1); MkRid 3 (-1); no_rid; no_rid].
Definition leaf_hdr : IxNode := MkNode (-1) (-1) 0 true 3 2 [z4; z4; z4; z4] [no_rid; no_rid; no_rid; no_rid].

Definition two : IxState :=
  MkIx (MkIxFileHdr (-1) 5 4 TYPE_INT 4 3 16 2 3)
    {[ 1 := leaf_hdr; 2 := leaf_a; 3 := leaf_b; 4 := root_ab ]} ∅ 5.
Definition ghost_two : gmap Z info :=
  {[ 2 := MkInfo 0 (Some (ik 10)) (Some (ik 30)); 3 := MkInfo 0 (Some (ik 30)) None; 4 := MkInfo 1 None None ]}.

(** It is what four insertions make of an empty index. *)
Lemma two_grown : nodes (grow [10; 20; 30; 40]) = nodes two ∧ file_hdr (grow [10; 20; 30; 40]) = file_hdr two.
Proof. by vm_compute. Qed.

Lemma ghost_two_cases p g :
  ghost_two !! p = Some g →
  (p = 2 ∧ g = MkInfo 0 (Some (ik 10)) (Some (ik 30))) ∨ (p = 3 ∧ g = MkInfo 0 (Some (ik 30)) None) ∨ (p = 4 ∧ g = MkInfo 1 None None).
Proof.
  unfold ghost_two. intros [[<- <-]|[_ [[<- <-]|[_ [<- <-]%lookup_singleton_Some]]%lookup_insert_Some]]%lookup_insert_Some; auto.
Qed.

Lemma leaf_a_ok : page_ok hdr4 nonzero strict (nodes two) ghost_two (λ _, False) 2 (MkInfo 0 (Some (ik 10)) (Some (ik 30))) leaf_a.
Proof.
  split; simpl; try done.
  - split; simpl; [lia|done|repeat constructor; by vm_compute|repeat constructor; by vm_compute].
  - left. lia.
  - intros _ i k Hi Hk. right. do 2 (destruct i as [|i]; [lia|]).
    destruct i as [|[|i]]; simpl in Hk; [injection Hk as <-|injection Hk as <-|done];
      (split; [by vm_compute|]; exists (ik 30); split; [done|by vm_compute]).
  - split; intros l [= <-]; by vm_compute.
  - unfold live_keys, within. simpl. repeat constructor; simpl; intros ? [= <-]; by vm_compute.
  - intros _. exists (MkInfo 0 (Some (ik 30)) None). by vm_compute.
Qed.

Lemma z4_dead : dead hdr4 nonzero z4.
Proof. by apply zero_key_dead. Qed.

Lemma leaf_b_ok : page_ok hdr4 nonzero strict (nodes two) ghost_two (λ _, False) 3 (MkInfo 0 (Some (ik 30)) None) leaf_b.
Proof.
  split; simpl; try done.
  - split; simpl; [lia|done|repeat constructor; by vm_compute|repeat constructor; by vm_compute].
  - left. lia.
  - intros _ i k Hi Hk. left. do 2 (destruct i as [|i]; [lia|]).
    destruct i as [|[|i]]; simpl in Hk; [injection Hk as <-|injection Hk as <-|done]; apply z4_dead.
  - split; [intros l [= <-]; by vm_compute|done].
  - unfold live_keys, within. simpl. repeat constructor; simpl; intros ? [= <-]; by vm_compute.
Qed.

Lemma root_ab_ok : page_ok hdr4 nonzero strict (nodes two) ghost_two (λ _, False) 4 (MkInfo 1 None None) root_ab.
Proof.
  split; simpl; try done.
  - split; simpl; [lia|done|repeat constructor; by vm_compute|repeat constructor; by vm_compute].
  - left. lia.
  - intros _ i k Hi Hk. left. do 2 (destruct i as [|i]; [lia|]).
    destruct i as [|[|i]]; simpl in Hk; [injection Hk as <-|injection Hk as <-|done]; apply z4_dead.
  - unfold live_keys, within. simpl. by repeat constructor.
  - intros _ i r Hi. unfold live_rids in Hi. simpl in Hi. destruct i as [|[|i]]; simpl in Hi; [injection Hi as <-|injection Hi as <-|done].
    + eexists _, leaf_a. by vm_compute.
    + eexists _, leaf_b. by vm_compute.
Qed.

Lemma two_inv : tree_inv hdr4 nonzero strict (λ _, False) two ghost_two.
Proof.
  split.
  - by repeat split.
  - by vm_compute.
  - by eexists.
  - exists (MkInfo 1 None None), root_ab. split_and!; try (by vm_compute).
    intros p g [[-> ->]|[[-> ->]|[-> ->]]]%ghost_two_cases; simpl; lia.
  - intros p g [[-> ->]|[[-> ->]|[-> ->]]]%ghost_two_cases; (split; [simpl; lia|]); eexists; (split; [by vm_compute|]).
    + apply leaf_a_ok.
    + apply leaf_b_ok.
    + apply root_ab_ok.
  - intros p g [[-> ->]|[[-> ->]|[-> ->]]]%ghost_two_cases Hne; [| |done].
    + exists 4, (MkInfo 1 None None), root_ab, O, (MkRid 2 (-1)). by vm_compute.
    + exists 4, (MkInfo 1 None None), root_ab, 1%nat, (MkRid 3 (-1)). by vm_compute.
Qed.

Lemma range_scan_correct_witness :
  ∃ L m, range_scan 2 (S (length L)) (ik 20) two = (Ok L.*2, set_pinmap m two) ∧
    assoc hdr4 (ik 40) L = Some (rid_of 40) ∧ assoc hdr4 (ik 10) L = None.
Proof.
  destruct (range_scan_correct hdr4 nonzero strict (λ _, False) two ghost_two (ik 20) (rid_of 20) 2 two_inv) as (L & _ & Hhas & Hrun).
  - intros p g [[-> ->]|[[-> ->]|[-> ->]]]%ghost_two_cases Hh Hu; done.
  - intros p g x (HG & Hh & Hx). apply ghost_two_cases in HG as [[-> ->]|[[-> ->]|[-> ->]]]; [| |done];
      vm_compute in Hx; injection Hx as <-; done.
  - by vm_compute.
  - exists 2. eexists _, leaf_a. by vm_compute.
  - intros g Hg. apply ghost_two_cases in Hg as [[? ->]|[[? ->]|[_ ->]]]; simpl; lia.
  - destruct (Hrun (S (length L)) ltac:(lia)) as [m Hm]. exists L, m. split; [exact Hm|]. clear Hm Hrun. split.
    + apply (Hhas (ik 40)); [by vm_compute|]. split; [|by vm_compute]. exists 3. eexists _, leaf_b. by vm_compute.
    + destruct (assoc hdr4 (ik 10) L) as [v|] eqn:E; [|done]. apply Hhas in E as [_ Hle]; [|by vm_compute]. by vm_compute in Hle.
Defined.

(** A key between two leaves: [lower_bound] points past the end of the left one,
    and [rid] refuses that position. *)
Lemma lower_bound_between_leaves :
  (ix_lower_bound 2 (ik 25) two).1 = Ok (MkIid 2 2) ∧
  (range_scan 2 10 (ik 25) two).1 = Throw (RedBase IndexEntryNotFoundError).
Proof. by vm_compute. Qed.

(** [upper_bound] of the last key of a leaf is the end of the index, not of the leaf. *)
Lemma upper_bound_of_last_key : (ix_upper_bound 2 (ik 20) two).1 = Ok (MkIid 3 2).
Proof. by vm_compute. Qed.

End RangeRuns.
