(* ===== verification/RWLatch.v ===== *)
(** The reader-writer latch: [common/rwlatch.h], [common/rwlatch.cpp].

    The code between taking [mutex_] and releasing it or waiting is one atomic
    section, so a section is one step.  A thread that waits on a condition
    variable is asleep on it until a notification (or a spurious wake-up, which
    the standard allows); a woken thread takes the mutex again and continues at
    the test of its loop. *)
From S2P Require Import Prelude.

Definition MAX_READERS : Z := 4294967295.
Definition wrap_u32 (z : Z) : Z := z `mod` 4294967296.

Record ReaderWriterLatch : Set := MkLatch { reader_count_ : Z; writer_entered_ : bool }.

Definition new_latch : ReaderWriterLatch := MkLatch 0 false.

(** The two condition variables. *)
Inductive cv : Set := reader_ | writer_.

Inductive notify : Set := NotifyNone | NotifyOne (c : cv) | NotifyAll (c : cv).

(** Where a thread is with respect to one latch. [asleep] tells a thread still
    waiting from one that was woken and has yet to run. *)
Inductive thread : Set :=
  | Idle
  | RWait (asleep : bool)
  | RHold
  | WWait (asleep : bool)
  | WDrain (asleep : bool)
  | WHold.

#[global] Instance cv_eq_dec : EqDecision cv.
Proof. solve_decision. Defined.
#[global] Instance thread_eq_dec : EqDecision thread.
Proof. solve_decision. Defined.

(** ** The four operations

    [WLock] in its two loops: [WLock_drain] is the section that starts at the
    second one. *)

Definition WLock_drain (l : ReaderWriterLatch) : ReaderWriterLatch * thread :=
  if 0 <? reader_count_ l then (l, WDrain true) else (l, WHold).

Definition WLock (l : ReaderWriterLatch) : ReaderWriterLatch * thread :=
  if writer_entered_ l then (l, WWait true)
  else WLock_drain (MkLatch (reader_count_ l) true).

Definition WUnlock (l : ReaderWriterLatch) : ReaderWriterLatch * notify :=
  (MkLatch (reader_count_ l) false, NotifyAll reader_).

Definition RLock (l : ReaderWriterLatch) : ReaderWriterLatch * thread :=
  if writer_entered_ l || (reader_count_ l =? MAX_READERS) then (l, RWait true)
  else (MkLatch (wrap_u32 (reader_count_ l + 1)) (writer_entered_ l), RHold).

Definition RUnlock (l : ReaderWriterLatch) : ReaderWriterLatch * notify :=
  let l' := MkLatch (wrap_u32 (reader_count_ l - 1)) (writer_entered_ l) in
  if writer_entered_ l' then
    (l', if reader_count_ l' =? 0 then NotifyOne writer_ else NotifyNone)
  else (l', if reader_count_ l' =? MAX_READERS - 1 then NotifyOne reader_ else NotifyNone).

(** ** Threads *)

(** The condition variable a thread sleeps on. *)
Definition asleep_on (t : thread) : option cv :=
  match t with
  | RWait true | WWait true => Some reader_
  | WDrain true => Some writer_
  | _ => None
  end.

Definition wake (t : thread) : thread :=
  match t with RWait _ => RWait false | WWait _ => WWait false | WDrain _ => WDrain false | _ => t end.

Definition wake_on (c : cv) (t : thread) : thread :=
  if decide (asleep_on t = Some c) then wake t else t.

(** What a notification may do: [notify_one] wakes some sleeper if there is one. *)
Inductive notified (ths : list thread) : notify → list thread → Prop :=
  | notified_none : notified ths NotifyNone ths
  | notified_all c : notified ths (NotifyAll c) (wake_on c <$> ths)
  | notified_one c i t :
      ths !! i = Some t → asleep_on t = Some c → notified ths (NotifyOne c) (<[i := wake t]> ths)
  | notified_nobody c :
      (∀ i t, ths !! i = Some t → asleep_on t ≠ Some c) → notified ths (NotifyOne c) ths.

(** The section a thread runs when it gets the mutex: a call from [Idle], or the
    rest of its call after a wake-up. *)
Inductive acquires : thread → (ReaderWriterLatch → ReaderWriterLatch * thread) → Prop :=
  | acquires_R : acquires Idle RLock
  | acquires_R_again : acquires (RWait false) RLock
  | acquires_W : acquires Idle WLock
  | acquires_W_again : acquires (WWait false) WLock
  | acquires_W_drain : acquires (WDrain false) WLock_drain.

Inductive releases : thread → (ReaderWriterLatch → ReaderWriterLatch * notify) → Prop :=
  | releases_R : releases RHold RUnlock
  | releases_W : releases WHold WUnlock.

Record latch_state : Set := MkLS { the_latch : ReaderWriterLatch; threads : list thread }.

Inductive step : latch_state → latch_state → Prop :=
  | step_acquire l ths i t op l' t' :
      ths !! i = Some t → acquires t op → op l = (l', t') →
      step (MkLS l ths) (MkLS l' (<[i := t']> ths))
  | step_release l ths i t op l' n ths' :
      ths !! i = Some t → releases t op → op l = (l', n) → notified (<[i := Idle]> ths) n ths' →
      step (MkLS l ths) (MkLS l' ths')
  | step_spurious l ths i t :
      ths !! i = Some t → step (MkLS l ths) (MkLS l (<[i := wake t]> ths)).

Definition latch_init (n : nat) : latch_state := MkLS new_latch (replicate n Idle).

Definition latch_reachable (n : nat) : latch_state → Prop := rtc step (latch_init n).

(** ** The invariant *)

Definition is_reader (t : thread) : bool := match t with RHold => true | _ => false end.
Definition is_writer (t : thread) : bool := match t with WDrain _ | WHold => true | _ => false end.

Definition readers (ths : list thread) : Z := Z.of_nat (count is_reader ths).
Definition writers (ths : list thread) : Z := Z.of_nat (count is_writer ths).

Record latch_inv (s : latch_state) : Prop := {
  li_count : reader_count_ (the_latch s) = readers (threads s);
  li_max : reader_count_ (the_latch s) ≤ MAX_READERS;
  li_writers : writers (threads s) = if writer_entered_ (the_latch s) then 1 else 0;
  li_excl : WHold ∈ threads s → readers (threads s) = 0
}.

(** Every sleeper has a reason to sleep. *)
Record sleep_inv (s : latch_state) : Prop := {
  si_reader i t : threads s !! i = Some t → asleep_on t = Some reader_ → writer_entered_ (the_latch s) = true;
  si_writer i t : threads s !! i = Some t → asleep_on t = Some writer_ → 0 < reader_count_ (the_latch s)
}.

(** A thread that changes places. *)
Lemma count_update {A} (g : A → bool) (l : list A) i x y :
  l !! i = Some x →
  Z.of_nat (count g (<[i := y]> l)) = Z.of_nat (count g l) - (if g x then 1 else 0) + (if g y then 1 else 0).
Proof.
  revert i. induction l as [|z l IH]; intros [|i] H; simplify_eq/=.
  - destruct (g x), (g y); lia.
  - specialize (IH i H). destruct (g z); lia.
Qed.

Lemma count_wake c ths : readers (wake_on c <$> ths) = readers ths ∧ writers (wake_on c <$> ths) = writers ths.
Proof.
  unfold readers, writers. induction ths as [|t ths [IH1 IH2]]; [done|]. cbn [fmap list_fmap count].
  assert (is_reader (wake_on c t) = is_reader t ∧ is_writer (wake_on c t) = is_writer t) as [-> ->].
  { unfold wake_on. case_decide; [|done]. by destruct t. }
  destruct (is_reader t), (is_writer t); lia.
Qed.

Lemma count_pos {A} (g : A → bool) l i x : l !! i = Some x → g x = true → (1 ≤ count g l)%nat.
Proof.
  revert i. induction l as [|y l IH]; intros [|i] H Hg; simplify_eq/=; [rewrite Hg; lia|].
  specialize (IH i H Hg). lia.
Qed.

Lemma count_two {A} (g : A → bool) l i j x y :
  i ≠ j → l !! i = Some x → l !! j = Some y → g x = true → g y = true → (2 ≤ count g l)%nat.
Proof.
  revert i j. induction l as [|z l IH]; intros [|i] [|j] Hij Hi Hj Hx Hy; simplify_eq/=.
  - rewrite Hx. pose proof (count_pos g l j y Hj Hy). lia.
  - rewrite Hy. pose proof (count_pos g l i x Hi Hx). lia.
  - assert (i ≠ j) as Hij' by congruence. specialize (IH i j Hij' Hi Hj Hx Hy). lia.
Qed.

Lemma count_exists {A} (g : A → bool) l : (1 ≤ count g l)%nat → ∃ i x, l !! i = Some x ∧ g x = true.
Proof.
  induction l as [|y l IH]; simpl; [lia|]. destruct (g y) eqn:E; intros H.
  - by exists O, y.
  - destruct IH as (i & x & ? & ?); [lia|]. by exists (S i), x.
Qed.

(** Waking changes neither who holds the latch nor who is on its way in. *)
Lemma wake_kind t : is_reader (wake t) = is_reader t ∧ is_writer (wake t) = is_writer t.
Proof. by destruct t. Qed.

Lemma wake_hold t : wake t = WHold → t = WHold.
Proof. by destruct t. Qed.

Lemma wake_on_hold c t : wake_on c t = WHold → t = WHold.
Proof. unfold wake_on. case_decide; [apply wake_hold|done]. Qed.

(** The invariant sees the threads through these three facts only. *)
Definition same_places (ths ths' : list thread) : Prop :=
  readers ths' = readers ths ∧ writers ths' = writers ths ∧ (WHold ∈ ths' → WHold ∈ ths).

Lemma same_places_wake ths i t : ths !! i = Some t → same_places ths (<[i := wake t]> ths).
Proof.
  intros Hi. destruct (wake_kind t) as [Hr Hw]. unfold same_places, readers, writers.
  rewrite !(count_update _ _ _ _ _ Hi), Hr, Hw. split; [lia|]. split; [lia|].
  intros (j & Hj)%list_elem_of_lookup. destruct (decide (i = j)) as [->|].
  - rewrite list_lookup_insert_eq in Hj by (by eapply lookup_lt_Some). injection Hj as Hj%wake_hold. subst t.
    by eapply list_elem_of_lookup_2.
  - rewrite list_lookup_insert_ne in Hj by done. by eapply list_elem_of_lookup_2.
Qed.

Lemma notified_places ths n ths' : notified ths n ths' → same_places ths ths'.
Proof.
  intros [|c|c i t Hi Hc|]; [done| |by apply same_places_wake|done].
  destruct (count_wake c ths) as [Hr Hw]. split; [done|]. split; [done|].
  intros (t & Ht & Hin)%list_elem_of_fmap. symmetry in Ht. by rewrite <- (wake_on_hold c t Ht).
Qed.

Lemma latch_inv_places l ths ths' :
  same_places ths ths' → latch_inv (MkLS l ths) → latch_inv (MkLS l ths').
Proof.
  intros (Hr & Hw & He) [H1 H2 H3 H4]. simpl in *. split; simpl; [lia|lia|lia|]. intros H. rewrite Hr. auto.
Qed.

Lemma elem_of_insert_hold (ths : list thread) i t : WHold ∈ <[i := t]> ths → t = WHold ∨ WHold ∈ ths.
Proof.
  intros (j & Hj)%list_elem_of_lookup. destruct (decide (i = j)) as [->|].
  - left. destruct (decide (j < length ths)%nat).
    + rewrite list_lookup_insert_eq in Hj by done. congruence.
    + rewrite list_insert_ge in Hj by lia. apply lookup_lt_Some in Hj. lia.
  - right. rewrite list_lookup_insert_ne in Hj by done. by eapply list_elem_of_lookup_2.
Qed.

(** A writer that holds the latch is the only one on its way. *)
Lemma hold_entered s : latch_inv s → WHold ∈ threads s → writer_entered_ (the_latch s) = true.
Proof.
  intros [_ _ H _] (i & Hi)%list_elem_of_lookup. pose proof (count_pos is_writer _ i _ Hi eq_refl).
  unfold writers in H. destruct (writer_entered_ _); [done|lia].
Qed.

(** The change of places of one thread. *)
Lemma latch_inv_move l ths i t l' t' :
  latch_inv (MkLS l ths) → ths !! i = Some t →
  reader_count_ l' = reader_count_ l - (if is_reader t then 1 else 0) + (if is_reader t' then 1 else 0) →
  reader_count_ l' ≤ MAX_READERS →
  (if writer_entered_ l' then 1 else 0)
    = (if writer_entered_ l then 1 else 0) - (if is_writer t then 1 else 0) + (if is_writer t' then 1 else 0) →
  (t' = WHold → reader_count_ l' = 0) → (is_reader t' = true → writer_entered_ l = false) →
  latch_inv (MkLS l' (<[i := t']> ths)).
Proof.
  intros Hinv Hi Hc Hm Hw Hh Hr. pose proof (hold_entered _ Hinv) as He. destruct Hinv as [H1 H2 H3 H4]. simpl in *.
  unfold readers, writers in *. split; simpl; unfold readers, writers; rewrite ?(count_update _ _ _ _ _ Hi); [lia|lia|lia|].
  intros [->|H]%elem_of_insert_hold; [specialize (Hh eq_refl); lia|].
  specialize (H4 H). specialize (He H). destruct (is_reader t') eqn:E; [by rewrite Hr in He|].
  destruct (is_reader t) eqn:E'; [|lia]. pose proof (count_pos _ _ _ _ Hi E'). lia.
Qed.

Lemma acquire_inv l ths i t op l' t' :
  latch_inv (MkLS l ths) → ths !! i = Some t → acquires t op → op l = (l', t') →
  latch_inv (MkLS l' (<[i := t']> ths)).
Proof.
  intros Hinv Hi Hop Heq. pose proof Hinv as [H1 H2 H3 _]. simpl in *.
  assert (0 ≤ reader_count_ l) by (rewrite H1; unfold readers; lia).
  assert (is_writer t = true → writer_entered_ l = true) as Hin.
  { intros Hw. pose proof (count_pos _ _ _ _ Hi Hw). unfold writers in H3. destruct (writer_entered_ l); [done|lia]. }
  destruct Hop; unfold RLock, WLock, WLock_drain, wrap_u32, MAX_READERS in *; simpl in Heq;
    repeat case_match; simplify_eq/=;
    repeat match goal with
    | H : (_ || _) = false |- _ => apply orb_false_iff in H as [? ?%Z.eqb_neq]
    | H : (_ <? _) = false |- _ => apply Z.ltb_ge in H
    end; eapply latch_inv_move; try done; simpl; unfold MAX_READERS;
    try (rewrite Hin by done); try (by intros ?); try lia;
    repeat match goal with H : writer_entered_ l = _ |- _ => rewrite ?H; clear H end;
    rewrite ?Z.mod_small by lia; try done; lia.
Qed.

Lemma release_inv l ths i t op l' n ths' :
  latch_inv (MkLS l ths) → ths !! i = Some t → releases t op → op l = (l', n) →
  notified (<[i := Idle]> ths) n ths' → latch_inv (MkLS l' ths').
Proof.
  intros Hinv Hi Hop Heq Hn. eapply latch_inv_places; [by eapply notified_places|].
  pose proof Hinv as [H1 H2 H3 _]. simpl in *.
  destruct Hop; unfold RUnlock, WUnlock, wrap_u32, MAX_READERS in *.
  - pose proof (count_pos is_reader _ _ _ Hi eq_refl). unfold readers in H1.
    simpl in Heq. rewrite Z.mod_small in Heq by lia.
    destruct (writer_entered_ l) eqn:Hw; simplify_eq;
      eapply latch_inv_move; try done; simpl; rewrite ?Hw; unfold MAX_READERS; (done || lia).
  - simplify_eq. eapply latch_inv_move; try done; simpl; unfold MAX_READERS; try lia.
    pose proof (count_pos is_writer _ _ _ Hi eq_refl). unfold writers in H3. destruct (writer_entered_ l); lia.
Qed.

Lemma step_latch_inv s s' : latch_inv s → step s s' → latch_inv s'.
Proof.
  intros Hinv Hs. destruct Hs.
  - by eapply acquire_inv.
  - by eapply release_inv.
  - eapply latch_inv_places; [by apply same_places_wake|done].
Qed.

Lemma count_replicate_false {A} (g : A → bool) n x : g x = false → count g (replicate n x) = 0%nat.
Proof. intros H. induction n as [|n IH]; [done|]. simpl. by rewrite H, IH. Qed.

Lemma latch_init_inv n : latch_inv (latch_init n).
Proof.
  split; simpl; unfold readers, writers; rewrite ?count_replicate_false by done; try done.
Qed.

Lemma latch_reachable_inv n s : latch_reachable n s → latch_inv s.
Proof.
  revert s. apply rtc_ind_r; [apply latch_init_inv|]. intros y z _ Hs Hy. by eapply step_latch_inv.
Qed.

Lemma step_length s s' : step s s' → length (threads s') = length (threads s).
Proof.
  intros [l ths i t op l' t' Hi Ha Ho|l ths i t op l' n ths' Hi Hr Ho Hn|l ths i t Hi]; simpl;
    rewrite ?length_insert; try done.
  destruct Hn; rewrite ?length_fmap, ?length_insert; done.
Qed.

Lemma latch_reachable_length n s : latch_reachable n s → length (threads s) = n.
Proof.
  revert s. apply rtc_ind_r; [apply length_replicate|]. intros y z _ Hs <-. by apply step_length.
Qed.

(** ** Sleepers *)

Lemma asleep_wake t : asleep_on (wake t) = None.
Proof. by destruct t. Qed.

(** A sleeper after an update is the updated thread or was asleep before. *)
Lemma asleep_insert (ths : list thread) i t j u c :
  <[i := t]> ths !! j = Some u → asleep_on u = Some c →
  (j = i ∧ u = t) ∨ (j ≠ i ∧ ths !! j = Some u).
Proof.
  intros Hj Hu. destruct (decide (i = j)) as [->|].
  - apply list_lookup_insert_Some in Hj. naive_solver.
  - rewrite list_lookup_insert_ne in Hj by done. auto.
Qed.

Lemma sleep_inv_wake l ths i t :
  ths !! i = Some t → sleep_inv (MkLS l ths) → sleep_inv (MkLS l (<[i := wake t]> ths)).
Proof.
  intros Hi [H1 H2]. split; simpl in *; intros j u Hj Hu;
    (destruct (asleep_insert _ _ _ _ _ _ Hj Hu) as [[-> ->]|[_ Hj']]; [by rewrite asleep_wake in Hu|eauto]).
Qed.

(** A thread that is not asleep anywhere can stand anywhere. *)
Lemma sleep_inv_awake l ths i t :
  asleep_on t = None → sleep_inv (MkLS l ths) → sleep_inv (MkLS l (<[i := t]> ths)).
Proof.
  intros Ht [H1 H2]. split; simpl in *; intros j u Hj Hu;
    (destruct (asleep_insert _ _ _ _ _ _ Hj Hu) as [[-> ->]|[_ Hj']]; [congruence|eauto]).
Qed.

(** With no more threads than [MAX_READERS], a thread that is not reading leaves
    the count below the maximum. *)
Lemma count_below_max l ths i t :
  latch_inv (MkLS l ths) → Z.of_nat (length ths) ≤ MAX_READERS → ths !! i = Some t → is_reader t = false →
  reader_count_ l < MAX_READERS.
Proof.
  intros [H1 _ _ _] Hlen Hi Ht. simpl in *. rewrite H1. unfold readers.
  pose proof (count_update is_reader ths i t RHold Hi) as Hc. rewrite Ht in Hc. simpl in Hc.
  pose proof (count_le is_reader (<[i := RHold]> ths)) as Hle. rewrite length_insert in Hle. lia.
Qed.

Lemma acquire_sleep l ths i t op l' t' :
  latch_inv (MkLS l ths) → sleep_inv (MkLS l ths) → Z.of_nat (length ths) ≤ MAX_READERS →
  ths !! i = Some t → acquires t op → op l = (l', t') → sleep_inv (MkLS l' (<[i := t']> ths)).
Proof.
  intros Hinv [H1 H2] Hlen Hi Hop Heq. pose proof Hinv as [Hc _ _ _]. simpl in *.
  assert (is_reader t = false) as Ht by (by destruct Hop).
  pose proof (count_below_max l ths i t Hinv Hlen Hi Ht) as Hm.
  assert (0 ≤ reader_count_ l) by (rewrite Hc; unfold readers; lia).
  assert (writer_entered_ l = true → writer_entered_ l' = true ∧ reader_count_ l ≤ reader_count_ l') as Hmono.
  { intros He. destruct Hop; unfold RLock, WLock, WLock_drain in Heq; rewrite ?He in Heq; simpl in Heq;
      repeat case_match; simplify_eq/=; split; (done || lia). }
  assert (reader_count_ l ≤ reader_count_ l') as Hle.
  { destruct (writer_entered_ l) eqn:He; [by destruct Hmono|].
    destruct Hop; unfold RLock, WLock, WLock_drain, wrap_u32, MAX_READERS in *; rewrite ?He in Heq; simpl in Heq;
      repeat case_match; simplify_eq/=; rewrite ?Z.mod_small by lia; lia. }
  assert (∀ c, asleep_on t' = Some c →
    match c with reader_ => writer_entered_ l' = true | writer_ => 0 < reader_count_ l' end) as Hnew.
  { destruct Hop; unfold RLock, WLock, WLock_drain, wrap_u32 in *; simpl in Heq; repeat case_match;
      simplify_eq/=; intros ? [=]; subst; simpl; try done;
      try (match goal with H : (_ <? _) = true |- _ => by apply Z.ltb_lt in H end);
      match goal with H : (_ || _) = true |- _ => apply orb_true_iff in H as [?|?%Z.eqb_eq]; (done || lia) end. }
  split; simpl; intros j u Hj Hu; destruct (asleep_insert _ _ _ _ _ _ Hj Hu) as [[-> ->]|[_ Hj']].
  - by apply (Hnew reader_).
  - apply Hmono. eauto.
  - by apply (Hnew writer_).
  - specialize (H2 _ _ Hj' Hu). lia.
Qed.

(** At most one thread is past the first loop of [WLock]. *)
Lemma one_writer s i j t u :
  latch_inv s → threads s !! i = Some t → threads s !! j = Some u →
  is_writer t = true → is_writer u = true → i = j ∧ writer_entered_ (the_latch s) = true.
Proof.
  intros [_ _ H _] Hi Hj Ht Hu. unfold writers in H. split.
  - destruct (decide (i = j)) as [|Hne]; [done|]. pose proof (count_two _ _ _ _ _ _ Hne Hi Hj Ht Hu).
    destruct (writer_entered_ _); lia.
  - pose proof (count_pos _ _ _ _ Hi Ht). destruct (writer_entered_ _); [done|lia].
Qed.

Lemma asleep_writer t : asleep_on t = Some writer_ → is_writer t = true.
Proof. destruct t as [|[]| |[]|[]|]; by simpl. Qed.

Lemma sleep_inv_wake_all l ths :
  (∀ i t, ths !! i = Some t → asleep_on t = Some writer_ → 0 < reader_count_ l) →
  sleep_inv (MkLS l (wake_on reader_ <$> ths)).
Proof.
  intros H. split; simpl; intros j u (t & -> & Hj)%list_lookup_fmap_Some; unfold wake_on; case_decide as E;
    rewrite ?asleep_wake; try done. eauto.
Qed.

Lemma WUnlock_sleep l ths i ths' :
  latch_inv (MkLS l ths) → sleep_inv (MkLS l ths) → ths !! i = Some WHold →
  notified (<[i := Idle]> ths) (NotifyAll reader_) ths' →
  sleep_inv (MkLS (MkLatch (reader_count_ l) false) ths').
Proof.
  intros Hinv [_ H2] Hi Hn. inversion_clear Hn. apply sleep_inv_wake_all. simpl. intros j u Hj Hu.
  destruct (asleep_insert _ _ _ _ _ _ Hj Hu) as [[-> ->]|[_ Hj']]; [done|]. by eapply H2.
Qed.

(** When the last reader leaves, the writer that waits for it, if any, is woken. *)
Lemma drained_sleep l ths i ths' c' :
  latch_inv (MkLS l ths) → sleep_inv (MkLS l ths) → ths !! i = Some RHold → writer_entered_ l = true →
  notified (<[i := Idle]> ths) (NotifyOne writer_) ths' →
  sleep_inv (MkLS (MkLatch c' true) ths').
Proof.
  intros Hinv [H1 H2] Hi He Hn. inversion Hn as [| |c k t Hk Ht Heq Hths|c Hno]; subst.
  - split; simpl; intros j u Hj Hu; [done|]. exfalso.
    destruct (asleep_insert _ _ _ _ _ _ Hj Hu) as [[-> ->]|[Hjk Hj']]; [by rewrite asleep_wake in Hu|].
    destruct (asleep_insert _ _ _ _ _ _ Hk Ht) as [[-> ->]|[_ Hk']]; [done|].
    destruct (asleep_insert _ _ _ _ _ _ Hj' Hu) as [[-> ->]|[_ Hj'']]; [done|].
    destruct (one_writer _ _ _ _ _ Hinv Hj'' Hk' (asleep_writer _ Hu) (asleep_writer _ Ht)). done.
  - split; simpl; intros j u Hj Hu; [done|]. exfalso. by eapply Hno.
Qed.

(** A notification never puts a thread to sleep. *)
Lemma notified_sleep l ths n ths' : notified ths n ths' → sleep_inv (MkLS l ths) → sleep_inv (MkLS l ths').
Proof.
  intros [|c|c i t Hi Hc|] Hs; [done| |by apply sleep_inv_wake|done].
  destruct Hs as [H1 H2]. split; simpl in *; intros j u (t & -> & Hj)%list_lookup_fmap_Some;
    unfold wake_on; case_decide; rewrite ?asleep_wake; try done; eauto.
Qed.

Lemma RUnlock_sleep l ths i l' n ths' :
  latch_inv (MkLS l ths) → sleep_inv (MkLS l ths) → ths !! i = Some RHold → RUnlock l = (l', n) →
  notified (<[i := Idle]> ths) n ths' → sleep_inv (MkLS l' ths').
Proof.
  intros Hinv Hs Hi Heq Hn. pose proof Hinv as [H1 H2 _ _]. simpl in *.
  pose proof (count_pos is_reader _ _ _ Hi eq_refl) as Hpos. unfold readers in H1.
  unfold RUnlock, wrap_u32, MAX_READERS in *. simpl in Heq. rewrite Z.mod_small in Heq by lia.
  destruct (writer_entered_ l) eqn:He; [destruct (Z.eqb_spec (reader_count_ l - 1) 0)|]; simplify_eq.
  - by eapply drained_sleep.
  - eapply notified_sleep; [done|]. apply sleep_inv_awake; [done|]. destruct Hs as [Hs1 Hs2].
    split; simpl in *; [done|]. intros. lia.
  - eapply notified_sleep; [done|]. apply sleep_inv_awake; [done|]. destruct Hs as [Hs1 Hs2].
    split; simpl in *; intros j u Hj Hu; [rewrite <- He; eauto|]. exfalso.
    destruct (one_writer _ j j _ _ Hinv Hj Hj (asleep_writer _ Hu) (asleep_writer _ Hu)) as [_ Hw]. simpl in Hw. congruence.
Qed.

Lemma step_sleep s s' :
  latch_inv s → sleep_inv s → Z.of_nat (length (threads s)) ≤ MAX_READERS → step s s' → sleep_inv s'.
Proof.
  intros Hinv Hs Hlen Hst. destruct Hst as [l ths i t op l' t' Hi Ha Ho|l ths i t op l' n ths' Hi Hr Ho Hn|l ths i t Hi].
  - by eapply acquire_sleep.
  - destruct Hr; [by eapply RUnlock_sleep|]. unfold WUnlock in Ho. simplify_eq. by eapply WUnlock_sleep.
  - by apply sleep_inv_wake.
Qed.

Lemma latch_reachable_sleep n s : Z.of_nat n ≤ MAX_READERS → latch_reachable n s → sleep_inv s.
Proof.
  intros Hn. revert s. apply rtc_ind_r.
  - split; simpl; intros i t [-> _]%lookup_replicate; done.
  - intros y z Hr Hs Hy. eapply step_sleep; [by eapply latch_reachable_inv|done| |done].
    by rewrite (latch_reachable_length n y Hr).
Qed.

(** ** What the latch promises *)

(** [C28] Mutual exclusion. In every state that any number of threads can reach
    by locking, unlocking, waiting and waking in any order: a thread that holds
    the latch for writing excludes every other holder, reader or writer, and
    [reader_count_] is exactly the number of threads that hold it for reading,
    so the counter has not wrapped around. *)
Theorem rwlatch_mutual_exclusion (n : nat) (s : latch_state) :
  latch_reachable n s →
  reader_count_ (the_latch s) = readers (threads s) ∧ readers (threads s) ≤ MAX_READERS ∧
  ∀ i j t, threads s !! i = Some WHold → threads s !! j = Some t → i ≠ j → t ≠ WHold ∧ t ≠ RHold.
Proof.
  intros Hr. pose proof (latch_reachable_inv n s Hr) as Hinv. pose proof Hinv as [H1 H2 _ H4].
  split; [done|]. split; [lia|]. intros i j t Hi Hj Hij. split; intros ->.
  - by destruct (one_writer s i j _ _ Hinv Hi Hj eq_refl eq_refl).
  - assert (WHold ∈ threads s) as Hin by (by eapply list_elem_of_lookup_2).
    specialize (H4 Hin). pose proof (count_pos is_reader _ _ _ Hj eq_refl). unfold readers in H4. lia.
Qed.

(** A thread inside the latch. *)
Definition holds (t : thread) : bool := match t with RHold | WHold => true | _ => false end.

(** The section of a woken thread. *)
Definition resume (t : thread) : option (ReaderWriterLatch → ReaderWriterLatch * thread) :=
  match t with
  | RWait false => Some RLock
  | WWait false => Some WLock
  | WDrain false => Some WLock_drain
  | _ => None
  end.

(** [C29] No wake-up is lost. With at most [MAX_READERS] threads: whenever nobody
    holds the latch, a thread inside [RLock] or [WLock] need not wait for
    anybody: some thread that was woken gets the latch as soon as it runs. So
    the waiting threads never sleep all at once while the latch is free. *)
Theorem rwlatch_no_lost_wakeup (n : nat) (s : latch_state) (i : nat) (t : thread) :
  Z.of_nat n ≤ MAX_READERS → latch_reachable n s →
  (∀ j u, threads s !! j = Some u → holds u = false) →
  threads s !! i = Some t → t ≠ Idle →
  ∃ j u op l' u', threads s !! j = Some u ∧ resume u = Some op ∧
    op (the_latch s) = (l', u') ∧ holds u' = true ∧ step s (MkLS l' (<[j := u']> (threads s))).
Proof.
  intros Hn Hr Hfree Hi Ht. pose proof (latch_reachable_inv n s Hr) as Hinv.
  destruct (latch_reachable_sleep n s Hn Hr) as [Hs1 Hs2]. pose proof Hinv as [H1 _ H3 _].
  destruct s as [[c w] ths]. simpl in *.
  assert (c = 0) as ->.
  { rewrite H1. unfold readers. destruct (decide (1 ≤ count is_reader ths)%nat) as [Hc|]; [|lia].
    destruct (count_exists _ _ Hc) as (j & u & Hj & Hu). specialize (Hfree j u Hj). by destruct u. }
  destruct w.
  - assert (1 ≤ count is_writer ths)%nat as Hc by (unfold writers in H3; lia).
    destruct (count_exists _ _ Hc) as (j & u & Hj & Hu). specialize (Hfree j u Hj). specialize (Hs2 j u Hj).
    destruct u as [| | | |[]|]; try done; [by specialize (Hs2 eq_refl)|].
    exists j, (WDrain false), WLock_drain, (MkLatch 0 true), WHold. split_and!; try done.
    eapply step_acquire; [done|apply acquires_W_drain|done].
  - assert (∀ a, t ≠ WDrain a) as Hnd.
    { intros a ->. pose proof (count_pos is_writer _ _ _ Hi eq_refl). unfold writers in H3. lia. }
    specialize (Hfree i t Hi). specialize (Hs1 i t Hi). exists i, t.
    destruct t as [|[]| |[]|b|]; try done; [by specialize (Hs1 eq_refl)| |by specialize (Hs1 eq_refl)| |by destruct (Hnd b)].
    + exists RLock, (MkLatch 1 false), RHold. split_and!; try done. eapply step_acquire; [done|apply acquires_R_again|done].
    + exists WLock, (MkLatch 0 true), WHold. split_and!; try done. eapply step_acquire; [done|apply acquires_W_again|done].
Qed.

Module LatchRuns.

(** Thread 0 reads, thread 1 asks to write and sleeps, thread 2 asks to read and
    sleeps behind it, thread 0 leaves and wakes the writer. *)
Definition s_contended : latch_state := MkLS (MkLatch 0 true) [Idle; WDrain false; RWait true].

Lemma contended_reachable : latch_reachable 3 s_contended.
Proof.
  unfold latch_reachable, latch_init. simpl.
  eapply rtc_l; [apply (step_acquire _ _ 0 Idle RLock (MkLatch 1 false) RHold); [done|constructor|done]|]. simpl.
  eapply rtc_l; [apply (step_acquire _ _ 1 Idle WLock (MkLatch 1 true) (WDrain true)); [done|constructor|done]|]. simpl.
  eapply rtc_l; [apply (step_acquire _ _ 2 Idle RLock (MkLatch 1 true) (RWait true)); [done|constructor|done]|]. simpl.
  eapply rtc_l; [|apply rtc_refl].
  apply (step_release _ _ 0 RHold RUnlock (MkLatch 0 true) (NotifyOne writer_)); [done|constructor|done|].
  apply (notified_one [Idle; WDrain true; RWait true] writer_ 1 (WDrain true)); done.
Qed.

(** ... then the writer holds the latch. *)
Definition s_writing : latch_state := MkLS (MkLatch 0 true) [Idle; WHold; RWait true].

Lemma writing_reachable : latch_reachable 3 s_writing.
Proof.
  eapply rtc_r; [apply contended_reachable|].
  apply (step_acquire (MkLatch 0 true) [Idle; WDrain false; RWait true] 1 (WDrain false) WLock_drain (MkLatch 0 true) WHold); [done|constructor|done].
Qed.

Lemma rwlatch_mutual_exclusion_witness :
  latch_reachable 3 s_writing ∧ RWait true ≠ WHold ∧ RWait true ≠ RHold.
Proof.
  split; [apply writing_reachable|].
  destruct (rwlatch_mutual_exclusion 3 s_writing writing_reachable) as (_ & _ & H).
  apply (H 1%nat 2%nat); done.
Defined.

Lemma rwlatch_no_lost_wakeup_witness :
  latch_reachable 3 s_contended ∧
  ∃ j u op l' u', threads s_contended !! j = Some u ∧ resume u = Some op ∧
    op (the_latch s_contended) = (l', u') ∧ holds u' = true ∧
    step s_contended (MkLS l' (<[j := u']> (threads s_contended))).
Proof.
  split; [apply contended_reachable|].
  apply (rwlatch_no_lost_wakeup 3 s_contended 2 (RWait true)).
  - unfold MAX_READERS. lia.
  - apply contended_reachable.
  - intros [|[|[|j]]] u H; simplify_eq/=; done.
  - done.
  - done.
Defined.

End LatchRuns.
