(* ===== verification/Printer.v ===== *)
(** Result tables: [record_printer.h] and the reply buffer of
    [common/context.h] and [rucbase.cpp].

    A reply is written into [data_send_], an array of [BUFFER_LENGTH] bytes, at
    [*offset_]; the printer never looks at the length of the array, so a write
    past its end is [Crash OutOfBounds]. *)
From Stdlib Require Import Ascii String.
From S2P Require Import Prelude Config.

Definition BUFFER_LENGTH : Z := 8192.
Definition COL_WIDTH : nat := 16.

(** [context->data_send_] and [*context->offset_]; [None] is a null pointer. *)
Record Reply : Set := MkReply { data_send_ : option (list ascii); offset_ : Z }.

(** [memcpy(data_send_ + *offset_, str, len); *offset_ += len]. *)
Definition send_chars (src : list ascii) : M Reply unit := λ s,
  match data_send_ s with
  | None => (Crash NullDeref, s)
  | Some buf =>
      if (0 <=? offset_ s) && (offset_ s + Z.of_nat (length src) <=? Z.of_nat (length buf)) then
        (Ok tt, MkReply (Some (splice (Z.to_nat (offset_ s)) src buf))
                        (wrap32 (offset_ s + Z.of_nat (length src))))
      else (Crash OutOfBounds, s)
  end.

Definition send (str : string) : M Reply unit := send_chars (chars str).

(** ** RecordPrinter *)

(** [std::string(n, c)]. *)
Definition str_repeat (n : nat) (c : ascii) : string := string_of_list_ascii (replicate n c).

(** [ss << std::setw(w) << col]: padded on the left. *)
Definition setw (w : nat) (s : string) : string := str_repeat (w - String.length s) " "%char +:+ s.

(** A column longer than [COL_WIDTH] is cut and ends in dots. *)
Definition clip (col : string) : string :=
  if (COL_WIDTH <? String.length col)%nat then String.substring 0 (COL_WIDTH - 3) col +:+ "..." else col.

Definition cell (col : string) : string := "| " +:+ setw COL_WIDTH (clip col) +:+ " ".

(** [RecordPrinter(num_cols)]. *)
Definition new_RecordPrinter (num_cols : nat) : M Reply nat :=
  assert_ (0 <? num_cols)%nat ;; ret num_cols.

Fixpoint repeat_st (n : nat) (m : M Reply unit) : M Reply unit :=
  match n with O => ret tt | S n' => m ;; repeat_st n' m end.

Definition print_separator (num_cols : nat) : M Reply unit :=
  repeat_st num_cols (send ("+" +:+ str_repeat (COL_WIDTH + 2) "-"%char)) ;;
  send ("+" +:+ newline).

Definition print_record (num_cols : nat) (rec_str : list string) : M Reply unit :=
  assert_ (length rec_str =? num_cols)%nat ;;
  st_iter (λ col, send (cell col)) rec_str ;;
  send ("|" +:+ newline).

Definition print_record_count (num_rec : Z) : M Reply unit :=
  send ("Total record(s): " +:+ to_string num_rec +:+ newline).

(** ** What is printed

    [emits m txt]: [m] appends [txt] to the reply, or runs over the end of the
    buffer when [txt] does not fit. *)

Definition room (n : nat) (s : Reply) : Prop :=
  match data_send_ s with
  | None => False
  | Some buf => offset_ s + Z.of_nat n ≤ Z.of_nat (length buf)
  end.

Definition reply_ok (s : Reply) : Prop :=
  match data_send_ s with
  | None => False
  | Some buf => 0 ≤ offset_ s ≤ Z.of_nat (length buf) ∧ Z.of_nat (length buf) ≤ int_max
  end.

#[global] Instance room_dec n s : Decision (room n s).
Proof. unfold room. destruct (data_send_ s); apply _. Defined.

Definition emits (m : M Reply unit) (txt : list ascii) : Prop :=
  ∀ s, reply_ok s →
    if decide (room (length txt) s) then m s = send_chars txt s else fst (m s) = Crash OutOfBounds.

(** What a reply that fits looks like afterwards. *)
Lemma send_chars_ok txt buf o :
  0 ≤ o → o + Z.of_nat (length txt) ≤ Z.of_nat (length buf) → Z.of_nat (length buf) ≤ int_max →
  send_chars txt (MkReply (Some buf) o)
    = (Ok tt, MkReply (Some (splice (Z.to_nat o) txt buf)) (o + Z.of_nat (length txt))).
Proof.
  intros. unfold send_chars. simpl.
  rewrite (proj2 (Z.leb_le 0 o)), (proj2 (Z.leb_le (o + Z.of_nat (length txt)) (Z.of_nat (length buf)))) by lia. simpl.
  rewrite wrap32_id by (unfold is_int, int_min, int_max in *; lia). done.
Qed.

Lemma send_chars_overflow txt s :
  reply_ok s → ¬ room (length txt) s → send_chars txt s = (Crash OutOfBounds, s).
Proof.
  unfold reply_ok, room, send_chars. destruct (data_send_ s) as [buf|]; [|done]. intros [Ho _] Hr.
  rewrite (proj2 (Z.leb_gt (offset_ s + Z.of_nat (length txt)) (Z.of_nat (length buf)))) by lia.
  by rewrite andb_false_r.
Qed.

Lemma emits_send txt : emits (send_chars txt) txt.
Proof. intros s Hs. case_decide; [done|]. by rewrite send_chars_overflow. Qed.

Lemma splice_splice {A} o (x y buf : list A) :
  (o + length x + length y ≤ length buf)%nat → splice (o + length x) y (splice o x buf) = splice o (x ++ y) buf.
Proof.
  intros H. apply list_eq. intros i.
  assert (length (splice o x buf) = length buf) by (apply length_splice; lia).
  pose proof (length_app x y).
  destruct (decide (i < o)%nat); [rewrite !lookup_splice_out by lia; done|].
  destruct (decide (i < o + length x)%nat).
  { rewrite lookup_splice_out, !lookup_splice_in by lia. by rewrite lookup_app_l by lia. }
  destruct (decide (i < o + length x + length y)%nat).
  - rewrite !lookup_splice_in by lia. rewrite lookup_app_r by lia. f_equal. lia.
  - rewrite !lookup_splice_out by lia. done.
Qed.

Lemma emits_nil : emits (ret tt) [].
Proof.
  intros s Hs. unfold reply_ok, room in *. destruct s as [[buf|] o]; [|done]. simpl in *.
  rewrite decide_True by lia. rewrite send_chars_ok by (simpl; lia). simpl. rewrite Z.add_0_r.
  unfold splice. simpl. by rewrite Nat.add_0_r, take_drop.
Qed.

Lemma emits_bind m k a b : emits m a → emits k b → emits (m ;; k) (a ++ b).
Proof.
  intros Hm Hk s Hs. specialize (Hm s Hs). unfold st_bind. destruct s as [[buf|] o]; [|done].
  unfold reply_ok in Hs. simpl in Hs. rewrite length_app.
  destruct (decide (room (length a) (MkReply (Some buf) o))) as [Ha|Ha]; unfold room in Ha; simpl in Ha.
  - rewrite Hm, send_chars_ok by lia.
    assert (length (splice (Z.to_nat o) a buf) = length buf) as Hl by (apply length_splice; lia).
    assert (reply_ok (MkReply (Some (splice (Z.to_nat o) a buf)) (o + Z.of_nat (length a)))) as Hok
      by (unfold reply_ok; simpl; rewrite Hl; lia).
    specialize (Hk _ Hok). case_decide as Hd; case_decide as Hd'; unfold room in Hd, Hd'; simpl in Hd, Hd';
      rewrite Hl in Hd; try (exfalso; lia); [|done].
    rewrite Hk, !send_chars_ok by (rewrite ?Hl, ?length_app; lia). rewrite length_app. f_equal. f_equal; [|lia].
    f_equal. rewrite <- splice_splice by lia. f_equal. lia.
  - rewrite decide_False by (unfold room; simpl; lia).
    destruct (m (MkReply (Some buf) o)) as [[?|?|?] ?]; simplify_eq/=; done.
Qed.

Lemma emits_iter {A} (f : A → M Reply unit) (g : A → list ascii) l :
  (∀ x, emits (f x) (g x)) → emits (st_iter f l) (concat (g <$> l)).
Proof.
  intros H. induction l as [|x l IH]; simpl; [apply emits_nil|]. by apply emits_bind.
Qed.

Lemma emits_repeat n m a : emits m a → emits (repeat_st n m) (concat (replicate n a)).
Proof. intros H. induction n as [|n IH]; simpl; [apply emits_nil|]. by apply emits_bind. Qed.

Lemma emits_assert b m a : b = true → emits m a → emits (assert_ b ;; m) a.
Proof. intros -> Hm. exact Hm. Qed.

(** [auto with emits] follows the printing code. *)
Lemma emits_send_str str : emits (send str) (chars str).
Proof. apply emits_send. Qed.

Create HintDb emits.
#[export] Hint Resolve emits_send emits_send_str emits_nil emits_bind emits_repeat : emits.
#[export] Hint Extern 2 (emits (st_iter _ _) (concat (_ <$> _))) => apply emits_iter; intros : emits.

(** The lines of a table. *)
Definition separator_text (n : nat) : list ascii :=
  concat (replicate n (chars ("+" +:+ str_repeat (COL_WIDTH + 2) "-"%char))) ++ chars ("+" +:+ newline).
Definition record_text (rec_str : list string) : list ascii :=
  concat ((chars ∘ cell) <$> rec_str) ++ chars ("|" +:+ newline).

Lemma emits_separator n : emits (print_separator n) (separator_text n).
Proof. unfold print_separator, separator_text. auto with emits. Qed.

Lemma emits_record n rec_str : length rec_str = n → emits (print_record n rec_str) (record_text rec_str).
Proof.
  intros H. unfold print_record, record_text. apply emits_assert; [by apply Nat.eqb_eq|]. auto with emits.
Qed.

#[export] Hint Resolve emits_separator emits_record : emits.

(** ** Every line of a table has the same width *)

Lemma length_chars s : length (chars s) = String.length s.
Proof. unfold chars. induction s as [|c s IH]; [done|]. cbn. by f_equal. Qed.

Lemma length_str_repeat n c : String.length (str_repeat n c) = n.
Proof. unfold str_repeat. induction n as [|n IH]; simpl; [done|]. by rewrite IH. Qed.

Lemma length_sapp a b : String.length (a +:+ b) = (String.length a + String.length b)%nat.
Proof. induction a as [|c a IH]; simpl; [done|]. by rewrite IH. Qed.

Lemma length_substring_le n s : (n ≤ String.length s)%nat → String.length (String.substring 0 n s) = n.
Proof. revert n. induction s as [|c s IH]; intros [|n]; simpl; intros H; try lia. rewrite IH; lia. Qed.

Lemma length_clip col : (String.length (clip col) ≤ COL_WIDTH)%nat.
Proof.
  unfold clip. destruct (Nat.ltb_spec COL_WIDTH (String.length col)) as [H|H]; [|done].
  rewrite length_sapp, length_substring_le; unfold COL_WIDTH in *; simpl; lia.
Qed.

Lemma length_cell col : String.length (cell col) = (COL_WIDTH + 3)%nat.
Proof.
  unfold cell, setw. rewrite !length_sapp, length_str_repeat. pose proof (length_clip col).
  change (String.length "| ") with 2%nat. change (String.length " ") with 1%nat. lia.
Qed.

Lemma length_concat_const {A} (l : list (list A)) k :
  Forall (λ x, length x = k) l → length (concat l) = (length l * k)%nat.
Proof. induction 1 as [|x l Hx _ IH]; simpl; [done|]. rewrite length_app. lia. Qed.

(** The width of a line of [n] columns. *)
Definition line_width (n : nat) : nat := n * (COL_WIDTH + 3) + 2.

Lemma length_separator_text n : length (separator_text n) = line_width n.
Proof.
  unfold separator_text. rewrite length_app, (length_concat_const _ (COL_WIDTH + 3)).
  - rewrite length_replicate. done.
  - apply Forall_replicate. rewrite length_chars, length_sapp, length_str_repeat. done.
Qed.

Lemma length_record_text rec_str : length (record_text rec_str) = line_width (length rec_str).
Proof.
  unfold record_text. rewrite length_app, (length_concat_const _ (COL_WIDTH + 3)).
  - rewrite length_fmap. done.
  - apply Forall_fmap, Forall_forall. intros x _. simpl. rewrite length_chars. apply length_cell.
Qed.

Create Rewrite HintDb text.
#[export] Hint Rewrite length_separator_text length_record_text : text.
