(* ===== verification/Meta.v ===== *)
(** The catalogue's data and its text form: [system/sm_meta.h] and the stream
    operators of [defs.h].

    [operator<<] appends to a string; [operator>>] is C++ formatted input: it
    skips white space, reads a word or a number, and sets [failbit] when there
    is none, after which further reads do nothing.  A variable that a failed
    read leaves unset is [Uninitialised] when it is used.  A
    [std::map<std::string, V>] is the association list that its iterators
    visit, in increasing order of the keys. *)
From Stdlib Require Import Ascii String.
From stdpp Require Import pretty.
From S2P Require Import Prelude Config.

(** ** std::map<std::string, V> *)

Section StringMap.
Context {V : Type}.

(** [m.find(k)]. *)
Fixpoint map_find (k : string) (m : list (string * V)) : option V :=
  match m with
  | [] => None
  | (k', v) :: m' => if String.eqb k k' then Some v else map_find k m'
  end.

(** [m[k] = v]. *)
Fixpoint map_set (k : string) (v : V) (m : list (string * V)) : list (string * V) :=
  match m with
  | [] => [(k, v)]
  | (k', v') :: m' =>
      match String.compare k k' with
      | Lt => (k, v) :: m
      | Eq => (k, v) :: m'
      | Gt => (k', v') :: map_set k v m'
      end
  end.

Definition slt (a b : string) : Prop := String.compare a b = Lt.
Definition map_sorted (m : list (string * V)) : Prop := StronglySorted (λ p q, slt p.1 q.1) m.

Lemma scompare_refl a : String.compare a a = Eq.
Proof. induction a as [|c a IH]; [done|]. simpl. unfold Ascii.compare. by rewrite N.compare_refl. Qed.

Lemma slt_irrefl a : ¬ slt a a.
Proof. unfold slt. by rewrite scompare_refl. Qed.

Lemma slt_trans a b c : slt a b → slt b c → slt a c.
Proof.
  intros H1 H2. assert (String.le a c) as Hle.
  { trans b; unfold String.le, String.leb; unfold slt in *; [by rewrite H1|by rewrite H2]. }
  unfold slt in *. unfold String.le, String.leb in Hle. destruct (String.compare a c) eqn:E; [|done|done].
  apply String.compare_eq_iff in E as ->. rewrite String.compare_antisym, H2 in H1. done.
Qed.

Lemma compare_gt a b : String.compare a b = Gt → slt b a.
Proof. intros H. unfold slt. by rewrite String.compare_antisym, H. Qed.

Lemma map_find_set_eq k v m : map_sorted m → map_find k (map_set k v m) = Some v.
Proof.
  intros Hs. induction Hs as [|[k' v'] m Hs IH Hall]; simpl; [by rewrite String.eqb_refl|].
  destruct (String.compare k k') eqn:E; simpl; rewrite ?String.eqb_refl; try done.
  destruct (String.eqb_spec k k') as [->|]; [|done]. by apply compare_gt, slt_irrefl in E.
Qed.

Lemma map_find_set_ne k k0 v m : k0 ≠ k → map_find k0 (map_set k v m) = map_find k0 m.
Proof.
  intros Hne. induction m as [|[k' v'] m IH]; simpl.
  - destruct (String.eqb_spec k0 k); done.
  - destruct (String.compare k k') eqn:E; simpl.
    + apply String.compare_eq_iff in E as ->. by destruct (String.eqb_spec k0 k').
    + destruct (String.eqb_spec k0 k); done.
    + destruct (String.eqb_spec k0 k'); done.
Qed.

Lemma map_set_Forall (P : string * V → Prop) k v m : P (k, v) → Forall P m → Forall P (map_set k v m).
Proof.
  intros Hk. induction 1 as [|[k' v'] m Hx Hm IH]; simpl; [by repeat constructor|].
  destruct (String.compare k k'); repeat constructor; done.
Qed.

Lemma map_set_sorted k v m : map_sorted m → map_sorted (map_set k v m).
Proof.
  intros Hs. induction Hs as [|[k' v'] m Hs IH Hall]; simpl; [by repeat constructor|].
  destruct (String.compare k k') eqn:E.
  - apply String.compare_eq_iff in E as ->. by constructor.
  - constructor; [by constructor|]. constructor; [done|]. eapply Forall_impl; [done|]. intros q Hq. simpl in *.
    by eapply slt_trans.
  - constructor; [done|]. apply map_set_Forall; [by apply compare_gt|done].
Qed.

(** A key beyond all others goes to the end. *)
Lemma map_set_last k v m : Forall (λ p, slt p.1 k) m → map_set k v m = m ++ [(k, v)].
Proof.
  induction 1 as [|[k' v'] m Hx _ IH]; simpl; [done|]. simpl in Hx.
  assert (String.compare k k' = Gt) as -> by (rewrite String.compare_antisym; unfold slt in Hx; by rewrite Hx).
  by rewrite IH.
Qed.

Lemma map_find_elem k v m : map_find k m = Some v → (k, v) ∈ m.
Proof.
  induction m as [|[k' v'] m IH]; simpl; [done|]. destruct (String.eqb_spec k k') as [->|]; intros H.
  - simplify_eq. by left.
  - right. auto.
Qed.
End StringMap.

(** ** Input streams *)

Record istream : Set := MkIs { is_rest : list ascii; is_fail : bool }.

(** [std::isspace] in the C locale. *)
Definition is_ws (c : ascii) : bool :=
  let n := N_of_ascii c in ((n =? 32) || ((9 <=? n) && (n <=? 13)))%N.

Fixpoint skip_ws (l : list ascii) : list ascii :=
  match l with
  | c :: l' => if is_ws c then skip_ws l' else l
  | [] => []
  end.

Fixpoint span_word (l : list ascii) : list ascii * list ascii :=
  match l with
  | [] => ([], [])
  | c :: l' => if is_ws c then ([], l) else let '(w, r) := span_word l' in (c :: w, r)
  end.

(** [is >> s] on a [std::string] holding [old]. *)
Definition read_string (old : string) : M istream string := λ s,
  if is_fail s then (Ok old, s) else
  match skip_ws (is_rest s) with
  | [] => (Ok old, MkIs [] true)
  | l => let '(w, r) := span_word l in (Ok (string_of_list_ascii w), MkIs r false)
  end.

Definition digit_val (c : ascii) : option Z :=
  let n := Z.of_N (N_of_ascii c) in if (48 <=? n) && (n <=? 57) then Some (n - 48) else None.

Fixpoint span_digits (l : list ascii) (acc : Z) (seen : bool) : Z * bool * list ascii :=
  match l with
  | c :: l' =>
      match digit_val c with
      | Some d => span_digits l' (10 * acc + d) true
      | None => (acc, seen, l)
      end
  | [] => (acc, seen, [])
  end.

Definition span_sign (l : list ascii) : bool * list ascii :=
  match l with
  | c :: l' => if Ascii.eqb c "-"%char then (true, l') else if Ascii.eqb c "+"%char then (false, l') else (false, l)
  | [] => (false, [])
  end.

(** [is >> n] on a number: [fit neg abs] gives the value stored and whether it
    was representable. [None]: the variable is left as it was. *)
Definition read_number (fit : bool → Z → Z * bool) : M istream (option Z) := λ s,
  if is_fail s then (Ok None, s) else
  match skip_ws (is_rest s) with
  | [] => (Ok None, MkIs [] true)
  | l =>
      let '(neg, l1) := span_sign l in
      let '(n, seen, r) := span_digits l1 0 false in
      if seen then let '(v, ok) := fit neg n in (Ok (Some v), MkIs r (negb ok))
      else (Ok (Some 0), MkIs r true)
  end.

Definition size_max : Z := 18446744073709551615.

Definition fit_int (neg : bool) (n : Z) : Z * bool :=
  let v := if neg then - n else n in
  if v <? int_min then (int_min, false) else if int_max <? v then (int_max, false) else (v, true).
Definition fit_size (neg : bool) (n : Z) : Z * bool :=
  if size_max <? n then (size_max, false) else ((if neg then - n else n) `mod` (size_max + 1), true).
(** A [bool] is read as a number; anything but 0 and 1 is [true] and a failure. *)
Definition fit_bool (neg : bool) (n : Z) : Z * bool :=
  let v := if neg then - n else n in
  if v =? 0 then (0, true) else if v =? 1 then (1, true) else (1, false).

Definition read_int : M istream (option Z) := read_number fit_int.
Definition read_size : M istream (option Z) := read_number fit_size.
Definition read_bool : M istream (option Z) := read_number fit_bool.

(** The use of a variable that a read may have left unset. *)
Definition must {A} (o : option A) : M istream A :=
  match o with Some a => ret a | None => crash_with Uninitialised end.

(** [operator>>] on an enum: through an [int]; a value that no enumerator has is
    outside the model. *)
Definition read_ColType : M istream ColType :=
  o ← read_int; z ← must o;
  match ColType_of_int z with Some t => ret t | None => crash_with OutOfBounds end.

(** ** The metadata *)

Record ColMeta : Set := MkColMeta {
  col_tab_name : string;
  col_name : string;
  col_type : ColType;
  col_len : Z;
  col_offset : Z;
  col_index : bool
}.

#[global] Instance ColMeta_eq_dec : EqDecision ColMeta.
Proof. solve_decision. Defined.

Record TabMeta : Set := MkTabMeta { tab_name_of : string; cols : list ColMeta }.

Record DbMeta : Set := MkDbMeta { db_name : string; tabs_ : list (string * TabMeta) }.

Definition new_DbMeta : DbMeta := MkDbMeta "" [].

(** [TabMeta::is_col] and [TabMeta::get_col] as they are: the first answers
    [false], the second a default iterator, which points nowhere. *)
Definition is_col (tab : TabMeta) (c : string) : bool := false.
Definition get_col_it (tab : TabMeta) (c : string) : option nat := None.

Definition is_table (db : DbMeta) (t : string) : bool := bool_decide (is_Some (map_find t (tabs_ db))).

Definition get_table {S} (db : DbMeta) (t : string) : M S TabMeta :=
  match map_find t (tabs_ db) with
  | Some tab => ret tab
  | None => throw_db (TableNotFoundError t)
  end.

(** [col->...] on the iterator [get_col] answers. *)
Definition deref_col {S} (tab : TabMeta) (it : option nat) : M S ColMeta :=
  match it with
  | Some i => match cols tab !! i with Some c => ret c | None => crash_with OutOfBounds end
  | None => crash_with NullDeref
  end.

(** ** Output *)

Definition put_ColMeta (c : ColMeta) : string :=
  col_tab_name c +:+ " " +:+ col_name c +:+ " " +:+ to_string (ColType_to_int (col_type c)) +:+ " "
    +:+ to_string (col_len c) +:+ " " +:+ to_string (col_offset c) +:+ " "
    +:+ (if col_index c then "1" else "0").

Fixpoint put_lines {A} (put : A → string) (l : list A) : string :=
  match l with
  | [] => EmptyString
  | x :: l' => put x +:+ newline +:+ put_lines put l'
  end.

Definition put_TabMeta (t : TabMeta) : string :=
  tab_name_of t +:+ newline +:+ to_string (Z.of_nat (length (cols t))) +:+ newline +:+ put_lines put_ColMeta (cols t).

Definition put_DbMeta (db : DbMeta) : string :=
  db_name db +:+ newline +:+ to_string (Z.of_nat (length (tabs_ db))) +:+ newline
    +:+ put_lines (λ e, put_TabMeta e.2) (tabs_ db).

(** ** Input *)

(** [ColMeta col; is >> col;] and the copy made of it. *)
Definition read_ColMeta : M istream ColMeta :=
  tab_name ← read_string EmptyString;
  name ← read_string EmptyString;
  type ← read_ColType;
  len ← read_int;
  offset ← read_int;
  index ← read_bool;
  len ← must len;
  offset ← must offset;
  index ← must index;
  ret (MkColMeta tab_name name type len offset (negb (index =? 0))).

Fixpoint read_cols (n : nat) (acc : list ColMeta) : M istream (list ColMeta) :=
  match n with
  | O => ret acc
  | S n' => col ← read_ColMeta; read_cols n' (acc ++ [col])
  end.

(** [TabMeta tab; is >> tab;] *)
Definition read_TabMeta : M istream TabMeta :=
  name ← read_string EmptyString;
  n ← read_size;
  n ← must n;
  cs ← read_cols (Z.to_nat n) [];
  ret (MkTabMeta name cs).

Fixpoint read_tabs (n : nat) (acc : list (string * TabMeta)) : M istream (list (string * TabMeta)) :=
  match n with
  | O => ret acc
  | S n' => tab ← read_TabMeta; read_tabs n' (map_set (tab_name_of tab) tab acc)
  end.

(** [is >> db_meta], into an object that may hold something already. *)
Definition read_DbMeta (db : DbMeta) : M istream DbMeta :=
  name ← read_string (db_name db);
  n ← read_size;
  n ← must n;
  ts ← read_tabs (Z.to_nat n) (tabs_ db);
  ret (MkDbMeta name ts).

(** ** Reading back what was written *)

(** A name that formatted input reads as one word. *)
Definition word (w : string) : Prop := w ≠ EmptyString ∧ Forall (λ c, is_ws c = false) (chars w).
Definition blank (l : list ascii) : Prop := Forall (λ c, is_ws c = true) l.
(** What follows a token. *)
Definition stops (l : list ascii) : Prop := match l with [] => True | c :: _ => is_ws c = true end.

#[global] Instance word_dec w : Decision (word w).
Proof. unfold word. apply _. Defined.

Lemma skip_ws_blank sp l : blank sp → skip_ws (sp ++ l) = skip_ws l.
Proof. induction 1 as [|c sp Hc _ IH]; [done|]. simpl. by rewrite Hc. Qed.

Lemma span_word_app w rest : Forall (λ c, is_ws c = false) w → stops rest → span_word (w ++ rest) = (w, rest).
Proof.
  intros Hw Hr. induction Hw as [|c w Hc _ IH]; simpl.
  - destruct rest as [|c rest]; [done|]. simpl in *. by rewrite Hr.
  - by rewrite Hc, IH.
Qed.

Lemma read_string_ok old sp w rest :
  blank sp → word w → stops rest →
  read_string old (MkIs (sp ++ chars w ++ rest) false) = (Ok w, MkIs rest false).
Proof.
  intros Hs [Hne Hw] Hr. unfold read_string. simpl. rewrite skip_ws_blank by done.
  pose proof (span_word_app _ _ Hw Hr) as Hspan. pose proof (string_of_chars w) as Hback.
  destruct (chars w) as [|c l] eqn:E; [by rewrite <- Hback in Hne|].
  assert (is_ws c = false) as Hc by (by inversion Hw). simpl. rewrite Hc.
  simpl in Hspan. rewrite Hspan. by rewrite Hback.
Qed.

(** Digits. *)
Lemma digit_val_char d : (d < 10)%N → digit_val (pretty_N_char d) = Some (Z.of_N d).
Proof.
  intros H. assert (d = 0 ∨ d = 1 ∨ d = 2 ∨ d = 3 ∨ d = 4 ∨ d = 5 ∨ d = 6 ∨ d = 7 ∨ d = 8 ∨ d = 9)%N as Hd by lia.
  by destruct_or! Hd; subst d.
Qed.

Lemma digit_not_ws c d : digit_val c = Some d → is_ws c = false ∧ Ascii.eqb c "-"%char = false ∧ Ascii.eqb c "+"%char = false.
Proof.
  unfold digit_val, is_ws. intros H. destruct (Z.leb_spec 48 (Z.of_N (N_of_ascii c))); [|done].
  split; [|split; apply Ascii.eqb_neq; intros ->; done].
  apply orb_false_iff. split; [apply N.eqb_neq; lia|]. apply andb_false_iff. right. apply N.leb_gt. lia.
Qed.

Lemma ws_not_digit c : is_ws c = true → digit_val c = None.
Proof.
  unfold digit_val, is_ws. intros [?%N.eqb_eq|[? ?%N.leb_le]%andb_true_iff]%orb_true_iff;
    (rewrite (proj2 (Z.leb_gt _ _)); [done|lia]).
Qed.

Lemma span_digits_go x s rest seen :
  span_digits (chars (pretty_N_go x s) ++ rest) 0 seen
    = span_digits (chars s ++ rest) (Z.of_N x) (seen || (0 <? x)%N).
Proof.
  revert s. induction (N.lt_wf_0 x) as [x _ IH]. intros s.
  destruct (decide (0 < x)%N) as [Hx|Hx].
  - rewrite pretty_N_go_step by done. rewrite IH by (apply N.div_lt; lia).
    assert (x `mod` 10 < 10)%N as Hm by (apply N.mod_lt; lia).
    change (chars (String (pretty_N_char (x `mod` 10)) s)) with (pretty_N_char (x `mod` 10) :: chars s).
    simpl. rewrite (digit_val_char _ Hm).
    rewrite (proj2 (N.ltb_lt 0 x) Hx), orb_true_r. f_equal. pose proof (N.div_mod x 10 ltac:(lia)). lia.
  - assert (x = 0)%N as -> by lia. simpl. by rewrite orb_false_r.
Qed.

Lemma pretty_go_head x s :
  (0 < x)%N ∨ (∃ c l d, chars s = c :: l ∧ digit_val c = Some d) →
  ∃ c l d, chars (pretty_N_go x s) = c :: l ∧ digit_val c = Some d.
Proof.
  revert s. induction (N.lt_wf_0 x) as [x _ IH]. intros s Hs.
  destruct (decide (0 < x)%N) as [Hx|Hx].
  - rewrite pretty_N_go_step by done. apply IH; [apply N.div_lt; lia|]. right.
    eexists _, _, _. split; [done|]. apply digit_val_char. apply N.mod_lt. lia.
  - assert (x = 0)%N as -> by lia. destruct Hs as [?|Hs]; [lia|done].
Qed.

(** The decimal digits of a number. *)
Lemma pretty_N_digits (n : N) rest :
  stops rest →
  span_digits (chars (pretty n) ++ rest) 0 false = (Z.of_N n, true, rest) ∧
  ∃ c l d, chars (pretty n) = c :: l ∧ digit_val c = Some d.
Proof.
  intros Hr.
  assert (span_digits rest (Z.of_N n) true = (Z.of_N n, true, rest)) as Hend.
  { destruct rest as [|c rest]; [done|]. simpl in *. by rewrite (ws_not_digit c Hr). }
  destruct (decide (n = 0)%N) as [->|Hn].
  - split; [|by eexists _, _, 0]. change (chars (pretty 0%N)) with ["0"%char]. done.
  - change (pretty n) with (pretty_N n). unfold pretty_N. rewrite decide_False by done. split.
    + rewrite span_digits_go. simpl. by rewrite (proj2 (N.ltb_lt 0 n)) by lia.
    + apply pretty_go_head. left. lia.
Qed.

Lemma read_number_ok fit sp z v rest :
  blank sp → stops rest → fit (z <? 0) (Z.abs z) = (v, true) →
  read_number fit (MkIs (sp ++ chars (to_string z) ++ rest) false) = (Ok (Some v), MkIs rest false).
Proof.
  intros Hs Hr Hfit. unfold read_number. simpl. rewrite skip_ws_blank by done.
  destruct (pretty_N_digits (Z.abs_N z) rest Hr) as [Hd (c & l & d & Hc & Hcd)].
  destruct (digit_not_ws c d Hcd) as (Hws & Hm & Hp). rewrite Hc in Hd.
  assert (Z.of_N (Z.abs_N z) = Z.abs z) as Habs by lia. rewrite Habs in Hd.
  destruct (Z.ltb_spec z 0) as [Hz|Hz].
  - assert (chars (to_string z) = "-"%char :: c :: l) as ->.
    { destruct z as [|p|p]; [done|done|]. rewrite <- Hc. done. }
    simpl. simpl in Hd. rewrite Hd. by rewrite Hfit.
  - assert (chars (to_string z) = c :: l) as ->.
    { rewrite <- Hc. by destruct z as [|p|p]. }
    simpl. rewrite Hws. unfold span_sign. rewrite Hm, Hp. change (c :: l ++ rest) with ((c :: l) ++ rest). rewrite Hd. by rewrite Hfit.
Qed.

Lemma read_int_ok sp z rest :
  blank sp → stops rest → is_int z →
  read_int (MkIs (sp ++ chars (to_string z) ++ rest) false) = (Ok (Some z), MkIs rest false).
Proof.
  intros Hs Hr [H1 H2]. apply read_number_ok; [done|done|]. unfold fit_int.
  assert ((if z <? 0 then - Z.abs z else Z.abs z) = z) as -> by (destruct (Z.ltb_spec z 0); lia).
  rewrite (proj2 (Z.ltb_ge z int_min)), (proj2 (Z.ltb_ge int_max z)) by lia. done.
Qed.

Lemma read_size_ok sp z rest :
  blank sp → stops rest → 0 ≤ z ≤ size_max →
  read_size (MkIs (sp ++ chars (to_string z) ++ rest) false) = (Ok (Some z), MkIs rest false).
Proof.
  intros Hs Hr H. apply read_number_ok; [done|done|]. unfold fit_size.
  rewrite (proj2 (Z.ltb_ge z 0)), Z.abs_eq, (proj2 (Z.ltb_ge size_max z)), Z.mod_small by lia. done.
Qed.

Lemma read_bool_ok sp (b : bool) rest :
  blank sp → stops rest →
  read_bool (MkIs (sp ++ chars (if b then "1" else "0") ++ rest) false) = (Ok (Some (if b then 1 else 0)), MkIs rest false).
Proof.
  intros Hs Hr. replace (if b then "1"%string else "0"%string) with (to_string (if b then 1 else 0)) by by destruct b.
  apply read_number_ok; [done|done|]. by destruct b.
Qed.

Definition col_ok (c : ColMeta) : Prop :=
  word (col_tab_name c) ∧ word (col_name c) ∧ is_int (col_len c) ∧ is_int (col_offset c).
Definition tab_ok (t : TabMeta) : Prop :=
  word (tab_name_of t) ∧ Z.of_nat (length (cols t)) ≤ size_max ∧ Forall col_ok (cols t).
(** What [SmManager] keeps: a table is filed under its own name. *)
Definition db_ok (db : DbMeta) : Prop :=
  word (db_name db) ∧ Z.of_nat (length (tabs_ db)) ≤ size_max ∧ map_sorted (tabs_ db) ∧
  Forall (λ e, e.1 = tab_name_of e.2 ∧ tab_ok e.2) (tabs_ db).

Lemma blank_space : blank (chars " ").
Proof. by repeat constructor. Qed.

Lemma blank_newline : blank (chars newline).
Proof. by repeat constructor. Qed.

#[local] Hint Resolve blank_space blank_newline Forall_nil_2 : core.

Lemma read_ColMeta_ok sp c rest :
  blank sp → col_ok c → stops rest →
  read_ColMeta (MkIs (sp ++ chars (put_ColMeta c) ++ rest) false) = (Ok c, MkIs rest false).
Proof.
  intros Hs (H1 & H2 & H3 & H4) Hr. destruct c as [t n ty len off ix]. simpl in *.
  unfold read_ColMeta, put_ColMeta. simpl. rewrite !chars_app, <- !app_assoc.
  erewrite st_bind_ok by (apply read_string_ok; done). erewrite st_bind_ok by (apply read_string_ok; auto; done).
  erewrite st_bind_ok.
  2: { unfold read_ColType. erewrite st_bind_ok by (apply read_int_ok; [auto|done|by destruct ty]).
       cbn [must]. erewrite st_bind_ok by done. rewrite ColType_of_to_int. done. }
  erewrite st_bind_ok by (apply read_int_ok; auto; done). erewrite st_bind_ok by (apply read_int_ok; auto; done).
  erewrite st_bind_ok by (apply read_bool_ok; auto; done). cbn [must]. unfold st_bind, st_ret. by destruct ix.
Qed.

Lemma read_cols_ok sp cs acc rest :
  blank sp → Forall col_ok cs →
  read_cols (length cs) acc (MkIs (sp ++ chars (put_lines put_ColMeta cs) ++ rest) false)
    = (Ok (acc ++ cs), MkIs (match cs with [] => sp | _ => chars newline end ++ rest) false).
Proof.
  intros Hs Hcs. revert sp acc Hs. induction Hcs as [|c cs Hc Hcs IH]; intros sp acc Hs.
  - simpl. by rewrite app_nil_r.
  - cbn [length read_cols put_lines]. rewrite !chars_app, <- !app_assoc.
    erewrite st_bind_ok by (by apply read_ColMeta_ok). rewrite IH by auto. rewrite <- app_assoc. simpl.
    by destruct cs.
Qed.

(** What is left in the stream after a table: the newline of its last line. *)
Lemma read_TabMeta_ok sp t rest :
  blank sp → tab_ok t →
  read_TabMeta (MkIs (sp ++ chars (put_TabMeta t) ++ rest) false) = (Ok t, MkIs (chars newline ++ rest) false).
Proof.
  intros Hs (H1 & H2 & H3). destruct t as [name cs]. simpl in *. unfold read_TabMeta, put_TabMeta. simpl.
  rewrite !chars_app, <- !app_assoc. erewrite st_bind_ok by (apply read_string_ok; done).
  erewrite st_bind_ok by (apply read_size_ok; [auto|done|lia]). cbn [must]. erewrite st_bind_ok by done.
  rewrite Nat2Z.id. erewrite st_bind_ok by (apply read_cols_ok; auto). simpl. by destruct cs.
Qed.

Lemma read_tabs_ok sp ts acc :
  blank sp → map_sorted (acc ++ ts) → Forall (λ e, e.1 = tab_name_of e.2 ∧ tab_ok e.2) ts →
  ∃ sp', blank sp' ∧
  read_tabs (length ts) acc (MkIs (sp ++ chars (put_lines (λ e, put_TabMeta e.2) ts)) false)
    = (Ok (acc ++ ts), MkIs sp' false).
Proof.
  intros Hs Hsort Hts. revert sp acc Hs Hsort. induction Hts as [|[k t] ts [Hk Ht] Hts IH]; intros sp acc Hs Hsort.
  - exists sp. split; [done|]. simpl. by rewrite !app_nil_r.
  - simpl in Hk, Ht. subst k. cbn [length read_tabs put_lines]. rewrite !chars_app. simpl.
    erewrite st_bind_ok by (by apply read_TabMeta_ok). rewrite map_set_last.
    + rewrite (cons_middle _ acc ts) in *.
      destruct (IH (chars newline ++ chars newline) (acc ++ [(tab_name_of t, t)])) as (sp' & Hsp' & Hrun).
      { apply Forall_app_2; apply blank_newline. }
      { by rewrite <- app_assoc. }
      rewrite <- !app_assoc in Hrun. by exists sp'.
    + apply StronglySorted_app in Hsort as (Hsort & _ & _). apply Forall_forall. intros p Hp.
      apply (Hsort p (tab_name_of t, t)); [done|]. by left.
Qed.

(** [C30] The catalogue survives being written and read. What [operator<<] writes
    for a database, [operator>>] reads back: every name, type, length, offset
    and index flag of every column of every table, with nothing left in the
    stream but white space and no failure flagged, provided the names are words
    (not empty, without white space) and the numbers are [int]s. *)
Theorem db_meta_roundtrip (db : DbMeta) :
  db_ok db →
  ∃ sp, blank sp ∧
    read_DbMeta new_DbMeta (MkIs (chars (put_DbMeta db)) false) = (Ok db, MkIs sp false).
Proof.
  intros (H1 & H2 & H3 & H4). destruct db as [name ts]. simpl in *. unfold read_DbMeta, put_DbMeta. simpl.
  rewrite !chars_app. rewrite <- (app_nil_l (chars name ++ _)).
  erewrite st_bind_ok by (apply read_string_ok; [apply Forall_nil_2|done|done]).
  erewrite st_bind_ok by (apply read_size_ok; [auto|done|lia]). cbn [must]. erewrite st_bind_ok by done.
  rewrite Nat2Z.id. destruct (read_tabs_ok (chars newline) ts [] ltac:(auto) H3 H4) as (sp' & Hsp' & Hrun).
  exists sp'. split; [done|]. by erewrite st_bind_ok by done.
Qed.

Module MetaRuns.

(** A database of two tables. *)
Definition tab_grade : TabMeta :=
  MkTabMeta "grade" [MkColMeta "grade" "course" TYPE_STRING 20 0 false; MkColMeta "grade" "score" TYPE_FLOAT 4 20 false].
Definition tab_student : TabMeta :=
  MkTabMeta "student" [MkColMeta "student" "id" TYPE_INT 4 0 true; MkColMeta "student" "name" TYPE_STRING 32 4 false].
Definition school : DbMeta := MkDbMeta "school" [("grade", tab_grade); ("student", tab_student)].

Lemma db_meta_roundtrip_witness :
  db_ok school ∧
  ∃ sp, blank sp ∧
    read_DbMeta new_DbMeta (MkIs (chars (put_DbMeta school)) false) = (Ok school, MkIs sp false).
Proof.
  assert (db_ok school) as H.
  { unfold db_ok. split_and!; [by apply (bool_decide_unpack (word _)); vm_compute|by vm_compute| |].
    - repeat constructor.
    - unfold tab_ok, col_ok, is_int.
      repeat (apply Forall_cons || apply Forall_nil_2 || split);
        try (by apply (bool_decide_unpack (word _)); vm_compute); by vm_compute. }
  split; [exact H|]. apply (db_meta_roundtrip school). exact H.
Defined.

(** A column name with a blank in it does not survive: the rest of the line is
    read one word too early and the type is not a number. *)
Definition spaced : DbMeta :=
  MkDbMeta "db" [("t", MkTabMeta "t" [MkColMeta "t" "a b" TYPE_INT 4 0 false])].

Lemma blank_name_lost :
  (read_DbMeta new_DbMeta (MkIs (chars (put_DbMeta spaced)) false)).1 ≠ Ok spaced.
Proof. by vm_compute. Qed.

End MetaRuns.
