(* ===== verification/Catalog.v ===== *)
(** The system manager: [system/sm_manager.h], [system/sm_manager.cpp].

    [SmManager] keeps the catalogue [db_] and one handle per open record and
    index file over the shared pool.  [chdir] and the stream that
    [std::ifstream] opens are the operating system's, parameters of
    [open_db].  [create_db], [close_db] and [drop_table] have empty bodies in
    the source.  [TabMeta::get_col] answers a default iterator, so
    [create_index] and [drop_index] end at their first use of it; what the
    source writes after that point is never reached. *)
From Stdlib Require Import Ascii String.
From S2P Require Import Prelude Config Posix PageStore Disk Replacer BufferPool Record RecordPage RecordRuns IxNode IxFile Printer Meta.

Definition DB_META_NAME : string := "db.meta".

Record ColDef : Set := MkColDef { def_name : string; def_type : ColType; def_len : Z }.

(** ** Printing the catalogue *)

Definition show_tables (db : DbMeta) : M Reply unit :=
  printer ← new_RecordPrinter 1;
  print_separator printer ;;
  print_record printer ["Tables"%string] ;;
  print_separator printer ;;
  st_iter (λ e, print_record printer [tab_name_of e.2]) (tabs_ db) ;;
  print_separator printer.

Definition field_info (col : ColMeta) : list string :=
  [col_name col; coltype2str (col_type col); if col_index col then "YES"%string else "NO"%string].

Definition desc_table (db : DbMeta) (tab_name : string) : M Reply unit :=
  tab ← get_table db tab_name;
  let captions := ["Field"; "Type"; "Index"]%string in
  printer ← new_RecordPrinter (length captions);
  print_separator printer ;;
  print_record printer captions ;;
  print_separator printer ;;
  st_iter (λ col, print_record printer (field_info col)) (cols tab) ;;
  print_separator printer.

(** ** Tables *)

(** The loop of [create_table]: the columns with their offsets, and the size of
    a record. *)
Fixpoint make_cols (tab_name : string) (col_defs : list ColDef) (curr_offset : Z) : list ColMeta * Z :=
  match col_defs with
  | [] => ([], curr_offset)
  | d :: ds =>
      let col := MkColMeta tab_name (def_name d) (def_type d) (def_len d) curr_offset false in
      let '(cs, size) := make_cols tab_name ds (wrap32 (curr_offset + def_len d)) in
      (col :: cs, size)
  end.

Section SmManager.
Context {OS R : Type} {PX : Posix OS} {RP : Replacer R}.
Abbreviation DM := (DiskManager OS).
Abbreviation BPM := (BufferPoolManager DM R).

Record SmManager : Type := MkSm {
  db_ : DbMeta;
  fhs_ : gmap string (Z * RmFileHdr);
  ihs_ : gmap string (Z * IxFileHdr);
  sm_pool : BPM
}.

Definition with_db (db : DbMeta) (s : SmManager) : SmManager := MkSm db (fhs_ s) (ihs_ s) (sm_pool s).
Definition with_fhs (m : gmap string (Z * RmFileHdr)) (s : SmManager) : SmManager := MkSm (db_ s) m (ihs_ s) (sm_pool s).
Definition with_ihs (m : gmap string (Z * IxFileHdr)) (s : SmManager) : SmManager := MkSm (db_ s) (fhs_ s) m (sm_pool s).
Definition with_sm_pool (p : BPM) (s : SmManager) : SmManager := MkSm (db_ s) (fhs_ s) (ihs_ s) p.

Definition sm_on_pool {A} (m : M BPM A) : M SmManager A := zoom sm_pool with_sm_pool m.
Definition sm_on_disk {A} (m : M DM A) : M SmManager A := sm_on_pool (BufferPool.on_disk m).

(** [m.emplace(k, v)] keeps an entry that is there. *)
Definition emplace {V} (k : string) (v : V) (m : gmap string V) : gmap string V :=
  match m !! k with Some _ => m | None => <[k := v]> m end.

Definition new_SmManager (p : BPM) : SmManager := MkSm new_DbMeta ∅ ∅ p.

Definition sm_is_dir (db_name : string) : M SmManager bool := sm_on_disk (is_dir db_name).

Definition create_db (db_name : string) : M SmManager unit := ret tt.

Definition drop_db (db_name : string) : M SmManager unit :=
  b ← sm_is_dir db_name;
  if negb b then throw_db (DatabaseNotFoundError db_name)
  else
    r ← sm_on_disk (sys (λ s, os_system s ("rm -r " +:+ db_name)));
    if r <? 0 then throw_db UnixError else ret tt.

(** The body of the loop of [open_db] for one column. *)
Definition open_col_index (tab_name : string) (i : Z) (col : ColMeta) : M SmManager unit :=
  if col_index col then
    let index_name := get_index_name tab_name i in
    s ← get_st;
    assert_ (bool_decide (ihs_ s !! index_name = None)) ;;
    ih ← sm_on_disk (open_index tab_name i);
    modify (λ s, with_ihs (emplace index_name ih (ihs_ s)) s)
  else ret tt.

Fixpoint open_indexes (tab_name : string) (i : Z) (cs : list ColMeta) : M SmManager unit :=
  match cs with
  | [] => ret tt
  | col :: cs' => open_col_index tab_name i col ;; open_indexes tab_name (i + 1) cs'
  end.

Definition open_table_files (tab : TabMeta) : M SmManager unit :=
  fh ← sm_on_pool (rm_open_file (tab_name_of tab));
  modify (λ s, with_fhs (emplace (tab_name_of tab) fh (fhs_ s)) s) ;;
  open_indexes (tab_name_of tab) 0 (cols tab).

(** [ifs >> db_]. *)
Definition load_meta (ifs : istream) : M SmManager unit := λ s,
  match read_DbMeta (db_ s) ifs with
  | (Ok db, _) => (Ok tt, with_db db s)
  | (Throw e, _) => (Throw e, s)
  | (Crash c, _) => (Crash c, s)
  end.

Definition open_db (chdir : string → OS → Z * OS) (ifstream : OS → string → istream) (db_name : string) : M SmManager unit :=
  b ← sm_is_dir db_name;
  if negb b then throw_db (DatabaseNotFoundError db_name)
  else
    r ← sm_on_disk (sys (chdir db_name));
    if r <? 0 then throw_db UnixError
    else
      s ← get_st;
      load_meta (ifstream (dm_os (disk_manager_ (sm_pool s))) DB_META_NAME) ;;
      s ← get_st;
      st_iter (λ e, open_table_files e.2) (tabs_ (db_ s)).

Definition close_db : M SmManager unit := ret tt.

Definition create_table (tab_name : string) (col_defs : list ColDef) : M SmManager unit :=
  s ← get_st;
  if is_table (db_ s) tab_name then throw_db (TableExistsError tab_name)
  else
    let '(cs, record_size) := make_cols tab_name col_defs 0 in
    sm_on_pool (rm_create_file tab_name record_size) ;;
    modify (λ s, with_db (MkDbMeta (db_name (db_ s)) (map_set tab_name (MkTabMeta tab_name cs) (tabs_ (db_ s)))) s) ;;
    fh ← sm_on_pool (rm_open_file tab_name);
    modify (λ s, with_fhs (emplace tab_name fh (fhs_ s)) s).

Definition drop_table (tab_name : string) : M SmManager unit := ret tt.

(** Up to the first use of the iterator, which is as far as it gets. *)
Definition create_index_sm (tab_name col_name : string) : M SmManager unit :=
  s ← get_st;
  tab ← get_table (db_ s) tab_name;
  col ← deref_col tab (get_col_it tab col_name);
  if col_index col then throw_db (IndexExistsError tab_name col_name) else ret tt.

(** [db_.tabs_[tab_name]] adds a table without columns when there is none. *)
Definition drop_index_sm (tab_name col_name : string) : M SmManager unit :=
  s ← get_st;
  let tab := default (MkTabMeta EmptyString []) (map_find tab_name (tabs_ (db_ s))) in
  modify (λ s, with_db (MkDbMeta (db_name (db_ s)) (map_set tab_name tab (tabs_ (db_ s)))) s) ;;
  col ← deref_col tab (get_col_it tab col_name);
  if negb (col_index col) then throw_db (IndexNotFoundError tab_name col_name) else ret tt.

End SmManager.
Arguments SmManager : clear implicits.

(** ** What is printed *)

Definition table_text (captions : list string) (rows : list (list string)) : list ascii :=
  separator_text (length captions) ++ record_text captions ++ separator_text (length captions)
    ++ concat (record_text <$> rows) ++ separator_text (length captions).

Lemma emits_table {A} captions (g : A → list string) rows n :
  n = length captions → (∀ r, length (g r) = n) →
  emits (print_separator n ;; (print_record n captions ;; (print_separator n ;;
         (st_iter (λ r, print_record n (g r)) rows ;; print_separator n)))) (table_text captions (g <$> rows)).
Proof.
  intros -> Hrows. unfold table_text. rewrite <- list_fmap_compose.
  auto 10 with emits.
Qed.

Lemma length_table_text captions rows :
  (∀ r, r ∈ rows → length r = length captions) →
  length (table_text captions rows) = ((length rows + 4) * line_width (length captions))%nat.
Proof.
  intros Hrows. unfold table_text. rewrite !length_app. autorewrite with text.
  rewrite (length_concat_const _ (line_width (length captions))); [rewrite length_fmap; lia|].
  apply Forall_fmap, Forall_forall. intros r Hr. simpl. autorewrite with text. by rewrite Hrows.
Qed.

(** What [show_tables] and [desc_table] list. *)
Definition tables_text (db : DbMeta) : list ascii :=
  table_text ["Tables"%string] ((λ e, [tab_name_of e.2]) <$> tabs_ db).
Definition columns_text (tab : TabMeta) : list ascii :=
  table_text ["Field"; "Type"; "Index"]%string (field_info <$> cols tab).

Lemma emits_tables db : emits (show_tables db) (tables_text db).
Proof. by apply (emits_table ["Tables"%string] (λ e : string * TabMeta, [tab_name_of e.2]) _ 1). Qed.

Lemma length_tables_text db : length (tables_text db) = ((length (tabs_ db) + 4) * 21)%nat.
Proof.
  unfold tables_text. rewrite length_table_text; [by rewrite length_fmap|]. by intros r (e & -> & _)%list_elem_of_fmap.
Qed.

Lemma emits_columns db tab_name tab : map_find tab_name (tabs_ db) = Some tab → emits (desc_table db tab_name) (columns_text tab).
Proof.
  intros H. unfold desc_table, get_table. rewrite H. by apply (emits_table ["Field"; "Type"; "Index"]%string field_info _ 3).
Qed.

Lemma length_columns_text tab : length (columns_text tab) = ((length (cols tab) + 4) * 59)%nat.
Proof.
  unfold columns_text. rewrite length_table_text; [by rewrite length_fmap|]. by intros r (e & -> & _)%list_elem_of_fmap.
Qed.

(** [C32] The listings. [show_tables] and [desc_table] append to the reply, at its
    offset, the table that lists the catalogue (a title line and one line per
    table, or per column of the table asked for), every line of the same width,
    so that [k] lines of [n] columns take [(k + 4) * (19 n + 2)] bytes; when the
    reply buffer has less room than that they write past its end, since nothing
    checks the length. [desc_table] of an unknown table throws and prints
    nothing. *)
Theorem listings_correct (db : DbMeta) (tab_name : string) :
  emits (show_tables db) (tables_text db) ∧
  length (tables_text db) = ((length (tabs_ db) + 4) * 21)%nat ∧
  match map_find tab_name (tabs_ db) with
  | Some tab =>
      emits (desc_table db tab_name) (columns_text tab) ∧
      length (columns_text tab) = ((length (cols tab) + 4) * 59)%nat
  | None => ∀ s, desc_table db tab_name s = (Throw (RedBase (TableNotFoundError tab_name)), s)
  end.
Proof.
  split; [|split].
  - apply emits_tables.
  - apply length_tables_text.
  - destruct (map_find tab_name (tabs_ db)) as [tab|] eqn:E.
    + split; [by apply emits_columns|apply length_columns_text].
    + intros s. unfold desc_table, get_table. by rewrite E.
Qed.

(** ** Layout of a record *)

(** The columns follow each other from [off] on. *)
Fixpoint laid_out (off : Z) (cs : list ColMeta) : Prop :=
  match cs with
  | [] => True
  | c :: cs' => col_offset c = off ∧ 0 ≤ col_len c ∧ laid_out (off + col_len c) cs'
  end.

Definition record_len (cs : list ColMeta) : Z := foldr (λ c n, col_len c + n) 0 cs.
Definition defs_len (ds : list ColDef) : Z := foldr (λ d n, def_len d + n) 0 ds.

Lemma record_len_nonneg off cs : laid_out off cs → 0 ≤ record_len cs.
Proof.
  revert off. induction cs as [|c cs IH]; intros off; [done|]. intros (_ & ? & H%IH). unfold record_len in *. simpl. lia.
Qed.

Lemma laid_out_range off cs i c :
  laid_out off cs → cs !! i = Some c →
  off ≤ col_offset c ∧ 0 ≤ col_len c ∧ col_offset c + col_len c ≤ off + record_len cs.
Proof.
  revert off i. induction cs as [|c' cs IH]; intros off [|i] Hl Hi; simplify_eq/=; destruct Hl as (H1 & H2 & H3).
  - pose proof (record_len_nonneg _ _ H3). unfold record_len in *. lia.
  - specialize (IH _ _ H3 Hi). unfold record_len in *. lia.
Qed.

Lemma laid_out_disjoint off cs i j c c' :
  laid_out off cs → (i < j)%nat → cs !! i = Some c → cs !! j = Some c' → col_offset c + col_len c ≤ col_offset c'.
Proof.
  revert off i j. induction cs as [|x cs IH]; intros off [|i] [|j] Hl Hij Hi Hj; simplify_eq/=; try lia;
    destruct Hl as (H1 & H2 & H3).
  - pose proof (laid_out_range _ _ _ _ H3 Hj). lia.
  - eapply (IH _ i j); [done|lia|done|done].
Qed.

(** What [create_table] computes, as long as the lengths do not overflow. *)
Definition col_of_def (tab_name : string) (d : ColDef) (c : ColMeta) : Prop :=
  col_tab_name c = tab_name ∧ col_name c = def_name d ∧ col_type c = def_type d ∧ col_len c = def_len d ∧
  col_index c = false.

Lemma make_cols_ok tab_name ds off cs size :
  Forall (λ d, 0 ≤ def_len d) ds → 0 ≤ off → off + defs_len ds ≤ int_max →
  make_cols tab_name ds off = (cs, size) →
  laid_out off cs ∧ size = off + defs_len ds ∧ record_len cs = defs_len ds ∧ Forall2 (col_of_def tab_name) ds cs.
Proof.
  intros Hds. revert off cs size. induction Hds as [|d ds Hd Hds IH]; intros off cs size Ho Hm; simpl.
  - intros [= <- <-]. unfold record_len, defs_len. simpl. split_and!; [done|lia|done|constructor].
  - assert (0 ≤ defs_len ds).
    { clear -Hds. induction Hds as [|x l ? _ IH]; unfold defs_len in *; simpl; lia. }
    change (defs_len (d :: ds)) with (def_len d + defs_len ds) in *.
    rewrite wrap32_id by (unfold is_int, int_min, int_max in *; lia).
    destruct (make_cols tab_name ds (off + def_len d)) as [cs' size'] eqn:E. intros [= <- <-].
    destruct (IH (off + def_len d) cs' size' ltac:(lia) ltac:(lia) E) as (H1 & H2 & H3 & H4).
    change (record_len (_ :: cs')) with (def_len d + record_len cs').
    split; [by split|]. split; [lia|]. split; [lia|]. constructor; [by split_and!|done].
Qed.

(** ** Record files created and opened *)

Section CreateTable.
Context {OS R : Type} {PX : Posix OS} {RP : Replacer R}.
Abbreviation BPM := (BufferPoolManager (DiskManager OS) R).
Abbreviation disk s := (disk_manager_ s).

Lemma dm_run {A} (m : M (DiskManager OS) A) (s s' : BPM) r :
  dm m s = (r, s') → m (disk s) = (r, disk s') .
Proof.
  unfold dm, BufferPool.on_disk, zoom. destruct (m (disk s)) as [r0 d'] eqn:E. intros [= <- <-]. done.
Qed.

(** The file [path] starts with the bytes [bs]. *)
Definition file_starts (d : DiskManager OS) (path : string) (bs : bytes) : Prop :=
  ∃ ino, named (dview d) path = Some ino ∧
    (length bs ≤ length (contents (dview d) ino))%nat ∧ slice 0 (length bs) (contents (dview d) ino) = bs.

Lemma length_hdr_bytes h : length (hdr_bytes h) = Z.to_nat sizeof_RmFileHdr.
Proof. unfold hdr_bytes. by autorewrite with lens. Qed.

(** Writing the header of a file just opened, and closing it. *)
Lemma header_written d fd ino path h r d' :
  fd_inode (dview d) fd = Some ino → named (dview d) path = Some ino →
  write_page fd RM_FILE_HDR_PAGE (hdr_bytes h) sizeof_RmFileHdr d = (Ok r, d') →
  file_starts d' path (hdr_bytes h).
Proof.
  intros Hfd Hn Hw. assert (sizeof_RmFileHdr = Z.of_nat (length (hdr_bytes h))) as Hs by (by rewrite length_hdr_bytes).
  assert (page_no_ok RM_FILE_HDR_PAGE) as Hp by (unfold page_no_ok, RM_FILE_HDR_PAGE; lia).
  rewrite Hs in Hw. destruct (write_page_effect _ _ _ _ _ _ _ Hfd Hp Hw) as [T [[_ Hc]|[? _]]]; [|done].
  exists ino. unfold named. rewrite (touches_entry _ _ _ T), (touches_names _ _ _ T). split; [done|]. rewrite Hc. split; [rewrite length_write_at; lia|].
  apply slice_write_at_same.
Qed.

Lemma file_starts_close fd d r d' path bs :
  close_file fd d = (r, d') → file_starts d path bs → file_starts d' path bs.
Proof.
  intros [Hn Hc]%close_file_ok (ino & H1 & H2 & H3). exists ino. by rewrite Hn, Hc.
Qed.

Lemma rm_create_file_ok path n (s s' : BPM) r :
  tables_ok (disk s) → rm_create_file path n s = (r, s') →
  tables_ok (disk s') ∧ (r = Ok tt → file_starts (disk s') path (hdr_bytes (make_hdr n))).
Proof.
  intros Hinv. unfold rm_create_file. destruct (_ || _); [by intros [= <- <-]|]. intros H.
  apply st_bind_inv in H as [([] & s1 & H1%dm_run & H)|[(e & H1%dm_run & ->)|(c & H1%dm_run & ->)]];
    pose proof (create_file_tables _ _ _ _ H1 Hinv) as I1; [|done|done].
  apply st_bind_inv in H as [(fd & s2 & H2%dm_run & H)|[(e & H2%dm_run & ->)|(c & H2%dm_run & ->)]];
    pose proof (open_file_tables _ _ _ _ H2 I1) as I2; [|done|done].
  destruct (open_file_ok _ _ _ _ H2) as (ino & N2 & F2 & E2 & _). rewrite <- E2 in N2.
  apply st_bind_inv in H as [([] & s3 & H3%dm_run & H)|[(e & H3%dm_run & ->)|(c & H3%dm_run & ->)]];
    pose proof (tables_ok_stable _ _ (write_page_stable _ _ _ _ _ _ _ H3) I2) as I3; [|done|done].
  apply dm_run in H. split; [by eapply close_file_tables|]. intros _.
  eapply file_starts_close; [done|]. by eapply header_written.
Qed.

(** The constructor of [RmFileHandle] reads the header of the file. *)
Lemma rm_open_file_ok path h (s s' : BPM) r :
  tables_ok (disk s) → rm_hdr_ints h → file_starts (disk s) path (hdr_bytes h) → rm_open_file path s = (r, s') →
  tables_ok (disk s') ∧ (∀ fd h', r = Ok (fd, h') → h' = h).
Proof.
  intros Hinv Hh (ino & N & L & B) H. unfold rm_open_file in H.
  apply st_bind_inv in H as [(fd & s1 & H1%dm_run & H)|[(e & H1%dm_run & ->)|(c & H1%dm_run & ->)]];
    pose proof (open_file_tables _ _ _ _ H1 Hinv) as I1; [|done|done].
  destruct (open_file_ok _ _ _ _ H1) as (ino' & N1 & F1 & _ & C1). assert (ino' = ino) as -> by congruence.
  unfold new_RmFileHandle in H.
  destruct (read_page fd RM_FILE_HDR_PAGE sizeof_RmFileHdr (disk s1, zeros (Z.to_nat sizeof_RmFileHdr)))
    as [r2 [d2 buf]] eqn:H2.
  pose proof (tables_ok_stable _ _ (read_page_stable _ _ _ _ _ _ _ _ H2) I1) as I2.
  change sizeof_RmFileHdr with (Z.of_nat 20) in H2.
  assert (page_no_ok RM_FILE_HDR_PAGE) as Hp by (unfold page_no_ok, RM_FILE_HDR_PAGE; lia).
  destruct (read_page_effect fd RM_FILE_HDR_PAGE 20 (zeros 20) _ _ _ _ ino F1 Hp eq_refl ltac:(lia) H2) as (_ & _ & _ & Hm).
  rewrite (file_page_contents 20 (disk s1) (MkPageId fd RM_FILE_HDR_PAGE) ino F1), C1 in Hm. cbv zeta in Hm.
  rewrite length_hdr_bytes in L, B. change (Z.to_nat (page_offset _)) with 0%nat in Hm.
  change (Z.to_nat sizeof_RmFileHdr) with 20%nat in *. rewrite decide_True, B in Hm by lia.
  destruct Hm as [[-> [=<-]]| ->]; [|by unfold st_bind, dm, BufferPool.on_disk, zoom in H; simplify_eq].
  rewrite bytes_hdr_bytes in H by done.
  unfold st_bind, st_ret, dm, BufferPool.on_disk, zoom, set_fd2pageno in H. destruct ((0 <=? fd) && (fd <? MAX_FD)); simplify_eq.
  - split; [by destruct I2|]. intros ? ? [= _ <-]. done.
  - by split.
Qed.

Lemma make_hdr_ints n : 1 ≤ n ≤ RM_MAX_RECORD_SIZE → rm_hdr_ints (make_hdr n).
Proof.
  intros Hn. destruct (hdr_layout (make_hdr n)) as (H1 & H2 & _); [by split|].
  unfold RM_MAX_RECORD_SIZE in Hn.
  split; unfold is_int, int_min, int_max; [simpl; lia|done|lia|done|lia].
Qed.

(** ** The catalogue's invariant *)

Definition table_ok (t : TabMeta) : Prop :=
  laid_out 0 (cols t) ∧ 1 ≤ record_len (cols t) ≤ RM_MAX_RECORD_SIZE ∧
  Forall (λ c, col_tab_name c = tab_name_of t) (cols t).

(** Tables are filed in order under their names, their columns follow each other
    and fill a record of a size the record manager accepts, and only tables of
    the catalogue have open files. *)
Record sm_inv (s : SmManager OS R) : Prop := {
  sm_sorted : map_sorted (tabs_ (db_ s));
  sm_tables : Forall (λ e, e.1 = tab_name_of e.2 ∧ table_ok e.2) (tabs_ (db_ s));
  sm_files t fh : fhs_ s !! t = Some fh → is_table (db_ s) t = true;
  sm_disk : tables_ok (disk (sm_pool s))
}.

Lemma sm_inv_pool s p : sm_inv s → tables_ok (disk p) → sm_inv (with_sm_pool p s).
Proof. intros [H1 H2 H3 H4] Hp. by split. Qed.

Lemma is_table_set nm tab (t : TabMeta) ts x :
  map_sorted ts → is_table (MkDbMeta nm ts) x = true → is_table (MkDbMeta nm (map_set tab t ts)) x = true.
Proof.
  unfold is_table. simpl. rewrite !bool_decide_eq_true. intros Hs Hx. destruct (decide (x = tab)) as [->|].
  - by rewrite map_find_set_eq.
  - by rewrite map_find_set_ne.
Qed.

Lemma sm_inv_add s tab t :
  sm_inv s → tab = tab_name_of t → table_ok t →
  sm_inv (with_db (MkDbMeta (db_name (db_ s)) (map_set tab t (tabs_ (db_ s)))) s).
Proof.
  intros [H1 H2 H3 H4] -> Ht. split; simpl; [by apply map_set_sorted|by apply map_set_Forall| |done].
  intros x fh Hx. apply is_table_set; [done|]. destruct (db_ s) as [nm ts]. simpl in *. by eapply H3.
Qed.

Lemma sm_inv_file s tab fh :
  sm_inv s → is_table (db_ s) tab = true → sm_inv (with_fhs (emplace tab fh (fhs_ s)) s).
Proof.
  intros [H1 H2 H3 H4] Ht. split; [done|done| |done]. simpl. intros x fh' Hx. unfold emplace in Hx.
  destruct (fhs_ s !! tab) eqn:E; [by eapply H3|].
  destruct (decide (tab = x)) as [<-|Hne]; [done|]. rewrite lookup_insert_ne in Hx by done. by eapply H3.
Qed.

Lemma sm_on_pool_run {A} (m : M BPM A) (s s' : SmManager OS R) r :
  sm_on_pool m s = (r, s') → ∃ p, m (sm_pool s) = (r, p) ∧ s' = with_sm_pool p s.
Proof. unfold sm_on_pool, zoom. destruct (m (sm_pool s)) as [r0 p]. intros [= <- <-]. eauto. Qed.

(** The part of [create_table] after its two checks. *)
Lemma create_table_file s tab cs n r s' :
  sm_inv s → is_table (db_ s) tab = false → table_ok (MkTabMeta tab cs) → record_len cs = n →
  (sm_on_pool (rm_create_file tab n) ;;
    (modify (λ s, with_db (MkDbMeta (db_name (db_ s)) (map_set tab (MkTabMeta tab cs) (tabs_ (db_ s)))) s) ;;
     (fh ← sm_on_pool (rm_open_file tab); modify (λ s, with_fhs (emplace tab fh (fhs_ s)) s)))) s = (r, s') →
  sm_inv s' ∧
  (∀ t, t ≠ tab → map_find t (tabs_ (db_ s')) = map_find t (tabs_ (db_ s)) ∧ fhs_ s' !! t = fhs_ s !! t) ∧
  (r = Ok tt → map_find tab (tabs_ (db_ s')) = Some (MkTabMeta tab cs) ∧ ∃ fd, fhs_ s' !! tab = Some (fd, make_hdr n)).
Proof.
  intros Hinv Hno Hok Hn H. pose proof Hok as (_ & Hlen & _). simpl in Hlen. rewrite Hn in Hlen.
  apply st_bind_inv in H as [([] & s1 & H1 & H)|[(e & H1 & ->)|(c & H1 & ->)]];
    apply sm_on_pool_run in H1 as (p1 & H1 & ->);
    destruct (rm_create_file_ok _ _ _ _ _ (sm_disk _ Hinv) H1) as [I1 F1];
    pose proof (sm_inv_pool _ _ Hinv I1) as Inv1; [|by split..].
  unfold st_bind at 1, modify in H.
  pose proof (sm_inv_add _ tab (MkTabMeta tab cs) Inv1 eq_refl Hok) as Inv2.
  set (s2 := with_db _ (with_sm_pool p1 s)) in *.
  assert (∀ t, t ≠ tab → map_find t (tabs_ (db_ s2)) = map_find t (tabs_ (db_ s))) as Hother
    by (intros t Ht; by apply map_find_set_ne).
  apply st_bind_inv in H as [(fh & s3 & H2 & H)|[(e & H2 & ->)|(c & H2 & ->)]];
    apply sm_on_pool_run in H2 as (p2 & H2 & ->);
    destruct (rm_open_file_ok _ (make_hdr n) _ _ _ (sm_disk _ Inv2) (make_hdr_ints _ Hlen) (F1 eq_refl) H2) as [I2 F2];
    pose proof (sm_inv_pool _ _ Inv2 I2) as Inv3.
  2,3: split; [done|]; split; [|done]; intros t Ht; by split; [apply Hother|].
  injection H as <- <-. assert (is_table (db_ s2) tab = true) as Hin.
  { unfold is_table. apply bool_decide_eq_true. unfold s2. simpl. rewrite map_find_set_eq by apply Hinv. done. }
  split; [exact (sm_inv_file (with_sm_pool p2 s2) tab fh Inv3 Hin)|].
  assert (fhs_ s !! tab = None) as Hnone.
  { destruct (fhs_ s !! tab) eqn:E; [|done]. apply (sm_files _ Hinv) in E. congruence. }
  split.
  - intros t Ht. split; [by apply Hother|]. simpl. unfold emplace. rewrite Hnone. by rewrite lookup_insert_ne.
  - intros _. split; [apply map_find_set_eq, Hinv|]. destruct fh as [fd h]. rewrite (F2 fd h eq_refl). exists fd.
    simpl. unfold emplace. rewrite Hnone. apply lookup_insert_eq.
Qed.

Lemma create_table_run s tab defs r s' :
  sm_inv s → Forall (λ d, 0 ≤ def_len d) defs → defs_len defs ≤ int_max →
  create_table tab defs s = (r, s') →
  sm_inv s' ∧
  (∀ t, t ≠ tab → map_find t (tabs_ (db_ s')) = map_find t (tabs_ (db_ s)) ∧ fhs_ s' !! t = fhs_ s !! t) ∧
  (is_table (db_ s) tab = true → r = Throw (RedBase (TableExistsError tab)) ∧ s' = s) ∧
  (is_table (db_ s) tab = false → ¬ (1 ≤ defs_len defs ≤ RM_MAX_RECORD_SIZE) →
     r = Throw (RedBase (InvalidRecordSizeError (defs_len defs))) ∧ s' = s) ∧
  (r = Ok tt → ∃ cs fd,
     map_find tab (tabs_ (db_ s')) = Some (MkTabMeta tab cs) ∧ Forall2 (col_of_def tab) defs cs ∧ laid_out 0 cs ∧
     fhs_ s' !! tab = Some (fd, make_hdr (defs_len defs)) ∧ record_size (make_hdr (defs_len defs)) = record_len cs).
Proof.
  intros Hinv Hd Hm H. unfold create_table in H. rewrite st_get_bind in H.
  destruct (is_table (db_ s) tab) eqn:Ht; [injection H as <- <-; by split_and!|].
  destruct (make_cols tab defs 0) as [cs n] eqn:E.
  destruct (make_cols_ok tab defs 0 cs n Hd ltac:(lia) Hm E) as (L & -> & Hlen & Hcols). rewrite Z.add_0_l in H.
  destruct (decide (1 ≤ defs_len defs ≤ RM_MAX_RECORD_SIZE)) as [Hsz|Hsz].
  - assert (table_ok (MkTabMeta tab cs)) as Hok.
    { split; [done|]. cbn [cols]. rewrite Hlen. split; [done|]. 
      eapply Forall2_Forall_r; [exact Hcols|]. apply Forall_forall. by intros d _ c (-> & _). }
    destruct (create_table_file _ _ _ _ _ _ Hinv Ht Hok Hlen H) as (I & Hother & Hres).
    split_and!; [done|done|done|done|]. intros Hr. destruct (Hres Hr) as (Hfind & fd & Hfh). exists cs, fd. by split_and!.
  - unfold st_bind at 1, sm_on_pool, zoom, rm_create_file in H.
    replace ((defs_len defs <? 1) || (RM_MAX_RECORD_SIZE <? defs_len defs)) with true in H
      by (symmetry; apply orb_true_iff; rewrite !Z.ltb_lt; lia).
    injection H as <- <-. destruct s. by split_and!.
Qed.

(** [C31] [create_table] of columns with lengths of at least 0 that add up to an
    [int]. However it ends, the catalogue's invariant holds, and no other table
    or open file has changed. A table that exists is refused and a record size
    outside [1..512] is refused, with nothing changed. When it returns, the table
    is in the catalogue with exactly the columns asked for, laid out one after
    the other from offset 0 without gap or overlap, and its record file is open
    with a header whose record size is the sum of the column lengths. *)
Theorem create_table_correct (s : SmManager OS R) (tab : string) (defs : list ColDef) r s' :
  sm_inv s → Forall (λ d, 0 ≤ def_len d) defs → defs_len defs ≤ int_max →
  create_table tab defs s = (r, s') →
  sm_inv s' ∧
  (∀ t, t ≠ tab → map_find t (tabs_ (db_ s')) = map_find t (tabs_ (db_ s)) ∧ fhs_ s' !! t = fhs_ s !! t) ∧
  (is_table (db_ s) tab = true → r = Throw (RedBase (TableExistsError tab)) ∧ s' = s) ∧
  (is_table (db_ s) tab = false → ¬ (1 ≤ defs_len defs ≤ RM_MAX_RECORD_SIZE) →
     r = Throw (RedBase (InvalidRecordSizeError (defs_len defs))) ∧ s' = s) ∧
  (r = Ok tt → ∃ cs fd,
     map_find tab (tabs_ (db_ s')) = Some (MkTabMeta tab cs) ∧ Forall2 (col_of_def tab) defs cs ∧ laid_out 0 cs ∧
     fhs_ s' !! tab = Some (fd, make_hdr (defs_len defs)) ∧ record_size (make_hdr (defs_len defs)) = record_len cs).
Proof. apply create_table_run. Qed.

End CreateTable.

Module CatalogRuns.

#[local] Existing Instance MemFS.mem_posix.
Abbreviation sm := (SmManager fs_view LRUReplacer).

Definition disk0 : DiskManager fs_view := new_DiskManager MemFS.empty_fs.
Definition sm0 : sm := new_SmManager (new_BufferPoolManager (λ _, 0) 4 disk0).
Definition student : list ColDef := [MkColDef "id" TYPE_INT 4; MkColDef "name" TYPE_STRING 32].
Definition sm1 : sm := (create_table "student" student sm0).2.

Lemma sm0_inv : sm_inv sm0.
Proof.
  split; [constructor|constructor|by intros ? ? ?|]. apply new_DiskManager_tables.
Qed.

Lemma create_table_runs : (create_table "student" student sm0).1 = Ok tt.
Proof. by vm_compute. Qed.

Lemma create_table_correct_witness :
  ∃ cs fd, map_find "student" (tabs_ (db_ sm1)) = Some (MkTabMeta "student" cs) ∧
    Forall2 (col_of_def "student") student cs ∧ laid_out 0 cs ∧
    fhs_ sm1 !! "student"%string = Some (fd, make_hdr (defs_len student)) ∧
    record_size (make_hdr (defs_len student)) = record_len cs.
Proof.
  pose proof create_table_runs as Hr. unfold sm1.
  destruct (create_table "student" student sm0) as [r s'] eqn:E.
  apply (create_table_correct sm0 "student" student r s' sm0_inv);
    [repeat constructor; done|by vm_compute|exact E|exact Hr].
Defined.

(** Column lengths that overflow an [int]: three columns of almost 2^31 bytes add
    up to 36 in 32 bits, and the table is created with records of 36 bytes. *)
Definition huge : list ColDef :=
  [MkColDef "a" TYPE_STRING 2147483647; MkColDef "b" TYPE_STRING 2147483647; MkColDef "c" TYPE_STRING 38].

Lemma overflowing_table_created :
  (create_table "t" huge sm0).1 = Ok tt ∧ (make_cols "t" huge 0).2 = 36.
Proof. by vm_compute. Qed.

(** [create_index] on any table of the catalogue follows the default iterator. *)
Lemma create_index_crashes (s : sm) t c :
  is_table (db_ s) t = true → (create_index_sm t c s).1 = Crash NullDeref.
Proof.
  unfold is_table, create_index_sm, st_bind, get_st, get_table. rewrite bool_decide_eq_true.
  by intros [tab ->].
Qed.

(** [drop_index] of an unknown table first adds a nameless table to the
    catalogue. *)
Lemma drop_index_adds_table :
  map_find "nosuch" (tabs_ (db_ (drop_index_sm "nosuch" "c" sm0).2)) = Some (MkTabMeta EmptyString []).
Proof. done. Qed.

(** 387 tables are listed in more bytes than the reply buffer has. *)
Definition many : DbMeta := MkDbMeta "db" (replicate 387 ("t", MkTabMeta "t" [])%string).

Lemma show_tables_overflows :
  (show_tables many (MkReply (Some (replicate (Z.to_nat BUFFER_LENGTH) "000"%char)) 0)).1 = Crash OutOfBounds.
Proof. by vm_compute. Qed.

End CatalogRuns.
