(* ===== verification/Query.v ===== *)
(** Conditions, values and plans: [execution/execution_manager.*],
    [execution/executor_abstract.h] and the constructors, [feed] and predicate
    evaluation of the executors.

    A pointer into a record is the rest of its bytes from there on; a
    comparison that reads past the record's end is [Crash OutOfBounds].  A
    [Value]'s union is its 32 bits; its string is a list of bytes.  [raw] is the
    buffer [init_raw] makes. *)
From Stdlib Require Import Ascii String.
From S2P Require Import Prelude Config IxKey Printer Meta.

(** ** Data *)

Record TabCol : Set := MkTabCol { tc_tab : string; tc_col : string }.

#[global] Instance TabCol_eq_dec : EqDecision TabCol.
Proof. solve_decision. Defined.
#[global] Instance TabCol_countable : Countable TabCol.
Proof. apply (inj_countable' (λ t, (tc_tab t, tc_col t)) (λ p, MkTabCol p.1 p.2)). by intros []. Defined.

Record Value : Set := MkValue { v_type : ColType; v_num : Z; v_str : bytes; v_raw : option bytes }.

Definition value_int (n : Z) : Value := MkValue TYPE_INT n [] None.
Definition value_float (bits : Z) : Value := MkValue TYPE_FLOAT bits [] None.
Definition value_str (s : bytes) : Value := MkValue TYPE_STRING 0 s None.

Definition with_raw (raw : bytes) (v : Value) : Value := MkValue (v_type v) (v_num v) (v_str v) (Some raw).

(** [Value::init_raw]. *)
Definition init_raw {S} (len : Z) (v : Value) : M S Value :=
  assert_ (bool_decide (v_raw v = None)) ;;
  match v_type v with
  | TYPE_INT => assert_ (len =? 4) ;; ret (with_raw (le32 (v_num v)) v)
  | TYPE_FLOAT => assert_ (len =? 4) ;; ret (with_raw (le32 (v_num v)) v)
  | TYPE_STRING =>
      if len <? Z.of_nat (length (v_str v)) then throw_db StringOverflowError
      else ret (with_raw (v_str v ++ zeros (Z.to_nat len - length (v_str v))) v)
  end.

Inductive CompOp : Set := OP_EQ | OP_NE | OP_LT | OP_GT | OP_LE | OP_GE.

#[global] Instance CompOp_eq_dec : EqDecision CompOp.
Proof. solve_decision. Defined.

Record Condition : Set := MkCond {
  lhs_col : TabCol;
  op : CompOp;
  is_rhs_val : bool;
  rhs_col : TabCol;
  rhs_val : Value
}.

(** ** AbstractExecutor *)

(** [get_col]: the column and its place. *)
Definition get_col {S} (rec_cols : list ColMeta) (target : TabCol) : M S (nat * ColMeta) :=
  match list_find (λ c, col_tab_name c = tc_tab target ∧ col_name c = tc_col target) rec_cols with
  | Some p => ret p
  | None => throw_db (ColumnNotFoundError (tc_tab target +:+ "." +:+ tc_col target))
  end.

(** [str.resize(strlen(str.c_str()))]: up to the first NUL. *)
Fixpoint cstr (s : bytes) : bytes :=
  match s with
  | [] => []
  | c :: s' => if c =? 0 then [] else c :: cstr s'
  end.

(** The bytes a typed read at a column's address takes. *)
Definition field_width (type : ColType) (len : Z) : nat :=
  match type with TYPE_INT | TYPE_FLOAT => 4%nat | TYPE_STRING => Z.to_nat len end.

(** [rec->data + col.offset]. *)
Definition at_col {S} (rec : bytes) (col : ColMeta) : M S bytes :=
  if (0 <=? col_offset col) && (col_offset col <=? Z.of_nat (length rec))
  then ret (drop (Z.to_nat (col_offset col)) rec) else crash_with OutOfBounds.

(** The value [rec2dict] reads from one column; a string of a negative length is
    more than a [std::string] can hold. *)
Definition col_value {S} (rec : bytes) (col : ColMeta) : M S Value :=
  val_buf ← at_col rec col;
  match col_type col with
  | TYPE_INT =>
      if (4 <=? length val_buf)%nat then ret (value_int (get_int 0 val_buf)) else crash_with OutOfBounds
  | TYPE_FLOAT =>
      if (4 <=? length val_buf)%nat then ret (value_float (get_int 0 val_buf)) else crash_with OutOfBounds
  | TYPE_STRING =>
      if col_len col <? 0 then throw StdLengthError
      else if col_len col <=? Z.of_nat (length val_buf)
      then ret (value_str (cstr (take (Z.to_nat (col_len col)) val_buf))) else crash_with OutOfBounds
  end.

Definition col_key (col : ColMeta) : TabCol := MkTabCol (col_tab_name col) (col_name col).

Fixpoint rec2dict {S} (rec_dict : gmap TabCol Value) (cs : list ColMeta) (rec : bytes) : M S (gmap TabCol Value) :=
  match cs with
  | [] => ret rec_dict
  | col :: cs' =>
      val ← col_value rec col;
      assert_ (bool_decide (rec_dict !! col_key col = None)) ;;
      val ← init_raw (col_len col) val;
      rec2dict (<[col_key col := val]> rec_dict) cs' rec
  end.

(** ** Conditions *)

Definition op_holds (o : CompOp) (cmp : Z) : bool :=
  match o with
  | OP_EQ => cmp =? 0
  | OP_NE => negb (cmp =? 0)
  | OP_LT => cmp <? 0
  | OP_GT => 0 <? cmp
  | OP_LE => cmp <=? 0
  | OP_GE => 0 <=? cmp
  end.

(** The type and the address of the right-hand side. *)
Definition cond_rhs {S} (rec_cols : list ColMeta) (cond : Condition) (rec : bytes) : M S (ColType * bytes) :=
  if is_rhs_val cond then
    match v_raw (rhs_val cond) with
    | Some raw => ret (v_type (rhs_val cond), raw)
    | None => crash_with NullDeref
    end
  else
    '(_, col) ← get_col rec_cols (rhs_col cond);
    p ← at_col rec col;
    ret (col_type col, p).

Definition eval_cond {S} (rec_cols : list ColMeta) (cond : Condition) (rec : bytes) : M S bool :=
  '(_, lcol) ← get_col rec_cols (lhs_col cond);
  lhs ← at_col rec lcol;
  '(rhs_type, rhs) ← cond_rhs rec_cols cond rec;
  assert_ (bool_decide (rhs_type = col_type lcol)) ;;
  let n := field_width rhs_type (col_len lcol) in
  if (n <=? length lhs)%nat && (n <=? length rhs)%nat
  then ret (op_holds (op cond) (ix_compare lhs rhs rhs_type (col_len lcol)))
  else crash_with OutOfBounds.

(** [std::all_of]: stops at the first condition that fails. *)
Fixpoint eval_conds {S} (rec_cols : list ColMeta) (conds : list Condition) (rec : bytes) : M S bool :=
  match conds with
  | [] => ret true
  | c :: cs => b ← eval_cond rec_cols c rec; if b then eval_conds rec_cols cs rec else ret false
  end.

(** ** SeqScanExecutor *)

Definition swap_op (o : CompOp) : CompOp :=
  match o with OP_EQ => OP_EQ | OP_NE => OP_NE | OP_LT => OP_GT | OP_GT => OP_LT | OP_LE => OP_GE | OP_GE => OP_LE end.

(** The constructor's loop: the column of this table goes to the left. *)
Definition orient_cond {S} (tab_name_ : string) (cond : Condition) : M S Condition :=
  if bool_decide (tc_tab (lhs_col cond) = tab_name_) then ret cond
  else
    assert_ (negb (is_rhs_val cond) && bool_decide (tc_tab (rhs_col cond) = tab_name_)) ;;
    ret (MkCond (rhs_col cond) (swap_op (op cond)) (is_rhs_val cond) (lhs_col cond) (rhs_val cond)).

Fixpoint orient_conds {S} (tab_name_ : string) (conds : list Condition) : M S (list Condition) :=
  match conds with
  | [] => ret []
  | c :: cs => c' ← orient_cond tab_name_ c; cs' ← orient_conds tab_name_ cs; ret (c' :: cs')
  end.

Definition check_runtime_cond (tab_name_ : string) (cond : Condition) : bool :=
  bool_decide (tc_tab (lhs_col cond) = tab_name_) &&
  (is_rhs_val cond || bool_decide (tc_tab (rhs_col cond) = tab_name_)).

Definition check_runtime_conds {S} (tab_name_ : string) (fed_conds_ : list Condition) : M S unit :=
  st_iter (λ c, assert_ (check_runtime_cond tab_name_ c)) fed_conds_.

(** [feed]: a column of another table is replaced by its value. *)
Definition feed_cond {S} (tab_name_ : string) (feed_dict : gmap TabCol Value) (cond : Condition) : M S Condition :=
  if negb (is_rhs_val cond) && negb (bool_decide (tc_tab (rhs_col cond) = tab_name_)) then
    match feed_dict !! rhs_col cond with
    | Some v => ret (MkCond (lhs_col cond) (op cond) true (rhs_col cond) v)
    | None => throw StdOutOfRange
    end
  else ret cond.

Fixpoint feed_conds {S} (tab_name_ : string) (feed_dict : gmap TabCol Value) (conds : list Condition) : M S (list Condition) :=
  match conds with
  | [] => ret []
  | c :: cs => c' ← feed_cond tab_name_ feed_dict c; cs' ← feed_conds tab_name_ feed_dict cs; ret (c' :: cs')
  end.

Definition feed {S} (tab_name_ : string) (conds_ : list Condition) (feed_dict : gmap TabCol Value) : M S (list Condition) :=
  fed_conds_ ← feed_conds tab_name_ feed_dict conds_;
  check_runtime_conds tab_name_ fed_conds_ ;;
  ret fed_conds_.

(** ** NestedLoopJoinExecutor *)

Definition shift_col (n : Z) (c : ColMeta) : ColMeta :=
  MkColMeta (col_tab_name c) (col_name c) (col_type c) (col_len c) (wrap32 (col_offset c + n)) (col_index c).

(** The constructor: the columns and the length of a joined tuple. *)
Definition join_cols (left_cols : list ColMeta) (left_len : Z) (right_cols : list ColMeta) : list ColMeta :=
  left_cols ++ (shift_col left_len <$> right_cols).
Definition join_len (left_len right_len : Z) : Z := (left_len + right_len) `mod` (size_max + 1).

(** [feed_right]: what the right side is fed; [insert] keeps the entries that are
    there. *)
Definition feed_right_dict {S} (prev_feed_dict_ : gmap TabCol Value) (left_cols : list ColMeta) (left_rec : bytes)
    : M S (gmap TabCol Value) :=
  left_dict ← rec2dict ∅ left_cols left_rec;
  ret (prev_feed_dict_ ∪ left_dict).

(** ** ProjectionExecutor *)

(** The constructor's loop: places and columns selected, and the tuple's length. *)
Fixpoint project_cols {S} (prev_cols : list ColMeta) (sel_cols : list TabCol) (curr_offset : Z)
    : M S (list nat * list ColMeta * Z) :=
  match sel_cols with
  | [] => ret ([], [], curr_offset)
  | t :: ts =>
      '(i, col) ← get_col prev_cols t;
      let col' := MkColMeta (col_tab_name col) (col_name col) (col_type col) (col_len col) (wrap32 curr_offset) (col_index col) in
      '(idxs, cs, len) ← project_cols prev_cols ts ((curr_offset + col_len col) `mod` (size_max + 1));
      ret (i :: idxs, col' :: cs, len)
  end.

(** ** QlManager *)

Fixpoint infer_tab {S} (all_cols : list ColMeta) (name : string) (tab_name : string) : M S string :=
  match all_cols with
  | [] => ret tab_name
  | col :: cs =>
      if bool_decide (col_name col = name) then
        if negb (String.eqb tab_name EmptyString) then throw_db (AmbiguousColumnError name)
        else infer_tab cs name (col_tab_name col)
      else infer_tab cs name tab_name
  end.

Definition check_column {S} (db : DbMeta) (all_cols : list ColMeta) (target : TabCol) : M S TabCol :=
  if String.eqb (tc_tab target) EmptyString then
    tab_name ← infer_tab all_cols (tc_col target) EmptyString;
    if String.eqb tab_name EmptyString then throw_db (ColumnNotFoundError (tc_col target))
    else ret (MkTabCol tab_name (tc_col target))
  else
    if is_table db (tc_tab target) then
      tab ← get_table db (tc_tab target);
      if is_col tab (tc_col target) then ret target
      else throw_db (ColumnNotFoundError (tc_tab target +:+ "." +:+ tc_col target))
    else throw_db (ColumnNotFoundError (tc_tab target +:+ "." +:+ tc_col target)).

Fixpoint get_all_cols {S} (db : DbMeta) (tab_names : list string) : M S (list ColMeta) :=
  match tab_names with
  | [] => ret []
  | t :: ts => tab ← get_table db t; rest ← get_all_cols db ts; ret (cols tab ++ rest)
  end.

Definition check_cond {S} (db : DbMeta) (all_cols : list ColMeta) (cond : Condition) : M S Condition :=
  l ← check_column db all_cols (lhs_col cond);
  r ← (if is_rhs_val cond then ret (rhs_col cond) else check_column db all_cols (rhs_col cond));
  lhs_tab ← get_table db (tc_tab l);
  lcol ← deref_col lhs_tab (get_col_it lhs_tab (tc_col l));
  '(v, rhs_type) ←
    (if is_rhs_val cond then
       v ← init_raw (col_len lcol) (rhs_val cond); ret (v, v_type v)
     else
       rhs_tab ← get_table db (tc_tab r);
       rcol ← deref_col rhs_tab (get_col_it rhs_tab (tc_col r));
       ret (rhs_val cond, col_type rcol));
  if bool_decide (col_type lcol = rhs_type) then ret (MkCond l (op cond) (is_rhs_val cond) r v)
  else throw_db (IncompatibleTypeError (coltype2str (col_type lcol)) (coltype2str rhs_type)).

Fixpoint check_conds {S} (db : DbMeta) (all_cols : list ColMeta) (conds : list Condition) : M S (list Condition) :=
  match conds with
  | [] => ret []
  | c :: cs => c' ← check_cond db all_cols c; cs' ← check_conds db all_cols cs; ret (c' :: cs')
  end.

Definition check_where_clause {S} (db : DbMeta) (tab_names : list string) (conds : list Condition) : M S (list Condition) :=
  all_cols ← get_all_cols db tab_names;
  check_conds db all_cols conds.

Fixpoint find_index {S} (tab : TabMeta) (conds : list Condition) : M S Z :=
  match conds with
  | [] => ret (-1)
  | cond :: cs =>
      if is_rhs_val cond && negb (bool_decide (op cond = OP_NE)) then
        let it := get_col_it tab (tc_col (lhs_col cond)) in
        col ← deref_col tab it;
        if col_index col then ret (Z.of_nat (default 0%nat it)) else find_index tab cs
      else find_index tab cs
  end.

Definition get_indexNo {S} (db : DbMeta) (tab_name : string) (curr_conds : list Condition) : M S Z :=
  tab ← get_table db tab_name;
  find_index tab curr_conds.

(** [pop_conds]: the conditions on the given tables are taken out of [conds]. *)
Definition has_tab (tab_names : list string) (t : string) : bool := bool_decide (t ∈ tab_names).

Definition solvable (tab_names : list string) (c : Condition) : bool :=
  has_tab tab_names (tc_tab (lhs_col c)) && (is_rhs_val c || has_tab tab_names (tc_tab (rhs_col c))).

Fixpoint pop_conds (conds : list Condition) (tab_names : list string) : list Condition * list Condition :=
  match conds with
  | [] => ([], [])
  | c :: cs =>
      let '(solved, rest) := pop_conds cs tab_names in
      if solvable tab_names c then (c :: solved, rest) else (solved, c :: rest)
  end.

(** The loop of [select_from] over [i], with the call of [get_indexNo] it makes: the
    conditions taken out for a table go no further, and the ones left are returned.
    [seen] is the tables before [i]. *)
Fixpoint scan_tables {S} (db : DbMeta) (conds : list Condition) (seen tab_names : list string) : M S (list Condition) :=
  match tab_names with
  | [] => ret conds
  | t :: ts =>
      let '(curr_conds, conds) := pop_conds conds (seen ++ [t]) in
      _ ← get_indexNo db t curr_conds;
      scan_tables db conds (seen ++ [t]) ts
  end.

Fixpoint check_columns {S} (db : DbMeta) (all_cols : list ColMeta) (sel_cols : list TabCol) : M S (list TabCol) :=
  match sel_cols with
  | [] => ret []
  | t :: ts => t' ← check_column db all_cols t; ts' ← check_columns db all_cols ts; ret (t' :: ts')
  end.

(** [select_from]: the scans are never made, so the root of the plan is a null
    pointer, followed when the tuples are to be printed. *)
Definition select_from (db : DbMeta) (sel_cols : list TabCol) (tab_names : list string) (conds : list Condition) : M Reply unit :=
  all_cols ← get_all_cols db tab_names;
  sel_cols ← (match sel_cols with
              | [] => ret (col_key <$> all_cols)
              | _ => check_columns db all_cols sel_cols
              end);
  conds ← check_where_clause db tab_names conds;
  conds ← scan_tables db conds [] tab_names;
  assert_ (bool_decide (conds = [])) ;;
  (if bool_decide (tab_names = []) then crash_with OutOfBounds else ret tt) ;;
  rec_printer ← new_RecordPrinter (length sel_cols);
  print_separator rec_printer ;;
  print_record rec_printer (tc_col <$> sel_cols) ;;
  print_separator rec_printer ;;
  crash_with NullDeref.

(** [insert_into] has no body; [delete_from] follows a null executor after the
    where clause; [update_set] checks its clauses and stops. *)
Definition insert_into {S} (tab_name : string) (values : list Value) : M S unit := ret tt.

Definition delete_from {S} (db : DbMeta) (tab_name : string) (conds : list Condition) : M S unit :=
  _ ← check_where_clause db [tab_name] conds;
  crash_with NullDeref.

Record SetClause : Set := MkSetClause { set_lhs : TabCol; set_rhs : Value }.

Fixpoint check_set_clauses {S} (tab : TabMeta) (clauses : list SetClause) : M S (list SetClause) :=
  match clauses with
  | [] => ret []
  | c :: cs =>
      col ← deref_col tab (get_col_it tab (tc_col (set_lhs c)));
      if bool_decide (col_type col = v_type (set_rhs c)) then
        v ← init_raw (col_len col) (set_rhs c);
        cs' ← check_set_clauses tab cs;
        ret (MkSetClause (set_lhs c) v :: cs')
      else throw_db (IncompatibleTypeError (coltype2str (col_type col)) (coltype2str (v_type (set_rhs c))))
  end.

Definition update_set {S} (db : DbMeta) (tab_name : string) (clauses : list SetClause) (conds : list Condition) : M S unit :=
  tab ← get_table db tab_name;
  _ ← check_where_clause db [tab_name] conds;
  _ ← check_set_clauses tab clauses;
  ret tt.
