(* ===== verification/QuerySpec.v ===== *)
(** What the planner and the predicates promise.

    - the constructor of a scan turns conditions around without changing what
      they say ([orient_cond_sound]);
    - evaluating the conditions fed with the left tuple on the right tuple is
      evaluating the original ones on the joined tuple ([pushdown_correct]);
    - names are resolved to the one table that has them ([check_column_correct]);
    - a projection lays its columns out end to end ([projection_layout]). *)
From Stdlib Require Import SpecFloat Ascii String.
From S2P Require Import Prelude Config IxKey Meta Query.

(** ** Comparing is antisymmetric *)

Lemma int_compare_neg a b : int_compare b a = - int_compare a b.
Proof. unfold int_compare. destruct (Z.ltb_spec a b), (Z.ltb_spec b a); lia. Qed.

Lemma memcmp_neg n a b : memcmp b a n = - memcmp a b n.
Proof.
  revert a b. induction n as [|n IH]; intros [|x a] [|y b]; simpl; try lia.
  destruct (Z.ltb_spec x y), (Z.ltb_spec y x); try lia. apply IH.
Qed.

Lemma SFcompare_neg a b : SFcompare b a = CompOpp <$> SFcompare a b.
Proof.
  destruct a as [[]|[]| |[] m e], b as [[]|[]| |[] m' e']; simpl; try done; f_equal; rewrite (Z.compare_antisym e e');
    destruct (Z.compare e e'); simpl; try done; change (Pos.compare_cont Eq) with Pos.compare;
    rewrite (Pos.compare_antisym m m'); by destruct (Pos.compare m m').
Qed.

Lemma float_compare_neg a b : float_compare b a = - float_compare a b.
Proof. unfold float_compare. rewrite SFcompare_neg. by destruct (SFcompare a b) as [[]|]. Qed.

Lemma ix_compare_neg a b t n : ix_compare b a t n = - ix_compare a b t n.
Proof. destruct t; simpl; [apply int_compare_neg|apply float_compare_neg|apply memcmp_neg]. Qed.

Lemma op_holds_swap o n : op_holds (swap_op o) (- n) = op_holds o n.
Proof.
  destruct o; simpl; try (f_equal; apply eq_true_iff_eq; rewrite !Z.eqb_eq; lia).
  all: apply eq_true_iff_eq; rewrite ?Z.eqb_eq, ?Z.ltb_lt, ?Z.leb_le; lia.
Qed.

(** ** Columns *)

(** [get_col] finds the column [c]. *)
Definition finds (cs : list ColMeta) (t : TabCol) (c : ColMeta) : Prop :=
  ∃ i, list_find (λ c, col_tab_name c = tc_tab t ∧ col_name c = tc_col t) cs = Some (i, c).

Lemma get_col_finds {S} cs t c (s : S) :
  finds cs t c → ∃ i, get_col cs t s = (Ok (i, c), s).
Proof. intros [i H]. unfold get_col. rewrite H. by exists i. Qed.

Section Eval.
Context {S : Type}.

(** The pointer to a column stays inside the record. *)
Definition ptr_ok (rec : bytes) (c : ColMeta) : bool :=
  (0 <=? col_offset c) && (col_offset c <=? Z.of_nat (length rec)).
Definition ptr (rec : bytes) (c : ColMeta) : bytes := drop (Z.to_nat (col_offset c)) rec.

(** The comparison at the end of [eval_cond]. *)
Definition compare_at (o : CompOp) (t : ColType) (len : Z) (lhs rhs : bytes) : M S bool :=
  let n := field_width t len in
  if (n <=? length lhs)%nat && (n <=? length rhs)%nat then ret (op_holds o (ix_compare lhs rhs t len))
  else crash_with OutOfBounds.

Lemma at_col_run rec c (s : S) :
  at_col rec c s = if ptr_ok rec c then (Ok (ptr rec c), s) else (Crash OutOfBounds, s).
Proof. unfold at_col. fold (ptr_ok rec c). by destruct (ptr_ok rec c). Qed.

Lemma eval_cond_col cs c lc rc rec (s : S) :
  is_rhs_val c = false → finds cs (lhs_col c) lc → finds cs (rhs_col c) rc → col_type lc = col_type rc →
  eval_cond cs c rec s =
    if ptr_ok rec lc && ptr_ok rec rc
    then compare_at (op c) (col_type rc) (col_len lc) (ptr rec lc) (ptr rec rc) s else (Crash OutOfBounds, s).
Proof.
  intros Hv Hl Hr Ht. destruct (get_col_finds cs _ _ s Hl) as [i Hi], (get_col_finds cs _ _ s Hr) as [j Hj].
  unfold eval_cond. mstep Hi. unfold st_bind at 1. rewrite at_col_run. destruct (ptr_ok rec lc); [|done]. cbn [andb].
  unfold st_bind at 1, cond_rhs. rewrite Hv. mstep Hj. unfold st_bind at 1. rewrite at_col_run.
  destruct (ptr_ok rec rc); [|done]. unfold st_ret, st_bind, assert_. by rewrite Ht, bool_decide_true by done.
Qed.

Lemma eval_cond_val cs c lc raw rec (s : S) :
  is_rhs_val c = true → finds cs (lhs_col c) lc → v_raw (rhs_val c) = Some raw → v_type (rhs_val c) = col_type lc →
  eval_cond cs c rec s =
    if ptr_ok rec lc then compare_at (op c) (col_type lc) (col_len lc) (ptr rec lc) raw s else (Crash OutOfBounds, s).
Proof.
  intros Hv Hl Hr Ht. destruct (get_col_finds cs _ _ s Hl) as [i Hi].
  unfold eval_cond. mstep Hi. unfold st_bind at 1. rewrite at_col_run. destruct (ptr_ok rec lc); [|done].
  unfold st_bind at 1, cond_rhs. rewrite Hv, Hr. unfold st_ret, st_bind, assert_. by rewrite Ht, bool_decide_true by done.
Qed.

Lemma compare_at_swap o t len a b (s : S) : compare_at (swap_op o) t len b a s = compare_at o t len a b s.
Proof.
  unfold compare_at. rewrite (andb_comm (_ <=? length b)%nat). destruct (_ && _); [|done].
  by rewrite ix_compare_neg, op_holds_swap.
Qed.

(** A scan may turn a condition round. When a condition compares a column of
    another table with a column of its own, the constructor of the scan swaps
    the two sides and mirrors the operator; on any record with both columns, of
    one type and length, the condition it keeps evaluates to exactly what the
    one written would have (the same truth value, for every operator and also
    for floats that are not numbers), and its left side is the scan's own. *)
Theorem orient_cond_sound (cs : list ColMeta) (tab : string) (c : Condition) (lc rc : ColMeta) (rec : bytes) (s : S) :
  tc_tab (lhs_col c) ≠ tab → is_rhs_val c = false → tc_tab (rhs_col c) = tab →
  finds cs (lhs_col c) lc → finds cs (rhs_col c) rc →
  col_type lc = col_type rc → col_len lc = col_len rc →
  ∃ c', orient_cond tab c s = (Ok c', s) ∧ tc_tab (lhs_col c') = tab ∧
    eval_cond cs c' rec s = eval_cond cs c rec s.
Proof.
  intros Hl Hv Hr Hfl Hfr Hty Hlen. unfold orient_cond. rewrite bool_decide_false by done.
  rewrite Hv, bool_decide_true by done. eexists. split; [done|]. split; [done|].
  rewrite (eval_cond_col cs c lc rc), (eval_cond_col cs _ rc lc) by done. simpl.
  rewrite (andb_comm (ptr_ok rec rc)), Hty, Hlen. destruct (_ && _); [|done]. apply compare_at_swap.
Qed.

End Eval.

(** ** Well-typed conditions *)

(** A column lies in the record, and numbers are four bytes wide. *)
Definition col_fits (rec : bytes) (c : ColMeta) : Prop :=
  0 ≤ col_offset c ∧ 0 ≤ col_len c ∧ col_offset c + col_len c ≤ Z.of_nat (length rec) ∧
  (col_type c ≠ TYPE_STRING → col_len c = 4).

Definition field (rec : bytes) (c : ColMeta) : bytes := slice (Z.to_nat (col_offset c)) (Z.to_nat (col_len c)) rec.

(** What [check_where_clause] asks of a condition on the columns [cs], and that
    the two sides are equally long. *)
Definition cond_typed (cs : list ColMeta) (c : Condition) : Prop :=
  ∃ lc, finds cs (lhs_col c) lc ∧
    if is_rhs_val c then
      v_type (rhs_val c) = col_type lc ∧ ∃ raw, v_raw (rhs_val c) = Some raw ∧ length raw = Z.to_nat (col_len lc)
    else ∃ rc, finds cs (rhs_col c) rc ∧ col_type rc = col_type lc ∧ col_len rc = col_len lc.

Lemma finds_elem cs t c : finds cs t c → c ∈ cs ∧ col_tab_name c = tc_tab t ∧ col_name c = tc_col t.
Proof. intros [i (H & Ht & _)%list_find_Some]. split; [by eapply list_elem_of_lookup_2|done]. Qed.

Lemma field_width_fits rec c : col_fits rec c → field_width (col_type c) (col_len c) = Z.to_nat (col_len c).
Proof. intros (_ & _ & _ & H). destruct (col_type c); simpl; [by rewrite H|by rewrite H|done]. Qed.

Lemma ptr_ok_fits rec c : col_fits rec c → ptr_ok rec c = true.
Proof. intros (? & ? & ? & _). unfold ptr_ok. apply andb_true_iff. rewrite !Z.leb_le. lia. Qed.

Lemma ptr_field rec c : take (Z.to_nat (col_len c)) (ptr rec c) = field rec c.
Proof. done. Qed.

Lemma length_ptr_fits rec c : col_fits rec c → (Z.to_nat (col_len c) ≤ length (ptr rec c))%nat.
Proof. intros (? & ? & ? & _). unfold ptr. rewrite length_drop. lia. Qed.

(** A comparison reads no more than the field's width. *)
Lemma memcmp_take n a b : memcmp (take n a) (take n b) n = memcmp a b n.
Proof.
  revert a b. induction n as [|n IH]; intros [|x a] [|y b]; simpl; try done. by rewrite IH.
Qed.

Lemma get_int_take a : get_int 0 (take 4 a) = get_int 0 a.
Proof. unfold get_int, slice. rewrite !drop_0, take_take. done. Qed.

Lemma ix_compare_take a b t len :
  ix_compare (take (field_width t len) a) (take (field_width t len) b) t len = ix_compare a b t len.
Proof.
  destruct t; simpl field_width; unfold ix_compare.
  - by rewrite !get_int_take.
  - unfold float_of_bytes. by rewrite !take_take.
  - apply memcmp_take.
Qed.

Section Typed.
Context {S : Type}.

Lemma compare_at_ok o t len a b (s : S) :
  (field_width t len ≤ length a)%nat → (field_width t len ≤ length b)%nat →
  compare_at o t len a b s
    = (Ok (op_holds o (ix_compare (take (field_width t len) a) (take (field_width t len) b) t len)), s).
Proof.
  intros Ha Hb. unfold compare_at. by rewrite (proj2 (Nat.leb_le _ _) Ha), (proj2 (Nat.leb_le _ _) Hb), ix_compare_take.
Qed.

(** The two fields a well-typed condition compares. *)
Lemma eval_cond_typed cs c rec (s : S) :
  Forall (col_fits rec) cs → cond_typed cs c →
  ∃ lc rhs, finds cs (lhs_col c) lc ∧
    (if is_rhs_val c then v_raw (rhs_val c) = Some rhs
     else ∃ rc, finds cs (rhs_col c) rc ∧ rhs = field rec rc) ∧
    eval_cond cs c rec s = (Ok (op_holds (op c) (ix_compare (field rec lc) rhs (col_type lc) (col_len lc))), s).
Proof.
  intros Hcs (lc & Hl & Hr). pose proof (finds_elem _ _ _ Hl) as [Hin _].
  pose proof (proj1 (Forall_forall _ _) Hcs lc Hin) as Hf. pose proof (field_width_fits _ _ Hf) as Hw.
  pose proof (length_ptr_fits _ _ Hf) as Hlp. exists lc. destruct (is_rhs_val c) eqn:Hv.
  - destruct Hr as (Ht & raw & Hraw & Hlen). exists raw. split; [done|]. split; [done|].
    rewrite (eval_cond_val cs c lc raw) by done. rewrite (ptr_ok_fits _ _ Hf), compare_at_ok by (rewrite Hw; lia).
    rewrite Hw. by rewrite (take_ge raw), ptr_field by lia.
  - destruct Hr as (rc & Hrc & Ht & Hlen). pose proof (finds_elem _ _ _ Hrc) as [Hin' _].
    pose proof (proj1 (Forall_forall _ _) Hcs rc Hin') as Hf'. pose proof (length_ptr_fits _ _ Hf') as Hlp'.
    exists (field rec rc). split; [done|]. split; [by exists rc|].
    rewrite (eval_cond_col cs c lc rc), Ht by done. rewrite (ptr_ok_fits _ _ Hf), (ptr_ok_fits _ _ Hf'). simpl.
    rewrite compare_at_ok by (rewrite Hw; lia). rewrite Hw, ptr_field. by rewrite <- Hlen at 1.
Qed.

(** [C35] Well-typed conditions do not go wrong. When every column lies inside the
    record, and every condition compares a column with a value or column of the
    same type and width, [eval_conds] returns: it throws nothing, follows no
    null pointer and reads nothing past the record or the value, whatever the
    bytes are, and it answers whether all the conditions hold. *)
Theorem eval_conds_type_safe (cs : list ColMeta) (conds : list Condition) (rec : bytes) (s : S) :
  Forall (col_fits rec) cs → Forall (cond_typed cs) conds →
  ∃ b, eval_conds cs conds rec s = (Ok b, s) ∧
    (b = true ↔ ∀ c, c ∈ conds → eval_cond cs c rec s = (Ok true, s)).
Proof.
  intros Hcs Hconds. induction Hconds as [|c conds Hc _ (b & IH & Hb)]; simpl.
  - exists true. split; [done|]. split; [|done]. by intros _ c ?%not_elem_of_nil.
  - destruct (eval_cond_typed cs c rec s Hcs Hc) as (lc & rhs & _ & _ & Hev).
    destruct (op_holds _ _) eqn:E; rewrite (st_bind_ok _ _ _ _ _ Hev).
    + exists b. split; [done|]. rewrite Hb. split; [|by intros H x Hx; apply H; right].
      intros H x [->|Hx]%elem_of_cons; auto.
    + exists false. split; [done|]. split; [done|]. intros H. specialize (H c ltac:(by left)). congruence.
Qed.

End Typed.

(** ** Feeding a tuple to the right side of a join *)

(** A string field holds a C string: after the first NUL there are only NULs. *)
Definition padded (rec : bytes) (c : ColMeta) : Prop :=
  col_type c = TYPE_STRING → field rec c = cstr (field rec c) ++ zeros (length (field rec c) - length (cstr (field rec c))).

Lemma length_cstr s : (length (cstr s) ≤ length s)%nat.
Proof. induction s as [|x s IH]; simpl; [lia|]. destruct (x =? 0); simpl; lia. Qed.

(** Four bytes read as an [int] and written again. *)
Lemma le32_mod z : le32 (z `mod` 4294967296) = le32 z.
Proof.
  symmetry. rewrite <- (Z_to_little_endian_to_Z 4 8 (le32 z)); [|by rewrite length_le32|lia|apply bytes_ok_le32].
  unfold le32. by rewrite little_endian_to_Z_to_little_endian by lia.
Qed.

Lemma le32_of_le32 bs : bytes_ok bs → length bs = 4%nat → le32 (of_le32 bs) = bs.
Proof.
  intros Hb Hl. unfold of_le32. rewrite <- le32_mod. unfold wrap32. rewrite Zminus_mod_idemp_l.
  replace (little_endian_to_Z 8 bs + 2147483648 - 2147483648) with (little_endian_to_Z 8 bs) by lia.
  rewrite le32_mod. apply Z_to_little_endian_to_Z; [by rewrite Hl|lia|done].
Qed.

Lemma bytes_ok_field rec c : bytes_ok rec → bytes_ok (field rec c).
Proof. intros H. unfold field, slice. by apply Forall_take, Forall_drop. Qed.

Lemma length_field rec c : col_fits rec c → length (field rec c) = Z.to_nat (col_len c).
Proof. intros (? & ? & ? & _). unfold field. apply length_slice. lia. Qed.

Section Pushdown.
Context {S : Type}.

(** The value made of a field has the field's bytes as its raw buffer. *)
Lemma col_value_ok rec c (s : S) :
  bytes_ok rec → col_fits rec c → padded rec c →
  ∃ v0 v, col_value rec c s = (Ok v0, s) ∧ init_raw (col_len c) v0 s = (Ok v, s) ∧
    v_type v = col_type c ∧ v_raw v = Some (field rec c).
Proof.
  intros Hb Hf Hp. unfold col_value, st_bind at 1. rewrite at_col_run, (ptr_ok_fits _ _ Hf).
  pose proof (length_ptr_fits _ _ Hf) as Hptr.
  pose proof (length_field _ _ Hf) as Hl. pose proof Hf as (_ & Hlen & _ & H4).
  assert (col_type c ≠ TYPE_STRING → le32 (get_int 0 (ptr rec c)) = field rec c) as Hnum.
  { intros Ht. specialize (H4 Ht). rewrite <- get_int_take. unfold get_int, slice. rewrite drop_0, take_take.
    replace (Nat.min 4 4) with (Z.to_nat (col_len c)) by (by rewrite H4). rewrite ptr_field.
    apply le32_of_le32; [by apply bytes_ok_field|]. rewrite Hl, H4. done. }
  unfold init_raw, st_bind, assert_, st_ret. destruct (col_type c) eqn:Ht.
  1,2: rewrite (H4 ltac:(done)) in *; rewrite (proj2 (Nat.leb_le 4 _) Hptr); eexists _, _; (split; [done|]);
    simpl; (split; [done|]); (split; [done|]); simpl; f_equal; by apply Hnum.
  rewrite (proj2 (Z.ltb_ge _ 0)), (proj2 (Z.leb_le _ _)) by lia.
  rewrite ptr_field. pose proof (length_cstr (field rec c)). eexists _, _. split; [done|]. simpl.
  rewrite (proj2 (Z.ltb_ge _ _)) by lia. split; [done|]. split; [done|]. simpl. f_equal.
  rewrite <- Hl. symmetry. exact (Hp Ht).
Qed.

Lemma rec2dict_ok rec cs acc (s : S) :
  bytes_ok rec → Forall (col_fits rec) cs → Forall (padded rec) cs → NoDup (col_key <$> cs) →
  (∀ c, c ∈ cs → acc !! col_key c = None) →
  ∃ d, rec2dict acc cs rec s = (Ok d, s) ∧
    (∀ c, c ∈ cs → ∃ v, d !! col_key c = Some v ∧ v_type v = col_type c ∧ v_raw v = Some (field rec c)) ∧
    (∀ k, k ∉ col_key <$> cs → d !! k = acc !! k).
Proof.
  intros Hb Hf Hp. revert acc. induction Hf as [|c cs Hc Hf IH]; intros acc Hnd Hacc; simpl.
  - exists acc. split; [done|]. split; [|done]. by intros c ?%not_elem_of_nil.
  - apply Forall_cons in Hp as [Hpc Hp]. simpl in Hnd. apply NoDup_cons in Hnd as [Hnin Hnd].
    destruct (col_value_ok rec c s Hb Hc Hpc) as (v0 & v & Hv & Hi & Hty & Hraw).
    mstep Hv. unfold st_bind at 1, assert_. rewrite bool_decide_true by (apply Hacc; by left). cbn [st_ret]. mstep Hi.
    destruct (IH Hp (<[col_key c := v]> acc) Hnd) as (d & Hd & Hin & Hout).
    { intros c' Hc'. rewrite lookup_insert_ne; [apply Hacc; by right|]. intros E. apply Hnin. rewrite E.
      by apply list_elem_of_fmap_2. }
    exists d. split; [done|]. split.
    + intros c' [->|Hc']%elem_of_cons; [|by apply Hin]. exists v. rewrite Hout by done. by rewrite lookup_insert_eq.
    + intros k [Hk Hk']%not_elem_of_cons. rewrite Hout by done. by rewrite lookup_insert_ne.
Qed.

(** *** The joined tuple *)

Section Join.
Context (L R : list ColMeta) (tab : string) (lrec rrec : bytes).
Context (HL : Forall (col_fits lrec) L) (HR : Forall (col_fits rrec) R).
Context (HtL : Forall (λ c, col_tab_name c ≠ tab) L) (HtR : Forall (λ c, col_tab_name c = tab) R).
Context (Hsize : Z.of_nat (length lrec + length rrec) ≤ int_max).

Abbreviation llen := (Z.of_nat (length lrec)).
Abbreviation J := (join_cols L llen R).
Abbreviation jrec := (lrec ++ rrec).

Lemma shift_offset c : c ∈ R → col_offset (shift_col llen c) = col_offset c + llen.
Proof using HR Hsize.
  intros Hc. destruct (proj1 (Forall_forall _ _) HR c Hc) as (? & ? & ? & _). simpl. apply wrap32_id.
  unfold is_int, int_min, int_max in *. lia.
Qed.

Lemma join_fits : Forall (col_fits jrec) J.
Proof using HL HR Hsize.
  unfold join_cols. apply Forall_app_2.
  - eapply Forall_impl; [exact HL|]. intros c (? & ? & ? & ?). split_and!; try done. rewrite length_app. lia.
  - apply Forall_fmap, Forall_forall. intros c Hc. pose proof (shift_offset c Hc) as Ho.
    destruct (proj1 (Forall_forall _ _) HR c Hc) as (? & ? & ? & ?). simpl. unfold col_fits. rewrite Ho.
    simpl. rewrite length_app. split_and!; try done; lia.
Qed.

Lemma field_left c : c ∈ L → field jrec c = field lrec c.
Proof using HL Hsize.
  intros Hc. destruct (proj1 (Forall_forall _ _) HL c Hc) as (? & ? & ? & _). unfold field, slice.
  rewrite drop_app_le by lia. rewrite take_app_le; [done|]. rewrite length_drop. lia.
Qed.

Lemma field_right c : c ∈ R → field jrec (shift_col llen c) = field rrec c.
Proof using HR Hsize.
  intros Hc. pose proof (shift_offset c Hc) as Ho. destruct (proj1 (Forall_forall _ _) HR c Hc) as (? & ? & ? & _).
  unfold field, slice. rewrite Ho. simpl. rewrite drop_app_ge by lia. do 2 f_equal. lia.
Qed.

(** A column of this table is found among the right columns, any other among the
    left ones. *)
Lemma finds_right t jc : tc_tab t = tab → finds J t jc → ∃ c, finds R t c ∧ jc = shift_col llen c.
Proof using HtL.
  intros Ht [i [H|(Hi & _ & H)]%list_find_app_Some].
  - apply list_find_Some in H as (Hl & [E _] & _). apply list_elem_of_lookup_2 in Hl.
    destruct (proj1 (Forall_forall _ _) HtL jc Hl). congruence.
  - apply list_find_Some in H as (Hl & HP & Hmin). apply list_lookup_fmap_Some in Hl as (c & -> & Hc).
    exists c. split; [|done]. exists (i - length L)%nat. apply list_find_Some. split; [done|]. split; [done|].
    intros j y Hj Hlt HPy. apply (Hmin j (shift_col llen y)); [|done|done]. by rewrite list_lookup_fmap, Hj.
Qed.

Lemma finds_left t jc : tc_tab t ≠ tab → finds J t jc → finds L t jc.
Proof using HtR.
  intros Ht [i [H|(Hi & _ & H)]%list_find_app_Some]; [by exists i|]. exfalso.
  apply list_find_Some in H as (Hl & [E _] & _). apply list_lookup_fmap_Some in Hl as (c & -> & Hc).
  apply list_elem_of_lookup_2 in Hc. simpl in E. apply Ht. rewrite <- E. by apply (proj1 (Forall_forall _ _) HtR c).
Qed.

Lemma finds_fun cs t c c' : finds cs t c → finds cs t c' → c = c'.
Proof. intros [i H] [j H']. congruence. Qed.

(** One condition. *)
Lemma feed_cond_ok dict c (s : S) :
  (∀ rc, rc ∈ L → ∃ v, dict !! col_key rc = Some v ∧ v_type v = col_type rc ∧ v_raw v = Some (field lrec rc)) →
  tc_tab (lhs_col c) = tab → cond_typed J c →
  ∃ c', feed_cond tab dict c s = (Ok c', s) ∧ check_runtime_cond tab c' = true ∧ cond_typed R c' ∧
    eval_cond R c' rrec s = eval_cond J c jrec s.
Proof using All.
  intros Hd Hl Hty. destruct (eval_cond_typed J c jrec s join_fits Hty) as (jl & rhs & Hjl & Hrhs & Hev).
  destruct Hty as (jl' & Hjl' & Hr). assert (jl' = jl) as -> by (by eapply finds_fun). clear Hjl'.
  destruct (finds_right _ _ Hl Hjl) as (lc & Hlc & ->). pose proof (proj1 (finds_elem _ _ _ Hlc)) as Hin.
  rewrite (field_right lc Hin) in Hev. simpl in Hev, Hr.
  assert (∀ c', cond_typed R c' → lhs_col c' = lhs_col c → op c' = op c →
            (if is_rhs_val c' then v_raw (rhs_val c') = Some rhs
             else ∃ rc, finds R (rhs_col c') rc ∧ rhs = field rrec rc) →
            eval_cond R c' rrec s = eval_cond J c jrec s) as Heval.
  { intros c' Hty' El Eo Er. destruct (eval_cond_typed R c' rrec s HR Hty') as (lc' & rhs' & Hlc' & Hrhs' & Hev').
    rewrite El in Hlc'. assert (lc' = lc) as -> by (by eapply finds_fun). rewrite Hev', Hev, Eo.
    assert (rhs' = rhs) as ->; [|done]. destruct (is_rhs_val c'); [congruence|].
    destruct Er as (rc & Hrc & ->), Hrhs' as (rc' & Hrc' & ->). f_equal. by eapply finds_fun. }
  unfold feed_cond, check_runtime_cond. destruct (is_rhs_val c) eqn:Hv; simpl.
  - exists c. rewrite Hv, Hl, bool_decide_true by done. split; [done|]. split; [done|].
    assert (cond_typed R c) as Ht by (exists lc; split; [done|]; by rewrite Hv). split; [done|].
    apply Heval; try done. by rewrite Hv.
  - destruct Hr as (jr & Hjr & Ety & Elen). destruct Hrhs as (jr' & Hjr' & ->).
    assert (jr' = jr) as -> by (by eapply finds_fun). destruct (decide (tc_tab (rhs_col c) = tab)) as [Et|Et].
    + destruct (finds_right _ _ Et Hjr) as (rc & Hrc & ->). rewrite bool_decide_true by done. simpl.
      exists c. rewrite Hv, Hl, Et, !bool_decide_true by done. split; [done|]. split; [done|].
      assert (cond_typed R c) as Ht by (exists lc; split; [done|]; rewrite Hv; by exists rc). split; [done|].
      apply Heval; try done. rewrite Hv. exists rc. split; [done|]. apply field_right. by apply (finds_elem _ _ _ Hrc).
    + pose proof (finds_left _ _ Et Hjr) as Hrc. destruct (finds_elem _ _ _ Hrc) as (Hrin & E1 & E2).
      rewrite bool_decide_false by done. simpl. destruct (Hd jr Hrin) as (v & Hv' & Hvt & Hvr).
      replace (rhs_col c) with (col_key jr) by (unfold col_key; rewrite E1, E2; by destruct (rhs_col c)).
      rewrite Hv'. eexists. split; [done|]. simpl. rewrite Hl, bool_decide_true by done. split; [done|].
      assert (cond_typed R (MkCond (lhs_col c) (op c) true (col_key jr) v)) as Ht.
      { exists lc. split; [done|]. simpl. split; [congruence|]. exists (field lrec jr). split; [done|].
        rewrite length_field by (by apply (proj1 (Forall_forall _ _) HL)). congruence. }
      split; [done|]. apply Heval; try done. simpl. by rewrite Hvr, (field_left jr Hrin).
Qed.

Lemma feed_conds_ok dict conds (s : S) :
  (∀ rc, rc ∈ L → ∃ v, dict !! col_key rc = Some v ∧ v_type v = col_type rc ∧ v_raw v = Some (field lrec rc)) →
  Forall (λ c, tc_tab (lhs_col c) = tab ∧ cond_typed J c) conds →
  ∃ fed, feed tab conds dict s = (Ok fed, s) ∧ Forall (cond_typed R) fed ∧
    eval_conds R fed rrec s = eval_conds J conds jrec s.
Proof using All.
  intros Hd Hc. assert (∃ fed, feed_conds tab dict conds s = (Ok fed, s) ∧
    check_runtime_conds tab fed s = (Ok tt, s) ∧ Forall (cond_typed R) fed ∧
    eval_conds R fed rrec s = eval_conds J conds jrec s) as (fed & H1 & H2 & H3 & H4).
  { induction Hc as [|c conds [Hl Hty] _ (fed & I1 & I2 & I3 & I4)]; [by exists []|].
    destruct (feed_cond_ok dict c s Hd Hl Hty) as (c' & J1 & J2 & J3 & J4). exists (c' :: fed).
    cbn [feed_conds eval_conds]. rewrite (st_bind_ok _ _ _ _ _ J1), (st_bind_ok _ _ _ _ _ I1).
    split; [done|]. split; [|split; [by constructor|]].
    - unfold check_runtime_conds in *. simpl. unfold st_bind, assert_. by rewrite J2.
    - unfold st_bind. rewrite J4. destruct (eval_cond J c jrec s) as [[[]|?|?] s'] eqn:E; try done.
      destruct (eval_cond_typed J c jrec s join_fits Hty) as (? & ? & _ & _ & E'). congruence. }
  exists fed. unfold feed. rewrite (st_bind_ok _ _ _ _ _ H1), (st_bind_ok _ _ _ _ _ H2). by split_and!.
Qed.

End Join.

(** [C34] Pushing conditions below a join is sound. The join executor turns the
    left tuple into values, feeds them to the right scan, which replaces every
    column of another table in its conditions by such a value, and evaluates
    them on its own tuples only.  Provided that the columns lie in their records,
    that string fields of the left tuple are padded with zero bytes after their
    first one, that the left side of each condition is a column of the right table,
    and that both sides of each condition have the same type and the same width:
    feeding returns, the fed conditions pass the scan's run-time check and are
    well-typed, and on every right tuple they evaluate exactly as the conditions of
    the query do on the concatenation of the two tuples with the join's columns.
    (For strings of different widths, which [check_where_clause] lets through, the
    two differ.) *)
Theorem pushdown_correct (L R : list ColMeta) (tab : string) (lrec : bytes) (prev : gmap TabCol Value)
    (conds : list Condition) (s : S) :
  Forall (col_fits lrec) L → Forall (λ c, col_tab_name c ≠ tab) L → Forall (λ c, col_tab_name c = tab) R →
  bytes_ok lrec → Forall (padded lrec) L → NoDup (col_key <$> L) → (∀ c, c ∈ L → prev !! col_key c = None) →
  Forall (λ c, tc_tab (lhs_col c) = tab ∧ cond_typed (join_cols L (Z.of_nat (length lrec)) R) c) conds →
  ∃ dict, feed_right_dict prev L lrec s = (Ok dict, s) ∧
    ∀ rrec, Forall (col_fits rrec) R → Z.of_nat (length lrec + length rrec) ≤ int_max →
    ∃ fed, feed tab conds dict s = (Ok fed, s) ∧ Forall (cond_typed R) fed ∧
      eval_conds R fed rrec s = eval_conds (join_cols L (Z.of_nat (length lrec)) R) conds (lrec ++ rrec) s.
Proof.
  intros HL HtL HtR Hb Hp Hnd Hprev Hc.
  destruct (rec2dict_ok lrec L ∅ s Hb HL Hp Hnd) as (d & Hd & Hin & _); [intros; apply lookup_empty|].
  exists (prev ∪ d). unfold feed_right_dict. rewrite (st_bind_ok _ _ _ _ _ Hd). split; [done|]. intros rrec HR Hsize.
  apply (feed_conds_ok L R tab lrec rrec); try done. intros rc Hrc.
  destruct (Hin rc Hrc) as (v & Hv & ?). exists v. rewrite lookup_union_r by auto. done.
Qed.

End Pushdown.

(** ** Taking conditions out *)

(** [pop_conds] parts the conditions the tables decide from the others, in order. *)
Lemma pop_conds_filter conds tabs :
  pop_conds conds tabs = (filter (λ c, solvable tabs c = true) conds, filter (λ c, solvable tabs c = false) conds).
Proof.
  induction conds as [|c conds IH]; [done|]. cbn [pop_conds]. rewrite IH, !filter_cons.
  destruct (solvable tabs c); repeat case_decide; done.
Qed.

(** ** Resolving names *)

(** The columns of a name. *)
Definition cols_named (all_cols : list ColMeta) (name : string) : list ColMeta :=
  filter (λ c, col_name c = name) all_cols.

Lemma infer_tab_run {S} all_cols name tab (s : S) :
  Forall (λ c, col_tab_name c ≠ EmptyString) all_cols →
  infer_tab all_cols name tab s =
    match cols_named all_cols name with
    | [] => (Ok tab, s)
    | [c] => if String.eqb tab EmptyString then (Ok (col_tab_name c), s) else (Throw (RedBase (AmbiguousColumnError name)), s)
    | _ => (Throw (RedBase (AmbiguousColumnError name)), s)
    end.
Proof.
  intros H. revert tab. induction H as [|c cs Hc _ IH]; intros tab; [done|]. cbn [infer_tab]. unfold cols_named.
  rewrite filter_cons. fold (cols_named cs name). case_bool_decide as E; [rewrite decide_True by done|by rewrite decide_False by done].
  destruct (String.eqb tab EmptyString) eqn:Et; simpl; [|by destruct (cols_named cs name)].
  rewrite IH. destruct (String.eqb_spec (col_tab_name c) EmptyString) as [|_]; [done|].
  by destruct (cols_named cs name) as [|? []].
Qed.

(** [C36] Names without a table. Among columns of named tables, a column written
    without its table is resolved to the table of the only column of that name
    among the tables selected from; it is refused as unknown when there is none
    and as ambiguous when there are two or more. (Of columns written with their
    table it says nothing; see [qualified_column_refused].) *)
Theorem check_column_correct {S} (db : DbMeta) (all_cols : list ColMeta) (name : string) (s : S) :
  Forall (λ c, col_tab_name c ≠ EmptyString) all_cols →
  check_column db all_cols (MkTabCol EmptyString name) s =
    match cols_named all_cols name with
    | [] => (Throw (RedBase (ColumnNotFoundError name)), s)
    | [c] => (Ok (MkTabCol (col_tab_name c) name), s)
    | _ => (Throw (RedBase (AmbiguousColumnError name)), s)
    end.
Proof.
  intros H. unfold check_column. simpl. unfold st_bind. rewrite infer_tab_run by done.
  destruct (cols_named all_cols name) as [|c [|]] eqn:Ec; try done.
  assert (c ∈ all_cols) as Hc.
  { apply (list_elem_of_filter (λ c, col_name c = name)). unfold cols_named in Ec. rewrite Ec. by left. }
  simpl. destruct (String.eqb_spec (col_tab_name c) EmptyString) as [E'|]; [|done].
  by destruct (proj1 (Forall_forall _ _) H c Hc).
Qed.

(** A column written with its table, which the code means to check against the
    catalogue, is refused whether it exists or not: [TabMeta::is_col]
    is a stub that answers [false]. *)
Lemma qualified_column_refused {S} (db : DbMeta) (all_cols : list ColMeta) (target : TabCol) (s : S) :
  tc_tab target ≠ EmptyString →
  check_column db all_cols target s =
    (Throw (RedBase (ColumnNotFoundError (tc_tab target +:+ "." +:+ tc_col target))), s).
Proof.
  intros Hne. unfold check_column. rewrite (proj2 (String.eqb_neq _ _) Hne).
  unfold is_table, st_bind, get_table. case_bool_decide as E; [|done]. by destruct E as [tab ->].
Qed.

Module QueryRuns.

(** A query over two tables: the grades of each student. *)
Definition s_id : ColMeta := MkColMeta "s" "id" TYPE_INT 4 0 true.
Definition s_name : ColMeta := MkColMeta "s" "name" TYPE_STRING 8 4 false.
Definition g_sid : ColMeta := MkColMeta "g" "sid" TYPE_INT 4 0 false.
Definition g_who : ColMeta := MkColMeta "g" "who" TYPE_STRING 8 4 false.
Definition g_score : ColMeta := MkColMeta "g" "score" TYPE_FLOAT 4 12 false.
Definition L : list ColMeta := [s_id; s_name].
Definition R : list ColMeta := [g_sid; g_who; g_score].

Definition no_value : Value := value_int 0.
Definition sixty : Value := with_raw [0; 0; 112; 66] (value_float 1114636288).
Definition c_id : Condition := MkCond (MkTabCol "s" "id") OP_EQ false (MkTabCol "g" "sid") no_value.
Definition c_id' : Condition := MkCond (MkTabCol "g" "sid") OP_EQ false (MkTabCol "s" "id") no_value.
Definition c_who : Condition := MkCond (MkTabCol "g" "who") OP_LE false (MkTabCol "s" "name") no_value.
Definition c_score : Condition := MkCond (MkTabCol "g" "score") OP_GT true (MkTabCol "" "") sixty.

Definition bob : bytes := [98; 111; 98; 0; 0; 0; 0; 0].
Definition student7 : bytes := le32 7 ++ bob.
Definition grade7 : bytes := le32 7 ++ bob ++ [0; 0; 160; 66].

Ltac fits := repeat (apply Forall_cons_2 || apply Forall_nil_2); unfold col_fits; simpl; split_and!; done || lia.
Ltac found := eexists; split; [by eexists; vm_compute|]; simpl.

Lemma L_fits : Forall (col_fits student7) L.
Proof. fits. Qed.

Lemma R_fits : Forall (col_fits grade7) R.
Proof. fits. Qed.

Lemma conds_typed : Forall (λ c, tc_tab (lhs_col c) = "g"%string ∧ cond_typed (join_cols L 12 R) c) [c_id'; c_who; c_score].
Proof.
  repeat (apply Forall_cons_2 || apply Forall_nil_2); (split; [done|]).
  - found. found. done.
  - found. found. done.
  - found. split; [done|]. eexists. done.
Qed.

Lemma pushdown_correct_witness :
  ∃ dict, feed_right_dict ∅ L student7 tt = (Ok dict, tt) ∧
    ∃ fed, feed "g" [c_id'; c_who; c_score] dict tt = (Ok fed, tt) ∧ Forall (cond_typed R) fed ∧
      eval_conds R fed grade7 tt = eval_conds (join_cols L 12 R) [c_id'; c_who; c_score] (student7 ++ grade7) tt.
Proof.
  destruct (pushdown_correct L R "g" student7 ∅ [c_id'; c_who; c_score] tt) as (dict & Hd & H).
  - apply L_fits.
  - by repeat constructor.
  - by repeat constructor.
  - by apply (bool_decide_unpack (bytes_ok student7)); vm_compute.
  - repeat (apply Forall_cons_2 || apply Forall_nil_2); by vm_compute.
  - by apply (bool_decide_unpack (NoDup (col_key <$> L))); vm_compute.
  - intros. apply lookup_empty.
  - apply conds_typed.
  - exists dict. split; [exact Hd|]. apply (H grade7); [apply R_fits|by vm_compute].
Defined.

(** ... and the conditions do hold on that pair of tuples. *)
Lemma pair_selected : (eval_conds (join_cols L 12 R) [c_id'; c_who; c_score] (student7 ++ grade7) tt).1 = Ok true.
Proof. by vm_compute. Qed.

Lemma orient_cond_sound_witness :
  ∃ c', orient_cond "g" c_id tt = (Ok c', tt) ∧ tc_tab (lhs_col c') = "g"%string ∧
    eval_cond (join_cols L 12 R) c' (student7 ++ grade7) tt = eval_cond (join_cols L 12 R) c_id (student7 ++ grade7) tt.
Proof.
  apply (orient_cond_sound (join_cols L 12 R) "g" c_id s_id (shift_col 12 g_sid)); try done.
  - by exists 0%nat.
  - by exists 2%nat.
Defined.

Lemma eval_conds_type_safe_witness :
  ∃ b, eval_conds R [c_score] grade7 tt = (Ok b, tt) ∧
    (b = true ↔ ∀ c, c ∈ [c_score] → eval_cond R c grade7 tt = (Ok true, tt)).
Proof.
  apply (eval_conds_type_safe R [c_score] grade7 tt); [apply R_fits|].
  apply Forall_cons_2; [|apply Forall_nil_2]. found. split; [done|]. eexists. done.
Defined.

Lemma check_column_correct_witness :
  check_column new_DbMeta (L ++ R) (MkTabCol EmptyString "who") tt = (Ok (MkTabCol "g" "who"), tt).
Proof. apply (check_column_correct new_DbMeta (L ++ R) "who" tt). by repeat constructor. Defined.

(** Strings of different widths: the comparison reads the left column's width on
    both sides, so it runs into the column behind the shorter one. *)
Definition t_a : ColMeta := MkColMeta "t" "a" TYPE_STRING 4 0 false.
Definition t_b : ColMeta := MkColMeta "t" "b" TYPE_STRING 2 4 false.
Definition t_c : ColMeta := MkColMeta "t" "c" TYPE_INT 4 6 false.

Lemma widths_differ_compare_wrong :
  (eval_cond [t_a; t_b; t_c] (MkCond (MkTabCol "t" "a") OP_EQ false (MkTabCol "t" "b") no_value)
     ([120; 0; 0; 0] ++ [120; 0] ++ le32 257) tt).1 = Ok false.
Proof. by vm_compute. Qed.

End QueryRuns.
