(* ===== verification/Executor.v ===== *)
(** The executors at run time: [execution/executor_*.h].

    The tree of executors a plan builds is [Executor]; a virtual call is a match
    on it.  An executor reads its table through the file handle of
    [SmManager::fhs_] and the shared buffer pool, so the methods are computations
    on [SmManager] that return the changed executor.  Loops have fuel.

    A buffer that [new char[len]] made and nobody wrote is [None].
    [IndexScanExecutor]'s constructor sets no member: its vectors are empty, its
    scan is null and its pointers are uninitialised. *)
From S2P Require Import Prelude Config Posix PageStore Disk Replacer BufferPool PoolSpec Record RecordSpec RecordScan RecordRuns Meta Catalog Query.

Section Executors.
Context {OS R : Type} {PX : Posix OS} {RP : Replacer R}.
Abbreviation SmManager := (SmManager OS R).
Abbreviation RmState := (RmState (DiskManager OS) R).

(** ** File handles *)

Definition file_of (s : SmManager) (fh : Z * RmFileHdr) : RmState := MkRm (sm_pool s) fh.1 fh.2.

(** A call on [fh_]: the handle of [tab_name] and the pool. *)
Definition on_file {A} (tab_name : string) (m : M RmState A) : M SmManager A := λ s,
  match fhs_ s !! tab_name with
  | None => (Crash NullDeref, s)
  | Some fh =>
      let '(r, st) := m (file_of s fh) in
      (r, with_fhs (<[tab_name := (fd_ st, file_hdr_ st)]> (fhs_ s)) (with_sm_pool (rm_pool st) s))
  end.

(** [sm_manager_->fhs_.at(tab_name)]. *)
Definition fhs_at (tab_name : string) : M SmManager unit :=
  s ← get_st; match fhs_ s !! tab_name with None => throw StdOutOfRange | Some _ => ret tt end.

(** ** SeqScanExecutor *)

Record SeqScanExecutor : Set := MkSeq {
  ss_tab_name : string;
  ss_conds : list Condition;
  ss_cols : list ColMeta;
  ss_len : Z;
  ss_fed_conds : list Condition;
  ss_rid : option Rid;
  ss_scan : option (option Rid)
}.

Definition with_fed (cs : list Condition) (e : SeqScanExecutor) : SeqScanExecutor :=
  MkSeq (ss_tab_name e) (ss_conds e) (ss_cols e) (ss_len e) cs (ss_rid e) (ss_scan e).
Definition with_cursor (rid scan : option Rid) (e : SeqScanExecutor) : SeqScanExecutor :=
  MkSeq (ss_tab_name e) (ss_conds e) (ss_cols e) (ss_len e) (ss_fed_conds e) rid (Some scan).

(** [len_ = cols_.back().offset + cols_.back().len], an [int] stored in a [size_t]. *)
Definition new_SeqScan (tab_name : string) (conds : list Condition) : M SmManager SeqScanExecutor :=
  s ← get_st;
  tab ← get_table (db_ s) tab_name;
  fhs_at tab_name ;;
  match last (cols tab) with
  | None => crash_with OutOfBounds
  | Some back =>
      conds_ ← orient_conds tab_name conds;
      ret (MkSeq tab_name conds_ (cols tab)
             (wrap32 (col_offset back + col_len back) `mod` (size_max + 1)) conds_ None None)
  end.

(** The body of the loop: [rid_] is set before the record is read, and a
    [RecordNotFoundError] is only reported. *)
Definition seq_visit (r : Rid) (rid_ : option Rid) : M RmState (option Rid) :=
  st_catch (_ ← get_record r; ret (Some r))
    (λ e, match e with RedBase (RecordNotFoundError _ _) => ret (Some r) | _ => throw e end).

Definition seq_beginTuple (fuel : nat) (e : SeqScanExecutor) : M SmManager SeqScanExecutor :=
  check_runtime_conds (ss_tab_name e) (ss_fed_conds e) ;;
  '(rid, scan) ← on_file (ss_tab_name e) (scan_ ← new_RmScan; scan_each fuel seq_visit scan_ (ss_rid e));
  ret (with_cursor rid scan e).

Definition seq_is_end (e : SeqScanExecutor) : M SmManager bool :=
  match ss_scan e with
  | None => crash_with NullDeref
  | Some scan => on_file (ss_tab_name e) (scan_is_end scan)
  end.

Definition seq_nextTuple (fuel : nat) (e : SeqScanExecutor) : M SmManager SeqScanExecutor :=
  check_runtime_conds (ss_tab_name e) (ss_fed_conds e) ;;
  b ← seq_is_end e;
  assert_ (negb b) ;;
  match ss_scan e with
  | None => crash_with NullDeref
  | Some scan =>
      '(_, scan') ← on_file (ss_tab_name e) (scan_ ← scan_next scan; scan_each fuel (λ _ t, ret t) scan_ tt);
      ret (with_cursor (ss_rid e) scan' e)
  end.

Definition seq_feed (feed_dict : gmap TabCol Value) (e : SeqScanExecutor) : M SmManager SeqScanExecutor :=
  fed ← feed (ss_tab_name e) (ss_conds e) feed_dict; ret (with_fed fed e).

(** ** IndexScanExecutor

    [tab_name_], [conds_] and [fed_conds_] are empty, [scan_] is null, and
    [sm_manager_], [fh_], [len_] and [index_no_] have no value. *)

(** [sm_manager_->ihs_] is the first thing read after the check. *)
Definition index_beginTuple {A} : M SmManager A :=
  check_runtime_conds EmptyString [] ;; crash_with Uninitialised.

Definition index_is_end : M SmManager bool := crash_with NullDeref.

Definition index_nextTuple : M SmManager unit :=
  check_runtime_conds EmptyString [] ;;
  b ← index_is_end;
  assert_ (negb b).

Definition index_Next {A} : M SmManager A :=
  b ← index_is_end;
  assert_ (negb b) ;;
  crash_with Uninitialised.

Definition index_feed (feed_dict : gmap TabCol Value) : M SmManager unit := check_runtime_conds EmptyString [].

(** ** The tree *)

Inductive Executor : Type :=
  | SeqScan (e : SeqScanExecutor)
  | IndexScan
  | Join (left_ right_ : Executor) (len_ : Z) (cols_ : list ColMeta) (prev_feed_dict_ : gmap TabCol Value)
  | Projection (prev_ : Executor) (cols_ : list ColMeta) (len_ : Z) (sel_idxs_ : list nat).

Definition exec_cols (e : Executor) : list ColMeta :=
  match e with SeqScan e => ss_cols e | IndexScan => [] | Join _ _ _ cs _ => cs | Projection _ cs _ _ => cs end.

Definition tupleLen (e : Executor) : M SmManager Z :=
  match e with
  | SeqScan e => ret (ss_len e)
  | IndexScan => crash_with Uninitialised
  | Join _ _ len _ _ => ret len
  | Projection _ _ len _ => ret len
  end.

Definition getType (e : Executor) : string :=
  match e with SeqScan _ => "SeqScan" | IndexScan => "indexScan" | Join _ _ _ _ _ => "Join" | Projection _ _ _ _ => "Projection" end.

Definition new_Join (left right : Executor) : M SmManager Executor :=
  ll ← tupleLen left;
  rl ← tupleLen right;
  ret (Join left right (join_len ll rl) (join_cols (exec_cols left) ll (exec_cols right)) ∅).

Definition new_Projection (prev : Executor) (sel_cols : list TabCol) : M SmManager Executor :=
  '(idxs, cs, len) ← project_cols (exec_cols prev) sel_cols 0; ret (Projection prev cs len idxs).

Fixpoint is_end (e : Executor) : M SmManager bool :=
  match e with
  | SeqScan e => seq_is_end e
  | IndexScan => index_is_end
  | Join left_ _ _ _ _ => is_end left_
  | Projection prev_ _ _ _ => is_end prev_
  end.

(** The record's bytes, [None] when nothing was written to them. *)
Fixpoint Next (e : Executor) : M SmManager (option bytes) :=
  match e with
  | SeqScan _ => crash_with NoReturn
  | IndexScan => index_Next
  | Join left_ _ _ _ _ => b ← is_end left_; assert_ (negb b) ;; ret None
  | Projection prev_ _ _ _ => b ← is_end prev_; assert_ (negb b) ;; _ ← Next prev_; ret None
  end.

Fixpoint exec_feed (feed_dict : gmap TabCol Value) (e : Executor) : M SmManager Executor :=
  match e with
  | SeqScan e => e' ← seq_feed feed_dict e; ret (SeqScan e')
  | IndexScan => index_feed feed_dict ;; ret IndexScan
  | Join left_ right_ len cs _ => left' ← exec_feed feed_dict left_; ret (Join left' right_ len cs feed_dict)
  | Projection _ _ _ _ => throw_db (InternalError "Cannot feed a projection node")
  end.

Definition feed_right (left_ right_ : Executor) (prev_feed_dict_ : gmap TabCol Value) : M SmManager Executor :=
  rec ← Next left_;
  match rec with
  | None => crash_with Uninitialised
  | Some rec => feed_dict ← feed_right_dict prev_feed_dict_ (exec_cols left_) rec; exec_feed feed_dict right_
  end.

(** [while (right_->is_end()) ...] of [beginTuple] is [join_advance]; that of
    [nextTuple] has an empty body, and [spin] is a loop that changes nothing. *)
Fixpoint spin (fuel : nat) (right_ : Executor) : M SmManager unit :=
  match fuel with
  | O => crash_with OutOfFuel
  | S fuel' => b ← is_end right_; if b then spin fuel' right_ else ret tt
  end.

Fixpoint nextTuple (fuel : nat) (e : Executor) : M SmManager Executor :=
  match e with
  | SeqScan e => e' ← seq_nextTuple fuel e; ret (SeqScan e')
  | IndexScan => index_nextTuple ;; ret IndexScan
  | Join left_ right_ len cs d =>
      b ← is_end left_;
      assert_ (negb b) ;;
      right' ← nextTuple fuel right_;
      spin fuel right' ;;
      ret (Join left_ right' len cs d)
  | Projection prev_ cs len idxs =>
      b ← is_end prev_;
      assert_ (negb b) ;;
      prev' ← nextTuple fuel prev_;
      ret (Projection prev' cs len idxs)
  end.

Fixpoint join_advance (begin : Executor → M SmManager Executor) (fuel : nat) (left_ right_ : Executor) (d : gmap TabCol Value)
    : M SmManager (Executor * Executor) :=
  match fuel with
  | O => crash_with OutOfFuel
  | S fuel' =>
      b ← is_end right_;
      if b then
        left' ← nextTuple fuel' left_;
        bl ← is_end left';
        if bl then ret (left', right_)
        else
          right1 ← feed_right left' right_ d;
          right2 ← begin right1;
          join_advance begin fuel' left' right2 d
      else ret (left_, right_)
  end.

(** A child that was fed is no longer a part of the tree it came from: the depth
    of the recursion is bounded by the fuel too. *)
Fixpoint beginTuple (fuel : nat) (e : Executor) : M SmManager Executor :=
  match fuel with
  | O => crash_with OutOfFuel
  | S fuel' =>
      match e with
      | SeqScan e => e' ← seq_beginTuple fuel' e; ret (SeqScan e')
      | IndexScan => index_beginTuple
      | Join left_ right_ len cs d =>
          left' ← beginTuple fuel' left_;
          b ← is_end left';
          if b then ret (Join left' right_ len cs d)
          else
            right1 ← feed_right left' right_ d;
            right2 ← beginTuple fuel' right1;
            '(left2, right3) ← join_advance (beginTuple fuel') fuel' left' right2 d;
            ret (Join left2 right3 len cs d)
      | Projection prev_ cs len idxs => prev' ← beginTuple fuel' prev_; ret (Projection prev' cs len idxs)
      end
  end.

(** ** InsertExecutor, DeleteExecutor, UpdateExecutor *)

Record InsertExecutor : Set := MkInsert { ie_tab : TabMeta; ie_values : list Value; ie_tab_name : string }.

Definition new_Insert (tab_name : string) (values : list Value) : M SmManager InsertExecutor :=
  s ← get_st;
  tab ← get_table (db_ s) tab_name;
  if negb (length values =? length (cols tab))%nat then throw_db InvalidValueCountError
  else fhs_at tab_name ;; ret (MkInsert tab values tab_name).

Definition insert_Next (e : InsertExecutor) : M SmManager unit := ret tt.

Record DeleteExecutor : Set := MkDelete {
  de_tab : TabMeta; de_conds : list Condition; de_rids : list Rid; de_tab_name : string }.

Definition new_Delete (tab_name : string) (conds : list Condition) (rids : list Rid) : M SmManager DeleteExecutor :=
  s ← get_st;
  tab ← get_table (db_ s) tab_name;
  fhs_at tab_name ;;
  ret (MkDelete tab conds rids tab_name).

(** The loop reads each record and keeps a copy until the end of its round. *)
Definition read_rids (tab_name : string) (rids : list Rid) : M SmManager unit :=
  st_iter (λ r, on_file tab_name (_ ← get_record r; ret tt)) rids.

Definition delete_Next (e : DeleteExecutor) : M SmManager unit := read_rids (de_tab_name e) (de_rids e).

Record UpdateExecutor : Set := MkUpdate {
  ue_tab : TabMeta; ue_conds : list Condition; ue_rids : list Rid; ue_tab_name : string; ue_set_clauses : list SetClause }.

Definition new_Update (tab_name : string) (clauses : list SetClause) (conds : list Condition) (rids : list Rid)
    : M SmManager UpdateExecutor :=
  s ← get_st;
  tab ← get_table (db_ s) tab_name;
  fhs_at tab_name ;;
  ret (MkUpdate tab conds rids tab_name clauses).

Definition update_Next (e : UpdateExecutor) : M SmManager unit :=
  st_iter (λ c, _ ← deref_col (ue_tab e) (get_col_it (ue_tab e) (tc_col (set_lhs c))); ret tt) (ue_set_clauses e) ;;
  read_rids (ue_tab_name e) (ue_rids e).

(** ** A scan runs to the end of its table *)

Lemma file_of_eta s fh : with_pool (sm_pool s) (file_of s fh) = file_of s fh.
Proof. done. Qed.

Lemma on_file_run {A} tab_name (m : M RmState A) s fh r p :
  fhs_ s !! tab_name = Some fh → m (file_of s fh) = (r, with_pool p (file_of s fh)) →
  on_file tab_name m s = (r, with_sm_pool p s).
Proof.
  intros Hfh Hm. unfold on_file. rewrite Hfh, Hm. f_equal. destruct s as [db fhs ihs sp], fh as [fd h].
  unfold with_fhs, with_sm_pool. simpl in *. by rewrite insert_id.
Qed.

(** Conditions whose columns the scan can find. *)
Definition fed_ok (e : SeqScanExecutor) : Prop := Forall (λ c, check_runtime_cond (ss_tab_name e) c = true) (ss_fed_conds e).

Lemma check_runtime_conds_run {S} tab_name cs (s : S) :
  Forall (λ c, check_runtime_cond tab_name c = true) cs → check_runtime_conds tab_name cs s = (Ok tt, s).
Proof.
  unfold check_runtime_conds. induction 1 as [|c cs Hc _ IH]; [done|]. simpl. rewrite Hc. exact IH.
Qed.

Lemma seq_visit_ok (st : RmState) a l r v t :
  rm_inv st a l → records st a r = Some v → (∀ p, pin_of a p < int_max) →
  (∃ e s', rm_error e ∧ seq_visit r t st = (Throw (RedBase e), with_pool s' st)) ∨
  (∃ s' a', seq_visit r t st = (Ok (Some r), with_pool s' st) ∧
     same_pages a a' ∧ rm_inv (with_pool s' st) a' l ∧ pins_by 1 a a').
Proof.
  intros HI Hr Hp. unfold seq_visit, st_catch. destruct (get_record_run st a l r v HI Hr Hp)
    as [(e & s' & He & H)|(rec & s' & a' & H & _ & _ & Hs & HI' & Hp')].
  - apply rm_failure_error in He. left. exists e, s'. split; [done|]. unfold st_bind. rewrite H. by destruct He as [->|[k ->]].
  - right. exists s', a'. by mstep H.
Qed.

(** The table of the handle [fh], as the map of its records. *)
Definition table_at (s : SmManager) fh a l (rs : Rid → option bytes) : Prop :=
  rm_inv (file_of s fh) a l ∧ ∀ r, records (file_of s fh) a r = rs r.

(** A scan that is at its end. *)
Definition seq_done (e : SeqScanExecutor) : Prop := ss_scan e = Some (Some (MkRid (-1) (-1))) ∧ fed_ok e.

Lemma seq_done_end e s fh : seq_done e → fhs_ s !! ss_tab_name e = Some fh → seq_is_end e s = (Ok true, s).
Proof.
  intros [Hs _] Hfh. unfold seq_is_end. rewrite Hs. erewrite on_file_run; [|done|by rewrite <- file_of_eta].
  by destruct s.
Qed.

Lemma seq_begin_done fuel e s fh a l :
  fhs_ s !! ss_tab_name e = Some fh → fed_ok e → rm_inv (file_of s fh) a l → entries (file_of s fh) a ≠ [] →
  (length (entries (file_of s fh) a) < fuel)%nat →
  (∀ p, pin_of a p + 2 * Z.of_nat (length (entries (file_of s fh) a)) + 1 < int_max) →
  (∃ er p, rm_error er ∧ seq_beginTuple fuel e s = (Throw (RedBase er), with_sm_pool p s)) ∨
  (∃ e' p a', seq_beginTuple fuel e s = (Ok e', with_sm_pool p s) ∧ seq_done e' ∧ ss_tab_name e' = ss_tab_name e ∧
     table_at (with_sm_pool p s) fh a' l (records (file_of s fh) a)).
Proof.
  intros Hfh Hok HI Hne Hf Hpin. unfold seq_beginTuple. mstep (check_runtime_conds_run _ _ s Hok).
  destruct (scan_file_run fuel seq_visit (λ _ x, Some x.1) (file_of s fh) a l (ss_rid e))
    as [(er & p & He & H)|(p & a' & H & Hs & HI')]; try done.
  - intros st a0 l0 r v t H1 H2 H3. by apply (seq_visit_ok st a0 l0 r v t).
  - left. exists er, p. split; [done|]. unfold st_bind at 1. by rewrite (on_file_run _ _ s fh _ p Hfh H).
  - right. rewrite decide_False in H by done. mstep (on_file_run _ _ s fh _ p Hfh H).
    eexists _, p, a'. split; [done|]. split; [by split|]. split; [done|]. split; [done|].
    intros r. exact (f_equal (λ g, g r) (records_same (file_of s fh) a p a' Hs)).
Qed.

(** The scan at the left end of the tree, and its depth. *)
Fixpoint leftmost (e : Executor) : option SeqScanExecutor :=
  match e with
  | SeqScan e => Some e
  | IndexScan => None
  | Join l _ _ _ _ => leftmost l
  | Projection p _ _ _ => leftmost p
  end.

Fixpoint left_depth (e : Executor) : nat :=
  match e with Join l _ _ _ _ => S (left_depth l) | Projection p _ _ _ => S (left_depth p) | _ => O end.

Lemma done_is_end e ss s fh :
  leftmost e = Some ss → seq_done ss → fhs_ s !! ss_tab_name ss = Some fh → is_end e s = (Ok true, s).
Proof.
  intros He Hd Hfh. induction e as [e| |l IHl r _|p IHp]; simpl in *; try done; auto.
  injection He as ->. by eapply seq_done_end.
Qed.

Lemma done_next_fails fuel e ss s fh :
  leftmost e = Some ss → seq_done ss → fhs_ s !! ss_tab_name ss = Some fh → nextTuple fuel e s = (Crash AssertFail, s).
Proof.
  intros He Hd Hfh. destruct e as [e| |l r|p]; simpl in *; try done.
  - injection He as ->. unfold seq_nextTuple, st_bind. rewrite (check_runtime_conds_run _ _ s (proj2 Hd)).
    by rewrite (seq_done_end _ _ _ Hd Hfh).
  - by mstep (done_is_end l ss s fh He Hd Hfh).
  - by mstep (done_is_end p ss s fh He Hd Hfh).
Qed.

Lemma beginTuple_done fuel e ss s fh a l :
  leftmost e = Some ss → fhs_ s !! ss_tab_name ss = Some fh → fed_ok ss →
  rm_inv (file_of s fh) a l → entries (file_of s fh) a ≠ [] →
  (left_depth e + 1 + length (entries (file_of s fh) a) < fuel)%nat →
  (∀ p, pin_of a p + 2 * Z.of_nat (length (entries (file_of s fh) a)) + 1 < int_max) →
  (∃ er p, rm_error er ∧ beginTuple fuel e s = (Throw (RedBase er), with_sm_pool p s)) ∨
  (∃ e' ss' p a', beginTuple fuel e s = (Ok e', with_sm_pool p s) ∧ leftmost e' = Some ss' ∧ seq_done ss' ∧
     ss_tab_name ss' = ss_tab_name ss ∧ table_at (with_sm_pool p s) fh a' l (records (file_of s fh) a)).
Proof.
  intros He Hfh Hok HI Hne Hf Hpin. revert fuel Hf. induction e as [e| |le IHl r _ len cs d|p IHp cs len idxs]; intros [|fuel] Hf;
    simpl in He, Hf; try done; try lia; simpl.
  - injection He as ->. destruct (seq_begin_done fuel ss s fh a l Hfh Hok HI Hne ltac:(lia) Hpin)
      as [(er & p & Her & H)|(e' & p & a' & H & Hd & Ht & Htab)].
    + left. exists er, p. split; [done|]. by mstop H.
    + right. exists (SeqScan e'), e', p, a'. by mstep H.
  - destruct (IHl He fuel ltac:(lia)) as [(er & p & Her & H)|(e' & ss' & p & a' & H & Hl & Hd & Ht & Htab)].
    + left. exists er, p. split; [done|]. by mstop H.
    + right. exists (Join e' r len cs d), ss', p, a'. mstep H.
      by mstep (done_is_end e' ss' (with_sm_pool p s) fh Hl Hd ltac:(by rewrite Ht)).
  - destruct (IHp He fuel ltac:(lia)) as [(er & q & Her & H)|(e' & ss' & q & a' & H & Hl & Hd & Ht & Htab)].
    + left. exists er, q. split; [done|]. by mstop H.
    + right. exists (Projection e' cs len idxs), ss', q, a'. by mstep H.
Qed.

(** Walking a plan: over a table that has records, [beginTuple] of a sequential
    scan, or of any tree of joins and projections whose leftmost input is one,
    terminates, and whatever the conditions say the plan then stands at its end:
    [is_end] holds, no tuple is delivered, and [nextTuple] fails its assertion;
    the records of the table are as they were.  Otherwise the disk failed or
    no frame was free. *)
Theorem scan_runs_to_end fuel e ss s fh a l :
  leftmost e = Some ss → fhs_ s !! ss_tab_name ss = Some fh → fed_ok ss →
  rm_inv (file_of s fh) a l → entries (file_of s fh) a ≠ [] →
  (left_depth e + 1 + length (entries (file_of s fh) a) < fuel)%nat →
  (∀ p, pin_of a p + 2 * Z.of_nat (length (entries (file_of s fh) a)) + 1 < int_max) →
  (∃ er s', rm_error er ∧ beginTuple fuel e s = (Throw (RedBase er), s')) ∨
  (∃ e' s' a', beginTuple fuel e s = (Ok e', s') ∧ is_end e' s' = (Ok true, s') ∧
     nextTuple fuel e' s' = (Crash AssertFail, s') ∧ db_ s' = db_ s ∧ fhs_ s' = fhs_ s ∧
     table_at s' fh a' l (records (file_of s fh) a)).
Proof.
  intros He Hfh Hok HI Hne Hf Hpin.
  destruct (beginTuple_done fuel e ss s fh a l He Hfh Hok HI Hne Hf Hpin)
    as [(er & p & Her & H)|(e' & ss' & p & a' & H & Hl & Hd & Ht & Htab)]; [left; eauto|].
  right. exists e', (with_sm_pool p s), a'. rewrite <- Ht in Hfh. split; [done|].
  split; [by eapply done_is_end|]. split; [by eapply done_next_fails|]. done.
Qed.

End Executors.

(** ** On concrete tables *)

Module ExecRuns.
Import RecordRuns.
#[local] Existing Instance MemFS.mem_posix.

Definition no_db : DbMeta := new_DbMeta.
Definition sm1 : SmManager _ _ := MkSm no_db {[ "t"%string := (3, hdr1) ]} ∅ pool1.
Definition id_col : ColMeta := MkColMeta "t" "id" TYPE_INT 4 0 false.
Definition scan_t : SeqScanExecutor :=
  MkSeq "t" [] [id_col] 4 [MkCond (MkTabCol "t" "id") OP_EQ true (MkTabCol "t" "id") (value_int 0)] None None.
Definition plan : Executor := Projection (Join (SeqScan scan_t) IndexScan 4 [id_col] ∅) [id_col] 4 [0%nat].

Lemma scan_runs_to_end_witness :
  ∃ e' s', beginTuple 6 plan sm1 = (Ok e', s') ∧ is_end e' s' = (Ok true, s').
Proof.
  assert (HE : entries (file_of sm1 (3, hdr1)) a1 = [(rid0, buf)]) by (by vm_compute).
  destruct (scan_runs_to_end 6 plan scan_t sm1 (3, hdr1) a1 [])
    as [(er & s' & _ & H)|(e' & s' & a' & H & Hend & _)].
  - reflexivity.
  - apply lookup_singleton_eq.
  - by constructor.
  - exact st1_inv.
  - by rewrite HE.
  - rewrite HE. simpl. lia.
  - intros p. rewrite HE. unfold pin_of, int_max. simpl. rewrite lookup_empty. lia.
  - by vm_compute in H.
  - exists e', s'. split; [exact H|exact Hend].
Defined.

(** On a table without records the scan's cursor is read before it is set. *)
Definition sm_empty : SmManager _ _ := MkSm no_db {[ "t"%string := (3, make_hdr 512) ]} ∅ (rm_pool st0).

Lemma scan_of_empty_table_crashes : (beginTuple 6 (SeqScan scan_t) sm_empty).1 = Crash Uninitialised.
Proof. by vm_compute. Qed.

(** [DeleteExecutor::Next] returns with the record still there, and so does
    [UpdateExecutor::Next] without clauses; with a clause it follows a null iterator. *)
Definition tab_t : TabMeta := MkTabMeta "t" [id_col].

Lemma delete_executor_keeps_record :
  let run := delete_Next (MkDelete tab_t [] [rid0] "t") sm1 in
  run.1 = Ok tt ∧ rec_data <$> (match (on_file "t" (get_record rid0) run.2).1 with Ok r => Some r | _ => None end) = Some buf.
Proof. by vm_compute. Qed.

Lemma update_executor_crashes :
  (update_Next (MkUpdate tab_t [] [rid0] "t" [MkSetClause (MkTabCol "t" "id") (value_int 1)]) sm1).1 = Crash NullDeref.
Proof. by vm_compute. Qed.

(** A join whose right input is at its end stays in [nextTuple]'s loop for every number of rounds. *)
Lemma spin_forever fuel (e : Executor) (s : SmManager fs_view LRUReplacer) :
  is_end e s = (Ok true, s) → spin fuel e s = (Crash OutOfFuel, s).
Proof. intros H. induction fuel as [|fuel IH]; [done|]. simpl. by mstep H. Qed.

End ExecRuns.
