(* ===== verification/Txn.v ===== *)
(** Transactions and locks: [transaction/txn_defs.h],
    [transaction/transaction.h], [transaction/transaction_manager.*] and
    [transaction/concurrency/lock_manager.*].

    [Begin], [Commit], [Abort] and the lock requests have no body in the source
    beyond their return; they are modelled as they are.  Pointers to
    transactions are their ids ([None] is null), the transactions live in a
    store that [TransactionManager::txn_map] points into.  Members that the
    constructor leaves unset are [None]. *)
From S2P Require Import Prelude Config Record.

(** ** txn_defs.h *)

Inductive TransactionState : Set := DEFAULT | GROWING | SHRINKING | COMMITTED | ABORTED.
Inductive IsolationLevel : Set := READ_UNCOMMITTED | REPEATABLE_READ | READ_COMMITTED | SERIALIZABLE.
Inductive WType : Set := INSERT_TUPLE | DELETE_TUPLE | UPDATE_TUPLE.
Inductive LockDataType : Set := TABLE | RECORD.

#[global] Instance TransactionState_eq_dec : EqDecision TransactionState.
Proof. solve_decision. Defined.
#[global] Instance LockDataType_eq_dec : EqDecision LockDataType.
Proof. solve_decision. Defined.

(** The members a constructor does not name are left unset. *)
Record WriteRecord : Type := MkWrite {
  wtype_ : WType; w_tab_name_ : string; w_rid_ : option Rid; w_record_ : option RmRecord
}.

Definition write_insert (t : WType) (tab : string) (rid : Rid) : WriteRecord := MkWrite t tab (Some rid) None.
Definition write_delete (t : WType) (tab : string) (r : RmRecord) : WriteRecord := MkWrite t tab None (Some (copy_RmRecord r)).
Definition write_update (t : WType) (tab : string) (rid : Rid) (r : RmRecord) : WriteRecord :=
  MkWrite t tab (Some rid) (Some (copy_RmRecord r)).

Record LockDataId : Set := MkLockId { lock_fd_ : Z; lock_rid_ : Rid; lock_type_ : LockDataType }.

#[global] Instance LockDataId_eq_dec : EqDecision LockDataId.
Proof. solve_decision. Defined.

#[global] Instance LockDataId_countable : Countable LockDataId.
Proof.
  apply (inj_countable' (λ l, (lock_fd_ l, lock_rid_ l, bool_decide (lock_type_ l = TABLE)))
           (λ p, MkLockId p.1.1 p.1.2 (if p.2 then TABLE else RECORD))).
  by intros [? ? []].
Defined.

(** The two constructors. *)
Definition lock_on_table {S} (fd : Z) (type : LockDataType) : M S LockDataId :=
  assert_ (bool_decide (type = TABLE)) ;; ret (MkLockId fd (MkRid (-1) (-1)) type).
Definition lock_on_record {S} (fd : Z) (rid : Rid) (type : LockDataType) : M S LockDataId :=
  assert_ (bool_decide (type = RECORD)) ;; ret (MkLockId fd rid type).

Definition LockDataType_int (t : LockDataType) : Z := match t with TABLE => 0 | RECORD => 1 end.

(** [LockDataId::Get], in 64 bits. *)
Definition Get (l : LockDataId) : Z :=
  match lock_type_ l with
  | TABLE => lock_fd_ l
  | RECORD =>
      Z.lor (Z.lor (Z.lor (wrap64 (Z.shiftl (LockDataType_int (lock_type_ l)) 63))
                          (wrap64 (Z.shiftl (lock_fd_ l) 31)))
                   (wrap64 (Z.shiftl (rid_page_no (lock_rid_ l)) 16)))
            (rid_slot_no (lock_rid_ l))
  end.

(** [operator==]. *)
Definition LockDataId_eqb (x y : LockDataId) : bool :=
  if negb (bool_decide (lock_type_ x = lock_type_ y)) then false
  else if negb (lock_fd_ x =? lock_fd_ y) then false
  else Rid_eqb (lock_rid_ x) (lock_rid_ y).

(** ** transaction.h *)

Record Transaction : Type := MkTxn {
  txn_mode_ : option bool;
  state_ : TransactionState;
  isolation_level_ : IsolationLevel;
  thread_id_ : Z;
  prev_lsn_ : Z;
  txn_id_ : Z;
  start_ts_ : option Z;
  write_set_ : list WriteRecord;
  lock_set_ : gset LockDataId;
  page_set_ : list Z;
  deleted_page_set_ : list Z;
  index_deleted_page_set_ : option (list Z)
}.

Definition new_Transaction (this_thread txn_id : Z) (level : IsolationLevel) : Transaction :=
  MkTxn None DEFAULT level this_thread INVALID_LSN txn_id None [] ∅ [] [] None.

Definition SetTxnMode (b : bool) (t : Transaction) : Transaction :=
  MkTxn (Some b) (state_ t) (isolation_level_ t) (thread_id_ t) (prev_lsn_ t) (txn_id_ t) (start_ts_ t)
    (write_set_ t) (lock_set_ t) (page_set_ t) (deleted_page_set_ t) (index_deleted_page_set_ t).
Definition SetState (st : TransactionState) (t : Transaction) : Transaction :=
  MkTxn (txn_mode_ t) st (isolation_level_ t) (thread_id_ t) (prev_lsn_ t) (txn_id_ t) (start_ts_ t)
    (write_set_ t) (lock_set_ t) (page_set_ t) (deleted_page_set_ t) (index_deleted_page_set_ t).
Definition SetPrevLsn (lsn : Z) (t : Transaction) : Transaction :=
  MkTxn (txn_mode_ t) (state_ t) (isolation_level_ t) (thread_id_ t) lsn (txn_id_ t) (start_ts_ t)
    (write_set_ t) (lock_set_ t) (page_set_ t) (deleted_page_set_ t) (index_deleted_page_set_ t).
Definition SetStartTs (ts : Z) (t : Transaction) : Transaction :=
  MkTxn (txn_mode_ t) (state_ t) (isolation_level_ t) (thread_id_ t) (prev_lsn_ t) (txn_id_ t) (Some ts)
    (write_set_ t) (lock_set_ t) (page_set_ t) (deleted_page_set_ t) (index_deleted_page_set_ t).
Definition AppendWriteRecord (w : WriteRecord) (t : Transaction) : Transaction :=
  MkTxn (txn_mode_ t) (state_ t) (isolation_level_ t) (thread_id_ t) (prev_lsn_ t) (txn_id_ t) (start_ts_ t)
    (write_set_ t ++ [w]) (lock_set_ t) (page_set_ t) (deleted_page_set_ t) (index_deleted_page_set_ t).
Definition AddIntoPageSet (p : Z) (t : Transaction) : Transaction :=
  MkTxn (txn_mode_ t) (state_ t) (isolation_level_ t) (thread_id_ t) (prev_lsn_ t) (txn_id_ t) (start_ts_ t)
    (write_set_ t) (lock_set_ t) (page_set_ t ++ [p]) (deleted_page_set_ t) (index_deleted_page_set_ t).
Definition AddIntoDeletedPageSet (p : Z) (t : Transaction) : Transaction :=
  MkTxn (txn_mode_ t) (state_ t) (isolation_level_ t) (thread_id_ t) (prev_lsn_ t) (txn_id_ t) (start_ts_ t)
    (write_set_ t) (lock_set_ t) (page_set_ t) (deleted_page_set_ t ++ [p]) (index_deleted_page_set_ t).

(** [index_deleted_page_set_->push_back(page)]: the constructor never makes that
    set. *)
Definition append_index_deleted_page (p : Z) : M Transaction unit := λ t,
  match index_deleted_page_set_ t with
  | None => (Crash NullDeref, t)
  | Some ps =>
      (Ok tt, MkTxn (txn_mode_ t) (state_ t) (isolation_level_ t) (thread_id_ t) (prev_lsn_ t) (txn_id_ t) (start_ts_ t)
         (write_set_ t) (lock_set_ t) (page_set_ t) (deleted_page_set_ t) (Some (ps ++ [p])))
  end.

Definition GetTxnMode {S} (t : Transaction) : M S bool :=
  match txn_mode_ t with Some b => ret b | None => crash_with Uninitialised end.

(** ** transaction_manager.h *)

Inductive ConcurrencyMode : Set := TWO_PHASE_LOCKING | BASIC_TO.

(** [txn_map] maps an id to a pointer, which may be null. *)
Record TransactionManager : Type := MkTxnMgr {
  concurrency_mode_ : ConcurrencyMode;
  next_txn_id_ : Z;
  next_timestamp_ : Z;
  txn_map : gmap Z (option Transaction)
}.

Definition new_TransactionManager : TransactionManager := MkTxnMgr TWO_PHASE_LOCKING 0 0 ∅.

Definition GetTransaction (this_thread txn_id : Z) : M TransactionManager (option Transaction) :=
  if txn_id =? INVALID_TXN_ID then ret None
  else
    s ← get_st;
    assert_ (bool_decide (is_Some (txn_map s !! txn_id))) ;;
    match txn_map s !! txn_id with
    | Some (Some res) => assert_ (thread_id_ res =? this_thread) ;; ret (Some res)
    | _ => crash_with AssertFail
    end.

Definition Begin (txn : option Transaction) : M TransactionManager (option Transaction) := ret txn.
Definition Commit (txn : option Transaction) : M TransactionManager unit := ret tt.
Definition Abort_txn (txn : option Transaction) : M TransactionManager unit := ret tt.
Definition BlockAllTransactions : M TransactionManager unit := ret tt.
Definition ResumeAllTransactions : M TransactionManager unit := ret tt.

(** ** lock_manager.h *)

Module Locks.

Inductive LockMode : Set := SHARED | EXLUCSIVE | INTENTION_SHARED | INTENTION_EXCLUSIVE | S_IX.
Inductive GroupLockMode : Set := NON_LOCK | IS | IX | S | X | SIX.

Record LockRequest : Set := MkRequest { req_txn_id_ : Z; lock_mode_ : LockMode; granted_ : bool }.
Definition new_LockRequest (txn_id : Z) (m : LockMode) : LockRequest := MkRequest txn_id m false.

Record LockRequestQueue : Set := MkQueue {
  request_queue_ : list LockRequest;
  group_lock_mode_ : GroupLockMode;
  is_waiting_ : bool;
  upgrading_ : bool;
  shared_lock_num_ : Z;
  IX_lock_num_ : Z
}.
Definition new_LockRequestQueue : LockRequestQueue := MkQueue [] NON_LOCK false false 0 0.

Definition LockManager : Type := gmap LockDataId LockRequestQueue.
Definition new_LockManager : LockManager := ∅.

Definition LockSharedOnRecord (txn : option Transaction) (rid : Rid) (tab_fd : Z) : M LockManager bool := ret true.
Definition LockExclusiveOnRecord (txn : option Transaction) (rid : Rid) (tab_fd : Z) : M LockManager bool := ret true.
Definition LockSharedOnTable (txn : option Transaction) (tab_fd : Z) : M LockManager bool := ret true.
Definition LockExclusiveOnTable (txn : option Transaction) (tab_fd : Z) : M LockManager bool := ret true.
Definition LockISOnTable (txn : option Transaction) (tab_fd : Z) : M LockManager bool := ret true.
Definition LockIXOnTable (txn : option Transaction) (tab_fd : Z) : M LockManager bool := ret true.
Definition Unlock (txn : option Transaction) (id : LockDataId) : M LockManager bool := ret true.

End Locks.

(** ** Keys of the lock table *)

Lemma LockDataId_eqb_eq x y : LockDataId_eqb x y = true ↔ x = y.
Proof.
  destruct x as [f r t], y as [f' r' t']. unfold LockDataId_eqb. simpl.
  case_bool_decide; simpl; [|naive_solver]. destruct (Z.eqb_spec f f'); simpl; [|naive_solver].
  rewrite Rid_eqb_eq. naive_solver.
Qed.

(** Bits below [n] beside bits from [n] on. *)
Lemma lor_low a b n : 0 ≤ n → 0 ≤ b < 2 ^ n → Z.lor (Z.shiftl a n) b = a * 2 ^ n + b.
Proof.
  intros Hn Hb. assert (Z.land (Z.shiftl a n) b = 0) as H0.
  { apply Z.bits_inj'. intros m Hm. rewrite Z.land_spec, Z.bits_0, Z.shiftl_spec by done.
    destruct (decide (m < n)).
    - by rewrite (Z.testbit_neg_r a) by lia.
    - replace b with (b `mod` 2 ^ n) by (by apply Z.mod_small).
      rewrite Z.mod_pow2_bits_high by lia. by rewrite andb_false_r. }
  rewrite <- Z.lxor_lor, <- Z.add_nocarry_lxor by done. by rewrite Z.shiftl_mul_pow2.
Qed.

(** The ids a running system makes: descriptors of tables, and records whose page
    and slot fit in the bits [Get] leaves for them. *)
Definition lock_id_ok (l : LockDataId) : Prop :=
  0 ≤ lock_fd_ l < 2147483648 ∧
  match lock_type_ l with
  | TABLE => lock_rid_ l = MkRid (-1) (-1)
  | RECORD => 0 ≤ rid_page_no (lock_rid_ l) < 32768 ∧ 0 ≤ rid_slot_no (lock_rid_ l) < 65536
  end.

Lemma Get_record f p s :
  0 ≤ f < 2147483648 → 0 ≤ p < 32768 → 0 ≤ s < 65536 →
  Get (MkLockId f (MkRid p s) RECORD) = - 9223372036854775808 + f * 2147483648 + p * 65536 + s.
Proof.
  intros Hf Hp Hs. unfold Get. simpl lock_type_. simpl lock_fd_. simpl lock_rid_. simpl rid_page_no. simpl rid_slot_no.
  rewrite <- !Z.lor_assoc.
  assert (wrap64 (Z.shiftl p 16) = Z.shiftl p 16 ∧ wrap64 (Z.shiftl f 31) = Z.shiftl f 31) as [-> ->].
  { unfold wrap64. rewrite !Z.shiftl_mul_pow2 by lia. change (2 ^ 16) with 65536. change (2 ^ 31) with 2147483648.
    split; rewrite Z.mod_small; lia. }
  rewrite (lor_low p s 16) by (change (2 ^ 16) with 65536; lia). change (2 ^ 16) with 65536.
  rewrite (lor_low f _ 31) by (change (2 ^ 31) with 2147483648; lia). change (2 ^ 31) with 2147483648.
  change (wrap64 (Z.shiftl (LockDataType_int RECORD) 63)) with (Z.shiftl (-1) 63).
  rewrite lor_low by (change (2 ^ 63) with 9223372036854775808; lia). change (2 ^ 63) with 9223372036854775808. lia.
Qed.

(** [C37] The lock table's key. Equal ids hash alike, as [unordered_map] requires,
    for every id; and [Get] gives different ids different numbers as long as
    descriptors are not negative, pages are below 2^15 and slots below 2^16:
    tables and records never collide, nor do two records. *)
Theorem lock_id_key (x y : LockDataId) :
  (LockDataId_eqb x y = true → Get x = Get y) ∧
  (lock_id_ok x → lock_id_ok y → Get x = Get y → LockDataId_eqb x y = true).
Proof.
  split; [by intros ->%LockDataId_eqb_eq|]. intros [Hfx Hx] [Hfy Hy] HG. apply LockDataId_eqb_eq.
  destruct x as [f [p s] []], y as [f' [p' s'] []]; simpl in *.
  - simplify_eq. by change (f = f') in HG; subst.
  - destruct Hy. rewrite Get_record in HG by done. change (f = - 9223372036854775808 + f' * 2147483648 + p' * 65536 + s') in HG. lia.
  - destruct Hx. rewrite Get_record in HG by done. change (- 9223372036854775808 + f * 2147483648 + p * 65536 + s = f') in HG. lia.
  - destruct Hx, Hy. rewrite !Get_record in HG by done.
    assert (f = f') as -> by lia. assert (p = p') as -> by lia. by assert (s = s') as -> by lia.
Qed.

Module TxnRuns.

Lemma lock_id_key_witness :
  LockDataId_eqb (MkLockId 3 (MkRid 1 2) RECORD) (MkLockId 3 (MkRid 1 2) RECORD) = true ∧
  Get (MkLockId 3 (MkRid 1 2) RECORD) = Get (MkLockId 3 (MkRid 1 2) RECORD).
Proof.
  split.
  - apply (lock_id_key (MkLockId 3 (MkRid 1 2) RECORD) (MkLockId 3 (MkRid 1 2) RECORD)); unfold lock_id_ok; simpl; lia.
  - by apply (lock_id_key (MkLockId 3 (MkRid 1 2) RECORD) (MkLockId 3 (MkRid 1 2) RECORD)).
Defined.

(** A page from 2^15 on runs into the descriptor's bits. *)
Lemma lock_id_collision :
  Get (MkLockId 3 (MkRid 32768 0) RECORD) = Get (MkLockId 3 (MkRid 0 0) RECORD).
Proof. by vm_compute. Qed.

(** Two transactions are given the exclusive lock on one record. *)
Lemma exclusive_lock_twice t1 t2 rid fd lm :
  (_ ← Locks.LockExclusiveOnRecord (Some t1) rid fd; Locks.LockExclusiveOnRecord (Some t2) rid fd) lm = (Ok true, lm).
Proof. done. Qed.

(** The set of index pages deleted by a transaction is never made. *)
Lemma index_deleted_page_crashes th id lvl p :
  (append_index_deleted_page p (new_Transaction th id lvl)).1 = Crash NullDeref.
Proof. done. Qed.

End TxnRuns.
