(* ===== verification/Log.v ===== *)
(** Log records and the log buffers: [recovery/log_record.h] and
    [recovery/log_manager.*].

    [RunFlushThread], [AppendLogRecord] (beyond its return value), [Redo] and
    [Undo] have no body in the source.  A member that a constructor leaves unset
    is [None]. *)
From Stdlib Require Import Ascii String.
From S2P Require Import Prelude Config Record Meta.

Inductive LogRecordType : Set :=
  | INVALID | CREATE_TABLE | MARK_DROP_TABLE | APPLY_DROP_TABLE | CREATE_INDEX | MARK_DROP_INDEX | APPLY_DROP_INDEX
  | INSERT | UPDATE | DELETE | BEGIN | COMMIT | ABORT | NEW_PAGE.

#[global] Instance LogRecordType_eq_dec : EqDecision LogRecordType.
Proof. solve_decision. Defined.

(** [log_record_type]. *)
Definition log_type_name (t : LogRecordType) : string :=
  match t with
  | INVALID => "INVALID" | CREATE_TABLE => "CREATE_TABLE" | MARK_DROP_TABLE => "MARK_DROP_TABLE"
  | APPLY_DROP_TABLE => "APPLY_DROP_TABLE" | CREATE_INDEX => "CREATE_INDEX" | MARK_DROP_INDEX => "MARK_DROP_INDEX"
  | APPLY_DROP_INDEX => "APPLY_DROP_INDEX" | INSERT => "INSERT" | UPDATE => "UPDATE" | DELETE => "DELETE"
  | BEGIN => "BEGIN" | COMMIT => "COMMIT" | ABORT => "ABORT" | NEW_PAGE => "NEW_PAGE"
  end.

Definition HEADER_SIZE : Z := 20.
Definition sizeof_Rid : Z := 8.

(** The bytes of a table name. *)
Definition name_bytes (s : string) : bytes := (λ c, Z.of_N (N_of_ascii c)) <$> chars s.

Record LogRecord : Type := MkLog {
  size_ : Z;
  lsn_ : Z;
  log_txn_id_ : Z;
  log_prev_lsn_ : Z;
  log_type_ : LogRecordType;
  tab_name_ : option bytes;               (* with tab_name_size_, its length *)
  update_rid_ : option Rid;
  old_tuple_ : option RmRecord;
  new_tuple_ : option RmRecord;
  insert_rid_ : option Rid;
  insert_tuple_ : option RmRecord;
  delete_rid_ : option Rid;
  delete_tuple_ : option RmRecord;
  new_page_no_ : option Z
}.

Definition new_LogRecord : LogRecord :=
  MkLog 0 INVALID_LSN INVALID_TXN_ID INVALID_LSN INVALID None None None None None None None None None.

(** *** The constructors *)

Definition log_txn {S} (txn_id prev_lsn : Z) (t : LogRecordType) : M S LogRecord :=
  assert_ (bool_decide (t = BEGIN) || bool_decide (t = COMMIT) || bool_decide (t = ABORT)) ;;
  ret (MkLog HEADER_SIZE INVALID_LSN txn_id prev_lsn t None None None None None None None None None).

Definition log_table (txn_id prev_lsn : Z) (t : LogRecordType) (table_name : string) : LogRecord :=
  let name := name_bytes table_name in
  MkLog (HEADER_SIZE + 4 + Z.of_nat (length name)) INVALID_LSN txn_id prev_lsn t (Some name)
    None None None None None None None None.

Definition log_update (txn_id prev_lsn : Z) (t : LogRecordType) (rid : Rid) (old_tuple new_tuple : RmRecord)
    (table_name : string) : LogRecord :=
  let name := name_bytes table_name in
  MkLog (HEADER_SIZE + sizeof_Rid + 4 * 3 + rec_size old_tuple + rec_size new_tuple + Z.of_nat (length name))
    INVALID_LSN txn_id prev_lsn t (Some name) (Some rid) (Some (copy_RmRecord old_tuple)) (Some (copy_RmRecord new_tuple))
    None None None None None.

Definition log_insert_delete {S} (txn_id prev_lsn : Z) (t : LogRecordType) (rid : Rid) (r : RmRecord)
    (table_name : string) : M S LogRecord :=
  let name := name_bytes table_name in
  let size := HEADER_SIZE + sizeof_Rid + 4 * 2 + rec_size r + Z.of_nat (length name) in
  if bool_decide (t = INSERT) then
    ret (MkLog size INVALID_LSN txn_id prev_lsn t (Some name) None None None (Some rid) (Some (copy_RmRecord r)) None None None)
  else
    assert_ (bool_decide (t = DELETE)) ;;
    ret (MkLog size INVALID_LSN txn_id prev_lsn t (Some name) None None None None None (Some rid) (Some (copy_RmRecord r)) None).

Definition log_new_page (txn_id prev_lsn : Z) (t : LogRecordType) (page_no : Z) (table_name : string) : LogRecord :=
  let name := name_bytes table_name in
  MkLog (HEADER_SIZE + 4 * 2 + Z.of_nat (length name)) INVALID_LSN txn_id prev_lsn t (Some name)
    None None None None None None None (Some page_no).

(** *** Table names in a buffer *)

(** [SerializeTableName(log_buffer, pos)]: the buffer and the new [pos]. *)
Definition SerializeTableName {S} (name : bytes) (log_buffer : bytes) (pos : Z) : M S (bytes * Z) :=
  let n := Z.of_nat (length name) in
  if (0 <=? pos) && (pos + 4 + n <=? Z.of_nat (length log_buffer)) then
    let log_buffer := splice (Z.to_nat pos) (le32 n) log_buffer in
    let pos := wrap32 (pos + 4) in
    let log_buffer := splice (Z.to_nat pos) name log_buffer in
    let pos := wrap32 (pos + 4) in
    ret (log_buffer, pos)
  else crash_with OutOfBounds.

(** [DeserializeTableName(data)]. *)
Definition DeserializeTableName {S} (data : bytes) : M S bytes :=
  if (4 <=? length data)%nat then
    let n := get_int 0 data in
    if (0 <=? n) && (4 + n <=? Z.of_nat (length data)) then ret (slice 4 (Z.to_nat n) data)
    else crash_with OutOfBounds
  else crash_with OutOfBounds.

(** ** LogManager *)

Record LogManager : Type := MkLogMgr {
  log_mode_ : bool;
  log_buffer_ : bytes;
  flush_buffer_ : bytes;
  next_lsn_ : Z;
  persistent_lsn_ : Z;
  flush_lsn_ : Z;
  log_buffer_write_offset_ : Z;
  flush_buffer_write_offset_ : Z
}.

(** [LogManager(disk_manager)], for buffers of [n] bytes. *)
Definition new_LogManager (n : nat) : LogManager :=
  MkLogMgr false (zeros n) (zeros n) 0 INVALID_LSN INVALID_LSN 0 0.

Definition SwapBuffer (m : LogManager) : LogManager :=
  MkLogMgr (log_mode_ m) (flush_buffer_ m) (log_buffer_ m) (next_lsn_ m) (persistent_lsn_ m) (wrap32 (next_lsn_ m - 1))
    (flush_buffer_write_offset_ m) (log_buffer_write_offset_ m).

Definition AppendLogRecord (r : LogRecord) : M LogManager Z := ret (lsn_ r).

Definition GetLogMode (m : LogManager) : bool := log_mode_ m.
Definition SetLogMode (b : bool) (m : LogManager) : LogManager :=
  MkLogMgr b (log_buffer_ m) (flush_buffer_ m) (next_lsn_ m) (persistent_lsn_ m) (flush_lsn_ m)
    (log_buffer_write_offset_ m) (flush_buffer_write_offset_ m).

Definition RunFlushThread : M LogManager unit := ret tt.

(** [flush_thread_] is never set, and joining is a call through it. *)
Definition StopFlushThread : M LogManager unit := modify (SetLogMode false) ;; crash_with Uninitialised.

(** [WakeUpFlushThread(p)], [p] given or null.  The wait is for a promise that only
    the flush thread could keep, and there is none: [None] is a call that never
    returns. *)
Definition WakeUpFlushThread (p : bool) (m : LogManager) : option LogManager :=
  let m' := SwapBuffer m in if p then None else Some m'.

(** ** Checkpoints and recovery *)

Record LogRecovery : Type := MkRecovery {
  rc_log_buffer_ : bytes;
  log_offset_ : Z;
  active_txns_ : gmap Z Z;
  lsn_mapping_ : gmap Z Z;
  recovery_mode_ : bool
}.

(** [LogRecovery(...)]: a buffer of [n] bytes, not cleared. *)
Definition new_LogRecovery (buf : bytes) : LogRecovery := MkRecovery buf 0 ∅ ∅ false.
Definition GetRecoveryMode (r : LogRecovery) : bool := recovery_mode_ r.
Definition Redo : M LogRecovery unit := ret tt.
Definition Undo : M LogRecovery unit := ret tt.
Definition BeginCheckpoint {S} : M S unit := ret tt.
Definition EndCheckpoint {S} : M S unit := ret tt.

(** ** What holds *)

(** The sizes of the parts of a record, as the comment at the head of
    [log_record.h] lays them out. *)
Definition log_layout (r : LogRecord) : list Z :=
  let name := Z.of_nat (length (default [] (tab_name_ r))) in
  let tuple o := match o with Some t => rec_size t | None => 0 end in
  match log_type_ r with
  | BEGIN | COMMIT | ABORT => [HEADER_SIZE]
  | INSERT => [HEADER_SIZE; sizeof_Rid; 4; tuple (insert_tuple_ r); 4; name]
  | DELETE => [HEADER_SIZE; sizeof_Rid; 4; tuple (delete_tuple_ r); 4; name]
  | UPDATE => [HEADER_SIZE; sizeof_Rid; 4; tuple (old_tuple_ r); 4; tuple (new_tuple_ r); 4; name]
  | NEW_PAGE => [HEADER_SIZE; 4; 4; name]
  | _ => [HEADER_SIZE; 4; name]
  end.

Definition total (l : list Z) : Z := foldr Z.add 0 l.

Lemma log_insert_delete_size {S} txn prev t rid r name rec (s s' : S) :
  log_insert_delete txn prev t rid r name s = (Ok rec, s') → size_ rec = total (log_layout rec).
Proof.
  unfold log_insert_delete. case_bool_decide as E.
  - subst t. intros [= <- _]. unfold total. simpl. lia.
  - unfold st_bind, assert_. case_bool_decide as E'; [|done]. subst t. intros [= <- _]. unfold total. simpl. lia.
Qed.

(** The [size_] each constructor computes is that of the layout. *)
Lemma log_sizes_match_layout {S} txn prev t rid r1 r2 page name (s s' : S) rec :
  (log_txn txn prev t s = (Ok rec, s') ∨ log_insert_delete txn prev t rid r1 name s = (Ok rec, s') ∨
   t = UPDATE ∧ rec = log_update txn prev t rid r1 r2 name ∨
   t = NEW_PAGE ∧ rec = log_new_page txn prev t page name ∨
   t = APPLY_DROP_TABLE ∧ rec = log_table txn prev t name) →
  size_ rec = total (log_layout rec).
Proof.
  intros [H|[H|[[-> ->]|[[-> ->]|[-> ->]]]]]; [|by eapply log_insert_delete_size|unfold total; simpl; lia..].
  unfold log_txn, st_bind, assert_ in H. destruct t; cbn in H; (discriminate H || (injection H as <- _; done)).
Qed.

(** [C38] A table name survives the log. Written into a buffer with room for it,
    [SerializeTableName] puts its length and its bytes at [pos] and changes no
    other byte, [DeserializeTableName] at [pos] gives the name back, and [pos]
    has moved by 8, whatever the length of the name: the next thing written
    starts behind the name only when the name has at most four bytes. *)
Theorem table_name_roundtrip {S} (name buf : bytes) (pos : Z) (s : S) :
  0 ≤ pos → pos + 4 + Z.of_nat (length name) ≤ Z.of_nat (length buf) → pos + 8 ≤ int_max →
  Z.of_nat (length buf) ≤ int_max →
  ∃ buf', SerializeTableName name buf pos s = (Ok (buf', pos + 8), s) ∧
    DeserializeTableName (drop (Z.to_nat pos) buf') s = (Ok name, s) ∧ length buf' = length buf ∧
    (∀ i, (i < Z.to_nat pos ∨ Z.to_nat pos + 4 + length name ≤ i)%nat → buf' !! i = buf !! i) ∧
    (pos + 8 < pos + 4 + Z.of_nat (length name) ↔ (4 < length name)%nat).
Proof.
  intros Hp Hroom Hp8 Hbuf. unfold SerializeTableName.
  rewrite (proj2 (Z.leb_le 0 pos)), (proj2 (Z.leb_le (pos + 4 + _) _)) by done. cbn [andb].
  assert (wrap32 (pos + 4) = pos + 4) as -> by (apply wrap32_id; unfold is_int, int_min, int_max in *; lia).
  assert (wrap32 (pos + 4 + 4) = pos + 8) as ->
    by (replace (pos + 4 + 4) with (pos + 8) by lia; apply wrap32_id; unfold is_int, int_min, int_max in *; lia).
  set (b1 := splice (Z.to_nat pos) (le32 (Z.of_nat (length name))) buf).
  assert (length b1 = length buf) as L1 by (apply length_splice; rewrite length_le32; lia).
  eexists. split; [done|]. set (b2 := splice (Z.to_nat (pos + 4)) name b1).
  assert (length b2 = length buf) as L2 by (rewrite <- L1; apply length_splice; lia).
  assert (get_int 0 (drop (Z.to_nat pos) b2) = Z.of_nat (length name)) as Hn.
  { unfold get_int, slice. rewrite drop_drop, Nat.add_0_r. change (take 4 (drop (Z.to_nat pos) b2)) with (slice (Z.to_nat pos) 4 b2).
    unfold b2. rewrite slice_splice_disjoint by lia. unfold b1. rewrite <- (length_le32 (Z.of_nat (length name))).
    rewrite slice_splice_same by (rewrite length_le32; lia). apply of_le32_le32_id. unfold is_int, int_min, int_max in *. lia. }
  split; [|split; [done|split; [|lia]]].
  - unfold DeserializeTableName. rewrite length_drop, L2, Hn.
    rewrite (proj2 (Nat.leb_le 4 _)), (proj2 (Z.leb_le 0 _)), (proj2 (Z.leb_le (4 + _) _)) by lia. simpl.
    unfold st_ret. do 2 f_equal. rewrite Nat2Z.id. unfold slice at 1. rewrite drop_drop.
    replace (Z.to_nat pos + 4)%nat with (Z.to_nat (pos + 4)) by lia. unfold b2. apply slice_splice_same. lia.
  - intros i Hi. unfold b2. rewrite lookup_splice_out by lia. unfold b1. rewrite lookup_splice_out; [done|..]; rewrite length_le32; lia.
Qed.

Module LogRuns.

Lemma table_name_roundtrip_witness :
  ∃ buf', SerializeTableName (name_bytes "student") (zeros 32) 0 tt = (Ok (buf', 8), tt) ∧
    DeserializeTableName (drop 0 buf') tt = (Ok (name_bytes "student"), tt).
Proof.
  destruct (table_name_roundtrip (name_bytes "student") (zeros 32) 0 tt) as (buf' & H1 & H2 & _);
    [lia|by vm_compute|by vm_compute|by vm_compute|]. exists buf'. exact (conj H1 H2).
Defined.

(** Two names written one after the other: the second overwrites the end of the
    first. *)
Lemma second_name_overwrites_first :
  let '(r, _) := (p ← SerializeTableName (name_bytes "student") (zeros 32) 0;
                  q ← SerializeTableName (name_bytes "grade") p.1 p.2;
                  DeserializeTableName q.1) tt in
  r ≠ Ok (name_bytes "student").
Proof. by vm_compute. Qed.

(** A record appended to the log is not given a sequence number. *)
Lemma append_gives_no_lsn txn prev t name m :
  AppendLogRecord (log_table txn prev t name) m = (Ok INVALID_LSN, m).
Proof. done. Qed.

End LogRuns.
