(* ===== verification/Ast.v ===== *)
(** Syntax trees: [parser/ast.h].

    The nodes are the types of the same names; a [float] literal is its 32 bits.
    [OtherNode] stands for a node that no statement of the grammar is. *)
From Stdlib Require Import String.
From S2P Require Import Prelude.

Module ast.

Inductive SvType : Set := SV_TYPE_INT | SV_TYPE_FLOAT | SV_TYPE_STRING.
Inductive SvCompOp : Set := SV_OP_EQ | SV_OP_NE | SV_OP_LT | SV_OP_GT | SV_OP_LE | SV_OP_GE.

Record TypeLen : Set := MkTypeLen { tl_type : SvType; tl_len : Z }.
Record ColDef : Set := MkColDef { cd_name : string; cd_type_len : TypeLen }.

Inductive Value : Set := IntLit (val : Z) | FloatLit (bits : Z) | StringLit (val : string).
Record Col : Set := MkCol { c_tab_name : string; c_col_name : string }.
Inductive Expr : Set := EValue (v : Value) | ECol (c : Col).
Record SetClause : Set := MkSetClause { sc_col_name : string; sc_val : Value }.
Record BinaryExpr : Set := MkBinaryExpr { be_lhs : Col; be_op : SvCompOp; be_rhs : Expr }.

Inductive TreeNode : Set :=
  | Help
  | ShowTables
  | TxnBegin
  | TxnCommit
  | TxnAbort
  | TxnRollback
  | CreateTable (tab_name : string) (fields : list ColDef)
  | DropTable (tab_name : string)
  | DescTable (tab_name : string)
  | CreateIndex (tab_name col_name : string)
  | DropIndex (tab_name col_name : string)
  | InsertStmt (tab_name : string) (vals : list Value)
  | DeleteStmt (tab_name : string) (conds : list BinaryExpr)
  | UpdateStmt (tab_name : string) (set_clauses : list SetClause) (conds : list BinaryExpr)
  | SelectStmt (cols : list Col) (tabs : list string) (conds : list BinaryExpr)
  | OtherNode.                            (* a node that is not a statement *)

End ast.
