(* ===== verification/Interp.v ===== *)
(** The interpreter of parsed statements: [interp.h].

    A session has the catalogue, the transaction
    manager, the reply and the transaction id the server keeps for the client.
    [context->txn_] is the transaction the pointer points to, [None] when
    null. *)
From Stdlib Require Import Ascii String.
From S2P Require Import Prelude Config Posix Disk Replacer BufferPool Record Printer Meta Catalog Query Txn Ast.

(** ** interp.h *)

Definition line (s : string) : string := s +:+ newline.

Definition help_info : string :=
  line "Supported SQL syntax:" +:+ line "  command ;" +:+ line "command:" +:+
  line "  CREATE TABLE table_name (column_name type [, column_name type ...])" +:+
  line "  DROP TABLE table_name" +:+
  line "  CREATE INDEX table_name (column_name)" +:+
  line "  DROP INDEX table_name (column_name)" +:+
  line "  INSERT INTO table_name VALUES (value [, value ...])" +:+
  line "  DELETE FROM table_name [WHERE where_clause]" +:+
  line "  UPDATE table_name SET column_name = value [, column_name = value ...] [WHERE where_clause]" +:+
  line "  SELECT selector FROM table_name [WHERE where_clause]" +:+
  line "type:" +:+ line "  {INT | FLOAT | CHAR(n)}" +:+
  line "where_clause:" +:+ line "  condition [AND condition ...]" +:+
  line "condition:" +:+ line "  column op {column | value}" +:+
  line "column:" +:+ line "  [table_name.]column_name" +:+
  line "op:" +:+ line "  {= | <> | < | > | <= | >=}" +:+
  line "selector:" +:+ line "  {* | column [, column ...]}".

Definition interp_sv_type (t : ast.SvType) : ColType :=
  match t with ast.SV_TYPE_INT => TYPE_INT | ast.SV_TYPE_FLOAT => TYPE_FLOAT | ast.SV_TYPE_STRING => TYPE_STRING end.

Definition interp_sv_comp_op (o : ast.SvCompOp) : CompOp :=
  match o with
  | ast.SV_OP_EQ => OP_EQ | ast.SV_OP_NE => OP_NE | ast.SV_OP_LT => OP_LT
  | ast.SV_OP_GT => OP_GT | ast.SV_OP_LE => OP_LE | ast.SV_OP_GE => OP_GE
  end.

Definition str_bytes (s : string) : bytes := (λ c, Z.of_N (N_of_ascii c)) <$> chars s.

Definition interp_sv_value (v : ast.Value) : Value :=
  match v with
  | ast.IntLit n => value_int n
  | ast.FloatLit b => value_float b
  | ast.StringLit s => value_str (str_bytes s)
  end.

Definition interp_col (c : ast.Col) : TabCol := MkTabCol (ast.c_tab_name c) (ast.c_col_name c).

(** A member that the loop does not set keeps the default of its type; the
    unset value of a column condition is never looked at. *)
Definition interp_cond (e : ast.BinaryExpr) : Condition :=
  let lhs := interp_col (ast.be_lhs e) in
  let o := interp_sv_comp_op (ast.be_op e) in
  match ast.be_rhs e with
  | ast.EValue v => MkCond lhs o true (MkTabCol EmptyString EmptyString) (interp_sv_value v)
  | ast.ECol c => MkCond lhs o false (interp_col c) (value_int 0)
  end.

Definition interp_where_clause (conds : list ast.BinaryExpr) : list Condition := interp_cond <$> conds.

Definition interp_field (f : ast.ColDef) : ColDef :=
  MkColDef (ast.cd_name f) (interp_sv_type (ast.tl_type (ast.cd_type_len f))) (ast.tl_len (ast.cd_type_len f)).

Definition interp_set_clause (c : ast.SetClause) : SetClause :=
  MkSetClause (MkTabCol EmptyString (ast.sc_col_name c)) (interp_sv_value (ast.sc_val c)).

Section Interp.
Context {OS R : Type} {PX : Posix OS} {RP : Replacer R}.
(** [std::this_thread::get_id()] of the thread that serves the client. *)
Context (this_thread : Z).

Record Session : Type := MkSession {
  ss_sm : SmManager OS R;
  ss_txn_mgr : TransactionManager;
  ss_reply : Reply;
  ss_txn_id : Z
}.

Definition on_sm {A} (m : M (SmManager OS R) A) : M Session A :=
  zoom ss_sm (λ sm s, MkSession sm (ss_txn_mgr s) (ss_reply s) (ss_txn_id s)) m.
Definition on_txn {A} (m : M TransactionManager A) : M Session A :=
  zoom ss_txn_mgr (λ t s, MkSession (ss_sm s) t (ss_reply s) (ss_txn_id s)) m.
Definition on_reply {A} (m : M Reply A) : M Session A :=
  zoom ss_reply (λ r s, MkSession (ss_sm s) (ss_txn_mgr s) r (ss_txn_id s)) m.
Definition set_txn_id (id : Z) : M Session unit :=
  modify (λ s, MkSession (ss_sm s) (ss_txn_mgr s) (ss_reply s) id).

(** [context->txn_ = txn_mgr_->Begin(nullptr, ...)] and the two uses of the
    pointer after it. *)
Definition begin_txn (mode : bool) : M Session (option Transaction) :=
  txn ← on_txn (Begin None);
  match txn with
  | None => crash_with NullDeref
  | Some t => set_txn_id (txn_id_ t) ;; ret (Some (SetTxnMode mode t))
  end.

Definition finished (t : Transaction) : bool :=
  bool_decide (state_ t = COMMITTED) || bool_decide (state_ t = ABORTED).

Definition SetTransaction : M Session (option Transaction) :=
  s ← get_st;
  txn ← on_txn (GetTransaction this_thread (ss_txn_id s));
  match txn with
  | Some t => if finished t then begin_txn false else ret (Some t)
  | None => begin_txn false
  end.

(** [if (context->txn_->GetTxnMode() == false) Commit]. *)
Definition commit_unless_mode (txn : option Transaction) : M Session unit :=
  match txn with
  | None => crash_with NullDeref
  | Some t => mode ← GetTxnMode t; if mode then ret tt else on_txn (Commit txn)
  end.

(** A statement inside its transaction. *)
Definition in_txn (m : M Session unit) : M Session unit :=
  txn ← SetTransaction;
  m ;;
  commit_unless_mode txn.

(** [help]: the offset becomes the length of the text. *)
Definition send_help : M Reply unit :=
  send help_info ;;
  modify (λ r, MkReply (data_send_ r) (Z.of_nat (String.length help_info))).

Definition with_catalog (k : DbMeta → M Session unit) : M Session unit :=
  s ← get_st; k (db_ (ss_sm s)).

Definition interp_sql (root : ast.TreeNode) : M Session unit :=
  match root with
  | ast.Help => on_reply send_help
  | ast.ShowTables => in_txn (with_catalog (λ db, on_reply (show_tables db)))
  | ast.DescTable tab => in_txn (with_catalog (λ db, on_reply (desc_table db tab)))
  | ast.CreateTable tab fields =>
      let col_defs := interp_field <$> fields in
      in_txn (on_sm (create_table tab col_defs))
  | ast.DropTable tab => in_txn (on_sm (drop_table tab))
  | ast.CreateIndex tab col => in_txn (on_sm (create_index_sm tab col))
  | ast.DropIndex tab col => in_txn (on_sm (drop_index_sm tab col))
  | ast.InsertStmt tab vals =>
      let values := interp_sv_value <$> vals in
      in_txn (insert_into tab values)
  | ast.DeleteStmt tab conds =>
      let conds := interp_where_clause conds in
      in_txn (with_catalog (λ db, delete_from db tab conds))
  | ast.UpdateStmt tab set_clauses conds =>
      let conds := interp_where_clause conds in
      let set_clauses := interp_set_clause <$> set_clauses in
      in_txn (with_catalog (λ db, update_set db tab set_clauses conds))
  | ast.SelectStmt cols tabs conds =>
      let conds := interp_where_clause conds in
      let sel_cols := interp_col <$> cols in
      in_txn (with_catalog (λ db, on_reply (select_from db sel_cols tabs conds)))
  | ast.TxnBegin => _ ← begin_txn true; ret tt
  | ast.TxnAbort | ast.TxnRollback =>
      s ← get_st; txn ← on_txn (GetTransaction this_thread (ss_txn_id s)); on_txn (Abort_txn txn)
  | ast.TxnCommit =>
      s ← get_st; txn ← on_txn (GetTransaction this_thread (ss_txn_id s)); on_txn (Commit txn)
  | ast.OtherNode => throw_db (InternalError "Unexpected AST root")
  end.

(** The statements that ask for a transaction. *)
Definition needs_txn (root : ast.TreeNode) : bool :=
  match root with
  | ast.Help | ast.TxnCommit | ast.TxnAbort | ast.TxnRollback | ast.OtherNode => false
  | _ => true
  end.

(** The client's transaction is running in this thread. *)
Definition live (s : Session) (t : Transaction) : Prop :=
  ss_txn_id s ≠ INVALID_TXN_ID ∧ txn_map (ss_txn_mgr s) !! ss_txn_id s = Some (Some t) ∧
  thread_id_ t = this_thread ∧ finished t = false.

(** No transaction is running for the client: it has none, or it has ended. *)
Definition idle (s : Session) : Prop :=
  ss_txn_id s = INVALID_TXN_ID ∨
  ∃ t, ss_txn_id s ≠ INVALID_TXN_ID ∧ txn_map (ss_txn_mgr s) !! ss_txn_id s = Some (Some t) ∧
    thread_id_ t = this_thread ∧ finished t = true.

Lemma GetTransaction_live s t :
  ss_txn_id s ≠ INVALID_TXN_ID → txn_map (ss_txn_mgr s) !! ss_txn_id s = Some (Some t) → thread_id_ t = this_thread →
  on_txn (GetTransaction this_thread (ss_txn_id s)) s = (Ok (Some t), s).
Proof.
  intros Hid Hm Hth. unfold on_txn, zoom, GetTransaction. rewrite (proj2 (Z.eqb_neq _ _) Hid).
  unfold st_bind, get_st, assert_. rewrite Hm, bool_decide_true by done. simpl.
  rewrite (proj2 (Z.eqb_eq _ _) Hth). by destruct s.
Qed.

Lemma SetTransaction_live s t : live s t → SetTransaction s = (Ok (Some t), s).
Proof.
  intros (Hid & Hm & Hth & Hf). unfold SetTransaction. rewrite st_get_bind.
  mstep (GetTransaction_live s t Hid Hm Hth). by rewrite Hf.
Qed.

Lemma begin_txn_crashes b s : begin_txn b s = (Crash NullDeref, s).
Proof. unfold begin_txn, on_txn, zoom, Begin, st_bind, st_ret. by destruct s. Qed.

Lemma SetTransaction_idle s : idle s → SetTransaction s = (Crash NullDeref, s).
Proof.
  intros [Hid|(t & Hid & Hm & Hth & Hf)]; unfold SetTransaction; rewrite st_get_bind.
  - rewrite Hid. assert (on_txn (GetTransaction this_thread INVALID_TXN_ID) s = (Ok None, s)) as H.
    { unfold on_txn, zoom, GetTransaction. simpl. by destruct s. }
    mstep H. apply begin_txn_crashes.
  - mstep (GetTransaction_live s t Hid Hm Hth). rewrite Hf. apply begin_txn_crashes.
Qed.

Lemma in_txn_idle m s : idle s → in_txn m s = (Crash NullDeref, s).
Proof. intros H. unfold in_txn, st_bind. by rewrite SetTransaction_idle. Qed.

Lemma in_txn_live m s t mode :
  live s t → txn_mode_ t = Some mode → in_txn m s = (m ;; ret tt) s.
Proof.
  intros H Hm. unfold in_txn. mstep (SetTransaction_live s t H). unfold st_bind.
  destruct (m s) as [[[]|e|c] s']; try done. unfold commit_unless_mode, GetTxnMode. rewrite Hm. unfold st_bind, st_ret.
  destruct mode; [done|]. unfold on_txn, zoom, Commit, st_ret. by destruct s'.
Qed.

(** A statement that needs a transaction follows the null pointer [Begin] answers. *)
Lemma interp_sql_idle root s : idle s → needs_txn root = true → interp_sql root s = (Crash NullDeref, s).
Proof.
  intros Hi Hn. destruct root; try done; try (by apply in_txn_idle). simpl. unfold st_bind. by rewrite begin_txn_crashes.
Qed.

End Interp.

Module InterpRuns.

#[local] Existing Instance MemFS.mem_posix.

Definition txn0 : Transaction := SetTxnMode false (new_Transaction 7 0 SERIALIZABLE).
Definition mgr0 : TransactionManager := MkTxnMgr TWO_PHASE_LOCKING 1 0 {[ 0 := Some txn0 ]}.
Definition empty_reply : Reply := MkReply (Some (replicate (Z.to_nat BUFFER_LENGTH) "000"%char)) 0.
Definition session0 : Session (OS := fs_view) (R := LRUReplacer) := MkSession CatalogRuns.sm0 mgr0 empty_reply 0.
Definition session_new : Session (OS := fs_view) (R := LRUReplacer) :=
  MkSession CatalogRuns.sm0 new_TransactionManager empty_reply INVALID_TXN_ID.

Definition create_student : ast.TreeNode :=
  ast.CreateTable "student"
    [ast.MkColDef "id" (ast.MkTypeLen ast.SV_TYPE_INT 4); ast.MkColDef "name" (ast.MkTypeLen ast.SV_TYPE_STRING 32)].

Lemma session0_live : live 7 session0 txn0.
Proof. by split_and!. Qed.

(** The statement does create its table. *)
Lemma student_created :
  is_table (db_ (ss_sm (interp_sql 7 create_student session0).2)) "student" = true.
Proof. by vm_compute. Qed.

(** [help] after other output overwrites the offset. *)
Lemma help_resets_offset :
  let s := MkSession CatalogRuns.sm0 mgr0 (MkReply (data_send_ empty_reply) 100) 0 in
  offset_ (ss_reply (interp_sql (OS := fs_view) (R := LRUReplacer) 7 ast.Help s).2) = Z.of_nat (String.length help_info).
Proof. by vm_compute. Qed.

End InterpRuns.
