(* ===== verification/Regex.v ===== *)
(** Patterns of a flex scanner: regular expressions over characters, the strings
    they match, their derivatives, and the longest prefix of an input that a
    pattern, or a list of patterns in order of precedence, matches.

    A character class is a predicate on characters, so that a pattern of [lex.l]
    can be written down as it stands there.  [matches] is the reference meaning;
    [longest] and [first_longest] compute by derivatives. *)
From Stdlib Require Import Ascii.
From S2P Require Import Prelude.

Inductive regex : Type :=
  | Void
  | Eps
  | Cls (p : ascii → bool)
  | Seq (r1 r2 : regex)
  | Alt (r1 r2 : regex)
  | Star (r : regex).

Inductive matches : regex → list ascii → Prop :=
  | m_eps : matches Eps []
  | m_cls p c : p c = true → matches (Cls p) [c]
  | m_seq r1 r2 s1 s2 : matches r1 s1 → matches r2 s2 → matches (Seq r1 r2) (s1 ++ s2)
  | m_alt_l r1 r2 s : matches r1 s → matches (Alt r1 r2) s
  | m_alt_r r1 r2 s : matches r2 s → matches (Alt r1 r2) s
  | m_star_nil r : matches (Star r) []
  | m_star_cons r s1 s2 : matches r s1 → matches (Star r) s2 → matches (Star r) (s1 ++ s2).

(** ** The operators of flex *)

Definition eqc (c d : ascii) : bool := bool_decide (c = d).
Definition lit (s : list ascii) : regex := foldr (λ c r, Seq (Cls (eqc c)) r) Eps s.
Definition opt (r : regex) : regex := Alt Eps r.
Definition plus (r : regex) : regex := Seq r (Star r).

(** ** Derivatives *)

Fixpoint nullable (r : regex) : bool :=
  match r with
  | Void | Cls _ => false
  | Eps | Star _ => true
  | Seq r1 r2 => nullable r1 && nullable r2
  | Alt r1 r2 => nullable r1 || nullable r2
  end.

Definition seq_ (r1 r2 : regex) : regex :=
  match r1 with Void => Void | Eps => r2 | _ => Seq r1 r2 end.
Definition alt_ (r1 r2 : regex) : regex :=
  match r1, r2 with Void, _ => r2 | _, Void => r1 | _, _ => Alt r1 r2 end.

Fixpoint deriv (c : ascii) (r : regex) : regex :=
  match r with
  | Void | Eps => Void
  | Cls p => if p c then Eps else Void
  | Seq r1 r2 =>
      if nullable r1 then alt_ (seq_ (deriv c r1) r2) (deriv c r2) else seq_ (deriv c r1) r2
  | Alt r1 r2 => alt_ (deriv c r1) (deriv c r2)
  | Star r1 => seq_ (deriv c r1) (Star r1)
  end.

Definition derivs (s : list ascii) (r : regex) : regex := foldl (λ r c, deriv c r) r s.

(** The length of the longest prefix that [r] matches. *)
Fixpoint longest (r : regex) (s : list ascii) : option nat :=
  match r with
  | Void => None
  | _ =>
      match s with
      | [] => if nullable r then Some 0%nat else None
      | c :: s' =>
          match longest (deriv c r) s' with
          | Some n => Some (S n)
          | None => if nullable r then Some 0%nat else None
          end
      end
  end.

(** Among several patterns: the longest match, and of those the pattern that
    comes first.  The result is the number of the pattern and the length. *)
Fixpoint first_longest (rs : list regex) (s : list ascii) : option (nat * nat) :=
  match rs with
  | [] => None
  | r :: rs' =>
      match longest r s, first_longest rs' s with
      | Some n, Some (i, m) => if (m <=? n)%nat then Some (0%nat, n) else Some (S i, m)
      | Some n, None => Some (0%nat, n)
      | None, Some (i, m) => Some (S i, m)
      | None, None => None
      end
  end.

(** ** What the derivatives compute *)

Lemma matches_void s : ¬ matches Void s.
Proof. by inversion 1. Qed.
Lemma matches_eps s : matches Eps s ↔ s = [].
Proof. split; [by inversion 1|intros ->; constructor]. Qed.
Lemma matches_cls p s : matches (Cls p) s ↔ ∃ c, s = [c] ∧ p c = true.
Proof. split; [inversion 1; eauto|intros (c & -> & ?); by constructor]. Qed.
Lemma matches_seq r1 r2 s : matches (Seq r1 r2) s ↔ ∃ s1 s2, s = s1 ++ s2 ∧ matches r1 s1 ∧ matches r2 s2.
Proof. split; [inversion 1; eauto 6|intros (s1 & s2 & -> & ? & ?); by constructor]. Qed.
Lemma matches_alt r1 r2 s : matches (Alt r1 r2) s ↔ matches r1 s ∨ matches r2 s.
Proof. split; [inversion 1; eauto|intros [?|?]; by constructor]. Qed.

Lemma nullable_correct r : nullable r = true ↔ matches r [].
Proof.
  induction r as [| |p|r1 IH1 r2 IH2|r1 IH1 r2 IH2|r IH]; simpl.
  - split; [done|by intros ?%matches_void].
  - split; [constructor|done].
  - split; [done|by intros (? & ? & _)%matches_cls].
  - rewrite andb_true_iff, IH1, IH2, matches_seq. split.
    + intros []. by exists [], [].
    + intros (s1 & s2 & E & H1 & H2). symmetry in E. apply app_eq_nil in E as [-> ->]. done.
  - by rewrite orb_true_iff, IH1, IH2, matches_alt.
  - split; [constructor|done].
Qed.

Lemma matches_seq_ r1 r2 s : matches (seq_ r1 r2) s ↔ matches (Seq r1 r2) s.
Proof.
  destruct r1; simpl; try done; rewrite matches_seq.
  - split; [by intros ?%matches_void|by intros (? & ? & _ & ?%matches_void & _)].
  - split; [intros ?; exists [], s; repeat constructor; done|by intros (? & ? & -> & ->%matches_eps & ?)].
Qed.

Lemma matches_alt_ r1 r2 s : matches (alt_ r1 r2) s ↔ matches (Alt r1 r2) s.
Proof.
  rewrite matches_alt. destruct r1; simpl; [pose proof (matches_void s); tauto|..].
  all: destruct r2; rewrite ?matches_alt; try done; pose proof (matches_void s); tauto.
Qed.

Lemma matches_star_cons r c s :
  matches (Star r) (c :: s) ↔ ∃ s1 s2, s = s1 ++ s2 ∧ matches r (c :: s1) ∧ matches (Star r) s2.
Proof.
  split.
  - intros H. remember (Star r) as q eqn:Hq. remember (c :: s) as t eqn:Ht.
    induction H as [| | | | | |r' u v Hu _ Hv IH]; simplify_eq.
    destruct u as [|d u]; simplify_eq/=; [by apply IH|]. by exists u, v.
  - intros (s1 & s2 & -> & ? & ?). rewrite app_comm_cons. by constructor.
Qed.

Lemma deriv_correct c r s : matches (deriv c r) s ↔ matches r (c :: s).
Proof.
  revert s. induction r as [| |p|r1 IH1 r2 IH2|r1 IH1 r2 IH2|r IH]; intros s; simpl.
  - split; by intros ?%matches_void.
  - rewrite matches_eps. split; [by intros ?%matches_void|done].
  - rewrite matches_cls. destruct (p c) eqn:Hp.
    + rewrite matches_eps. split; [intros ->; eauto|by intros (? & [= <- ->] & _)].
    + split; [by intros ?%matches_void|intros (? & [= <- ->] & ?); congruence].
  - assert (Hl : matches (seq_ (deriv c r1) r2) s ↔ ∃ u v, s = u ++ v ∧ matches r1 (c :: u) ∧ matches r2 v).
    { rewrite matches_seq_, matches_seq. by setoid_rewrite IH1. }
    assert (Hs : matches (Seq r1 r2) (c :: s) ↔
                 matches (seq_ (deriv c r1) r2) s ∨ (nullable r1 = true ∧ matches r2 (c :: s))).
    { rewrite Hl, nullable_correct, matches_seq. split.
      - intros ([|d u] & v & E & H1 & H2); simplify_eq/=; [by right|left; eauto].
      - intros [(u & v & -> & H1 & H2)|[H1 H2]]; [by exists (c :: u), v|by exists [], (c :: s)]. }
    rewrite Hs. destruct (nullable r1); rewrite ?matches_alt_, ?matches_alt, ?IH2; naive_solver.
  - by rewrite matches_alt_, !matches_alt, IH1, IH2.
  - rewrite matches_seq_, matches_seq, matches_star_cons. by setoid_rewrite IH.
Qed.

Lemma derivs_correct w r s : matches (derivs w r) s ↔ matches r (w ++ s).
Proof. revert r. induction w as [|c w IH]; intros r; simpl; [done|]. by rewrite IH, deriv_correct. Qed.

Lemma longest_void s : longest Void s = None.
Proof. by destruct s. Qed.

Lemma longest_unfold r c s : longest r (c :: s) =
  match longest (deriv c r) s with Some n => Some (S n) | None => if nullable r then Some 0%nat else None end.
Proof. destruct r; try done. simpl. by rewrite longest_void. Qed.

(** [n] is the length of the longest prefix of [s] that [r] matches. *)
Definition is_longest (r : regex) (s : list ascii) (n : nat) : Prop :=
  (n ≤ length s)%nat ∧ matches r (take n s) ∧ ∀ m, (n < m ≤ length s)%nat → ¬ matches r (take m s).

Lemma longest_spec r s :
  match longest r s with
  | Some n => is_longest r s n
  | None => ∀ m, (m ≤ length s)%nat → ¬ matches r (take m s)
  end.
Proof.
  revert r. induction s as [|c s IH]; intros r.
  - assert (longest r [] = if nullable r then Some 0%nat else None) as -> by by destruct r.
    pose proof (nullable_correct r) as Hn. destruct (nullable r); simpl.
    + split_and!; [done|by apply Hn|simpl; lia].
    + intros m _. rewrite take_nil. by intros ?%Hn.
  - rewrite longest_unfold. specialize (IH (deriv c r)). destruct (longest (deriv c r) s) as [k|].
    + destruct IH as (Hk & Hm & Hmax). apply deriv_correct in Hm. split_and!; [simpl; lia|done|].
      intros [|m] ?; [lia|]. simpl in *. rewrite <- deriv_correct. apply Hmax. lia.
    + assert (Hno : ∀ m, (m ≤ length s)%nat → ¬ matches r (take (S m) (c :: s))).
      { intros m ?. simpl. rewrite <- deriv_correct. by apply IH. }
      pose proof (nullable_correct r) as Hn. destruct (nullable r).
      * split_and!; [simpl; lia|by apply Hn|]. intros [|m] ?; [lia|]. apply Hno. simpl in *. lia.
      * intros [|m] ?; [by intros ?%Hn|]. apply Hno. simpl in *. lia.
Qed.

Lemma is_longest_unique r s n m : is_longest r s n → is_longest r s m → n = m.
Proof.
  intros (Hn & Hmn & Hn2) (Hm & Hmm & Hm2).
  destruct (Nat.lt_trichotomy n m) as [?|[?|?]]; [by destruct (Hn2 m)|done|by destruct (Hm2 n)].
Qed.

Lemma longest_correct r s n : longest r s = Some n ↔ is_longest r s n.
Proof.
  pose proof (longest_spec r s) as H. destruct (longest r s) as [k|].
  - split; [by intros [= <-]|]. intros Hn. f_equal. by eapply is_longest_unique.
  - split; [done|]. intros (Hn & Hm & _). by destruct (H n).
Qed.

(** Of all matches of all patterns the chosen one is longest, and among the
    patterns with a match of that length the first. *)
Definition is_first_longest (rs : list regex) (s : list ascii) (i n : nat) : Prop :=
  (∃ r, rs !! i = Some r ∧ matches r (take n s)) ∧ (n ≤ length s)%nat ∧
  ∀ j r m, rs !! j = Some r → (m ≤ length s)%nat → matches r (take m s) → (m < n)%nat ∨ (m = n ∧ (i ≤ j)%nat).

Lemma first_longest_spec rs s :
  match first_longest rs s with
  | Some (i, n) => is_first_longest rs s i n
  | None => ∀ r m, r ∈ rs → (m ≤ length s)%nat → ¬ matches r (take m s)
  end.
Proof.
  induction rs as [|r rs IH]; simpl; [by intros r m ?%not_elem_of_nil|].
  pose proof (longest_spec r s) as Hl. destruct (longest r s) as [n|], (first_longest rs s) as [[i m]|].
  - destruct Hl as (Hn & Hm & Hmax), IH as ((r' & Hr & Hmr) & Hle & Hall). destruct (Nat.leb_spec m n).
    + split_and!; [by exists r|done|]. intros [|j] q k Hj Hk Hq; simplify_eq/=.
      * destruct (decide (n < k)%nat); [by destruct (Hmax k)|]. lia.
      * destruct (Hall j q k) as [?|[? ?]]; [done..|lia|lia].
    + split_and!; [by exists r'|done|]. intros [|j] q k Hj Hk Hq; simplify_eq/=.
      * destruct (decide (n < k)%nat); [by destruct (Hmax k)|]. lia.
      * destruct (Hall j q k) as [?|[? ?]]; [done..|by left|right; lia].
  - destruct Hl as (Hn & Hm & Hmax). split_and!; [by exists r|done|]. intros [|j] q k Hj Hk Hq; simplify_eq/=.
    + destruct (decide (n < k)%nat); [by destruct (Hmax k)|]. lia.
    + destruct (IH q k); [by eapply list_elem_of_lookup_2|done|done].
  - destruct IH as ((r' & Hr & Hmr) & Hle & Hall). split_and!; [by exists r'|done|].
    intros [|j] q k Hj Hk Hq; simplify_eq/=; [by destruct (Hl k)|].
    destruct (Hall j q k) as [?|[? ?]]; [done..|by left|right; lia].
  - intros q m [->|Hq]%elem_of_cons Hm; [by apply Hl|by apply IH].
Qed.

Lemma first_longest_correct rs s i n : first_longest rs s = Some (i, n) ↔ is_first_longest rs s i n.
Proof.
  pose proof (first_longest_spec rs s) as H. destruct (first_longest rs s) as [[j m]|].
  - split; [by intros [= <- <-]|]. intros ((r & Hr & Hm) & Hn & Hall). destruct H as ((q & Hq & Hmq) & Hm' & Hall').
    destruct (Hall j q m Hq Hm' Hmq) as [?|[-> ?]], (Hall' i r n Hr Hn Hm) as [?|[? ?]]; try lia.
    by replace i with j by lia.
  - split; [done|]. intros ((r & Hr & Hm) & Hn & _). destruct (H r n); [by eapply list_elem_of_lookup_2|done|done].
Qed.

(** ** Characters that can occur in a match *)

Fixpoint alphabet (r : regex) (c : ascii) : bool :=
  match r with
  | Void | Eps => false
  | Cls p => p c
  | Seq r1 r2 | Alt r1 r2 => alphabet r1 c || alphabet r2 c
  | Star r1 => alphabet r1 c
  end.

Lemma alphabet_correct r s c : matches r s → c ∈ s → alphabet r c = true.
Proof.
  induction 1 as [|p d Hp|r1 r2 s1 s2 _ IH1 _ IH2|r1 r2 s _ IH|r1 r2 s _ IH|r|r s1 s2 _ IH1 _ IH2]; simpl; intros Hc.
  - by apply elem_of_nil in Hc.
  - by apply list_elem_of_singleton in Hc as ->.
  - apply orb_true_iff. apply elem_of_app in Hc as [?|?]; eauto.
  - apply orb_true_iff. eauto.
  - apply orb_true_iff. eauto.
  - by apply elem_of_nil in Hc.
  - apply elem_of_app in Hc as [?|?]; eauto.
Qed.

(** After [w], a pattern whose derivative cannot use [c] does not match beyond it. *)
Lemma no_match_beyond r w u c v m :
  alphabet (derivs w r) c = false → (length (w ++ u) < m)%nat → ¬ matches r (take m ((w ++ u) ++ c :: v)).
Proof.
  intros Ha Hm H. rewrite <- app_assoc in H. rewrite length_app in Hm.
  rewrite take_app_ge in H by lia. rewrite <- derivs_correct in H.
  enough (alphabet (derivs w r) c = true) by congruence.
  eapply alphabet_correct; [done|]. rewrite take_app_ge by lia.
  apply elem_of_app. right. destruct (m - length w - length u)%nat as [|k] eqn:E; [lia|]. simpl. by left.
Qed.
