(* ===== verification/Lexer.v ===== *)
(** The scanner: [parser/lex.l] as flex runs it.

    A rule is the start condition it belongs to, its pattern and its action;
    [rules] lists them in the order of the file.  [yylex] takes the longest match
    of the rules of the current start condition, the earlier rule when two match
    the same text, runs [YY_USER_ACTION] and the action, and goes on until an
    action returns.  The start condition is a global of the scanner: neither
    [yy_scan_string] nor the end of the input resets it.  What the last rule and
    flex's default rule write to the console is left out.

    [atoi] and [atof] are glibc's: [strtol] stops at the bounds of [long] and the
    result is cut to an [int]; [strtod] rounds to the nearest [double], and the
    assignment to [sv_float] rounds again, to a [float]. *)
From Stdlib Require Import Ascii String SpecFloat.
From S2P Require Import Prelude Config Regex.

(** ** Tokens: the [%token] declarations of [yacc.y] *)

Inductive token : Set :=
  | SHOW | TABLES | CREATE | TABLE | DROP | DESC | INSERT | INTO | VALUES | DELETE | FROM
  | WHERE | UPDATE | SET | SELECT | INT | CHAR | FLOAT | INDEX | AND | JOIN | EXIT | HELP
  | TXN_BEGIN | TXN_COMMIT | TXN_ABORT | TXN_ROLLBACK
  | LEQ | NEQ | GEQ | T_EOF
  | IDENTIFIER (sv_str : string) | VALUE_STRING (sv_str : string)
  | VALUE_INT (sv_int : Z) | VALUE_FLOAT (sv_float : Z)
  | Chr (c : ascii).                              (* a character stands for itself *)

#[global] Instance token_eq_dec : EqDecision token.
Proof. solve_decision. Defined.

(** ** Patterns: the definitions of [lex.l] *)

Definition code (c : ascii) : Z := Z.of_N (N_of_ascii c).
Definition between (lo hi c : ascii) : bool := (code lo <=? code c) && (code c <=? code hi).
Definition TAB : ascii := "009"%char.
Definition LF : ascii := "010"%char.
Definition CR : ascii := "013"%char.
Definition quote : ascii := "'"%char.

Definition is_alpha (c : ascii) : bool := between "a" "z" c || between "A" "Z" c.
Definition is_digit (c : ascii) : bool := between "0" "9" c.
Definition one_of (cs : list ascii) : regex := Cls (λ c, bool_decide (c ∈ cs)).
Definition none_of (cs : list ascii) : regex := Cls (λ c, bool_decide (c ∉ cs)).

Definition alpha : regex := Cls is_alpha.
Definition digit : regex := Cls is_digit.
Definition white_space : regex := plus (one_of [" "%char; TAB]).
Definition new_line : regex := Alt (Alt (lit [CR]) (lit [LF])) (lit [CR; LF]).
Definition sign : regex := Alt (lit ["+"%char]) (lit ["-"%char]).
Definition identifier : regex := Seq alpha (Star (Alt (Alt (lit ["_"%char]) alpha) digit)).
Definition value_int : regex := Seq (opt sign) (plus digit).
Definition value_float : regex := Seq (opt sign) (Seq (plus digit) (Seq (lit ["."%char]) (opt (plus digit)))).
Definition value_string : regex := Seq (lit [quote]) (Seq (Star (none_of [quote])) (lit [quote])).
Definition ops : list ascii := [";"; "("; ")"; ","; "*"; "="; ">"; "<"; "."]%char.
Definition single_op : regex := one_of ops.
(** The pattern [.] of flex. *)
Definition any_char : regex := none_of [LF].

(** [%option caseless]. *)
Definition lower (c : ascii) : ascii :=
  if between "A" "Z" c then ascii_of_N (N_of_ascii c + 32) else c.
Definition caseless (c d : ascii) : bool := bool_decide (lower c = lower d).
Definition kw (s : string) : regex := foldr (λ c r, Seq (Cls (caseless c)) r) Eps (chars s).

(** ** Rules *)

Inductive start : Set := INITIAL | STATE_COMMENT.
#[global] Instance start_eq_dec : EqDecision start.
Proof. solve_decision. Defined.

Inductive action : Set :=
  | BEGIN (s : start)                              (* BEGIN(s); *)
  | Ignore                                         (* nothing *)
  | Return (t : token)
  | ReturnChar                                     (* return yytext[0]; *)
  | ReturnId | ReturnInt | ReturnFloat | ReturnString
  | Unexpected.                                    (* a message on the console *)

#[global] Instance action_eq_dec : EqDecision action.
Proof. solve_decision. Defined.

Definition keywords : list (string * token) :=
  [("SHOW", SHOW); ("BEGIN", TXN_BEGIN); ("COMMIT", TXN_COMMIT); ("ABORT", TXN_ABORT);
   ("ROLLBACK", TXN_ROLLBACK); ("TABLES", TABLES); ("CREATE", CREATE); ("TABLE", TABLE);
   ("DROP", DROP); ("DESC", DESC); ("INSERT", INSERT); ("INTO", INTO); ("VALUES", VALUES);
   ("DELETE", DELETE); ("FROM", FROM); ("WHERE", WHERE); ("UPDATE", UPDATE); ("SET", SET);
   ("SELECT", SELECT); ("INT", INT); ("CHAR", CHAR); ("FLOAT", FLOAT); ("INDEX", INDEX);
   ("AND", AND); ("JOIN", JOIN); ("EXIT", EXIT); ("HELP", HELP)]%string.

Definition rules : list (start * regex * action) :=
  [(INITIAL, lit ["/"; "*"]%char, BEGIN STATE_COMMENT);
   (STATE_COMMENT, lit ["*"; "/"]%char, BEGIN INITIAL);
   (STATE_COMMENT, none_of ["*"%char], Ignore);
   (STATE_COMMENT, lit ["*"%char], Ignore);
   (INITIAL, Seq (lit ["-"; "-"]%char) (Star any_char), Ignore);
   (INITIAL, white_space, Ignore);
   (INITIAL, new_line, Ignore)] ++
  ((λ '(s, t), (INITIAL, kw s, Return t)) <$> keywords) ++
  [(INITIAL, lit [">"; "="]%char, Return GEQ);
   (INITIAL, lit ["<"; "="]%char, Return LEQ);
   (INITIAL, lit ["<"; ">"]%char, Return NEQ);
   (INITIAL, single_op, ReturnChar);
   (INITIAL, identifier, ReturnId);
   (INITIAL, value_int, ReturnInt);
   (INITIAL, value_float, ReturnFloat);
   (INITIAL, value_string, ReturnString);
   (INITIAL, any_char, Unexpected)].

(** [%x]: in a start condition only its own rules are active. *)
Definition active (s : start) : list (regex * action) :=
  omap (λ '(s', r, a), if decide (s' = s) then Some (r, a) else None) rules.

(** ** Values of literals *)

Definition split_sign (s : list ascii) : bool * list ascii :=
  match s with
  | c :: s' => if eqc c "-" then (true, s') else if eqc c "+" then (false, s') else (false, s)
  | [] => (false, [])
  end.

Definition dec_value (s : list ascii) : Z := foldl (λ n c, n * 10 + (code c - 48)) 0 s.

Definition long_max : Z := 9223372036854775807.

Definition atoi (yytext : list ascii) : Z :=
  let '(neg, ds) := split_sign yytext in
  let n := if neg then - dec_value ds else dec_value ds in
  wrap32 (Z.max (- long_max - 1) (Z.min long_max n)).

Fixpoint split_dot (s : list ascii) : list ascii * list ascii :=
  match s with
  | [] => ([], [])
  | c :: s' => if eqc c "." then ([], s') else let '(a, b) := split_dot s' in (c :: a, b)
  end.

(** The [double] nearest to the decimal number. *)
Definition strtod (yytext : list ascii) : spec_float :=
  let '(neg, ds) := split_sign yytext in
  let '(whole, frac) := split_dot ds in
  match dec_value (whole ++ frac) with
  | Zpos m => SFdiv 53 1024 (S754_finite neg m 0) (S754_finite false (Z.to_pos (10 ^ Z.of_nat (length frac))) 0)
  | _ => S754_zero neg
  end.

(** The conversion of a [double] to a [float]. *)
Definition to_float (d : spec_float) : spec_float :=
  match d with
  | S754_finite s m e => binary_round 24 128 s m e
  | _ => d
  end.

(** The 32 bits of a [float]. *)
Definition float_bits (f : spec_float) : Z :=
  let sign (s : bool) := if s then 2147483648 else 0 in
  wrap32 match f with
  | S754_zero s => sign s
  | S754_infinity s => sign s + 2139095040
  | S754_nan => 2143289344
  | S754_finite s m e =>
      sign s + (if Z.pos m <? 8388608 then Z.pos m else (e + 150) * 8388608 + (Z.pos m - 8388608))
  end.

Definition atof (yytext : list ascii) : Z := float_bits (to_float (strtod yytext)).

(** ** The scanner *)

Record YYLTYPE : Set := MkLoc { first_line : Z; first_column : Z; last_line : Z; last_column : Z }.

Definition advance (c : ascii) (p : Z * Z) : Z * Z :=
  if eqc c LF then (p.1 + 1, 1) else (p.1, p.2 + 1).

Definition YY_USER_ACTION (yytext : list ascii) (l : YYLTYPE) : YYLTYPE :=
  let '(ln, col) := foldl (λ p c, advance c p) (last_line l, last_column l) yytext in
  MkLoc (last_line l) (last_column l) ln col.

(** [yy_start] and the unread part of the buffer; [yylloc] is the caller's. *)
Record scanner : Set := MkScanner { yy_start : start; yy_rest : list ascii; yylloc : YYLTYPE }.

(** What an action makes of the text it matched: the token to return, if any. *)
Definition run_action (a : action) (yytext : list ascii) : option token :=
  match a with
  | BEGIN _ | Ignore | Unexpected => None
  | Return t => Some t
  | ReturnChar => Chr <$> head yytext
  | ReturnId => Some (IDENTIFIER (string_of_list_ascii yytext))
  | ReturnInt => Some (VALUE_INT (atoi yytext))
  | ReturnFloat => Some (VALUE_FLOAT (atof yytext))
  | ReturnString => Some (VALUE_STRING (string_of_list_ascii (take (length yytext - 2) (drop 1 yytext))))
  end.

Definition next_start (a : action) (s : start) : start := match a with BEGIN s' => s' | _ => s end.

(** One match: the rule and the length, or flex's default rule on one character. *)
Definition yy_match (s : start) (text : list ascii) : action * nat :=
  match first_longest (fst <$> active s) text with
  | Some (i, n) => (default Ignore (snd <$> active s !! i), n)
  | None => (Ignore, 1%nat)
  end.

Definition yy_step (sc : scanner) : option token * scanner :=
  let '(a, n) := yy_match (yy_start sc) (yy_rest sc) in
  let yytext := take n (yy_rest sc) in
  (run_action a yytext,
   MkScanner (next_start a (yy_start sc)) (drop n (yy_rest sc)) (YY_USER_ACTION yytext (yylloc sc))).

Fixpoint yylex_loop (fuel : nat) (sc : scanner) : option (token * scanner) :=
  match fuel with
  | O => None
  | S fuel' =>
      match yy_rest sc with
      | [] => Some (T_EOF, sc)
      | _ =>
          match yy_step sc with
          | (Some t, sc') => Some (t, sc')
          | (None, sc') => yylex_loop fuel' sc'
          end
      end
  end.

Definition yylex (sc : scanner) : option (token * scanner) := yylex_loop (S (length (yy_rest sc))) sc.

(** Everything the scanner returns up to the end of the input, each token with
    the scanner as it is after the token. *)
Fixpoint scan_loop (fuel : nat) (sc : scanner) : option (list (token * scanner)) :=
  match fuel with
  | O => None
  | S fuel' =>
      match yylex sc with
      | None => None
      | Some (t, sc') => if decide (t = T_EOF) then Some [(t, sc')] else ((t, sc') ::.) <$> scan_loop fuel' sc'
      end
  end.

Definition scan (sc : scanner) : option (list (token * scanner)) := scan_loop (S (length (yy_rest sc))) sc.

Definition loc0 : YYLTYPE := MkLoc 1 1 1 1.

Definition toks (s : start) (text : list ascii) : option (list token) :=
  fmap (M := list) fst <$> scan (MkScanner s text loc0).
