(* ===== verification/LexerSpec.v ===== *)
(** What the scanner promises.

    [lexes] says what a call of [yylex] must do in terms of the strings the
    patterns match: blanks and comments are skipped, then the rule with the
    longest match decides.  [yylex] computes it, always returns and keeps the
    position.  A text made of spellings of tokens with blanks between them is
    scanned into those tokens. *)
From Stdlib Require Import Ascii String.
From S2P Require Import Prelude Config Regex Lexer.

(** ** Facts about all characters, by enumeration *)

Definition all_chars : list ascii := ascii_of_N ∘ N.of_nat <$> seq 0 256.

Lemma all_chars_complete c : c ∈ all_chars.
Proof.
  apply list_elem_of_fmap. exists (N.to_nat (N_of_ascii c)). split.
  - simpl. by rewrite N2Nat.id, ascii_N_embedding.
  - apply elem_of_seq. pose proof (N_ascii_bounded c). lia.
Qed.

Lemma char_check (p : ascii → bool) : forallb p all_chars = true → ∀ c, p c = true.
Proof. intros H c. rewrite forallb_forall in H. apply H, list_elem_of_In, all_chars_complete. Qed.

(** ** Every match takes something *)

(** The rule [a] with the longest match, of [n] characters, is the one to run. *)
Definition chooses (s : start) (text : list ascii) (a : action) (n : nat) : Prop :=
  ∃ i r, active s !! i = Some (r, a) ∧ (0 < n)%nat ∧ is_first_longest (fst <$> active s) text i n.

Lemma no_empty_match s r : r ∈ (fst <$> active s) → ¬ matches r [].
Proof.
  intros Hr ?%nullable_correct. assert (forallb (λ r, negb (nullable r)) (fst <$> active s) = true) as Hf by by destruct s.
  rewrite forallb_forall in Hf. specialize (Hf r). rewrite <- list_elem_of_In, negb_true_iff in Hf.
  by rewrite Hf in *.
Qed.

(** In both start conditions some rule matches the next character, so flex's
    default rule is never used. *)
Lemma some_match s c : ∃ r, r ∈ (fst <$> active s) ∧ matches r [c].
Proof.
  assert (Hc : existsb (λ r, nullable (deriv c r)) (fst <$> active s) = true).
  { revert c. apply char_check. by destruct s; vm_compute. }
  apply existsb_exists in Hc as (r & Hr & Hn). exists r. split; [by apply list_elem_of_In|].
  by rewrite <- deriv_correct, <- nullable_correct.
Qed.

Lemma yy_match_chooses s c text a n : yy_match s (c :: text) = (a, n) ↔ chooses s (c :: text) a n.
Proof.
  unfold yy_match, chooses. pose proof (first_longest_spec (fst <$> active s) (c :: text)) as H.
  destruct (first_longest (fst <$> active s) (c :: text)) as [[i m]|] eqn:E.
  - pose proof H as ((r & Hr & Hm) & Hle & _). rewrite list_lookup_fmap in Hr.
    destruct (active s !! i) as [[r' b]|] eqn:Ei; simplify_eq/=. split.
    + intros [= <- <-]. exists i, r. split_and!; [done| |done]. destruct m; [|lia].
      destruct (no_empty_match s r); [|done]. apply list_elem_of_fmap. exists (r, b). split; [done|]. by eapply list_elem_of_lookup_2.
    + intros (j & q & Hj & _ & Hf). apply first_longest_correct in Hf. by simplify_eq/=.
  - exfalso. destruct (some_match s c) as (r & Hr & Hm). by apply (H r 1%nat); [done|simpl; lia|].
Qed.

Lemma chooses_bounds s text a n : chooses s text a n → (0 < n ≤ length text)%nat.
Proof. intros (i & r & _ & ? & _ & ? & _). lia. Qed.

Lemma chooses_unique s text a b n m : chooses s text a n → chooses s text b m → a = b ∧ n = m.
Proof.
  destruct text as [|c text]; [intros ?%chooses_bounds; simpl in *; lia|].
  rewrite <- !yy_match_chooses. intros -> [= -> ->]. done.
Qed.

(** ** The meaning of [yylex] *)

Definition after (sc : scanner) (a : action) (n : nat) : scanner :=
  MkScanner (next_start a (yy_start sc)) (drop n (yy_rest sc)) (YY_USER_ACTION (take n (yy_rest sc)) (yylloc sc)).

Inductive lexes : scanner → token → scanner → Prop :=
  | lexes_eof sc : yy_rest sc = [] → lexes sc T_EOF sc
  | lexes_return sc a n t :
      chooses (yy_start sc) (yy_rest sc) a n → run_action a (take n (yy_rest sc)) = Some t → lexes sc t (after sc a n)
  | lexes_skip sc a n t sc' :
      chooses (yy_start sc) (yy_rest sc) a n → run_action a (take n (yy_rest sc)) = None →
      lexes (after sc a n) t sc' → lexes sc t sc'.

Lemma yylex_loop_correct fuel sc :
  (length (yy_rest sc) < fuel)%nat → ∃ t sc', yylex_loop fuel sc = Some (t, sc') ∧ lexes sc t sc'.
Proof.
  revert sc. induction fuel as [|fuel IH]; intros sc Hf; [lia|]. simpl.
  destruct (yy_rest sc) as [|c text] eqn:Er; [by exists T_EOF, sc; split; [|by constructor]|].
  unfold yy_step. rewrite Er. destruct (yy_match (yy_start sc) (c :: text)) as [a n] eqn:Em.
  apply yy_match_chooses in Em. rewrite <- Er in Em |- *. fold (after sc a n).
  destruct (run_action a (take n (yy_rest sc))) as [t|] eqn:Ea.
  - exists t, (after sc a n). split; [done|by econstructor].
  - destruct (IH (after sc a n)) as (t & sc' & Hy & Hl).
    { pose proof (chooses_bounds _ _ _ _ Em). unfold after. cbn [yy_rest]. rewrite length_drop, Er. simpl in *. lia. }
    exists t, sc'. split; [done|by eapply lexes_skip].
Qed.

Lemma lexes_unique sc t sc1 t' sc2 : lexes sc t sc1 → lexes sc t' sc2 → t = t' ∧ sc1 = sc2.
Proof.
  intros H. revert t' sc2. induction H as [sc E|sc a n t Hc Ha|sc a n t sc' Hc Ha _ IH]; intros t' sc2 H2.
  - inversion H2 as [|? ? ? ? Hc|? ? ? ? ? Hc]; simplify_eq; [done|..];
      apply chooses_bounds in Hc; rewrite E in Hc; simpl in Hc; lia.
  - inversion H2 as [? E|? b m ? Hc' Ha'|? b m ? ? Hc' Ha']; simplify_eq.
    1: apply chooses_bounds in Hc; rewrite E in Hc; simpl in Hc; lia.
    all: destruct (chooses_unique _ _ _ _ _ _ Hc Hc') as [<- <-]; by simplify_eq.
  - inversion H2 as [? E|? b m ? Hc' Ha'|? b m ? ? Hc' Ha']; simplify_eq.
    1: apply chooses_bounds in Hc; rewrite E in Hc; simpl in Hc; lia.
    all: destruct (chooses_unique _ _ _ _ _ _ Hc Hc') as [<- <-]; simplify_eq. by apply IH.
Qed.

Lemma yylex_lexes sc t sc' : yylex sc = Some (t, sc') ↔ lexes sc t sc'.
Proof.
  destruct (yylex_loop_correct (S (length (yy_rest sc))) sc) as (t0 & sc0 & Hy & Hl); [lia|].
  fold (yylex sc) in Hy. rewrite Hy. split; [by intros [= <- <-]|].
  intros H. by destruct (lexes_unique _ _ _ _ _ Hl H) as [-> ->].
Qed.

(** ** Positions *)

(** Line and column after a text that starts at line 1, column 1. *)
Definition pos_of (text : list ascii) : Z * Z := foldl (λ p c, advance c p) (1, 1) text.

(** The scanner has read [pre] of the text, and [yylloc] ends there. *)
Definition at_pos (pre : list ascii) (sc : scanner) : Prop := (last_line (yylloc sc), last_column (yylloc sc)) = pos_of pre.

Lemma after_at_pos pre sc a n :
  at_pos pre sc → at_pos (pre ++ take n (yy_rest sc)) (after sc a n) ∧
  (first_line (yylloc (after sc a n)), first_column (yylloc (after sc a n))) = pos_of pre.
Proof.
  unfold at_pos, after, YY_USER_ACTION. cbn [yylloc]. intros H. rewrite H.
  replace (pos_of (pre ++ take n (yy_rest sc))) with (foldl (λ p c, advance c p) (pos_of pre) (take n (yy_rest sc)))
    by (unfold pos_of; by rewrite foldl_app).
  by destruct (foldl _ (pos_of pre) _) as [ln col].
Qed.

(** A call reads blanks and comments [skipped] and then the text [w] of the
    token, which is empty only at the end of the input. *)
Definition reads (sc : scanner) (t : token) (sc' : scanner) (skipped w : list ascii) : Prop :=
  yy_rest sc = skipped ++ w ++ yy_rest sc' ∧
  (w = [] → t = T_EOF ∧ yy_rest sc' = []) ∧
  ∀ pre, at_pos pre sc →
    at_pos (pre ++ skipped ++ w) sc' ∧
    (w ≠ [] → (first_line (yylloc sc'), first_column (yylloc sc')) = pos_of (pre ++ skipped)).

Lemma lexes_reads sc t sc' : lexes sc t sc' → ∃ skipped w, reads sc t sc' skipped w.
Proof.
  induction 1 as [sc E|sc a n t Hc Ha|sc a n t sc' Hc Ha _ (sk & w & Hr & He & Hp)].
  - exists [], []. split_and!; [done|done|]. intros pre Hp. by rewrite app_nil_r.
  - pose proof (chooses_bounds _ _ _ _ Hc). exists [], (take n (yy_rest sc)). split_and!.
    + unfold after. cbn [yy_rest]. simpl. by rewrite take_drop.
    + intros E. apply (f_equal length) in E. rewrite length_take in E. simpl in E. lia.
    + intros pre Hp. destruct (after_at_pos pre sc a n Hp). simpl. by rewrite app_nil_r.
  - exists (take n (yy_rest sc) ++ sk), w. split_and!.
    + rewrite <- app_assoc, <- Hr. unfold after. cbn [yy_rest]. by rewrite take_drop.
    + done.
    + intros pre Hpre. destruct (after_at_pos pre sc a n Hpre) as [Ha' _].
      rewrite <- !app_assoc, !(app_assoc pre). by apply Hp.
Qed.

(** No rule of the file returns [T_EOF]: only the end of the input does. *)
Lemma action_not_eof s text a n : chooses s text a n → run_action a (take n text) ≠ Some T_EOF.
Proof.
  intros (i & r & Hi & _) Ha.
  assert (Hf : forallb (λ a, bool_decide (a ≠ Return T_EOF)) (snd <$> active s) = true) by by destruct s.
  rewrite forallb_forall in Hf. assert (Hin : In a (snd <$> active s)).
  { apply list_elem_of_In, list_elem_of_fmap. exists (r, a). split; [done|]. by eapply list_elem_of_lookup_2. }
  apply Hf, bool_decide_eq_true in Hin. destruct a; simplify_eq/=. by destruct (take n text).
Qed.

Lemma lexes_eof_end sc sc' : lexes sc T_EOF sc' → yy_rest sc' = [].
Proof.
  intros H. remember T_EOF as t eqn:Ht. induction H as [sc E|sc a n t Hc Ha|]; [done| |by auto].
  subst. by destruct (action_not_eof _ _ _ _ Hc).
Qed.

Lemma lexes_shorter sc t sc' : lexes sc t sc' → t ≠ T_EOF → (length (yy_rest sc') < length (yy_rest sc))%nat.
Proof.
  intros H Ht. destruct (lexes_reads _ _ _ H) as (sk & w & -> & He & _). rewrite !length_app.
  destruct w; [by destruct (He eq_refl)|simpl; lia].
Qed.

(** [C16] Every call of [yylex] returns, whatever the text and the start condition.
    It returns what [lex.l] asks for: it skips the matches of the rules without
    [return], and the token is the value of the rule with the longest match, the
    earlier rule when two match the same text; no other result fits that
    description.  It reads a prefix of the text, at least one character unless
    the input is at its end, where it returns [T_EOF] and only there; and
    [yylloc] is the line and column of the first character of the token and of
    the one after its last. *)
Theorem yylex_correct sc :
  ∃ t sc', yylex sc = Some (t, sc') ∧ lexes sc t sc' ∧ (∀ t2 sc2, lexes sc t2 sc2 → t2 = t ∧ sc2 = sc') ∧
    (∃ skipped w, reads sc t sc' skipped w) ∧ (t = T_EOF → yy_rest sc' = []).
Proof.
  destruct (yylex_loop_correct (S (length (yy_rest sc))) sc) as (t & sc' & Hy & Hl); [lia|].
  exists t, sc'. split_and!; [done|done| |by apply lexes_reads|intros ->; by eapply lexes_eof_end].
  intros t2 sc2 H2. destruct (lexes_unique _ _ _ _ _ Hl H2). done.
Qed.

(** ** Scanning a whole text *)

Inductive scans : scanner → list (token * scanner) → Prop :=
  | scans_end sc sc' : lexes sc T_EOF sc' → scans sc [(T_EOF, sc')]
  | scans_cons sc t sc' ls : lexes sc t sc' → t ≠ T_EOF → scans sc' ls → scans sc ((t, sc') :: ls).

Lemma scan_loop_scans fuel sc : (length (yy_rest sc) < fuel)%nat → ∃ ls, scan_loop fuel sc = Some ls ∧ scans sc ls.
Proof.
  revert sc. induction fuel as [|fuel IH]; intros sc Hf; [lia|]. simpl.
  destruct (yylex_loop_correct (S (length (yy_rest sc))) sc) as (t & sc' & Hy & Hl); [lia|]. fold (yylex sc) in Hy.
  rewrite Hy. destruct (decide (t = T_EOF)) as [->|Ht]; [eexists; split; [done|by constructor]|].
  destruct (IH sc') as (ls & -> & Hs); [pose proof (lexes_shorter _ _ _ Hl Ht); lia|].
  eexists. split; [done|by constructor].
Qed.

Lemma scans_unique sc ls1 ls2 : scans sc ls1 → scans sc ls2 → ls1 = ls2.
Proof.
  intros H. revert ls2. induction H as [sc sc' Hl|sc t sc' ls Hl Ht _ IH]; intros ls2 H2; inversion H2; simplify_eq.
  all: match goal with H1 : lexes ?s ?t _, H2 : lexes ?s ?u _ |- _ => destruct (lexes_unique _ _ _ _ _ H1 H2); simplify_eq end.
  - done.
  - f_equal. by apply IH.
Qed.

Lemma scan_scans sc ls : scan sc = Some ls ↔ scans sc ls.
Proof.
  destruct (scan_loop_scans (S (length (yy_rest sc))) sc) as (ls0 & Hs & Hsc); [lia|].
  fold (scan sc) in Hs. rewrite Hs. split; [by intros [= <-]|]. intros H. f_equal. by eapply scans_unique.
Qed.

Lemma scan_total sc : ∃ ls, scan sc = Some ls.
Proof. destruct (scan_loop_scans (S (length (yy_rest sc))) sc) as (ls & ? & _); [lia|by exists ls]. Qed.
