(* ===== verification/LexText.v ===== *)
(** Texts and tokens: how a token may be written, and that a text in which the
    tokens are separated by blanks is scanned into exactly those tokens. *)
From Stdlib Require Import Ascii String.
From stdpp Require Import pretty.
From S2P Require Import Prelude Config Regex Lexer LexerSpec.

(** ** Spellings *)

Definition blanks : list ascii := [" "%char; TAB; CR; LF].
Definition lowered (w : list ascii) : list ascii := lower <$> w.

Definition is_keyword (w : list ascii) : bool := existsb (λ '(s, _), bool_decide (lowered w = lowered (chars s))) keywords.

Inductive spells : token → list ascii → Prop :=
  | sp_keyword s t w : (s, t) ∈ keywords → lowered w = lowered (chars s) → spells t w
  | sp_op c : c ∈ ops → spells (Chr c) [c]
  | sp_geq : spells GEQ [">"; "="]%char
  | sp_leq : spells LEQ ["<"; "="]%char
  | sp_neq : spells NEQ ["<"; ">"]%char
  | sp_id w :
      matches identifier w → is_keyword w = false → spells (IDENTIFIER (string_of_list_ascii w)) w
  | sp_int w : matches value_int w → spells (VALUE_INT (atoi w)) w
  | sp_float w : matches value_float w → spells (VALUE_FLOAT (atof w)) w
  | sp_string u : quote ∉ u → spells (VALUE_STRING (string_of_list_ascii u)) (quote :: u ++ [quote]).

(** ** The rules of the initial start condition *)

Definition comment_rules : list (regex * action) :=
  [(lit ["/"; "*"]%char, BEGIN STATE_COMMENT); (Seq (lit ["-"; "-"]%char) (Star any_char), Ignore);
   (white_space, Ignore); (new_line, Ignore)].
Definition keyword_rules : list (regex * action) := (λ '(s, t), (kw s, Return t)) <$> keywords.
Definition other_rules : list (regex * action) :=
  [(lit [">"; "="]%char, Return GEQ); (lit ["<"; "="]%char, Return LEQ); (lit ["<"; ">"]%char, Return NEQ);
   (single_op, ReturnChar); (identifier, ReturnId); (value_int, ReturnInt); (value_float, ReturnFloat);
   (value_string, ReturnString); (any_char, Unexpected)].

Lemma active_initial : active INITIAL = comment_rules ++ keyword_rules ++ other_rules.
Proof. reflexivity. Qed.

Abbreviation patterns := (fst <$> active INITIAL).

Lemma pattern_check (p : regex → bool) i r : forallb p patterns = true → patterns !! i = Some r → p r = true.
Proof. rewrite forallb_forall. intros H Hi. by apply H, list_elem_of_In, (list_elem_of_lookup_2 _ i). Qed.

(** The rules before number [i]. *)
Lemma earlier_check (p : regex → bool) i j r :
  forallb p (take i patterns) = true → patterns !! j = Some r → p r = false → (i ≤ j)%nat.
Proof.
  rewrite forallb_forall. intros H Hj Hr. destruct (decide (j < i)%nat); [|lia].
  rewrite H in Hr; [done|]. apply list_elem_of_In, (list_elem_of_lookup_2 _ j). by rewrite lookup_take_lt.
Qed.

Lemma matches_nullable r w : matches r w ↔ nullable (derivs w r) = true.
Proof. by rewrite nullable_correct, derivs_correct, app_nil_r. Qed.

Definition is_void (r : regex) : bool := match r with Void => true | _ => false end.

Lemma matches_prefix r w u : matches r (w ++ u) → is_void (derivs w r) = false.
Proof. intros H%derivs_correct. destruct (derivs w r); try done. by apply matches_void in H. Qed.

(** What follows a token: nothing, or something that starts with a blank. *)
Definition ends (v : list ascii) : Prop := v = [] ∨ ∃ c v', v = c :: v' ∧ c ∈ blanks.

Definition stops_at_blank (w : list ascii) (r : regex) : bool := forallb (λ c, negb (alphabet (derivs w r) c)) blanks.

(** The rule number [i] is chosen for [w ++ u] if it matches that text, no earlier rule
    does, and after [w] no pattern goes on past a blank. *)
Lemma chooses_spelling i r a w u v :
  active INITIAL !! i = Some (r, a) → matches r (w ++ u) → w ≠ [] → ends v →
  forallb (stops_at_blank w) patterns = true →
  (∀ j q, patterns !! j = Some q → matches q (w ++ u) → (i ≤ j)%nat) →
  chooses INITIAL ((w ++ u) ++ v) a (length (w ++ u)).
Proof.
  intros Hi Hm Hw Hv Hst Hj. exists i, r. unfold is_first_longest. split_and!.
  - done.
  - destruct w; [done|simpl; lia].
  - exists r. split; [by rewrite list_lookup_fmap, Hi|by rewrite take_app_length].
  - rewrite (length_app (w ++ u)). lia.
  - intros j q m Hq Hle Hmq. destruct (Nat.lt_trichotomy m (length (w ++ u))) as [?|[->|Hlt]].
    + by left.
    + right. rewrite take_app_length in Hmq. split; [done|]. by eapply Hj.
    + exfalso. rewrite (length_app (w ++ u)) in Hle. destruct Hv as [->|(c & v' & -> & Hc)]; [simpl in *; lia|].
      apply (no_match_beyond q w u c v' m); [|done|done].
      pose proof (pattern_check _ _ _ Hst Hq) as Hs. unfold stops_at_blank in Hs. rewrite forallb_forall in Hs.
      apply negb_true_iff, Hs. by apply list_elem_of_In.
Qed.

(** ** Words and numbers by their first characters *)

Lemma matches_kw s w : matches (kw s) w ↔ lowered w = lowered (chars s).
Proof.
  unfold kw. generalize (chars s). clear s. intros cs. revert w.
  induction cs as [|c cs IH]; intros w; simpl; [rewrite matches_eps; by destruct w|].
  rewrite matches_seq. split.
  - intros (s1 & s2 & -> & (d & -> & Hd)%matches_cls & H2%IH). simpl. apply bool_decide_eq_true in Hd. by rewrite H2, Hd.
  - destruct w as [|d w]; [done|]. simpl. intros [= Hd Hw]. exists [d], w. split_and!; [done| |by apply IH].
    apply matches_cls. exists d. split; [done|]. by apply bool_decide_eq_true.
Qed.

Lemma alpha_first : ∀ c, implb (is_alpha c)
  (forallb (stops_at_blank [c]) patterns && forallb (λ r, is_void (deriv c r)) (fst <$> comment_rules ++ take 4 other_rules)) = true.
Proof. apply char_check. by vm_compute. Qed.

Lemma digit_first : ∀ c, implb (is_digit c)
  (forallb (stops_at_blank [c]) patterns && forallb (λ r, is_void (deriv c r)) (take 36 patterns)) = true.
Proof. apply char_check. by vm_compute. Qed.

Lemma sign_first : ∀ c, implb (is_digit c)
  (forallb (λ s, forallb (stops_at_blank [s; c]) patterns && forallb (λ r, is_void (derivs [s; c] r)) (take 36 patterns))
     ["+"; "-"]%char) = true.
Proof. apply char_check. by vm_compute. Qed.

(** A number starts with a digit or with a sign and a digit; after that no
    pattern goes on past a blank, and only the last rules are left. *)
Lemma number_start w :
  (∃ r, matches (Seq (opt sign) (Seq digit r)) w) →
  ∃ p u, w = p ++ u ∧ p ≠ [] ∧ forallb (stops_at_blank p) patterns = true ∧
         forallb (λ r, is_void (derivs p r)) (take 36 patterns) = true.
Proof.
  intros (r & (s1 & s2 & -> & Hs & Hd)%matches_seq).
  apply matches_seq in Hd as (e1 & e2 & -> & (c & -> & Hc)%matches_cls & _).
  apply matches_alt in Hs as [->%matches_eps|Hs].
  - exists [c], e2. pose proof (digit_first c) as H. rewrite Hc in H. simpl in H.
    by apply andb_true_iff in H as [H1 H2].
  - assert (∃ s, s1 = [s] ∧ s ∈ ["+"; "-"]%char) as (s & -> & Hs1).
    { apply matches_alt in Hs as [Hs|Hs]; apply matches_seq in Hs as (x & y & -> & (e & -> & He)%matches_cls & ->%matches_eps);
        apply bool_decide_eq_true in He as <-; eexists; (split; [done|]); set_solver. }
    exists [s; c], e2. pose proof (sign_first c) as H. rewrite Hc in H. cbn [implb] in H.
    rewrite forallb_forall in H. specialize (H s (proj1 (list_elem_of_In _ _) Hs1)).
    by apply andb_true_iff in H as [H1 H2].
Qed.

Lemma seq_assoc r1 r2 r3 w : matches (Seq (Seq r1 r2) r3) w → matches (Seq r1 (Seq r2 r3)) w.
Proof.
  intros (s & s3 & -> & (s1 & s2 & -> & H1 & H2)%matches_seq & H3)%matches_seq. rewrite <- app_assoc. by repeat constructor.
Qed.

Lemma int_start w : matches value_int w → ∃ r, matches (Seq (opt sign) (Seq digit r)) w.
Proof. intros H. by exists (Star digit). Qed.

Lemma float_start w : matches value_float w → ∃ r, matches (Seq (opt sign) (Seq digit r)) w.
Proof.
  intros (s1 & s2 & -> & H1 & H2)%matches_seq. eexists. constructor; [done|]. by apply seq_assoc.
Qed.

Lemma float_dot w : matches value_float w → "."%char ∈ w.
Proof.
  intros (s1 & s2 & -> & _ & (s3 & s4 & -> & _ & (s5 & s6 & -> & H & _)%matches_seq)%matches_seq)%matches_seq.
  apply matches_seq in H as (x & y & -> & (e & -> & He)%matches_cls & _).
  apply bool_decide_eq_true in He as <-. set_solver.
Qed.

Lemma chooses_number i r a w v :
  active INITIAL !! i = Some (r, a) → matches r w → ends v → (∃ q, matches (Seq (opt sign) (Seq digit q)) w) →
  (∀ j q, patterns !! j = Some q → (36 ≤ j)%nat → matches q w → (i ≤ j)%nat) → chooses INITIAL (w ++ v) a (length w).
Proof.
  intros Hi Hm Hv Hn Hj. destruct (number_start w Hn) as (p & u & -> & Hp & H1 & H2).
  apply (chooses_spelling i r); [done..|]. intros j q Hq Hmq. apply (Hj j q); [done| |done].
  by eapply earlier_check; [exact H2|done|]; eapply matches_prefix.
Qed.

(** ** String literals *)

Definition string_tail : regex := Seq (Star (none_of [quote])) (lit [quote]).

Lemma string_tail_stays c : c ≠ quote → deriv c string_tail = string_tail.
Proof.
  intros Hc. unfold string_tail, none_of, lit. simpl. unfold eqc. rewrite bool_decide_true by set_solver.
  by rewrite bool_decide_false by congruence.
Qed.

Lemma string_tail_text u : quote ∉ u → derivs u string_tail = string_tail.
Proof.
  induction u as [|c u IH]; intros Hu; [done|]. apply not_elem_of_cons in Hu as [Hc Hu].
  change (derivs (c :: u) string_tail) with (derivs u (deriv c string_tail)).
  by rewrite string_tail_stays, IH by congruence.
Qed.

Lemma derivs_app u v r : derivs (u ++ v) r = derivs v (derivs u r).
Proof. apply foldl_app. Qed.
Lemma derivs_void u : derivs u Void = Void.
Proof. by induction u. Qed.

Lemma derivs_quoted r u :
  r ∈ patterns → quote ∉ u → derivs (quote :: u ++ [quote]) r = (if is_void (deriv quote r) || nullable (deriv quote r) then Void else Eps).
Proof.
  intros Hr Hu. change (derivs (quote :: u ++ [quote]) r) with (derivs (u ++ [quote]) (deriv quote r)). rewrite derivs_app.
  assert (Hs : deriv quote r = Void ∨ deriv quote r = Eps ∨ deriv quote r = string_tail).
  { rewrite active_initial in Hr. repeat (apply elem_of_cons in Hr as [->|Hr]; [by vm_compute; auto|]).
    by apply elem_of_nil in Hr. }
  destruct Hs as [-> | [-> | ->]].
  - by rewrite !derivs_void.
  - destruct u; [done|]. change (derivs (a :: u) Eps) with (derivs u Void). by rewrite !derivs_void.
  - by rewrite string_tail_text.
Qed.

(** ** The rule of a spelling *)

Lemma lookup_rule i r a : active INITIAL !! i = Some (r, a) → patterns !! i = Some r.
Proof. intros Hi. by rewrite list_lookup_fmap, Hi. Qed.

Lemma identifier_start w : matches identifier w → ∃ c u, w = c :: u ∧ is_alpha c = true.
Proof. intros (s1 & s2 & -> & (c & -> & Hc)%matches_cls & _)%matches_seq. by exists c, s2. Qed.

(** Among the rules a letter can start, the keywords come first. *)
Lemma word_rules c u j q :
  is_alpha c = true → patterns !! j = Some q → matches q (c :: u) →
  (∃ k s t, j = (4 + k)%nat ∧ keywords !! k = Some (s, t) ∧ lowered (c :: u) = lowered (chars s)) ∨ (35 ≤ j)%nat.
Proof.
  intros Hc Hj Hm. pose proof (alpha_first c) as H. rewrite Hc in H. cbn [implb] in H. apply andb_true_iff in H as [_ H].
  rewrite forallb_forall in H.
  assert (Hno : ¬ In q (fst <$> comment_rules ++ take 4 other_rules)).
  { intros Hin%H. by rewrite (matches_prefix q [c] u Hm : is_void (deriv c q) = false) in Hin. }
  destruct (decide (35 ≤ j)%nat) as [|Hlt]; [by right|left]. rewrite active_initial, !fmap_app in Hj.
  rewrite fmap_app in Hno.
  destruct (decide (j < 4)%nat) as [H4|H4].
  { rewrite lookup_app_l in Hj by done. destruct Hno. apply list_elem_of_In, elem_of_app. left. by eapply list_elem_of_lookup_2. }
  rewrite lookup_app_r in Hj by (simpl; lia). simpl length in Hj.
  destruct (decide (j < 31)%nat) as [H31|H31].
  - rewrite lookup_app_l in Hj by (rewrite !length_fmap; simpl; lia).
    unfold keyword_rules in Hj. rewrite !list_lookup_fmap in Hj.
    destruct (keywords !! (j - 4)%nat) as [[s t]|] eqn:Ek; [|done].
    injection Hj as <-. exists (j - 4)%nat, s, t. split_and!; [lia|done|by apply (matches_kw s (c :: u))].
  - rewrite lookup_app_r in Hj by (rewrite !length_fmap; simpl; lia). rewrite length_fmap in Hj.
    change (length keyword_rules) with 27%nat in Hj.
    destruct Hno. apply list_elem_of_In, elem_of_app. right. rewrite fmap_take.
    apply (list_elem_of_lookup_2 _ (j - 4 - 27)%nat). by rewrite lookup_take_lt by lia.
Qed.

Lemma keywords_alpha s t : (s, t) ∈ keywords → ∀ w, lowered w = lowered (chars s) → ∃ c u, w = c :: u ∧ is_alpha c = true.
Proof.
  intros Hs w Hw. assert (Hf : forallb (λ '(s, t), match lowered (chars s) with c :: _ => is_alpha c | [] => false end) keywords = true)
    by by vm_compute.
  rewrite forallb_forall in Hf. specialize (Hf _ (proj1 (list_elem_of_In _ _) Hs)). simpl in Hf. rewrite <- Hw in Hf.
  destruct w as [|c u]; [done|]. exists c, u. split; [done|]. simpl in Hf. revert Hf.
  pose proof (char_check (λ c, implb (is_alpha (lower c)) (is_alpha c)) ltac:(by vm_compute) c) as H.
  simpl in H. destruct (is_alpha (lower c)); [by destruct (is_alpha c)|done].
Qed.

(** No two keywords are the same word. *)
Lemma keywords_distinct i j s t s' t' :
  keywords !! i = Some (s, t) → keywords !! j = Some (s', t') → lowered (chars s) = lowered (chars s') → i = j.
Proof.
  intros Hi Hj E. assert (Hn : NoDup ((λ '(s, _), lowered (chars s)) <$> keywords)).
  { apply (bool_decide_unpack _). by vm_compute. }
  apply (NoDup_lookup _ _ _ (lowered (chars s)) Hn); rewrite list_lookup_fmap; [by rewrite Hi|by rewrite Hj, E].
Qed.

Lemma chooses_keyword k s t w v :
  keywords !! k = Some (s, t) → lowered w = lowered (chars s) → ends v → chooses INITIAL (w ++ v) (Return t) (length w).
Proof.
  intros Hk Hw Hv. destruct (keywords_alpha s t (list_elem_of_lookup_2 _ _ _ Hk) w Hw) as (c & u & -> & Hc).
  pose proof (alpha_first c) as H. rewrite Hc in H. apply andb_true_iff in H as [Hst _].
  pose proof (lookup_lt_Some _ _ _ Hk) as Hk27. change (length keywords) with 27%nat in Hk27.
  apply (chooses_spelling (4 + k) (kw s) (Return t) [c] u v); [|by apply matches_kw|done|done|done|].
  - rewrite active_initial, lookup_app_r by (simpl; lia). rewrite lookup_app_l by (simpl; lia).
    simpl length. replace (4 + k - 4)%nat with k by lia. unfold keyword_rules. by rewrite list_lookup_fmap, Hk.
  - intros j q Hj Hm. destruct (word_rules c u j q Hc Hj Hm) as [(k' & s' & t' & -> & Hk' & E)|?]; [|lia].
    rewrite (keywords_distinct k k' s t s' t' Hk Hk'); [lia|]. by rewrite <- Hw.
Qed.

Lemma chooses_identifier w v :
  matches identifier w → is_keyword w = false → ends v → chooses INITIAL (w ++ v) ReturnId (length w).
Proof.
  intros Hm Hk Hv. destruct (identifier_start w Hm) as (c & u & -> & Hc).
  pose proof (alpha_first c) as H. rewrite Hc in H. apply andb_true_iff in H as [Hst _].
  apply (chooses_spelling 35 identifier ReturnId [c] u v); [done..|].
  intros j q Hj Hq. destruct (word_rules c u j q Hc Hj Hq) as [(k & s & t & -> & Hk' & E)|?]; [|lia].
  enough (is_keyword (c :: u) = true) by congruence. apply existsb_exists. exists (s, t). split.
  - by apply list_elem_of_In, (list_elem_of_lookup_2 _ k).
  - by apply bool_decide_eq_true.
Qed.

Lemma chooses_int w v : matches value_int w → ends v → chooses INITIAL (w ++ v) ReturnInt (length w).
Proof. intros Hm Hv. apply (chooses_number 36 value_int); [done..|by apply int_start|done]. Qed.

Lemma chooses_float w v : matches value_float w → ends v → chooses INITIAL (w ++ v) ReturnFloat (length w).
Proof.
  intros Hm Hv. apply (chooses_number 37 value_float); [done..|by apply float_start|].
  intros j q Hj H36 Hq. destruct (decide (j = 36%nat)) as [->|]; [|lia].
  assert (q = value_int) as -> by by injection Hj. by pose proof (alphabet_correct _ _ _ Hq (float_dot w Hm)).
Qed.

Lemma matches_string u : quote ∉ u → matches value_string (quote :: u ++ [quote]).
Proof.
  intros Hu. apply (derivs_correct [quote]), (derivs_correct u). change (derivs [quote] value_string) with string_tail.
  rewrite string_tail_text by done. by apply nullable_correct || (apply matches_nullable; reflexivity).
Qed.

Lemma chooses_string u v :
  quote ∉ u → ends v → chooses INITIAL ((quote :: u ++ [quote]) ++ v) ReturnString (length (quote :: u ++ [quote])).
Proof.
  intros Hu Hv. pose proof (chooses_spelling 38 value_string ReturnString (quote :: u ++ [quote]) [] v) as H.
  rewrite app_nil_r in H. apply H; [done|by apply matches_string|done|done|..].
  - rewrite forallb_forall. intros q Hq%list_elem_of_In. unfold stops_at_blank. rewrite derivs_quoted by done. by case_match.
  - intros j q Hj Hm%matches_nullable. rewrite derivs_quoted in Hm; [|by eapply list_elem_of_lookup_2|done].
    eapply (earlier_check (λ r, is_void (deriv quote r) || nullable (deriv quote r))); [by vm_compute|done|].
    by destruct (is_void (deriv quote q) || nullable (deriv quote q)).
Qed.

(** Spellings with one or two fixed characters, by computing. *)
Lemma chooses_fixed i r a w v :
  active INITIAL !! i = Some (r, a) → w ≠ [] → ends v → nullable (derivs w r) = true →
  forallb (stops_at_blank w) patterns = true → forallb (λ q, negb (nullable (derivs w q))) (take i patterns) = true →
  chooses INITIAL (w ++ v) a (length w).
Proof.
  intros Hi Hw Hv Hn Hst Hj. pose proof (chooses_spelling i r a w [] v) as H. rewrite app_nil_r in H.
  apply H; [done|by apply matches_nullable|done..|].
  intros j q Hq Hm%matches_nullable. eapply earlier_check; [exact Hj|done|]. simpl. by rewrite Hm.
Qed.

Lemma chooses_op c v : c ∈ ops → ends v → chooses INITIAL ([c] ++ v) ReturnChar 1.
Proof.
  intros Hc Hv. repeat (apply elem_of_cons in Hc as [->|Hc]; [by apply (chooses_fixed 34 single_op)|]).
  by apply elem_of_nil in Hc.
Qed.

(** The scanner takes a spelling of a token, whole, and makes the token of it. *)
Lemma spells_chooses t w v :
  spells t w → ends v → ∃ a, chooses INITIAL (w ++ v) a (length w) ∧ run_action a w = Some t.
Proof.
  intros H Hv. destruct H as [s t w [k Hk]%list_elem_of_lookup_1 Hw|c Hc| | | |w Hm Hk|w Hm|w Hm|u Hu].
  - exists (Return t). split; [by eapply chooses_keyword|done].
  - exists ReturnChar. split; [by apply chooses_op|done].
  - exists (Return GEQ). split; [by apply (chooses_fixed 31 (lit [">"; "="]%char))|done].
  - exists (Return LEQ). split; [by apply (chooses_fixed 32 (lit ["<"; "="]%char))|done].
  - exists (Return NEQ). split; [by apply (chooses_fixed 33 (lit ["<"; ">"]%char))|done].
  - exists ReturnId. split; [by apply chooses_identifier|done].
  - exists ReturnInt. split; [by apply chooses_int|done].
  - exists ReturnFloat. split; [by apply chooses_float|done].
  - exists ReturnString. split; [by apply chooses_string|]. simpl. rewrite length_app. simpl.
    replace (length u + 1 - 1)%nat with (length u) by lia. by rewrite drop_0, take_app_length.
Qed.

(** ** Blanks *)

(** At a blank, the scanner skips blanks only. *)
Lemma blank_first : ∀ c, implb (bool_decide (c ∈ blanks))
  (forallb (λ '(r, a), is_void (deriv c r) ||
      (bool_decide (a = Ignore ∨ a = Unexpected) && forallb (λ d, implb (alphabet (deriv c r) d) (bool_decide (d ∈ blanks))) all_chars))
     (active INITIAL)) = true.
Proof. apply char_check. by vm_compute. Qed.

Lemma chooses_blank c text a n :
  c ∈ blanks → chooses INITIAL (c :: text) a n →
  (∀ w, run_action a w = None) ∧ next_start a INITIAL = INITIAL ∧ Forall (.∈ blanks) (take n (c :: text)).
Proof.
  intros Hc (i & r & Hi & Hn & (r' & Hr & Hm) & _). rewrite (lookup_rule _ _ _ Hi) in Hr. injection Hr as <-.
  pose proof (blank_first c) as H. rewrite bool_decide_true in H by done. cbn [implb] in H. rewrite forallb_forall in H.
  specialize (H (r, a) (proj1 (list_elem_of_In _ _) (list_elem_of_lookup_2 _ _ _ Hi))). cbn beta iota in H.
  destruct n as [|n]; [lia|]. simpl in Hm. rewrite (matches_prefix r [c] (take n text) Hm : is_void (deriv c r) = false) in H.
  cbn [orb] in H. apply andb_true_iff in H as [Ha Hb]. apply bool_decide_eq_true in Ha. split_and!.
  - by destruct Ha as [->| ->].
  - by destruct Ha as [->| ->].
  - simpl. apply Forall_cons. split; [done|]. apply Forall_forall. intros d Hd. rewrite forallb_forall in Hb.
    specialize (Hb d (proj1 (list_elem_of_In _ _) (all_chars_complete d))).
    rewrite (alphabet_correct _ _ d (proj2 (deriv_correct c r (take n text)) Hm) Hd) in Hb. by apply bool_decide_eq_true in Hb.
Qed.

(** Scanners up to the position they report. *)
Definition same (sc1 sc2 : scanner) : Prop := yy_start sc1 = yy_start sc2 ∧ yy_rest sc1 = yy_rest sc2.

Lemma lexes_same sc1 t sc1' sc2 : lexes sc1 t sc1' → same sc1 sc2 → ∃ sc2', lexes sc2 t sc2' ∧ same sc1' sc2'.
Proof.
  intros H. revert sc2. induction H as [sc E|sc a n t Hc Ha|sc a n t sc' Hc Ha _ IH]; intros sc2 [Hs Hr].
  - exists sc2. split; [constructor; congruence|done].
  - exists (after sc2 a n). rewrite Hs, Hr in *. split; [by econstructor|]. unfold after, same. simpl. by rewrite Hs, Hr.
  - destruct (IH (after sc2 a n)) as (sc2' & Hl & Hsame); [unfold after, same; simpl; by rewrite Hs, Hr|].
    exists sc2'. split; [|done]. rewrite Hs, Hr in *. by eapply lexes_skip.
Qed.

(** Blanks before the next text make no difference to the token. *)
Lemma lexes_blanks bl text l t sc' :
  Forall (.∈ blanks) bl → (∀ c v, text = c :: v → c ∉ blanks) → lexes (MkScanner INITIAL text l) t sc' →
  ∀ l', ∃ sc'', lexes (MkScanner INITIAL (bl ++ text) l') t sc'' ∧ same sc' sc''.
Proof.
  remember (length bl) as n eqn:Hn. revert bl Hn. induction n as [n IH] using lt_wf_ind. intros bl -> Hbl Htext Hl l'.
  destruct bl as [|c bl]; [by eapply lexes_same|].
  destruct (yy_match INITIAL ((c :: bl) ++ text)) as [a m] eqn:Em. apply yy_match_chooses in Em.
  apply Forall_cons in Hbl as [Hc Hbl]. destruct (chooses_blank _ _ _ _ Hc Em) as (Ha & Hst & Htk).
  change (Forall (.∈ blanks) (take m ((c :: bl) ++ text))) in Htk.
  assert (Hb : (0 < m ≤ length ((c :: bl) ++ text))%nat) by exact (chooses_bounds _ _ _ _ Em).
  assert (Hm : (m ≤ length (c :: bl))%nat).
  { destruct (decide (m ≤ length (c :: bl))%nat) as [|Hgt]; [done|exfalso].
    rewrite take_app_ge in Htk by lia. apply Forall_app in Htk as [_ Htk]. rewrite length_app in Hb.
    destruct text as [|d v]; [simpl in *; lia|]. destruct (m - length (c :: bl))%nat as [|k] eqn:E; [lia|].
    simpl in Htk. apply Forall_cons in Htk as [Hd _]. by apply (Htext d v). }
  set (sc := MkScanner INITIAL ((c :: bl) ++ text) l').
  destruct (IH (length (drop m (c :: bl)))) with (bl := drop m (c :: bl)) (l' := yylloc (after sc a m)) as (sc'' & Hl' & Hsame);
    [rewrite length_drop; simpl; simpl in Hb; lia|done|by apply Forall_drop, Forall_cons|done|done|].
  exists sc''. split; [|done]. eapply (lexes_skip sc a m); [done|apply Ha|].
  enough (after sc a m = MkScanner INITIAL (drop m (c :: bl) ++ text) (yylloc (after sc a m))) as -> by done.
  unfold after, sc. cbn [yy_start yy_rest yylloc]. by rewrite Hst, drop_app_le.
Qed.

(** ** Whole texts *)

(** Spellings, each followed by a blank string; the last one may be followed by nothing. *)
Definition layout (ws : list (list ascii * list ascii)) : list ascii := concat ((λ '(w, b), w ++ b) <$> ws).

Fixpoint separated (ws : list (list ascii * list ascii)) : Prop :=
  match ws with
  | [] => True
  | (_, b) :: ws' => Forall (.∈ blanks) b ∧ (b = [] → ws' = []) ∧ separated ws'
  end.

Lemma spells_not_blank t w c v : spells t w → w = c :: v → c ∉ blanks.
Proof.
  intros Hs -> Hc. destruct (spells_chooses t (c :: v) [] Hs) as (a & Hch & Ha); [by left|].
  rewrite app_nil_r in Hch. destruct (chooses_blank _ _ _ _ Hc Hch) as (Hno & _). by rewrite Hno in Ha.
Qed.

Definition same_tokens (ls1 ls2 : list (token * scanner)) : Prop := Forall2 (λ x y, x.1 = y.1 ∧ same x.2 y.2) ls1 ls2.

Lemma scans_same sc1 ls1 sc2 : scans sc1 ls1 → same sc1 sc2 → ∃ ls2, scans sc2 ls2 ∧ same_tokens ls1 ls2.
Proof.
  intros H. revert sc2. induction H as [sc sc' Hl|sc t sc' ls Hl Ht _ IH]; intros sc2 Hs.
  - destruct (lexes_same _ _ _ _ Hl Hs) as (sc2' & Hl2 & Hs2). exists [(T_EOF, sc2')]. split; [by constructor|]. by apply Forall2_cons.
  - destruct (lexes_same _ _ _ _ Hl Hs) as (sc2' & Hl2 & Hs2), (IH sc2' Hs2) as (ls2 & Hsc & Hst).
    exists ((t, sc2') :: ls2). split; [by constructor|]. by apply Forall2_cons.
Qed.

Lemma scans_blanks bl text l l' ls :
  Forall (.∈ blanks) bl → (∀ c v, text = c :: v → c ∉ blanks) → scans (MkScanner INITIAL text l) ls →
  ∃ ls', scans (MkScanner INITIAL (bl ++ text) l') ls' ∧ same_tokens ls ls'.
Proof.
  intros Hb Ht H. inversion H as [? sc' Hl|? t sc' ls0 Hl Hne Hs]; simplify_eq.
  - destruct (lexes_blanks _ _ _ _ _ Hb Ht Hl l') as (sc'' & Hl' & Hsame). exists [(T_EOF, sc'')]. split; [by constructor|]. by apply Forall2_cons.
  - destruct (lexes_blanks _ _ _ _ _ Hb Ht Hl l') as (sc'' & Hl' & Hsame), (scans_same _ _ _ Hs Hsame) as (ls2 & Hsc & Hst).
    exists ((t, sc'') :: ls2). split; [by constructor|]. by apply Forall2_cons.
Qed.

Lemma same_tokens_fst ls1 ls2 : same_tokens ls1 ls2 → fst <$> ls1 = fst <$> ls2.
Proof. induction 1 as [|x y l k [H _] _ IH]; [done|]. by rewrite !fmap_cons, H, IH. Qed.

Lemma same_starts ls1 ls2 :
  same_tokens ls1 ls2 → Forall (λ x, yy_start x.2 = INITIAL) ls1 → Forall (λ x, yy_start x.2 = INITIAL) ls2.
Proof. induction 1 as [|x y l k [_ [Hs _]] _ IH]; [done|]. rewrite !Forall_cons, Hs. naive_solver. Qed.

Abbreviation spelled := (Forall2 (λ t '(w, _), spells t w)).

Lemma layout_not_blank ts ws : spelled ts ws → ∀ c v, layout ws = c :: v → c ∉ blanks.
Proof.
  destruct 1 as [|t [w b] ts ws Hs _]; [done|]. intros c v E. unfold layout in E. simpl in E.
  destruct (spells_chooses t w [] Hs) as (a & Hch & _); [by left|]. apply chooses_bounds in Hch.
  rewrite app_nil_r in Hch. destruct w as [|d w]; [simpl in Hch; lia|]. simplify_eq/=. by eapply spells_not_blank.
Qed.

Lemma scans_layout ts ws l :
  spelled ts ws → separated ws →
  ∃ ls, scans (MkScanner INITIAL (layout ws) l) ls ∧ fst <$> ls = ts ++ [T_EOF] ∧
        Forall (λ x, yy_start x.2 = INITIAL) ls.
Proof.
  intros Hsp. revert l. induction Hsp as [|t [w b] ts ws Hs Hsp IH]; intros l Hsep.
  { eexists. split; [constructor; by apply lexes_eof|]. split; [done|]. by constructor. }
  destruct Hsep as (Hb & Hlast & Hsep). change (layout ((w, b) :: ws)) with ((w ++ b) ++ layout ws). rewrite <- app_assoc.
  assert (He : ends (b ++ layout ws)).
  { destruct b as [|c b]; [rewrite Hlast by done; by left|]. right. apply Forall_cons in Hb as [? _]. by exists c, (b ++ layout ws). }
  destruct (spells_chooses t w _ Hs He) as (a & Hch & Ha).
  set (sc := MkScanner INITIAL (w ++ b ++ layout ws) l).
  assert (Hl : lexes sc t (after sc a (length w))).
  { apply lexes_return; [done|]. unfold sc. cbn [yy_rest]. by rewrite take_app_length. }
  assert (Hne : t ≠ T_EOF).
  { intros ->. apply (action_not_eof _ _ _ _ Hch). by rewrite take_app_length. }
  destruct (IH loc0 Hsep) as (ls & Hls & Htok & Hst).
  destruct (scans_blanks b (layout ws) loc0 (yylloc (after sc a (length w))) ls Hb (layout_not_blank ts ws Hsp) Hls) as (ls' & Hls' & Hsame).
  assert (Haf : after sc a (length w) = MkScanner INITIAL (b ++ layout ws) (yylloc (after sc a (length w)))).
  { unfold after, sc. cbn [yy_start yy_rest yylloc]. rewrite drop_app_length. destruct a; done. }
  rewrite <- Haf in Hls'. exists ((t, after sc a (length w)) :: ls'). split_and!.
  - by constructor.
  - rewrite fmap_cons, <- (same_tokens_fst _ _ Hsame), Htok. done.
  - constructor; [by rewrite Haf|by apply (same_starts ls)].
Qed.

(** A text that consists of spellings of tokens, with blanks (spaces, tabs, new
    lines, carriage returns) before, between and after them, is scanned into
    exactly those tokens and [T_EOF], and leaves the scanner in its initial start
    condition.  A keyword may be written in any mixture of cases; an identifier
    is any word that is not a keyword; numbers, with or without a sign, have the
    value [atoi] or [atof] gives them; a string literal is its characters between
    quotes, new lines and comment signs included. *)
Lemma scan_of_layout lead ws ts l :
  Forall (.∈ blanks) lead → separated ws → spelled ts ws →
  ∃ ls, scan (MkScanner INITIAL (lead ++ layout ws) l) = Some ls ∧ fst <$> ls = ts ++ [T_EOF] ∧
        Forall (λ x, yy_start x.2 = INITIAL) ls.
Proof.
  intros Hb Hsep Hsp. destruct (scans_layout ts ws l Hsp Hsep) as (ls & Hls & Htok & Hst).
  destruct (scans_blanks lead (layout ws) l l ls Hb (layout_not_blank ts ws Hsp) Hls) as (ls' & Hls' & Hsame).
  exists ls'. split_and!; [by apply scan_scans|by rewrite <- (same_tokens_fst _ _ Hsame)|by apply (same_starts ls)].
Qed.

(** ** Block comments *)

(** The text has an end of a comment in it. *)
Fixpoint has_close (u : list ascii) : bool :=
  match u with
  | c :: (d :: _) as u' => (eqc c "*" && eqc d "/") || has_close u'
  | _ => false
  end.

Lemma longest_eps v : longest Eps v = Some 0%nat.
Proof. destruct v; [done|]. simpl. by rewrite longest_void. Qed.

(** Inside a comment one character is skipped, unless it is the start of [*/]. *)
Lemma comment_char c v : has_close (c :: v) = false → chooses STATE_COMMENT (c :: v) Ignore 1.
Proof.
  intros Hc. apply yy_match_chooses. unfold yy_match.
  change (active STATE_COMMENT) with [(lit ["*"; "/"]%char, BEGIN INITIAL); (none_of ["*"%char], Ignore); (lit ["*"%char], Ignore)].
  cbn [fmap list_fmap first_longest fst]. rewrite !longest_unfold. cbn [deriv nullable lit foldr none_of]. unfold eqc.
  destruct (decide ("*"%char = c)) as [<-|Hne].
  - rewrite bool_decide_true by done. rewrite bool_decide_false by set_solver. cbn [seq_]. rewrite longest_eps, longest_void.
    destruct v as [|d v]; [done|]. rewrite longest_unfold. cbn [deriv nullable].
    assert (bool_decide ("/"%char = d) = false) as ->.
    { apply bool_decide_eq_false. intros <-. by simpl in Hc. }
    cbn [seq_]. by rewrite longest_void.
  - rewrite bool_decide_false by done. rewrite bool_decide_true by set_solver. cbn [seq_].
    by rewrite longest_eps, !longest_void.
Qed.

(** In the comment state a text without [*/] is skipped to its end, and the scanner
    stays in that state. *)
Lemma comment_swallows u l : has_close u = false →
  ∃ l', scan (MkScanner STATE_COMMENT u l) = Some [(T_EOF, MkScanner STATE_COMMENT [] l')].
Proof.
  intros Hu. assert (∃ l', lexes (MkScanner STATE_COMMENT u l) T_EOF (MkScanner STATE_COMMENT [] l')) as [l' Hl].
  { revert l Hu. induction u as [|c v IH]; intros l Hu; [exists l; by constructor|].
    pose proof (comment_char c v Hu) as Hc.
    destruct (IH (YY_USER_ACTION [c] l)) as [l' Hl'].
    { destruct v as [|d v]; [done|]. simpl in Hu |- *. by apply orb_false_iff in Hu as [_ ?]. }
    exists l'. by eapply lexes_skip. }
  exists l'. apply scan_scans. by constructor.
Qed.

(** ** A spelling of each token *)

Definition keyword_of (t : token) : option (list ascii) :=
  head (omap (λ '(s, k), if decide (k = t) then Some (chars s) else None) keywords).

Definition spell (t : token) : list ascii :=
  match t with
  | Chr c => [c]
  | GEQ => [">"; "="]%char
  | LEQ => ["<"; "="]%char
  | NEQ => ["<"; ">"]%char
  | IDENTIFIER s => chars s
  | VALUE_INT n => chars (to_string n)
  | VALUE_STRING s => quote :: chars s ++ [quote]
  | _ => default [] (keyword_of t)
  end.

(** The tokens that [spell] spells: of the others, [T_EOF] has no text, and the
    literals of the [float] type are left out. *)
Definition can_spell (t : token) : bool :=
  match t with
  | Chr c => bool_decide (c ∈ ops)
  | IDENTIFIER s => nullable (derivs (chars s) identifier) && negb (is_keyword (chars s))
  | VALUE_INT n => (int_min <=? n) && (n <=? int_max)
  | VALUE_STRING s => bool_decide (quote ∉ chars s)
  | VALUE_FLOAT _ | T_EOF => false
  | _ => true
  end.

Lemma digits_plus ds : ds ≠ [] → Forall (λ c, is_digit c = true) ds → matches (plus digit) ds.
Proof.
  intros Hne Hd. destruct ds as [|c ds]; [done|]. apply Forall_cons in Hd as [Hc Hd].
  apply (m_seq _ _ [c] ds); [by constructor|]. clear Hne Hc. induction Hd as [|d ds Hd _ IH]; [constructor|].
  apply (m_star_cons _ [d] ds); [by constructor|done].
Qed.

Lemma digit_char_code d : (d < 10)%N → is_digit (pretty_N_char d) = true ∧ code (pretty_N_char d) - 48 = Z.of_N d.
Proof.
  intros H. assert (d = 0 ∨ d = 1 ∨ d = 2 ∨ d = 3 ∨ d = 4 ∨ d = 5 ∨ d = 6 ∨ d = 7 ∨ d = 8 ∨ d = 9)%N as Hd by lia.
  by destruct_or! Hd; subst d.
Qed.

(** The digits [pretty_N_go] puts before [s]. *)
Lemma pretty_go_digits x s :
  ∃ ds, chars (pretty_N_go x s) = ds ++ chars s ∧ Forall (λ c, is_digit c = true) ds ∧ dec_value ds = Z.of_N x ∧ ((0 < x)%N → ds ≠ []).
Proof.
  revert s. induction (N.lt_wf_0 x) as [x _ IH]. intros s. destruct (decide (0 < x)%N) as [Hx|Hx].
  - rewrite pretty_N_go_step by done. destruct (IH (x `div` 10)%N ltac:(apply N.div_lt; lia) (String (pretty_N_char (x `mod` 10)) s))
      as (ds & E & Hd & Hv & _). destruct (digit_char_code (x `mod` 10)%N ltac:(apply N.mod_lt; lia)) as [Hc Hcv].
    exists (ds ++ [pretty_N_char (x `mod` 10)]). rewrite E, <- app_assoc. split_and!; [done| | |by destruct ds].
    + apply Forall_app. split; [done|by constructor].
    + unfold dec_value in *. rewrite foldl_app, Hv. cbn [foldl]. rewrite Hcv. pose proof (N.div_mod x 10 ltac:(lia)). lia.
  - exists []. assert (x = 0)%N as -> by lia. split_and!; [done|constructor|done|lia].
Qed.

Lemma pretty_digits (n : N) :
  chars (pretty n) ≠ [] ∧ Forall (λ c, is_digit c = true) (chars (pretty n)) ∧ dec_value (chars (pretty n)) = Z.of_N n.
Proof.
  destruct (decide (n = 0)%N) as [->|Hn]; [split_and!; [done|by constructor|done]|].
  change (pretty n) with (pretty_N n). unfold pretty_N. rewrite decide_False by done.
  destruct (pretty_go_digits n EmptyString) as (ds & -> & Hd & Hv & Hne). rewrite app_nil_r. split_and!; [apply Hne; lia|done|done].
Qed.

(** Every [int] has a decimal spelling, and [atoi] reads it back. *)
Lemma spells_int_literal z : is_int z → spells (VALUE_INT z) (chars (to_string z)).
Proof.
  intros Hz. destruct (pretty_digits (Z.abs_N z)) as (Hne & Hd & Hv). set (ds := chars (pretty (Z.abs_N z))) in *.
  assert (Hat : ∀ n, is_int n → wrap32 (Z.max (- long_max - 1) (Z.min long_max n)) = n).
  { intros n Hn. rewrite Z.min_r, Z.max_r by (unfold is_int, int_min, int_max, long_max in *; lia). by apply wrap32_id. }
  destruct (Z.ltb_spec z 0) as [Hneg|Hpos].
  - assert (Ht : chars (to_string z) = "-"%char :: ds) by by destruct z.
    assert (E : z = atoi (chars (to_string z))).
    { rewrite Ht. unfold atoi. simpl. rewrite Hv, Hat; unfold is_int, int_min, int_max in *; lia. }
    rewrite E at 1. apply sp_int. rewrite Ht. apply (m_seq _ _ ["-"%char] ds); [|by apply digits_plus].
    apply matches_nullable. reflexivity.
  - assert (Ht : chars (to_string z) = ds) by by destruct z.
    assert (E : z = atoi (chars (to_string z))).
    { rewrite Ht. unfold atoi, split_sign. destruct ds as [|c ds']; [done|]. apply Forall_cons in Hd as [Hc _].
      unfold eqc. rewrite !bool_decide_false by (by intros ->). cbv iota. rewrite Hv, Hat; unfold is_int, int_min, int_max in *; lia. }
    rewrite E at 1. apply sp_int. rewrite Ht. apply (m_seq _ _ [] ds); [repeat constructor|by apply digits_plus].
Qed.

Lemma keyword_of_spells t w : keyword_of t = Some w → spells t w.
Proof.
  unfold keyword_of. intros H. apply head_Some_elem_of, list_elem_of_omap in H as ([s k] & Hk & H).
  case_decide; simplify_eq. by eapply sp_keyword.
Qed.

Lemma spell_spells t : can_spell t = true → spells t (spell t).
Proof.
  destruct t; simpl; intros H; try done; try (by apply keyword_of_spells).
  - apply sp_leq.
  - apply sp_neq.
  - apply sp_geq.
  - apply andb_true_iff in H as [H1 H2]. rewrite <- (string_of_chars sv_str) at 1.
    apply sp_id; [by apply matches_nullable|by apply negb_true_iff].
  - apply bool_decide_eq_true in H. rewrite <- (string_of_chars sv_str) at 1. by apply sp_string.
  - apply andb_true_iff in H as [?%Z.leb_le ?%Z.leb_le]. by apply spells_int_literal.
  - apply bool_decide_eq_true in H. by apply sp_op.
Qed.

(** The tokens with a space after each. *)
Definition print_tokens (ts : list token) : list (list ascii * list ascii) := (λ t, (spell t, [" "%char])) <$> ts.

Lemma print_tokens_ok ts : forallb can_spell ts = true → spelled ts (print_tokens ts) ∧ separated (print_tokens ts).
Proof.
  induction ts as [|t ts IH]; [by split; [constructor|]|]. intros [Ht [IH1 IH2]%IH]%andb_true_iff. split.
  - constructor; [by apply spell_spells|done].
  - split_and!; [repeat constructor; set_solver|done|done].
Qed.
