(* ===== verification/Parser.v ===== *)
(** The grammar of statements: [parser/yacc.y].

    The grammar is a family of inductive relations, one per nonterminal, between
    the value an action computes and the tokens the nonterminal derives; a
    constructor is a production with its action.  The nonterminals of the form
    [l: x | l sep x] share [g_list].

    [p_start] is the parser: it reads a token only when it has to, as bison's
    automaton does (states with a single reduction take it without looking), and
    stops at the first token that no statement can have at its place.
    [ParserSpec] proves that it is the parser of that grammar. *)
From Stdlib Require Import Ascii String.
From S2P Require Import Prelude Config Regex Lexer Ast.
Import ast.

(** ** Productions *)

Abbreviation gram A := (A → list token → Prop).

Abbreviation semicolon := (Chr ";").
Abbreviation lparen := (Chr "(").
Abbreviation rparen := (Chr ")").
Abbreviation comma := (Chr ",").
Abbreviation dot := (Chr ".").
Abbreviation equals := (Chr "=").
Abbreviation star := (Chr "*").

Inductive g_list {A} (item : gram A) (sep : token → bool) : gram (list A) :=
  | g_one a u : item a u → g_list item sep [a] u
  | g_more l u t a v : g_list item sep l u → sep t = true → item a v → g_list item sep (l ++ [a]) (u ++ t :: v).

Definition is_tok (t t' : token) : bool := bool_decide (t' = t).

Inductive g_tbName : gram string :=
  | tbName_id s : g_tbName s [IDENTIFIER s].

Inductive g_colName : gram string :=
  | colName_id s : g_colName s [IDENTIFIER s].

Inductive g_value : gram Value :=
  | value_int_lit n : g_value (IntLit n) [VALUE_INT n]
  | value_float_lit b : g_value (FloatLit b) [VALUE_FLOAT b]
  | value_string_lit s : g_value (StringLit s) [VALUE_STRING s].

Definition g_valueList : gram (list Value) := g_list g_value (is_tok comma).

Inductive g_type : gram TypeLen :=
  | type_int : g_type (MkTypeLen SV_TYPE_INT 4) [INT]
  | type_char n : g_type (MkTypeLen SV_TYPE_STRING n) [CHAR; lparen; VALUE_INT n; rparen]
  | type_float : g_type (MkTypeLen SV_TYPE_FLOAT 4) [FLOAT].

Inductive g_field : gram ColDef :=
  | field_def c u t v : g_colName c u → g_type t v → g_field (MkColDef c t) (u ++ v).

Definition g_fieldList : gram (list ColDef) := g_list g_field (is_tok comma).

Inductive g_col : gram Col :=
  | col_qualified t u c v : g_tbName t u → g_colName c v → g_col (MkCol t c) (u ++ dot :: v)
  | col_plain c u : g_colName c u → g_col (MkCol EmptyString c) u.

Definition g_colList : gram (list Col) := g_list g_col (is_tok comma).

Inductive g_op : gram SvCompOp :=
  | op_eq : g_op SV_OP_EQ [Chr "="]
  | op_lt : g_op SV_OP_LT [Chr "<"]
  | op_gt : g_op SV_OP_GT [Chr ">"]
  | op_ne : g_op SV_OP_NE [NEQ]
  | op_le : g_op SV_OP_LE [LEQ]
  | op_ge : g_op SV_OP_GE [GEQ].

Inductive g_expr : gram Expr :=
  | expr_value v u : g_value v u → g_expr (EValue v) u
  | expr_col c u : g_col c u → g_expr (ECol c) u.

Inductive g_condition : gram BinaryExpr :=
  | condition_binary c u o v e w : g_col c u → g_op o v → g_expr e w → g_condition (MkBinaryExpr c o e) (u ++ v ++ w).

Definition g_whereClause : gram (list BinaryExpr) := g_list g_condition (is_tok AND).

(** The empty alternative has an action that sets nothing; what bison then takes
    for [$$] is the stack slot above the top, whose [sv_conds] is empty: no
    [whereClause] has been on the stack before. *)
Inductive g_optWhereClause : gram (list BinaryExpr) :=
  | where_none : g_optWhereClause [] []
  | where_some l u : g_whereClause l u → g_optWhereClause l (WHERE :: u).

Inductive g_setClause : gram SetClause :=
  | set_clause c u v w : g_colName c u → g_value v w → g_setClause (MkSetClause c v) (u ++ equals :: w).

Definition g_setClauses : gram (list SetClause) := g_list g_setClause (is_tok comma).

Inductive g_selector : gram (list Col) :=
  | selector_all : g_selector [] [star]
  | selector_cols l u : g_colList l u → g_selector l u.

Definition table_sep (t : token) : bool := is_tok comma t || is_tok JOIN t.
Definition g_tableList : gram (list string) := g_list g_tbName table_sep.

Inductive g_txnStmt : gram TreeNode :=
  | txn_begin : g_txnStmt TxnBegin [TXN_BEGIN]
  | txn_commit : g_txnStmt TxnCommit [TXN_COMMIT]
  | txn_abort : g_txnStmt TxnAbort [TXN_ABORT]
  | txn_rollback : g_txnStmt TxnRollback [TXN_ROLLBACK].

Inductive g_dbStmt : gram TreeNode :=
  | show_tables : g_dbStmt ShowTables [SHOW; TABLES].

Inductive g_ddl : gram TreeNode :=
  | ddl_create_table t u l v :
      g_tbName t u → g_fieldList l v → g_ddl (CreateTable t l) (CREATE :: TABLE :: u ++ lparen :: v ++ [rparen])
  | ddl_drop_table t u : g_tbName t u → g_ddl (DropTable t) (DROP :: TABLE :: u)
  | ddl_desc t u : g_tbName t u → g_ddl (DescTable t) (DESC :: u)
  | ddl_create_index t u c v :
      g_tbName t u → g_colName c v → g_ddl (CreateIndex t c) (CREATE :: INDEX :: u ++ lparen :: v ++ [rparen])
  | ddl_drop_index t u c v :
      g_tbName t u → g_colName c v → g_ddl (DropIndex t c) (DROP :: INDEX :: u ++ lparen :: v ++ [rparen]).

Inductive g_dml : gram TreeNode :=
  | dml_insert t u l v :
      g_tbName t u → g_valueList l v → g_dml (InsertStmt t l) (INSERT :: INTO :: u ++ VALUES :: lparen :: v ++ [rparen])
  | dml_delete t u w v :
      g_tbName t u → g_optWhereClause w v → g_dml (DeleteStmt t w) (DELETE :: FROM :: u ++ v)
  | dml_update t u l v w x :
      g_tbName t u → g_setClauses l v → g_optWhereClause w x →
      g_dml (UpdateStmt t l w) (UPDATE :: u ++ SET :: v ++ x)
  | dml_select s u t v w x :
      g_selector s u → g_tableList t v → g_optWhereClause w x →
      g_dml (SelectStmt s t w) (SELECT :: u ++ FROM :: v ++ x).

Inductive g_stmt : gram TreeNode :=
  | stmt_db t u : g_dbStmt t u → g_stmt t u
  | stmt_ddl t u : g_ddl t u → g_stmt t u
  | stmt_dml t u : g_dml t u → g_stmt t u
  | stmt_txn t u : g_txnStmt t u → g_stmt t u.

(** What [parse_tree] is set to; [None] is [nullptr]. *)
Inductive g_start : gram (option TreeNode) :=
  | start_stmt t u : g_stmt t u → g_start (Some t) (u ++ [semicolon])
  | start_help : g_start (Some Help) [HELP]
  | start_exit : g_start None [EXIT]
  | start_eof : g_start None [T_EOF].

(** ** The parser *)

(** A value and the tokens not read; or the tokens from the one at fault on. *)
Inductive presult (A : Type) : Type :=
  | POk (a : A) (rest : list token)
  | PErr (bad : list token)
  | PFuel.
Arguments POk {_} _ _.
Arguments PErr {_} _.
Arguments PFuel {_}.

Definition P (A : Type) : Type := list token → presult A.

Definition pret {A} (a : A) : P A := λ ts, POk a ts.
Definition pbind {A B} (p : P A) (k : A → P B) : P B := λ ts,
  match p ts with POk a ts' => k a ts' | PErr b => PErr b | PFuel => PFuel end.

Declare Scope parse_scope.
Delimit Scope parse_scope with parse.
Notation "x ← p ; k" := (pbind p (λ x, k)) : parse_scope.
Notation "p ;; k" := (pbind p (λ _, k)) : parse_scope.
Local Open Scope parse_scope.

(** Shift a token that [f] accepts. *)
Definition shift {A} (f : token → option A) : P A := λ ts,
  match ts with
  | t :: ts' => match f t with Some a => POk a ts' | None => PErr ts end
  | [] => PErr []
  end.
Definition expect (t : token) : P unit := shift (λ t', if decide (t' = t) then Some tt else None).

(** Choose by the next token, without shifting it. *)
Definition branch {A} (sel : token → option (P A)) : P A := λ ts,
  match ts with
  | t :: _ => match sel t with Some p => p ts | None => PErr ts end
  | [] => PErr []
  end.

(** [p] if the next token is [t], and [d] otherwise. *)
Definition option_at {A} (t : token) (d : A) (p : P A) : P A := λ ts,
  match ts with
  | t' :: _ => if decide (t' = t) then p ts else POk d ts
  | [] => POk d ts
  end.

Fixpoint p_more {A} (fuel : nat) (item : P A) (sep : token → bool) (l : list A) : P (list A) := λ ts,
  match fuel with
  | O => PFuel
  | S fuel' =>
      match ts with
      | t :: ts' =>
          if sep t then (a ← item; p_more fuel' item sep (l ++ [a])) ts' else POk l ts
      | [] => POk l ts
      end
  end.

Definition p_list {A} (item : P A) (sep : token → bool) : P (list A) :=
  a ← item; (λ ts, p_more (S (length ts)) item sep [a] ts).

Definition p_tbName : P string := shift (λ t, match t with IDENTIFIER s => Some s | _ => None end).
Definition p_colName : P string := shift (λ t, match t with IDENTIFIER s => Some s | _ => None end).

Definition p_value : P Value := shift (λ t,
  match t with
  | VALUE_INT n => Some (IntLit n)
  | VALUE_FLOAT b => Some (FloatLit b)
  | VALUE_STRING s => Some (StringLit s)
  | _ => None
  end).

Definition p_valueList : P (list Value) := p_list p_value (is_tok comma).

Definition p_VALUE_INT : P Z := shift (λ t, match t with VALUE_INT n => Some n | _ => None end).

Definition p_type : P TypeLen := branch (λ t,
  match t with
  | INT => Some (expect INT ;; pret (MkTypeLen SV_TYPE_INT 4))
  | CHAR =>
      Some (expect CHAR ;; expect lparen ;;
            n ← p_VALUE_INT; expect rparen ;; pret (MkTypeLen SV_TYPE_STRING n))
  | FLOAT => Some (expect FLOAT ;; pret (MkTypeLen SV_TYPE_FLOAT 4))
  | _ => None
  end).

Definition p_field : P ColDef := c ← p_colName; t ← p_type; pret (MkColDef c t).
Definition p_fieldList : P (list ColDef) := p_list p_field (is_tok comma).

(** One identifier; whether it is a table's name is seen at the next token. *)
Definition p_col : P Col :=
  s ← p_colName; option_at dot (MkCol EmptyString s) (expect dot ;; c ← p_colName; pret (MkCol s c)).
Definition p_colList : P (list Col) := p_list p_col (is_tok comma).

Definition p_op : P SvCompOp := shift (λ t,
  match t with
  | Chr c =>
      if decide (c = "="%char) then Some SV_OP_EQ else if decide (c = "<"%char) then Some SV_OP_LT
      else if decide (c = ">"%char) then Some SV_OP_GT else None
  | NEQ => Some SV_OP_NE
  | LEQ => Some SV_OP_LE
  | GEQ => Some SV_OP_GE
  | _ => None
  end).

Definition p_expr : P Expr := branch (λ t,
  match t with
  | IDENTIFIER _ => Some (c ← p_col; pret (ECol c))
  | VALUE_INT _ | VALUE_FLOAT _ | VALUE_STRING _ => Some (v ← p_value; pret (EValue v))
  | _ => None
  end).

Definition p_condition : P BinaryExpr := c ← p_col; o ← p_op; e ← p_expr; pret (MkBinaryExpr c o e).
Definition p_whereClause : P (list BinaryExpr) := p_list p_condition (is_tok AND).

Definition p_optWhereClause : P (list BinaryExpr) := option_at WHERE [] (expect WHERE ;; p_whereClause).

Definition p_setClause : P SetClause := c ← p_colName; expect equals ;; v ← p_value; pret (MkSetClause c v).
Definition p_setClauses : P (list SetClause) := p_list p_setClause (is_tok comma).

Definition p_selector : P (list Col) := branch (λ t,
  match t with
  | IDENTIFIER _ => Some p_colList
  | Chr c => if decide (c = "*"%char) then Some (expect star ;; pret []) else None
  | _ => None
  end).

Definition p_tableList : P (list string) := p_list p_tbName table_sep.

(** After [CREATE] and after [DROP]. *)
Definition p_create : P TreeNode := branch (λ t,
  match t with
  | TABLE => Some (expect TABLE ;; t ← p_tbName; expect lparen ;; l ← p_fieldList; expect rparen ;; pret (CreateTable t l))
  | INDEX => Some (expect INDEX ;; t ← p_tbName; expect lparen ;; c ← p_colName; expect rparen ;; pret (CreateIndex t c))
  | _ => None
  end).
Definition p_drop : P TreeNode := branch (λ t,
  match t with
  | TABLE => Some (expect TABLE ;; t ← p_tbName; pret (DropTable t))
  | INDEX => Some (expect INDEX ;; t ← p_tbName; expect lparen ;; c ← p_colName; expect rparen ;; pret (DropIndex t c))
  | _ => None
  end).

Definition p_stmt : P TreeNode := branch (λ t,
  match t with
  | TXN_BEGIN => Some (expect TXN_BEGIN ;; pret TxnBegin)
  | TXN_COMMIT => Some (expect TXN_COMMIT ;; pret TxnCommit)
  | TXN_ABORT => Some (expect TXN_ABORT ;; pret TxnAbort)
  | TXN_ROLLBACK => Some (expect TXN_ROLLBACK ;; pret TxnRollback)
  | SHOW => Some (expect SHOW ;; expect TABLES ;; pret ShowTables)
  | CREATE => Some (expect CREATE ;; p_create)
  | DROP => Some (expect DROP ;; p_drop)
  | DESC => Some (expect DESC ;; t ← p_tbName; pret (DescTable t))
  | INSERT => Some (expect INSERT ;; expect INTO ;; t ← p_tbName; expect VALUES ;; expect lparen ;;
                    l ← p_valueList; expect rparen ;; pret (InsertStmt t l))
  | DELETE => Some (expect DELETE ;; expect FROM ;; t ← p_tbName; w ← p_optWhereClause; pret (DeleteStmt t w))
  | UPDATE => Some (expect UPDATE ;; t ← p_tbName; expect SET ;; l ← p_setClauses; w ← p_optWhereClause; pret (UpdateStmt t l w))
  | SELECT => Some (expect SELECT ;; s ← p_selector; expect FROM ;; t ← p_tableList; w ← p_optWhereClause; pret (SelectStmt s t w))
  | _ => None
  end).

Definition p_start : P (option TreeNode) := branch (λ t,
  match t with
  | HELP => Some (expect HELP ;; pret (Some Help))
  | EXIT => Some (expect EXIT ;; pret None)
  | T_EOF => Some (expect T_EOF ;; pret None)
  | _ => Some (t ← p_stmt; expect semicolon ;; pret (Some t))
  end).

(** ** [yyparse] on a text *)

(** Whether [yyparse] returns 0, the global [parse_tree] and the scanner's start
    condition afterwards, and the position [yyerror] reports. *)
Record yyresult : Set := MkResult {
  accepted : bool;
  tree_after : option TreeNode;
  start_after : start;
  error_at : option YYLTYPE
}.

(** [ls] is what the scanner would return up to the end of the text; of it only
    the tokens the parser asks for are read, one after the other. *)
Definition yyparse (s : start) (text : list ascii) (old : option TreeNode) : option yyresult :=
  match scan (MkScanner s text loc0) with
  | None => None
  | Some ls =>
      match p_start (ls.*1) with
      | POk tree rest =>
          (λ x, MkResult true tree (yy_start x.2) None) <$> ls !! (length ls - length rest - 1)%nat
      | PErr bad =>
          (λ x, MkResult false old (yy_start x.2) (Some (yylloc x.2))) <$> ls !! (length ls - length bad)%nat
      | PFuel => None
      end
  end.
