(* ===== verification/ParserSpec.v ===== *)
(** The parser is the parser of the grammar.

    [parser_ok p G c] collects what is proved of a parser [p] for a nonterminal [G]:
    what it accepts [G] derives; it accepts everything [G] derives when the token
    that follows is not one of [c]; it looks one token ahead at most; it fails at a
    token where [G] has no continuation, and not before; and it ends.  The lemmas
    [po_*] give this for the combinators, and then for each nonterminal. *)
From Stdlib Require Import Ascii String.
From S2P Require Import Prelude Config Regex Lexer LexerSpec LexText Ast Parser.
Import ast.

Definition stops (c : token → bool) (ts : list token) : Prop := ∀ t, head ts = Some t → c t = false.

Record parser_ok {A} (p : P A) (G : gram A) (c : token → bool) : Prop := {
  po_sound : ∀ ts a rest, p ts = POk a rest → ∃ u, ts = u ++ rest ∧ G a u;
  po_complete : ∀ a u rest, G a u → stops c rest → p (u ++ rest) = POk a rest;
  po_local : ∀ u a rest rest', p (u ++ rest) = POk a rest → head rest' = head rest → p (u ++ rest') = POk a rest';
  po_fail : ∀ ts bad, p ts = PErr bad →
    ∃ u, ts = u ++ bad ∧ (∃ a v, G a (u ++ v)) ∧ ∀ bad', head bad' = head bad → p (u ++ bad') = PErr bad';
  po_total : ∀ ts, p ts ≠ PFuel
}.

(** ** Grammars of the combinators *)

Definition gret {A} (a : A) : gram A := λ x u, x = a ∧ u = [].
Definition gtok (t : token) : gram unit := λ _ u, u = [t].
Definition gshift {A} (f : token → option A) : gram A := λ a u, ∃ t, u = [t] ∧ f t = Some a.
Definition gseq {A B} (G : gram A) (H : A → gram B) : gram B := λ x w, ∃ a u v, w = u ++ v ∧ G a u ∧ H a x v.
Definition live {A} (G : gram A) : Prop := ∃ a u, G a u.

Lemma gret_intro {A} (a : A) : gret a a [].
Proof. done. Qed.
Lemma gseq_tok {B} t (H : unit → gram B) x v : H tt x v → gseq (gtok t) H x (t :: v).
Proof. intros ?. by exists tt, [t], v. Qed.
Lemma gseq_app {A B} (G : gram A) (H : A → gram B) a u x v : G a u → H a x v → gseq G H x (u ++ v).
Proof. intros ? ?. by exists a, u, v. Qed.
Lemma gseq_last {A B} (G : gram A) (H : A → gram B) a u x : G a u → H a x [] → gseq G H x u.
Proof. intros ? ?. exists a, u, []. by rewrite app_nil_r. Qed.

Lemma gseq_one {A B} (G : gram A) (H : A → gram B) a t x v : G a [t] → H a x v → gseq G H x (t :: v).
Proof. intros ? ?. by exists a, [t], v. Qed.

Lemma live_ret {A} (a : A) : live (gret a).
Proof. by exists a, []. Qed.
Lemma live_tok t : live (gtok t).
Proof. by exists tt, [t]. Qed.
Lemma live_seq {A B} (G : gram A) (H : A → gram B) : live G → (∀ a, live (H a)) → live (gseq G H).
Proof. intros (a & u & HG) HH. destruct (HH a) as (x & v & ?). by exists x, (u ++ v), a, u, v. Qed.

Create HintDb gram.
#[export] Hint Resolve gret_intro gseq_tok gseq_app gseq_last gseq_one : gram.
#[export] Hint Resolve live_ret live_tok live_seq : gram.

(** ** Combinators *)

Lemma head_app {A} (v r r' : list A) : head r' = head r → head (v ++ r') = head (v ++ r).
Proof. by destruct v. Qed.

Lemma stops_app c t v rest : c t = false → stops c ((t :: v) ++ rest).
Proof. by intros ? ? [= <-]. Qed.

Section Combinators.
Context {A B : Type}.
Implicit Types (G : gram A) (c : token → bool).

Lemma po_ext (p : P A) G G' c : (∀ a u, G a u ↔ G' a u) → parser_ok p G c → parser_ok p G' c.
Proof.
  intros HG [Hs Hc Hl Hf Ht]. constructor; [by setoid_rewrite <- HG|by setoid_rewrite <- HG|done| |done].
  by setoid_rewrite <- HG.
Qed.

Lemma po_weaken (p : P A) G c c' : (∀ t, c' t = false → c t = false) → parser_ok p G c → parser_ok p G c'.
Proof.
  intros Hcc [Hs Hc Hl Hf Ht]. constructor; [done| |done..].
  intros a u rest HG Hst. apply Hc; [done|]. intros t Hh. by apply Hcc, Hst.
Qed.

Lemma po_ret (a : A) c : parser_ok (pret a) (gret a) c.
Proof.
  constructor.
  - intros ts x rest [= -> ->]. by exists [].
  - by intros x u rest [-> ->] _.
  - intros u x rest rest' [= -> Hu] _. replace u with (@nil token); [done|].
    apply (f_equal length) in Hu. rewrite length_app in Hu. symmetry. apply nil_length_inv. lia.
  - done.
  - done.
Qed.

Lemma app_self_nil {T} (u r : list T) : u ++ r = r → u = [].
Proof. intros H. apply nil_length_inv. apply (f_equal length) in H. rewrite length_app in H. lia. Qed.

Lemma po_shift (f : token → option A) c : (∃ t a, f t = Some a) → parser_ok (shift f) (gshift f) c.
Proof.
  intros (t0 & a0 & H0). constructor.
  - intros [|t ts] a rest; simpl; [done|]. destruct (f t) eqn:E; [|done]. intros [= -> ->]. exists [t]. split; [done|by exists t].
  - intros a u rest (t & -> & Ht) _. simpl. by rewrite Ht.
  - intros u a rest rest' H _. destruct u as [|t u]; simpl in *.
    + destruct rest as [|t rest]; [done|]. simpl in H. destruct (f t); [|done]. injection H as _ H.
      apply (f_equal length) in H. simpl in H. lia.
    + destruct (f t); [|done]. injection H as -> H. by rewrite (app_self_nil _ _ H).
  - intros ts bad H. exists []. assert (ts = bad) as ->.
    { destruct ts as [|t ts]; simpl in H; [congruence|]. destruct (f t); congruence. }
    split_and!; [done|by exists a0, [t0], t0|]. intros bad' Hh. destruct bad as [|t bad], bad' as [|t' bad']; simplify_eq/=; [done|].
    by destruct (f t).
  - intros [|t ts]; simpl; [done|]. by destruct (f t).
Qed.

Lemma po_bind (p : P A) (k : A → P B) G (H : A → gram B) cp c :
  parser_ok p G cp → (∀ a, parser_ok (k a) (H a) c) → (∀ a, live (H a)) →
  (∀ a u x v rest, G a u → H a x v → stops c rest → stops cp (v ++ rest)) →
  parser_ok (pbind p k) (gseq G H) c.
Proof.
  intros Hp Hk Hlive Hst. constructor; unfold pbind.
  - intros ts x rest E. destruct (p ts) as [a r| |] eqn:Ep; try done.
    apply (po_sound _ _ _ Hp) in Ep as (u & -> & Hu). apply (po_sound _ _ _ (Hk a)) in E as (v & -> & Hv).
    exists (u ++ v). rewrite <- app_assoc. split; [done|by exists a, u, v].
  - intros x w rest (a & u & v & -> & Hu & Hv) Hr. rewrite <- app_assoc.
    rewrite (po_complete _ _ _ Hp a u (v ++ rest) Hu) by (by eapply Hst). by apply (po_complete _ _ _ (Hk a)).
  - intros w x rest rest' E Hh. destruct (p (w ++ rest)) as [a r| |] eqn:Ep; try done.
    destruct (po_sound _ _ _ Hp _ _ _ Ep) as (u & Hw & _). destruct (po_sound _ _ _ (Hk a) _ _ _ E) as (v & -> & _).
    rewrite app_assoc in Hw. apply app_inv_tail in Hw as ->. rewrite <- !app_assoc in *.
    rewrite (po_local _ _ _ Hp u a (v ++ rest) (v ++ rest') Ep (head_app _ _ _ Hh)). by apply (po_local _ _ _ (Hk a) v x rest).
  - intros ts bad E. destruct (p ts) as [a r|b|] eqn:Ep; try done.
    + destruct (po_sound _ _ _ Hp _ _ _ Ep) as (u & -> & Hu).
      destruct (po_fail _ _ _ (Hk a) _ _ E) as (v & -> & (x & z & Hz) & Hb).
      exists (u ++ v). split_and!; [by rewrite app_assoc|exists x, z, a, u, (v ++ z); by rewrite <- app_assoc|].
      intros bad' Hh. rewrite <- app_assoc. rewrite (po_local _ _ _ Hp u a (v ++ bad) (v ++ bad') Ep (head_app _ _ _ Hh)). by apply Hb.
    + injection E as ->. destruct (po_fail _ _ _ Hp _ _ Ep) as (u & -> & (a & z & Hz) & Hb).
      destruct (Hlive a) as (x & v & Hv).
      exists u. split_and!; [done|exists x, (z ++ v), a, (u ++ z), v; by rewrite app_assoc|].
      intros bad' Hh. by rewrite Hb.
  - intros ts. destruct (p ts) as [a r| |] eqn:Ep; [by apply (po_total _ _ _ (Hk a))|done|by destruct (po_total _ _ _ Hp ts)].
Qed.

Lemma po_branch (sel : token → option (P A)) G c :
  live G → (∀ a u, G a u → ∃ t p, head u = Some t ∧ sel t = Some p) →
  (∀ t p, sel t = Some p → ∃ Gt, parser_ok p Gt c ∧ (∀ a u, Gt a u → G a u) ∧ (∀ a u, G a u → head u = Some t → Gt a u)) →
  parser_ok (branch sel) G c.
Proof.
  intros (a0 & u0 & H0) Hhead Hsel. constructor.
  - intros [|t ts] a rest E; simpl in E; [done|]. destruct (sel t) as [p|] eqn:Es; [|done].
    destruct (Hsel t p Es) as (Gt & Hp & Hin & _). destruct (po_sound _ _ _ Hp _ _ _ E) as (u & ? & ?). eauto.
  - intros a u rest Hu Hr. destruct (Hhead a u Hu) as (t & p & Hh & Es). destruct u as [|t' u]; simplify_eq/=. rewrite Es.
    destruct (Hsel t p Es) as (Gt & Hp & _ & Hof). by apply (po_complete _ _ _ Hp a (t :: u)); [apply Hof|].
  - intros u a rest rest' E Hh. pose proof (head_app u _ _ Hh) as Hh'.
    destruct (u ++ rest) as [|t ts] eqn:Eu; simpl in E; [done|]. destruct (sel t) as [p|] eqn:Es; [|done].
    destruct (Hsel t p Es) as (Gt & Hp & _). rewrite <- Eu in E. pose proof (po_local _ _ _ Hp u a rest rest' E Hh) as E'.
    destruct (u ++ rest') as [|t' ts'] eqn:Eu'; simplify_eq/=. by rewrite Es.
  - intros [|t ts] bad E; simpl in E.
    { injection E as <-. exists []. split_and!; [done|by exists a0, u0|]. by intros [|]. }
    destruct (sel t) as [p|] eqn:Es.
    + destruct (Hsel t p Es) as (Gt & Hp & Hin & _). destruct (po_fail _ _ _ Hp _ _ E) as (u & Hu & (a & v & Hv) & Hb).
      exists u. split_and!; [done|exists a, v; by apply Hin|]. intros bad' Hh. pose proof (head_app u _ _ Hh) as Hh'.
      rewrite <- Hu in Hh'. specialize (Hb bad' Hh). destruct (u ++ bad'); simplify_eq/=. by rewrite Es.
    + injection E as <-. exists []. split_and!; [done|by exists a0, u0|]. intros [|t' bad'] Hh; simplify_eq/=. by rewrite Es.
  - intros [|t ts]; simpl; [done|]. destruct (sel t) as [p|] eqn:Es; [|done].
    destruct (Hsel t p Es) as (Gt & Hp & _). by apply (po_total _ _ _ Hp).
Qed.

Lemma po_option t (d : A) p G c :
  parser_ok p G c → (∀ a u, G a u → head u = Some t) → c t = true →
  parser_ok (option_at t d p) (λ a u, gret d a u ∨ G a u) c.
Proof.
  intros Hp Hhead Hc.
  assert (Hin : ∀ ts, head ts = Some t → option_at t d p ts = p ts).
  { intros [|t' ts] ?; simplify_eq/=. by rewrite decide_True. }
  assert (Hout : ∀ ts, head ts ≠ Some t → option_at t d p ts = POk d ts).
  { intros [|t' ts] ?; simpl; [done|]. by rewrite decide_False by (by intros ->). }
  constructor.
  - intros ts a rest E. destruct (decide (head ts = Some t)) as [Ht|Ht].
    + rewrite Hin in E by done. destruct (po_sound _ _ _ Hp _ _ _ E) as (u & ? & ?). eauto.
    + rewrite Hout in E by done. injection E as -> ->. exists []. split; [done|by left].
  - intros a u rest [[-> ->]|Hu] Hr.
    + apply Hout. intros Ht%Hr. congruence.
    + rewrite Hin; [by apply (po_complete _ _ _ Hp)|]. destruct u as [|t' u]; [by apply Hhead in Hu|]. by apply (Hhead a (t' :: u)).
  - intros u a rest rest' E Hh. pose proof (head_app u _ _ Hh) as Hh'. destruct (decide (head (u ++ rest) = Some t)) as [Ht|Ht].
    + rewrite Hin in E |- * by congruence. by apply (po_local _ _ _ Hp u a rest).
    + rewrite Hout in E |- * by congruence. injection E as -> E. by rewrite (app_self_nil _ _ E).
  - intros ts bad E. destruct (decide (head ts = Some t)) as [Ht|Ht]; [|by rewrite Hout in E].
    rewrite Hin in E by done. destruct (po_fail _ _ _ Hp _ _ E) as (u & -> & (a & v & Hv) & Hb).
    exists u. split_and!; [done|eauto|]. intros bad' Hh. rewrite Hin; [by apply Hb|].
    by rewrite (head_app u _ _ Hh).
  - intros ts. destruct (decide (head ts = Some t)); [rewrite Hin by done; apply (po_total _ _ _ Hp)|by rewrite Hout].
Qed.

End Combinators.

(** ** Lists *)

Section Lists.
Context {A : Type} (item : P A) (G : gram A) (c sep : token → bool).
Context (Hitem : parser_ok item G c) (Hlive : live G) (Hsep : ∀ t, sep t = true → c t = false).

Inductive g_tail : list A → list token → Prop :=
  | tail_nil : g_tail [] []
  | tail_cons t a v l w : sep t = true → G a v → g_tail l w → g_tail (a :: l) (t :: v ++ w).

Lemma g_tail_snoc l w t a v : g_tail l w → sep t = true → G a v → g_tail (l ++ [a]) (w ++ t :: v).
Proof.
  intros H Ht Ha. induction H as [|t' a' v' l w Ht' Ha' _ IH]; simpl.
  - rewrite <- (app_nil_r v). repeat constructor; done.
  - rewrite <- app_assoc. by constructor.
Qed.

Lemma g_list_tail l w : g_list G sep l w ↔ ∃ a l' u w', l = a :: l' ∧ w = u ++ w' ∧ G a u ∧ g_tail l' w'.
Proof.
  split.
  - induction 1 as [a u Ha|l u t a v _ (b & l' & x & y & -> & -> & Hb & Hy) Ht Ha].
    + exists a, [], u, []. rewrite app_nil_r. by repeat constructor.
    + exists b, (l' ++ [a]), x, (y ++ t :: v). split_and!; [done|by rewrite <- app_assoc|done|by apply g_tail_snoc].
  - intros (a & l' & u & w' & -> & -> & Ha & Hw). change (a :: l') with ([a] ++ l').
    assert (Hl : g_list G sep [a] u) by by constructor. revert Hl. generalize [a] as l0. clear Ha a. revert u.
    induction Hw as [|t a v l w Ht Ha _ IH]; intros u l0 Hl; [by rewrite !app_nil_r|].
    replace (l0 ++ a :: l) with ((l0 ++ [a]) ++ l) by by rewrite <- app_assoc.
    replace (u ++ t :: v ++ w) with ((u ++ t :: v) ++ w) by by rewrite <- app_assoc.
    apply IH. by constructor.
Qed.

Definition p_tail (l : list A) : P (list A) := λ ts, p_more (S (length ts)) item sep l ts.

Lemma item_shorter ts a r : item ts = POk a r → (length r ≤ length ts)%nat.
Proof using Hitem. intros H. apply (po_sound _ _ _ Hitem) in H as (u & -> & _). rewrite length_app. lia. Qed.

Lemma p_more_fuel n m l ts : (length ts < n)%nat → (length ts < m)%nat → p_more n item sep l ts = p_more m item sep l ts.
Proof using Hitem.
  revert m l ts. induction n as [|n IH]; intros [|m] l ts Hn Hm; try lia. destruct ts as [|t ts]; [done|]. simpl in *.
  destruct (sep t); [|done]. unfold pbind. destruct (item ts) as [a r| |] eqn:E; [|done..].
  apply item_shorter in E. apply IH; lia.
Qed.

Lemma p_tail_unfold l ts : p_tail l ts =
  match ts with
  | t :: ts' => if sep t then pbind item (λ a, p_tail (l ++ [a])) ts' else POk l ts
  | [] => POk l []
  end.
Proof using Hitem.
  destruct ts as [|t ts]; [done|].
  change (p_tail l (t :: ts)) with (if sep t then pbind item (λ a, p_more (length (t :: ts)) item sep (l ++ [a])) ts else POk l (t :: ts)).
  destruct (sep t); [|done]. unfold pbind. destruct (item ts) as [a r| |] eqn:E; [|done..]. apply item_shorter in E. apply p_more_fuel; simpl; lia.
Qed.

Definition g_more_of (l : list A) : gram (list A) := λ x w, ∃ l', x = l ++ l' ∧ g_tail l' w.

Lemma tail_sound l ts x rest : p_tail l ts = POk x rest → ∃ u, ts = u ++ rest ∧ g_more_of l x u.
Proof using Hitem.
  remember (length ts) as n eqn:Hn. revert l ts Hn. induction n as [n IH] using lt_wf_ind. intros l ts -> E.
  assert (Hstop : POk l ts = POk x rest → ∃ u, ts = u ++ rest ∧ g_more_of l x u).
  { intros [= -> ->]. exists []. split; [done|]. exists []. rewrite app_nil_r. by repeat constructor. }
  rewrite p_tail_unfold in E. destruct ts as [|t ts]; [by apply Hstop|]. destruct (sep t) eqn:Et; [|by apply Hstop].
  unfold pbind in E. destruct (item ts) as [a r| |] eqn:Ei; [|done..]. pose proof (item_shorter _ _ _ Ei).
  apply (po_sound _ _ _ Hitem) in Ei as (v & -> & Ha).
  destruct (IH (length r) ltac:(simpl; lia) (l ++ [a]) r eq_refl E) as (w & -> & l' & -> & Hl').
  exists (t :: v ++ w). split; [simpl; by rewrite <- app_assoc|]. exists (a :: l'). rewrite <- app_assoc. split; [done|by constructor].
Qed.

Definition list_stop (t : token) : bool := c t || sep t.

Lemma tail_stops l w rest : g_tail l w → stops list_stop rest → stops c (w ++ rest).
Proof using Hsep.
  intros [|t a v l0 w0 Ht _ _] Hr; [|apply stops_app; by apply Hsep].
  intros t Ht. by apply Hr, orb_false_iff in Ht as [? _].
Qed.

Lemma tail_complete l l' w rest : g_tail l' w → stops list_stop rest → p_tail l (w ++ rest) = POk (l ++ l') rest.
Proof using Hitem Hsep.
  intros H Hr. revert l. induction H as [|t a v l' w Ht Ha Hw IH]; intros l; rewrite p_tail_unfold; simpl.
  - rewrite app_nil_r. destruct rest as [|t rest]; [done|].
    specialize (Hr t eq_refl). by apply orb_false_iff in Hr as [_ ->].
  - rewrite Ht. unfold pbind. rewrite <- app_assoc.
    rewrite (po_complete _ _ _ Hitem a v (w ++ rest) Ha) by (by eapply tail_stops). by rewrite IH, <- app_assoc.
Qed.

Lemma tail_local u l x rest rest' : p_tail l (u ++ rest) = POk x rest → head rest' = head rest → p_tail l (u ++ rest') = POk x rest'.
Proof using Hitem.
  remember (length u) as n eqn:Hn. revert u Hn l. induction n as [n IH] using lt_wf_ind. intros u -> l E Hh.
  rewrite p_tail_unfold in E |- *. destruct u as [|t u]; simpl in E |- *.
  - destruct rest as [|t rest], rest' as [|t' rest']; simplify_eq/=; [done|]. destruct (sep t); [|by injection E as ->].
    unfold pbind in E. destruct (item rest) as [a r| |] eqn:Ei; [|done..]. apply item_shorter in Ei.
    apply tail_sound in E as (w & -> & _). rewrite length_app in Ei. simpl in Ei. lia.
  - destruct (sep t).
    2: { injection E as _ E. apply (f_equal length) in E. rewrite app_comm_cons, length_app in E. simpl in E. lia. }
    unfold pbind in E |- *. destruct (item (u ++ rest)) as [a r| |] eqn:Ei; [|done..].
    destruct (po_sound _ _ _ Hitem _ _ _ Ei) as (v & Hu & _). destruct (tail_sound _ _ _ _ E) as (w & -> & _).
    rewrite app_assoc in Hu. apply app_inv_tail in Hu as ->. rewrite <- !app_assoc in *.
    rewrite (po_local _ _ _ Hitem v a (w ++ rest) (w ++ rest') Ei (head_app _ _ _ Hh)).
    apply (IH (length w)); [simpl; rewrite length_app; lia|done..].
Qed.

Lemma tail_fail l ts bad : p_tail l ts = PErr bad →
  ∃ u, ts = u ++ bad ∧ (∃ x v, g_more_of l x (u ++ v)) ∧ ∀ bad', head bad' = head bad → p_tail l (u ++ bad') = PErr bad'.
Proof using Hitem.
  remember (length ts) as n eqn:Hn. revert ts Hn l. induction n as [n IH] using lt_wf_ind. intros ts -> l E.
  rewrite p_tail_unfold in E. destruct ts as [|t ts]; [done|]. destruct (sep t) eqn:Et; [|done]. unfold pbind in E.
  destruct (item ts) as [a r|b|] eqn:Ei; [| |done].
  - pose proof (item_shorter _ _ _ Ei). destruct (po_sound _ _ _ Hitem _ _ _ Ei) as (v & -> & Ha).
    destruct (IH (length r) ltac:(simpl; lia) r eq_refl (l ++ [a]) E) as (w & -> & (x & z & l' & -> & Hz) & Hb).
    exists (t :: v ++ w). split_and!.
    + by rewrite <- app_comm_cons, <- app_assoc.
    + exists (l ++ a :: l'), z, (a :: l'). split; [done|]. rewrite <- app_comm_cons, <- app_assoc. by constructor.
    + intros bad' Hh. rewrite p_tail_unfold, <- app_comm_cons, Et, <- app_assoc. unfold pbind.
      rewrite (po_local _ _ _ Hitem v a (w ++ bad) (w ++ bad') Ei (head_app _ _ _ Hh)). by apply Hb.
  - injection E as ->. destruct (po_fail _ _ _ Hitem _ _ Ei) as (u & -> & (a & v & Hv) & Hb). exists (t :: u). split_and!.
    + done.
    + exists (l ++ [a]), v, [a]. split; [done|]. rewrite <- app_comm_cons, <- (app_nil_r (u ++ v)). by repeat constructor.
    + intros bad' Hh. rewrite p_tail_unfold, <- app_comm_cons, Et. unfold pbind. by rewrite Hb.
Qed.

Lemma tail_total l ts : p_tail l ts ≠ PFuel.
Proof using Hitem.
  remember (length ts) as n eqn:Hn. revert ts Hn l. induction n as [n IH] using lt_wf_ind. intros ts -> l.
  rewrite p_tail_unfold. destruct ts as [|t ts]; [done|]. destruct (sep t); [|done]. unfold pbind.
  destruct (item ts) as [a r|b|] eqn:Ei; [|done|by destruct (po_total _ _ _ Hitem ts)].
  apply item_shorter in Ei. apply (IH (length r)); [simpl; lia|done].
Qed.

Lemma po_tail l : parser_ok (p_tail l) (g_more_of l) list_stop.
Proof using Hitem Hsep.
  constructor; intros *; [apply tail_sound| |apply tail_local|apply tail_fail|apply tail_total].
  intros (l' & -> & Hl') Hr. by apply tail_complete.
Qed.

Lemma po_list : parser_ok (p_list item sep) (g_list G sep) list_stop.
Proof using Hitem Hsep.
  apply (po_ext _ (gseq G (λ a, g_more_of [a]))).
  - intros l w. rewrite g_list_tail. split.
    + intros (a & u & v & -> & Ha & l' & -> & Hl'). by exists a, l', u, v.
    + intros (a & l' & u & v & -> & -> & Ha & Hl'). exists a, u, v. split_and!; [done..|]. by exists l'.
  - apply (po_bind _ _ _ _ c); [done|intros; by apply po_tail| |].
    + intros a. exists [a], [], []. by repeat constructor.
    + intros a u x v rest _ (l' & _ & Hl') Hr. by eapply tail_stops.
Qed.

Lemma live_list : live (g_list G sep).
Proof using Hlive. destruct Hlive as (a & u & H). exists [a], u. by constructor. Qed.

End Lists.

(** ** Nonterminals *)

Lemma po_bind_any {A B} (p : P A) (k : A → P B) G (H : A → gram B) c :
  (∀ c', parser_ok p G c') → (∀ a, parser_ok (k a) (H a) c) → (∀ a, live (H a)) → parser_ok (pbind p k) (gseq G H) c.
Proof. intros Hp Hk Hl. by apply (po_bind _ _ _ _ (λ _, false)). Qed.

Lemma po_expect t c : parser_ok (expect t) (gtok t) c.
Proof.
  apply (po_ext _ (gshift (λ t', if decide (t' = t) then Some tt else None))).
  - intros [] u. split; [intros (t' & -> & ?); by case_decide; simplify_eq|intros ->; exists t; by rewrite decide_True].
  - apply po_shift. exists t, tt. by rewrite decide_True.
Qed.

(** What follows [p] starts with a token that is not one of [c]. *)
Lemma stops_tok {B} c t (H : unit → gram B) x v rest : c t = false → gseq (gtok t) H x v → stops c (v ++ rest).
Proof. intros Hc (? & ? & ? & -> & -> & _). by apply stops_app. Qed.

Create HintDb po discriminated.
#[export] Hint Opaque p_tbName p_colName : po.

(** A word of a sequence, taken apart. *)
Ltac unseq :=
  repeat match goal with
  | H : gseq _ _ _ _ |- _ => destruct H as (? & ? & ? & -> & ? & ?)
  | H : gtok _ _ _ |- _ => unfold gtok in H; subst
  | H : gret _ _ _ |- _ => destruct H as [-> ->]
  end; cbn [app]; rewrite ?app_nil_r.

Lemma po_tbName c : parser_ok p_tbName g_tbName c.
Proof. eapply po_ext; [|apply po_shift; by exists (IDENTIFIER ""), EmptyString]. intros a u. split.
  - intros (t & -> & Ht). destruct t; simplify_eq. constructor.
  - destruct 1. by eexists.
Qed.

Lemma po_colName c : parser_ok p_colName g_colName c.
Proof. eapply po_ext; [|apply po_shift; by exists (IDENTIFIER ""), EmptyString]. intros a u. split.
  - intros (t & -> & Ht). destruct t; simplify_eq. constructor.
  - destruct 1. by eexists.
Qed.

Lemma po_value c : parser_ok p_value g_value c.
Proof. eapply po_ext; [|apply po_shift; by exists (VALUE_INT 0), (IntLit 0)]. intros a u. split.
  - intros (t & -> & Ht). destruct t; simplify_eq; constructor.
  - destruct 1; by eexists.
Qed.

Lemma po_op c : parser_ok p_op g_op c.
Proof. eapply po_ext; [|apply po_shift; by exists NEQ, SV_OP_NE]. intros a u. split.
  - intros (t & -> & Ht). destruct t; repeat case_decide; simplify_eq; constructor.
  - destruct 1; by eexists.
Qed.

Inductive g_VALUE_INT : gram Z :=
  | VALUE_INT_tok n : g_VALUE_INT n [VALUE_INT n].

Lemma po_VALUE_INT c : parser_ok p_VALUE_INT g_VALUE_INT c.
Proof. eapply po_ext; [|apply po_shift; by exists (VALUE_INT 0), 0]. intros a u. split.
  - intros (t & -> & Ht). destruct t; simplify_eq; constructor.
  - destruct 1; by eexists.
Qed.

Lemma live_VALUE_INT : live g_VALUE_INT.
Proof. exists 0. eexists. constructor. Qed.
Lemma live_tbName : live g_tbName.
Proof. exists EmptyString. eexists. constructor. Qed.
Lemma live_colName : live g_colName.
Proof. exists EmptyString. eexists. constructor. Qed.
Lemma live_value : live g_value.
Proof. exists (IntLit 0). eexists. constructor. Qed.
Lemma live_op : live g_op.
Proof. exists SV_OP_NE. eexists. constructor. Qed.
#[export] Hint Resolve live_VALUE_INT live_tbName live_colName live_value live_op live_list : gram.
#[export] Hint Resolve po_ret po_expect po_VALUE_INT po_tbName po_colName po_value po_op : po.
#[export] Hint Constructors g_VALUE_INT g_tbName g_colName g_value g_type g_field g_col g_op g_expr g_condition g_optWhereClause : gram.
#[export] Hint Constructors g_setClause g_selector g_txnStmt g_dbStmt g_ddl g_dml g_stmt g_start : gram.

(** A sequence whose parts are known parsers; parts that stop at particular
    tokens leave the obligation that what follows them is something else. *)
Ltac lives := intros; cbv beta; solve [eauto 20 with gram].
Ltac po_known := solve [eauto with po].
Ltac follows :=
  intros ? ? ? ? ? ? ? ?; cbv beta in *;
  first [solve [eapply stops_tok; [|eassumption]; reflexivity] | solve [unseq; assumption] | idtac].
Ltac po :=
  intros; cbv beta; lazymatch goal with
  | |- parser_ok (pbind _ _) _ _ =>
      first [eapply po_bind_any; [solve [auto with po]|po|lives]
            |eapply po_bind; [solve [eauto with po]|po|lives|follows]]
  | |- parser_ok (pret _) _ _ => apply po_ret
  | |- _ => po_known
  end.

(** The words of a sequence are those of a production. *)
Ltac words :=
  split; [intros ? ? ?; unseq; repeat match goal with H : g_VALUE_INT _ _ |- _ => destruct H end; cbn [app]; eauto with gram
         |intros ? ? []; intros; simplify_eq/=; eauto 20 with gram].

Lemma po_type c : parser_ok p_type g_type c.
Proof.
  apply po_branch.
  - do 2 eexists. apply type_int.
  - destruct 1; by eexists _, _.
  - intros t p Ht. destruct t; simplify_eq/=; eexists; (split; [po|words]).
Qed.
Lemma live_type : live g_type.
Proof. do 2 eexists. apply type_int. Qed.
#[export] Hint Resolve po_type : po.
#[export] Hint Resolve live_type : gram.

Lemma po_field c : parser_ok p_field g_field c.
Proof. eapply po_ext; [|unfold p_field; po]. intros a u. split; [intros ?; unseq; by constructor|destruct 1; eauto 20 with gram]. Qed.
Lemma live_field : live g_field.
Proof. destruct live_colName as (a & u & ?), live_type as (b & v & ?). do 2 eexists. by constructor. Qed.
#[export] Hint Resolve po_field : po.
#[export] Hint Resolve live_field : gram.

Definition stop_at (ts : list token) (t : token) : bool := bool_decide (t ∈ ts).

Lemma po_list_at {A} (item : P A) G ts sep seps :
  parser_ok item G (stop_at ts) → (∀ t, sep t = bool_decide (t ∈ seps)) → (∀ t, t ∈ seps → t ∉ ts) →
  parser_ok (p_list item sep) (g_list G sep) (stop_at (seps ++ ts)).
Proof.
  intros Hi Hs Hc. eapply po_weaken; [|apply (po_list item G (stop_at ts) sep)]; [|done|].
  - intros t Ht%bool_decide_eq_false. unfold list_stop. rewrite Hs. apply orb_false_iff.
    split; apply bool_decide_eq_false; set_solver.
  - intros t. rewrite Hs, bool_decide_eq_true. intros Ht. by apply bool_decide_eq_false, Hc.
Qed.

Lemma is_tok_at t s : is_tok s t = bool_decide (t ∈ [s]).
Proof. apply bool_decide_ext. by rewrite list_elem_of_singleton. Qed.
Lemma table_sep_at t : table_sep t = bool_decide (t ∈ [comma; JOIN]).
Proof.
  unfold table_sep, is_tok. rewrite <- bool_decide_or. apply bool_decide_ext. set_solver.
Qed.

Lemma po_list_tok {A} (item : P A) G ts s :
  parser_ok item G (stop_at ts) → stop_at ts s = false →
  parser_ok (p_list item (is_tok s)) (g_list G (is_tok s)) (stop_at (s :: ts)).
Proof.
  intros Hi Hs%bool_decide_eq_false. apply (po_list_at item G ts _ [s]); [done|intros; apply is_tok_at|].
  by intros t ->%list_elem_of_singleton.
Qed.

Lemma po_fieldList : parser_ok p_fieldList g_fieldList (stop_at [comma]).
Proof. apply po_list_tok; [apply po_field|done]. Qed.
Lemma po_valueList : parser_ok p_valueList g_valueList (stop_at [comma]).
Proof. apply po_list_tok; [apply po_value|done]. Qed.
Lemma po_tableList : parser_ok p_tableList g_tableList (stop_at [comma; JOIN]).
Proof. apply (po_list_at _ _ [] _ [comma; JOIN]); [apply po_tbName|apply table_sep_at|set_solver]. Qed.

Lemma po_col : parser_ok p_col g_col (stop_at [dot]).
Proof.
  eapply po_ext; [|unfold p_col; eapply po_bind_any; [auto with po|intros s; apply po_option; [po| |done]|]]; cbv beta.
  - intros a u. split.
    + intros (s & x & v & -> & Hs & [[-> ->]|Hc]); [rewrite app_nil_r; by constructor|].
      destruct Hs. unseq. apply (col_qualified _ [_]); [constructor|done].
    + destruct 1 as [t u c v Ht Hc|c u Hc]; [destruct Ht|]; eapply gseq_app || eapply gseq_last.
      all: by eauto 20 with gram.
  - intros a u ?. by unseq.
  - intros s. exists (MkCol EmptyString s), []. by left.
Qed.
Lemma live_col : live g_col.
Proof. destruct live_colName as (a & u & ?). do 2 eexists. by apply col_plain. Qed.
#[export] Hint Resolve po_fieldList po_valueList po_tableList po_col : po.
#[export] Hint Resolve live_col : gram.

Lemma po_colList : parser_ok p_colList g_colList (stop_at [comma; dot]).
Proof. apply po_list_tok; [apply po_col|done]. Qed.

Lemma g_value_head v u : g_value v u → ∃ t, u = [t] ∧ t ∈ u ∧ (∀ s, t ≠ IDENTIFIER s).
Proof. destruct 1; eexists; (split_and!; [done|set_solver|done]). Qed.
Lemma g_col_head c u : g_col c u → ∃ s, head u = Some (IDENTIFIER s).
Proof. destruct 1 as [t u c v []|c u []]; by eexists. Qed.

Lemma po_expr : parser_ok p_expr g_expr (stop_at [dot]).
Proof.
  apply po_branch.
  - do 2 eexists. apply expr_value, (value_int_lit 0).
  - destruct 1 as [v u []|c u [s Hs]%g_col_head]; by eexists _, _.
  - intros t p Ht. destruct t; simplify_eq/=; eexists; (split; [po|split]).
    all: try (intros a u ?; unseq; by constructor).
    all: intros a u [v w Hv|c w Hc] Hh; try (by destruct Hv; simplify_eq/=); try by eauto with gram.
    all: by destruct (g_col_head _ _ Hc); simplify_eq.
Qed.
Lemma live_expr : live g_expr.
Proof. do 2 eexists. apply expr_value, (value_int_lit 0). Qed.
#[export] Hint Resolve po_colList po_expr : po.
#[export] Hint Resolve live_expr : gram.

Lemma po_condition : parser_ok p_condition g_condition (stop_at [dot]).
Proof.
  eapply po_ext; [|unfold p_condition; po].
  - intros a u. split; [intros ?; unseq; by constructor|destruct 1; eauto 20 with gram].
  - match goal with H : gseq g_op _ _ _ |- _ => destruct H as (? & ? & ? & -> & Ho & _) end. by destruct Ho; apply stops_app.
Qed.
Lemma live_condition : live g_condition.
Proof. destruct live_col as (? & ? & ?), live_op as (? & ? & ?), live_expr as (? & ? & ?). do 2 eexists. by constructor. Qed.
#[export] Hint Resolve po_condition : po.
#[export] Hint Resolve live_condition : gram.

Lemma po_whereClause : parser_ok p_whereClause g_whereClause (stop_at [AND; dot]).
Proof. apply po_list_tok; [apply po_condition|done]. Qed.

Lemma po_optWhereClause : parser_ok p_optWhereClause g_optWhereClause (stop_at [WHERE; AND; dot]).
Proof.
  eapply po_ext; [|apply po_option; [| |done]].
  2: { eapply po_bind_any; [apply po_expect|intros; cbv beta; eapply po_weaken; [|apply po_whereClause]|].
       - intros t Ht%bool_decide_eq_false. apply bool_decide_eq_false. set_solver.
       - intros ?. apply live_list, live_condition. }
  - intros a u. split.
    + intros [[-> ->]|?]; [constructor|]. unseq. by constructor.
    + destruct 1; [by left|right]. by apply gseq_tok.
  - intros a u ?. by unseq.
Qed.
Lemma live_optWhereClause : live g_optWhereClause.
Proof. do 2 eexists. constructor. Qed.
Lemma g_optWhereClause_head w u : g_optWhereClause w u → u = [] ∨ head u = Some WHERE.
Proof. destruct 1; [by left|by right]. Qed.

Lemma po_setClause c : parser_ok p_setClause g_setClause c.
Proof. eapply po_ext; [|unfold p_setClause; po]. intros a u. split; [intros ?; unseq; by constructor|destruct 1; eauto 20 with gram]. Qed.
Lemma live_setClause : live g_setClause.
Proof. destruct live_colName as (? & ? & ?), live_value as (? & ? & ?). do 2 eexists. by constructor. Qed.
Lemma po_setClauses : parser_ok p_setClauses g_setClauses (stop_at [comma]).
Proof. apply po_list_tok; [apply po_setClause|done]. Qed.

Lemma colList_head l u : g_colList l u → ∃ s, head u = Some (IDENTIFIER s).
Proof.
  induction 1 as [a u Ha|l u t a v _ [s IH] _ _]; [by eapply g_col_head|].
  exists s. by destruct u.
Qed.

Lemma po_selector : parser_ok p_selector g_selector (stop_at [comma; dot]).
Proof.
  apply po_branch.
  - do 2 eexists. apply selector_all.
  - destruct 1 as [|l u [s Hs]%colList_head]; by eexists _, _.
  - intros t p Ht. destruct t; simplify_eq/=.
    + exists g_colList. split_and!; [apply po_colList|by constructor|]. by intros a u [].
    + case_decide; simplify_eq. eexists. split; [po|split].
      * intros a u ?. unseq. by constructor.
      * intros a u [|l w Hl] Hh; [eauto with gram|]. by destruct (colList_head _ _ Hl) as [? ?]; simplify_eq.
Qed.
Lemma live_selector : live g_selector.
Proof. do 2 eexists. apply selector_all. Qed.
#[export] Hint Resolve po_setClauses po_selector : po.
#[export] Hint Resolve live_optWhereClause live_setClause live_selector : gram.

(** ** Statements *)

Definition stmt_stop : token → bool := stop_at [WHERE; AND; dot; comma; JOIN].

Lemma po_where_stmt : parser_ok p_optWhereClause g_optWhereClause stmt_stop.
Proof.
  eapply po_weaken; [|apply po_optWhereClause]. intros t Ht%bool_decide_eq_false. apply bool_decide_eq_false. set_solver.
Qed.

Lemma stops_where {B} ts (H : list BinaryExpr → gram B) x v rest :
  ts ⊆ [WHERE; AND; dot; comma; JOIN] → WHERE ∉ ts → (∀ w y z, H w y z → z = []) →
  gseq g_optWhereClause H x v → stops stmt_stop rest → stops (stop_at ts) (v ++ rest).
Proof.
  intros Hsub Hw Hnil (w & u & z & -> & Hu & Hz) Hr t Ht. apply Hnil in Hz as ->. rewrite app_nil_r in Ht.
  apply bool_decide_eq_false. destruct Hu as [|l u Hl]; [|by injection Ht as <-].
  apply Hr, bool_decide_eq_false in Ht. set_solver.
Qed.

Ltac follows ::=
  intros ? ? ? ? ? ? ? ?; cbv beta in *;
  first [solve [eapply stops_tok; [|eassumption]; reflexivity]
        |solve [unseq; assumption]
        |solve [eapply stops_where; [| | |eassumption|assumption]; [set_solver|set_solver|by intros ? ? ? [_ ->]]]
        |idtac].
#[export] Hint Resolve po_where_stmt : po.

(** What may follow the first token of a statement of [ddl]. *)
Definition g_ddl_after (t : token) : gram TreeNode := λ a u, g_ddl a (t :: u).

Lemma po_create : parser_ok p_create (g_ddl_after CREATE) stmt_stop.
Proof.
  apply po_branch.
  - destruct live_tbName as (t & u & ?), live_colName as (c & v & ?). exists (CreateIndex t c). eexists. by apply ddl_create_index.
  - intros a u H. inversion H; simplify_eq/=; by eexists _, _.
  - intros t p Ht. destruct t; simplify_eq/=; eexists; (split; [po|]).
    all: split; [intros ? ? ?; unseq; by constructor|intros a u H; inversion H; intros; simplify_eq/=; eauto 20 with gram].
Qed.

Lemma po_drop : parser_ok p_drop (g_ddl_after DROP) stmt_stop.
Proof.
  apply po_branch.
  - destruct live_tbName as (t & u & ?). exists (DropTable t). eexists. by apply ddl_drop_table.
  - intros a u H. inversion H; simplify_eq/=; by eexists _, _.
  - intros t p Ht. destruct t; simplify_eq/=; eexists; (split; [po|]).
    all: split; [intros ? ? ?; unseq; by constructor|intros a u H; inversion H; intros; simplify_eq/=; eauto 20 with gram].
Qed.

Lemma live_create : live (g_ddl_after CREATE).
Proof. destruct live_tbName as (t & u & ?), live_colName as (c & v & ?). exists (CreateIndex t c). eexists. by apply ddl_create_index. Qed.
Lemma live_drop : live (g_ddl_after DROP).
Proof. destruct live_tbName as (t & u & ?). exists (DropTable t). eexists. by apply ddl_drop_table. Qed.
Ltac po_known ::= first [apply po_create|apply po_drop|solve [eauto with po]].
#[export] Hint Resolve live_create live_drop : gram.

Lemma po_stmt : parser_ok p_stmt g_stmt stmt_stop.
Proof.
  apply po_branch.
  - do 2 eexists. apply stmt_txn, txn_begin.
  - destruct 1 as [t u []|t u []|t u []|t u []]; by eexists _, _.
  - intros t p Ht. destruct t; simplify_eq/=; eexists; (split; [po|]).
    all: split; [intros ? ? ?; unseq; eauto with gram|].
    all: intros a u [? ? []|? ? []|? ? []|? ? []] Hh; simplify_eq/=; eauto 20 with gram.
    all: by apply gseq_tok; constructor.
Qed.

Lemma g_stmt_head t u : g_stmt t u → ∃ x, head u = Some x ∧ x ≠ HELP ∧ x ≠ EXIT ∧ x ≠ T_EOF.
Proof. destruct 1 as [t u []|t u []|t u []|t u []]; by eexists. Qed.

Lemma po_start c : parser_ok p_start g_start c.
Proof.
  apply po_branch.
  - do 2 eexists. apply start_help.
  - destruct 1 as [t u (x & Hx & _)%g_stmt_head| | |]; [|by eexists _, _..].
    destruct u as [|y u]; [done|]. exists y. destruct y; by eexists.
  - intros x p Hx.
    assert (Hstmt : ∃ Gt, parser_ok (pbind p_stmt (λ t, pbind (expect semicolon) (λ _, pret (Some t)))) Gt c ∧
              (∀ a u, Gt a u → g_start a u) ∧
              (∀ a u, g_start a u → head u = Some x → x ≠ HELP → x ≠ EXIT → x ≠ T_EOF → Gt a u)).
    { eexists. split; [eapply po_bind; [apply po_stmt|po|lives|follows]|split].
      - intros a u ?. unseq. by constructor.
      - destruct 1; intros; simplify_eq/=; eauto with gram. }
    destruct Hstmt as (Gs & Hok & Hin & Hout).
    destruct x; simplify_eq/=; try (by exists Gs; split_and!; [done|done|]; intros a u Ha Hh; by apply Hout).
    all: eexists; (split; [po|split; [intros ? ? ?; unseq; eauto with gram|]]).
    all: intros a u [t w (y & Hy & ? & ? & ?)%g_stmt_head| | |] Hh; simplify_eq/=; eauto with gram.
    all: destruct w; simplify_eq/=.
Qed.

(** ** The grammar has one reading *)

(** A word of the grammar is not the beginning of another, and has one value. *)
Lemma start_prefix_free o u o' v : g_start o u → g_start o' (u ++ v) → o' = o ∧ v = [].
Proof.
  intros Hu Hv. pose proof (po_start (λ _, false)) as Hok.
  assert (Hst : ∀ ts, stops (λ _, false) ts) by done.
  pose proof (po_complete _ _ _ Hok o u v Hu (Hst _)) as E1. pose proof (po_complete _ _ _ Hok o' (u ++ v) [] Hv (Hst _)) as E2.
  rewrite app_nil_r, E1 in E2. by injection E2 as -> ->.
Qed.

(** The parser is the parser of the grammar.  On every sequence of tokens it
    ends; if it accepts, the tokens it has read are a word of [start] whose
    actions compute its result, and no other beginning of the input is a word of
    [start], nor that one with another result: the grammar is unambiguous and a
    statement ends at its semicolon.  If it reports a syntax error, the tokens
    before the reported one can be continued to a statement, and with it they
    cannot. *)
Lemma p_start_spec ts :
  match p_start ts with
  | POk o rest =>
      ∃ u, ts = u ++ rest ∧ g_start o u ∧ ∀ o' u' rest', ts = u' ++ rest' → g_start o' u' → o' = o ∧ u' = u
  | PErr bad =>
      ∃ u, ts = u ++ bad ∧ (∃ o t v, g_start o (u ++ t :: v)) ∧ ∀ t r o v, bad = t :: r → ¬ g_start o (u ++ t :: v)
  | PFuel => False
  end.
Proof.
  pose proof (po_start (λ _, false)) as Hok. destruct (p_start ts) as [o rest|bad|] eqn:E.
  - destruct (po_sound _ _ _ Hok _ _ _ E) as (u & -> & Hu). exists u. split_and!; [done..|].
    intros o' u' rest' Hts Hu'. rewrite Hts, (po_complete _ _ _ Hok o' u' rest' Hu') in E by done.
    injection E as -> ->. split; [done|]. by apply app_inv_tail in Hts.
  - destruct (po_fail _ _ _ Hok _ _ E) as (u & -> & (o & v & Hv) & Hb). exists u. split_and!; [done| |].
    { destruct v as [|t v]; [|by exists o, t, v]. rewrite app_nil_r in Hv.
      assert (Hst : stops (λ _, false) bad) by done. by rewrite (po_complete _ _ _ Hok o u bad Hv Hst) in E. }
    clear o v Hv. intros t r o v -> Hg. specialize (Hb (t :: v) eq_refl).
    assert (Hst : stops (λ _, false) []) by done.
    pose proof (po_complete _ _ _ Hok o _ [] Hg Hst) as E2. by rewrite app_nil_r, Hb in E2.
  - by apply (po_total _ _ _ Hok ts).
Qed.

(** ** [T_EOF] is never part of a statement *)

Definition no_eof {A} (G : gram A) : Prop := ∀ a u, G a u → T_EOF ∉ u.

Lemma no_eof_list {A} (G : gram A) sep : no_eof G → sep T_EOF = false → no_eof (g_list G sep).
Proof.
  intros HG Hs. red. induction 1 as [a u Ha%HG|l u t a v _ IH Ht Ha%HG]; [done|].
  rewrite not_elem_of_app, not_elem_of_cons. split_and!; [done|congruence|done].
Qed.

Lemma no_eof_tbName : no_eof g_tbName.
Proof. red. destruct 1. set_solver. Qed.
Lemma no_eof_colName : no_eof g_colName.
Proof. red. destruct 1. set_solver. Qed.
Lemma no_eof_value : no_eof g_value.
Proof. red. destruct 1; set_solver. Qed.
Lemma no_eof_type : no_eof g_type.
Proof. red. destruct 1; set_solver. Qed.
Lemma no_eof_op : no_eof g_op.
Proof. red. destruct 1; set_solver. Qed.

Lemma no_eof_field : no_eof g_field.
Proof. red. destruct 1 as [c u t v ?%no_eof_colName ?%no_eof_type]. set_solver. Qed.
Lemma no_eof_col : no_eof g_col.
Proof. red. destruct 1 as [t u c v ?%no_eof_tbName ?%no_eof_colName|c u ?%no_eof_colName]; set_solver. Qed.
Lemma no_eof_expr : no_eof g_expr.
Proof. red. destruct 1 as [v u ?%no_eof_value|c u ?%no_eof_col]; done. Qed.
Lemma no_eof_condition : no_eof g_condition.
Proof. red. destruct 1 as [c u o v e w ?%no_eof_col ?%no_eof_op ?%no_eof_expr]. set_solver. Qed.
Lemma no_eof_where : no_eof g_optWhereClause.
Proof.
  red. destruct 1 as [|l u Hl]; [set_solver|]. apply (no_eof_list _ _ no_eof_condition) in Hl; [set_solver|done].
Qed.
Lemma no_eof_setClause : no_eof g_setClause.
Proof. red. destruct 1 as [c u v w ?%no_eof_colName ?%no_eof_value]. set_solver. Qed.
Lemma no_eof_selector : no_eof g_selector.
Proof. red. destruct 1 as [|l u Hl]; [set_solver|]. by apply (no_eof_list _ _ no_eof_col) in Hl. Qed.
Lemma no_eof_ddl : no_eof g_ddl.
Proof.
  red. destruct 1 as [t u l v ?%no_eof_tbName Hl|t u ?%no_eof_tbName|t u ?%no_eof_tbName|
    t u c v ?%no_eof_tbName ?%no_eof_colName|t u c v ?%no_eof_tbName ?%no_eof_colName]; [|set_solver..].
  apply (no_eof_list _ _ no_eof_field) in Hl; [set_solver|done].
Qed.
Lemma no_eof_dml : no_eof g_dml.
Proof.
  red. destruct 1 as [t u l v ?%no_eof_tbName Hl|t u w v ?%no_eof_tbName ?%no_eof_where|
    t u l v w x ?%no_eof_tbName Hl ?%no_eof_where|s u t v w x ?%no_eof_selector Hl ?%no_eof_where].
  - apply (no_eof_list _ _ no_eof_value) in Hl; [set_solver|done].
  - set_solver.
  - apply (no_eof_list _ _ no_eof_setClause) in Hl; [set_solver|done].
  - apply (no_eof_list _ _ no_eof_tbName) in Hl; [set_solver|done].
Qed.
Lemma no_eof_stmt : no_eof g_stmt.
Proof. red. destruct 1 as [t u []|t u ?%no_eof_ddl|t u ?%no_eof_dml|t u []]; set_solver. Qed.

Lemma start_eof o u v : g_start o (u ++ T_EOF :: v) → u = [] ∧ v = [].
Proof.
  intros H. remember (u ++ T_EOF :: v) as w eqn:Hw. destruct H as [t x Hx%no_eof_stmt| | |].
  - assert (Hn : T_EOF ∉ x ++ [semicolon]) by set_solver. destruct Hn. rewrite Hw. set_solver.
  - destruct u as [|? [|? u]]; simplify_eq/=.
  - destruct u as [|? [|? u]]; simplify_eq/=.
  - destruct u as [|? [|? u]]; by simplify_eq/=.
Qed.

(** ** Texts *)

Lemma scans_last sc ls : scans sc ls → ∃ ls' sc', ls = ls' ++ [(T_EOF, sc')].
Proof.
  induction 1 as [sc sc' _|sc t sc' ls _ _ _ (ls' & sc'' & ->)]; [by exists [], sc'|]. by exists ((t, sc') :: ls'), sc''.
Qed.

Lemma fmap_app_split {A B} (f : A → B) l u v :
  f <$> l = u ++ v → ∃ l1 l2, l = l1 ++ l2 ∧ f <$> l1 = u ∧ f <$> l2 = v.
Proof. intros H. apply fmap_app_inv in H as (l1 & l2 & -> & -> & ->). by exists l1, l2. Qed.

(** A statement never fails for want of tokens: the scanner's last token is
    already at fault. *)
Lemma bad_not_empty sc ls u : scans sc ls → ls.*1 = u → p_start u ≠ PErr [].
Proof.
  intros (ls' & sc' & ->)%scans_last <- E. destruct (po_fail _ _ _ (po_start (λ _, false)) _ _ E) as (w & Hw & (o & v & Ho) & _).
  rewrite app_nil_r in Hw. subst w. rewrite fmap_app in Ho, E. cbn [fmap list_fmap fst] in Ho, E. rewrite <- app_assoc in Ho.
  destruct (start_eof _ _ _ Ho) as [Hn _]. by rewrite Hn in E.
Qed.

Lemma g_start_not_nil o : ¬ g_start o [].
Proof. intros H. remember [] as u eqn:Hu. destruct H as [t u _| | |]; [by destruct u|done..]. Qed.

(** What [yyparse] does, in terms of the tokens of the text and the grammar. *)
Inductive parsed (ls : list (token * scanner)) (old : option TreeNode) : yyresult → Prop :=
  | parsed_ok o read x rest :
      ls = read ++ x :: rest → g_start o ((read ++ [x]).*1) →
      parsed ls old (MkResult true o (yy_start x.2) None)
  | parsed_error read x rest :
      ls = read ++ x :: rest → (∃ o t v, g_start o (read.*1 ++ t :: v)) → (∀ o v, ¬ g_start o (read.*1 ++ x.1 :: v)) →
      parsed ls old (MkResult false old (yy_start x.2) (Some (yylloc x.2))).

Lemma yyparse_parsed s text old ls :
  scan (MkScanner s text loc0) = Some ls → ∃ r, yyparse s text old = Some r ∧ parsed ls old r.
Proof.
  intros Hs. unfold yyparse. rewrite Hs. pose proof (p_start_spec ls.*1) as H.
  destruct (p_start ls.*1) as [o rest|bad|] eqn:E; [| |done].
  - destruct H as (u & Hu & Hg & _). apply fmap_app_split in Hu as (l1 & l2 & -> & <- & <-).
    destruct l1 as [|x l1 _] using rev_ind; [by apply g_start_not_nil in Hg|].
    replace (length ((l1 ++ [x]) ++ l2) - length l2.*1 - 1)%nat with (length l1) by (rewrite length_fmap, !length_app; simpl; lia).
    rewrite <- app_assoc. cbn [app]. rewrite list_lookup_middle by done. eexists. split; [done|]. by eapply parsed_ok.
  - destruct H as (u & Hu & Hv & Hb). assert (bad ≠ []) as Hne.
    { intros ->. apply scan_scans in Hs. by destruct (bad_not_empty _ ls _ Hs eq_refl). }
    destruct bad as [|t bad]; [done|]. apply fmap_app_split in Hu as (l1 & l2 & -> & <- & Hl2).
    destruct l2 as [|x l2]; [done|]. rewrite fmap_cons in Hl2. injection Hl2 as <- Hl2.
    apply (f_equal length) in Hl2. rewrite length_fmap in Hl2.
    rewrite list_lookup_middle by (rewrite length_app; simpl; lia). eexists. split; [done|]. eapply parsed_error; [done|done|].
    intros o v. by eapply Hb.
Qed.

(** Every token of a text stands where its location says. *)
Lemma scans_positions text pre sc ls x :
  scans sc ls → text = pre ++ yy_rest sc → at_pos pre sc → x ∈ ls →
  ∃ before w, text = before ++ w ++ yy_rest x.2 ∧ (w = [] → x.1 = T_EOF) ∧
    (w ≠ [] → (first_line (yylloc x.2), first_column (yylloc x.2)) = pos_of before).
Proof.
  intros H. revert pre. induction H as [sc sc' Hl|sc t sc' ls Hl Ht _ IH]; intros pre -> Hp Hx.
  - apply list_elem_of_singleton in Hx as ->. destruct (lexes_reads _ _ _ Hl) as (sk & w & Hr & He & Hpos).
    exists (pre ++ sk), w. rewrite Hr, <- app_assoc. destruct (Hpos pre Hp). split_and!; [done|naive_solver|done].
  - destruct (lexes_reads _ _ _ Hl) as (sk & w & Hr & He & Hpos). destruct (Hpos pre Hp) as [Hp' Hf].
    apply elem_of_cons in Hx as [->|Hx].
    + exists (pre ++ sk), w. rewrite Hr, <- app_assoc. split_and!; [done|naive_solver|done].
    + apply (IH (pre ++ sk ++ w)); [by rewrite Hr, <- !app_assoc|done|done].
Qed.

Lemma middle_eq {A} (l : list A) x r l' x' r' :
  l ++ x :: r = l' ++ x' :: r' → (l = l' ∧ x = x') ∨ (∃ m, l' = l ++ x :: m) ∨ (∃ m, l = l' ++ x' :: m).
Proof.
  intros H. apply app_eq_inv in H as [([|y k] & -> & H)|([|y k] & -> & H)]; rewrite ?app_nil_r; simplify_eq/=; eauto.
Qed.

Lemma parsed_unique ls old r r' : parsed ls old r → parsed ls old r' → r = r'.
Proof.
  assert (Hoe : ∀ o rd x rt rd' x' rt', ls = rd ++ x :: rt → ls = rd' ++ x' :: rt' → g_start o (rd ++ [x]).*1 →
    (∃ o t v, g_start o (rd'.*1 ++ t :: v)) → (∀ o v, ¬ g_start o (rd'.*1 ++ x'.1 :: v)) → False).
  { intros o rd x rt rd' x' rt' -> [[-> ->]|[[m ->]|[m ->]]]%middle_eq Hg (o' & t & v & Hv) Hn; rewrite ?fmap_app in *; cbn [fmap list_fmap] in *.
    - by apply Hn in Hg.
    - assert (Hpre : g_start o' ((rd.*1 ++ [x.1]) ++ (m.*1 ++ t :: v))) by by rewrite <- !app_assoc in *.
      apply (start_prefix_free _ _ _ _ Hg) in Hpre as [_ Hp]. by destruct (m.*1).
    - rewrite <- app_assoc in Hg. by apply Hn in Hg. }
  intros [o rd x rt E Hg|rd x rt E Hv Hn] [o' rd' x' rt' E' Hg'|rd' x' rt' E' Hv' Hn'].
  - rewrite E in E'. apply middle_eq in E' as [[-> ->]|[[m ->]|[m ->]]].
    + by destruct (start_prefix_free o (rd' ++ [x']).*1 o' []) as [-> _]; [|rewrite app_nil_r|].
    + rewrite !fmap_app in *. cbn [fmap list_fmap] in *.
      assert (Hpre : g_start o' ((rd.*1 ++ [x.1]) ++ (m.*1 ++ [x'.1]))) by by rewrite <- !app_assoc in *.
      apply (start_prefix_free _ _ _ _ Hg) in Hpre as [_ Hp]. by destruct (m.*1).
    + rewrite !fmap_app in *. cbn [fmap list_fmap] in *.
      assert (Hpre : g_start o ((rd'.*1 ++ [x'.1]) ++ (m.*1 ++ [x.1]))) by by rewrite <- !app_assoc in *.
      apply (start_prefix_free _ _ _ _ Hg') in Hpre as [_ Hp]. by destruct (m.*1).
  - by destruct (Hoe o rd x rt rd' x' rt').
  - by destruct (Hoe o' rd' x' rt' rd x rt).
  - rewrite E in E'. apply middle_eq in E' as [[-> ->]|[[m ->]|[m ->]]]; [done|exfalso|exfalso].
    + destruct Hv' as (o & t & v & Hv'). rewrite fmap_app, <- app_assoc in Hv'. by apply Hn in Hv'.
    + destruct Hv as (o & t & v & Hv). rewrite fmap_app, <- app_assoc in Hv. by apply Hn' in Hv.
Qed.

Lemma yyparse_total s text old : is_Some (yyparse s text old).
Proof.
  destruct (scan_total (MkScanner s text loc0)) as [ls Hls].
  destruct (yyparse_parsed s text old ls Hls) as (r & -> & _). done.
Qed.

(** [C15] [yyparse] on a text, in either start condition.  It returns, with the one
    result that fits this description.  With [ls] the tokens of the text: it
    accepts when a beginning of [ls] is a word of the grammar, reads exactly that beginning and sets [parse_tree] to its value; what
    stands after the semicolon is not looked at.  Otherwise it reports a syntax
    error at the first token that no statement has in its place, and leaves
    [parse_tree] as it was.  The start condition it leaves is the scanner's after
    the last token read.  The location of a token, and so of an error, is the line
    and column of its first character in the text. *)
Theorem yyparse_correct s text old :
  ∃ ls r, scans (MkScanner s text loc0) ls ∧ yyparse s text old = Some r ∧ parsed ls old r ∧
    (∀ r', parsed ls old r' → r' = r) ∧
    ∀ x, x ∈ ls →
      ∃ before w, text = before ++ w ++ yy_rest x.2 ∧ (w = [] → x.1 = T_EOF) ∧
        (w ≠ [] → (first_line (yylloc x.2), first_column (yylloc x.2)) = pos_of before).
Proof.
  destruct (scan_total (MkScanner s text loc0)) as [ls Hls].
  destruct (yyparse_parsed s text old ls Hls) as (r & Hr & Hp). apply scan_scans in Hls.
  exists ls, r. split_and!; [done..| |].
  - intros r' Hp'. by eapply parsed_unique.
  - intros x Hx. by apply (scans_positions text [] (MkScanner s text loc0) ls).
Qed.
