(* ===== verification/ParserText.v ===== *)
(** Statements as text: the tokens a syntax tree is written with, and that
    writing a tree and parsing the text gives the tree back. *)
From Stdlib Require Import Ascii String.
From S2P Require Import Prelude Config Regex Lexer LexerSpec LexText Ast Parser ParserSpec.
Import ast.

(** ** Writing a tree *)

Definition w_value (v : Value) : list token :=
  match v with IntLit n => [VALUE_INT n] | FloatLit b => [VALUE_FLOAT b] | StringLit s => [VALUE_STRING s] end.

Definition w_type (t : TypeLen) : list token :=
  match tl_type t with
  | SV_TYPE_INT => [INT]
  | SV_TYPE_STRING => [CHAR; lparen; VALUE_INT (tl_len t); rparen]
  | SV_TYPE_FLOAT => [FLOAT]
  end.

Definition w_field (f : ColDef) : list token := IDENTIFIER (cd_name f) :: w_type (cd_type_len f).

Definition w_col (c : Col) : list token :=
  if decide (c_tab_name c = EmptyString) then [IDENTIFIER (c_col_name c)]
  else [IDENTIFIER (c_tab_name c); dot; IDENTIFIER (c_col_name c)].

Definition w_op (o : SvCompOp) : list token :=
  match o with
  | SV_OP_EQ => [Chr "="] | SV_OP_NE => [NEQ] | SV_OP_LT => [Chr "<"]
  | SV_OP_GT => [Chr ">"] | SV_OP_LE => [LEQ] | SV_OP_GE => [GEQ]
  end.

Definition w_expr (e : Expr) : list token := match e with EValue v => w_value v | ECol c => w_col c end.
Definition w_condition (b : BinaryExpr) : list token := w_col (be_lhs b) ++ w_op (be_op b) ++ w_expr (be_rhs b).
Definition w_setClause (c : SetClause) : list token := IDENTIFIER (sc_col_name c) :: equals :: w_value (sc_val c).

Definition w_list {A} (w : A → list token) (sep : token) (l : list A) : list token :=
  match l with [] => [] | a :: l' => w a ++ concat ((λ b, sep :: w b) <$> l') end.

Definition w_where (l : list BinaryExpr) : list token :=
  match l with [] => [] | _ => WHERE :: w_list w_condition AND l end.

Definition w_stmt (t : TreeNode) : list token :=
  match t with
  | Help => [HELP]
  | ShowTables => [SHOW; TABLES]
  | TxnBegin => [TXN_BEGIN]
  | TxnCommit => [TXN_COMMIT]
  | TxnAbort => [TXN_ABORT]
  | TxnRollback => [TXN_ROLLBACK]
  | CreateTable t l => CREATE :: TABLE :: IDENTIFIER t :: lparen :: w_list w_field comma l ++ [rparen]
  | DropTable t => [DROP; TABLE; IDENTIFIER t]
  | DescTable t => [DESC; IDENTIFIER t]
  | CreateIndex t c => [CREATE; INDEX; IDENTIFIER t; lparen; IDENTIFIER c; rparen]
  | DropIndex t c => [DROP; INDEX; IDENTIFIER t; lparen; IDENTIFIER c; rparen]
  | InsertStmt t l => INSERT :: INTO :: IDENTIFIER t :: VALUES :: lparen :: w_list w_value comma l ++ [rparen]
  | DeleteStmt t w => DELETE :: FROM :: IDENTIFIER t :: w_where w
  | UpdateStmt t l w => UPDATE :: IDENTIFIER t :: SET :: w_list w_setClause comma l ++ w_where w
  | SelectStmt s t w =>
      SELECT :: match s with [] => [star] | _ => w_list w_col comma s end ++
      FROM :: w_list (λ t, [IDENTIFIER t]) comma t ++ w_where w
  | OtherNode => []
  end.

(** The trees of statements: lists the grammar has no empty form for are not
    empty, and the length of a number type is fixed. *)
Definition type_ok (t : TypeLen) : Prop := tl_type t = SV_TYPE_STRING ∨ tl_len t = 4.

Definition is_statement (t : TreeNode) : Prop :=
  match t with
  | CreateTable _ l => l ≠ [] ∧ Forall (λ f, type_ok (cd_type_len f)) l
  | InsertStmt _ l => l ≠ []
  | UpdateStmt _ l _ => l ≠ []
  | SelectStmt _ t _ => t ≠ []
  | Help | OtherNode => False
  | _ => True
  end.

(** ** What is written is derived *)

Lemma g_list_written {A} (G : gram A) sep w t l :
  (∀ a, a ∈ l → G a (w a)) → sep t = true → l ≠ [] → g_list G sep l (w_list w t l).
Proof.
  intros Hw Hs Hl. destruct l as [|a l]; [done|]. apply g_list_tail. exists a, l, (w a), (concat ((λ b, t :: w b) <$> l)).
  split_and!; [done|done|apply Hw; by left|].
  assert (Hw' : ∀ b, b ∈ l → G b (w b)) by (intros b Hb; apply Hw; by right). clear Hw Hl.
  induction l as [|b l IH]; [constructor|]. change (concat ((λ b, t :: w b) <$> b :: l)) with (t :: w b ++ concat ((λ b, t :: w b) <$> l)).
  constructor; [done|apply Hw'; by left|]. apply IH. intros; apply Hw'. by right.
Qed.

Lemma g_value_written v : g_value v (w_value v).
Proof. destruct v; constructor. Qed.
Lemma g_type_written t : type_ok t → g_type t (w_type t).
Proof. destruct t as [[] n]; unfold type_ok; simpl; intros [?|?]; simplify_eq; constructor. Qed.
Lemma g_field_written f : type_ok (cd_type_len f) → g_field f (w_field f).
Proof. destruct f as [n t]. intros H. apply (field_def n [IDENTIFIER n]); [constructor|by apply g_type_written]. Qed.
Lemma g_col_written c : g_col c (w_col c).
Proof.
  destruct c as [t c]. unfold w_col. simpl. case_decide as H.
  - subst. apply col_plain. constructor.
  - apply (col_qualified t [IDENTIFIER t]); constructor.
Qed.
Lemma g_op_written o : g_op o (w_op o).
Proof. destruct o; constructor. Qed.
Lemma g_expr_written e : g_expr e (w_expr e).
Proof. destruct e; constructor; [apply g_value_written|apply g_col_written]. Qed.
Lemma g_condition_written b : g_condition b (w_condition b).
Proof. destruct b. constructor; [apply g_col_written|apply g_op_written|apply g_expr_written]. Qed.
Lemma g_setClause_written c : g_setClause c (w_setClause c).
Proof. destruct c as [c v]. apply (set_clause c [IDENTIFIER c]); [constructor|apply g_value_written]. Qed.
Lemma g_where_written l : g_optWhereClause l (w_where l).
Proof.
  destruct l as [|b l]; [constructor|]. constructor. apply g_list_written; [intros; apply g_condition_written|done|done].
Qed.

Lemma g_stmt_written t : is_statement t → g_stmt t (w_stmt t).
Proof.
  pose proof (λ s, tbName_id s) as Hn. pose proof (λ s, colName_id s) as Hc. pose proof g_where_written as Hw.
  destruct t as [| | | | | |t l|t|t|t c|t c|t l|t w|t l w|s t w|]; simpl; intros H; try done.
  1: do 2 constructor. 1-4: by apply stmt_txn; constructor.
  - apply stmt_ddl, (ddl_create_table t [IDENTIFIER t]); [done|]. destruct H as [Hl Hf]. rewrite Forall_forall in Hf.
    apply g_list_written; [intros f Hin; by apply g_field_written, Hf|done|done].
  - by apply stmt_ddl, ddl_drop_table.
  - by apply stmt_ddl, ddl_desc.
  - by apply stmt_ddl, (ddl_create_index t [IDENTIFIER t] c [IDENTIFIER c]).
  - by apply stmt_ddl, (ddl_drop_index t [IDENTIFIER t] c [IDENTIFIER c]).
  - apply stmt_dml, (dml_insert t [IDENTIFIER t]); [done|]. apply g_list_written; [intros; apply g_value_written|done|done].
  - by apply stmt_dml, (dml_delete t [IDENTIFIER t]).
  - apply stmt_dml, (dml_update t [IDENTIFIER t]); [done| |done]. apply g_list_written; [intros; apply g_setClause_written|done|done].
  - apply stmt_dml, dml_select; [| |done].
    + destruct s; [constructor|]. constructor. apply g_list_written; [intros; apply g_col_written|done|done].
    + apply g_list_written; [done|done|done].
Qed.

(** ** What is derived is a statement *)

Lemma g_list_not_nil {A} (G : gram A) sep l u : g_list G sep l u → l ≠ [].
Proof. destruct 1; [done|]. by destruct l. Qed.

Lemma g_list_all {A} (G : gram A) sep (Q : A → Prop) l u : (∀ a v, G a v → Q a) → g_list G sep l u → Forall Q l.
Proof. intros HQ. induction 1; [|apply Forall_app; split; [done|]]; constructor; eauto. Qed.

Lemma g_stmt_statement t u : g_stmt t u → is_statement t.
Proof.
  destruct 1 as [t u []|t u Hd|t u Hd|t u []]; [done| | |done..].
  - destruct Hd as [n x l v _ Hl| | | |]; [|done..]. split; [by eapply g_list_not_nil|].
    eapply g_list_all; [|done]. destruct 1 as [c w k y _ []]; [by right|by left|by right].
  - destruct Hd as [n x l v _ Hl| |n x l v w y _ Hl _|s x n v w y _ Hl _]; [|done|..]; by eapply g_list_not_nil.
Qed.

(** ** Round trip *)

(** A text whose tokens are a word of the grammar is parsed to its value. *)
Lemma yyparse_text lead ws u o old :
  Forall (.∈ blanks) lead → separated ws → spelled u ws → g_start o u →
  yyparse INITIAL (lead ++ layout ws) old = Some (MkResult true o INITIAL None).
Proof.
  intros Hb Hsep Hsp Hg. destruct (scan_of_layout lead ws u loc0 Hb Hsep Hsp) as (ls & Hls & Htok & Hst).
  destruct (yyparse_parsed INITIAL (lead ++ layout ws) old ls Hls) as (r & -> & Hp). f_equal.
  apply fmap_app_split in Htok as (l1 & l2 & -> & <- & _).
  destruct l1 as [|x l1 _] using rev_ind.
  { destruct (g_start_not_nil o Hg). }
  rewrite <- app_assoc in Hp. eapply parsed_unique; [done|].
  replace INITIAL with (yy_start x.2); [by eapply parsed_ok|].
  rewrite !Forall_app, Forall_singleton in Hst. naive_solver.
Qed.

(** A statement as a text, one space after each token. *)
Definition print (t : TreeNode) : list ascii := layout (print_tokens (w_stmt t ++ [semicolon])).

Lemma yyparse_print t old :
  is_statement t → forallb can_spell (w_stmt t) = true →
  yyparse INITIAL (print t) old = Some (MkResult true (Some t) INITIAL None).
Proof.
  intros Ht Hs. assert (Hs' : forallb can_spell (w_stmt t ++ [semicolon]) = true) by by rewrite forallb_app, Hs.
  destruct (print_tokens_ok _ Hs') as [H1 H2].
  apply (yyparse_text [] _ _ _ old (Forall_nil_2 _) H2 H1). by apply start_stmt, g_stmt_written.
Qed.

(** The texts of a statement: its tokens and a semicolon, keywords in any mixture of
    cases, numbers in any spelling, any blanks in front and in between. *)
Definition spelling (t : TreeNode) (text : list ascii) : Prop :=
  ∃ lead ws, Forall (.∈ blanks) lead ∧ separated ws ∧ spelled (w_stmt t ++ [semicolon]) ws ∧ text = lead ++ layout ws.

Lemma yyparse_spelling t text old :
  is_statement t → spelling t text → yyparse INITIAL text old = Some (MkResult true (Some t) INITIAL None).
Proof.
  intros Ht (lead & ws & ? & ? & ? & ->). eapply yyparse_text; [done..|]. by apply start_stmt, g_stmt_written.
Qed.

Lemma spelling_print t : forallb can_spell (w_stmt t) = true → spelling t (print t).
Proof.
  intros Hs. assert (Hs' : forallb can_spell (w_stmt t ++ [semicolon]) = true) by by rewrite forallb_app, Hs.
  destruct (print_tokens_ok _ Hs') as [H1 H2]. by exists [], (print_tokens (w_stmt t ++ [semicolon])).
Qed.

(** [C14] Parsing undoes writing.  The trees of statements are exactly those that
    satisfy [is_statement].  Whichever way such a tree is written, as the tokens
    [w_stmt] and a semicolon, with keywords in any mixture of cases, with any
    spelling of the numbers that has their value and any blanks between the
    tokens, [yyparse] accepts the text, gives the tree back and leaves the scanner
    in its initial start condition.  In particular [print] is such a text when the
    names are words that are no keywords, the strings have no quote in them and
    there are no [float] literals. *)
Theorem parse_of_print t :
  (is_statement t ↔ ∃ u, g_stmt t u) ∧
  (is_statement t →
     (∀ lead ws old,
        Forall (.∈ blanks) lead → separated ws → spelled (w_stmt t ++ [semicolon]) ws →
        yyparse INITIAL (lead ++ layout ws) old = Some (MkResult true (Some t) INITIAL None)) ∧
     (∀ old, forallb can_spell (w_stmt t) = true → yyparse INITIAL (print t) old = Some (MkResult true (Some t) INITIAL None))).
Proof.
  split; [split; [intros H%g_stmt_written; eauto|intros [u H]; by eapply g_stmt_statement]|].
  intros Ht. split; [|intros old; by apply yyparse_print].
  intros lead ws old ? ? ?. eapply yyparse_text; [done..|]. by apply start_stmt, g_stmt_written.
Qed.

(** ** On concrete texts *)

Module ParserRuns.

Definition text (s : string) : list ascii := chars s.

(** A statement with a comment, a line end and mixed cases. *)
Lemma parses_select :
  yyparse INITIAL (text "Select name, t.id FROM t JOIN u -- all of them
Where id >= -3 and name <> 'it; --'; anything /*") None =
  Some (MkResult true
    (Some (SelectStmt [MkCol "" "name"; MkCol "t" "id"] ["t"; "u"]
       [MkBinaryExpr (MkCol "" "id") SV_OP_GE (EValue (IntLit (-3)));
        MkBinaryExpr (MkCol "" "name") SV_OP_NE (EValue (StringLit "it; --"))]))
    INITIAL None).
Proof. by vm_compute. Qed.

(** The error is reported at the token after [from], on the second line. *)
Lemma error_position :
  yyparse INITIAL (text "select *
  from where;") (Some ShowTables) = Some (MkResult false (Some ShowTables) INITIAL (Some (MkLoc 2 8 2 13))).
Proof. by vm_compute. Qed.

(** A number that does not fit an [int] is cut to one without a message. *)
Lemma int_literal_wraps :
  tree_after <$> yyparse INITIAL (text "insert into t values (4294967297);") None = Some (Some (InsertStmt "t" [IntLit 1])).
Proof. by vm_compute. Qed.

(** A comment without an end swallows its text, which counts as an empty request;
    the next text is scanned as the rest of the comment. *)
Lemma open_comment_stays :
  yyparse INITIAL (text "/* done") None = Some (MkResult true None STATE_COMMENT None) ∧
  yyparse STATE_COMMENT (text "show tables;") None = Some (MkResult true None STATE_COMMENT None).
Proof. by vm_compute. Qed.

(** A character that starts no token is skipped, and the statement is what is left. *)
Lemma stray_character_ignored :
  yyparse INITIAL (text "delete from t where a = 1 -;") None = yyparse INITIAL (text "delete from t where a = 1;") None ∧
  accepted <$> yyparse INITIAL (text "drop table t!;") None = Some true.
Proof. by vm_compute. Qed.

(** A column of an [update] cannot be written with its table, one of a condition can. *)
Lemma update_column_unqualified :
  accepted <$> yyparse INITIAL (text "update t set t.a = 1;") None = Some false ∧
  accepted <$> yyparse INITIAL (text "update t set a = 1 where t.a = 2;") None = Some true.
Proof. by vm_compute. Qed.

Definition stmt1 : TreeNode :=
  UpdateStmt "student" [MkSetClause "score" (IntLit (-100)); MkSetClause "name" (StringLit "Tom; drop")]
    [MkBinaryExpr (MkCol "student" "id") SV_OP_LE (ECol (MkCol "" "max_id"))].

Lemma stmt1_can_spell : forallb can_spell (w_stmt stmt1) = true.
Proof. by vm_compute. Qed.

Lemma parse_of_print_witness :
  is_statement stmt1 ∧ yyparse INITIAL (print stmt1) None = Some (MkResult true (Some stmt1) INITIAL None).
Proof. split; [done|]. destruct (parse_of_print stmt1) as [_ H]. destruct H as [_ H]; [done|]. apply H, stmt1_can_spell. Defined.

End ParserRuns.
