(* ===== verification/AstPrinter.v ===== *)
(** The tree printer: [parser/ast_printer.h].

    [TreePrinter::print] writes a tree to the console, one line for each node and
    each value, indented by two for every level.  What is written is the result of
    the functions here.  [operator<<] on a [float] is modelled as the C library
    defines it ([%g] with six digits, correctly rounded).  The theorem says that
    the listing determines the tree. *)
From Stdlib Require Import Ascii String SpecFloat.
From stdpp Require Import pretty.
From S2P Require Import Prelude Config IxKey Lexer LexText Ast.
Import ast.

(** ** Numbers *)

(** The nearest integer to [num / den], an even one on a tie. *)
Definition round_quot (num den : Z) : Z :=
  let q := num / den in
  let r := num mod den in
  if 2 * r <? den then q else if den <? 2 * r then q + 1 else if Z.even q then q else q + 1.

(** [m * 2^e / 10^(X-5)] as a quotient: six digits before the point when [X] is the
    decimal exponent. *)
Definition scaled (m e X : Z) : Z * Z :=
  (m * 2 ^ Z.max e 0 * 10 ^ Z.max (5 - X) 0, 2 ^ Z.max (- e) 0 * 10 ^ Z.max (X - 5) 0).

(** The decimal exponent: a [float] lies between 10^-46 and 10^39. *)
Fixpoint find_exponent (fuel : nat) (m e X : Z) : Z :=
  match fuel with
  | O => X
  | S fuel' =>
      let '(num, den) := scaled m e X in
      if den * 100000 <=? num then X else find_exponent fuel' m e (X - 1)
  end.

Definition six_digits (m e : Z) : Z * Z :=
  let X := find_exponent 90 m e 39 in
  let '(num, den) := scaled m e X in
  let q := round_quot num den in
  if q =? 1000000 then (100000, X + 1) else (q, X).

Fixpoint digits_of (n : nat) (z : Z) : list ascii :=
  match n with
  | O => []
  | S n' => digits_of n' (z / 10) ++ [ascii_of_nat (48 + Z.to_nat (z mod 10))]
  end.

Fixpoint strip_zeros (l : list ascii) : list ascii :=
  match l with
  | [] => []
  | c :: l' =>
      match strip_zeros l' with
      | [] => if ascii_dec c "0" then [] else [c]
      | r => c :: r
      end
  end.

(** A fraction without its trailing zeros, and without its point when nothing is left. *)
Definition fraction (n : nat) (z : Z) : string :=
  match strip_zeros (digits_of n z) with [] => EmptyString | r => "." +:+ string_of_list_ascii r end.

(** [%g] of a positive number. *)
Definition show_general (m e : Z) : string :=
  let '(q, X) := six_digits m e in
  if (-4 <=? X) && (X <? 6) then
    let d := 5 - X in to_string (q / 10 ^ d) +:+ fraction (Z.to_nat d) (q mod 10 ^ d)
  else
    to_string (q / 100000) +:+ fraction 5 (q mod 100000) +:+ "e" +:+ (if X <? 0 then "-" else "+")
    +:+ (if Z.abs X <? 10 then "0" else EmptyString) +:+ to_string (Z.abs X).

Definition show_float (bits : Z) : string :=
  (if Z.testbit bits 31 then "-" else EmptyString) +:+
  match float_of_bits bits with
  | S754_zero _ => "0"
  | S754_infinity _ => "inf"
  | S754_nan => "nan"
  | S754_finite _ m e => show_general (Zpos m) e
  end.

(** 1.5, 0.1, 1e10, 123456789, 1e-5, -2.5, 1e-45, the largest [float], 999999.5 *)
Lemma show_float_runs :
  show_float <$> [1069547520; 1036831949; 1343554297; 1290500515; 925353388; 3223322624; 1; 2139095039; 1232348152]
  = ["1.5"; "0.1"; "1e+10"; "1.23457e+08"; "1e-05"; "-2.5"; "1.4013e-45"; "3.40282e+38"; "1e+06"]%string.
Proof. by vm_compute. Qed.

(** ** Printing *)

Definition offset2string (offset : nat) : string := string_of_list_ascii (replicate offset " "%char).

Definition print_val (val : string) (offset : nat) : string := offset2string offset +:+ val +:+ newline.

Definition print_val_list (vals : list string) (offset : nat) : string :=
  offset2string offset +:+ "LIST" +:+ newline +:+ foldr (λ v s, print_val v (offset + 2)%nat +:+ s) EmptyString vals.

Definition type2str (t : SvType) : string :=
  match t with SV_TYPE_INT => "INT" | SV_TYPE_FLOAT => "FLOAT" | SV_TYPE_STRING => "STRING" end.

Definition op2str (o : SvCompOp) : string :=
  match o with
  | SV_OP_EQ => "==" | SV_OP_NE => "!=" | SV_OP_LT => "<" | SV_OP_GT => ">" | SV_OP_LE => "<=" | SV_OP_GE => ">="
  end.

Definition print_node_list {A} (print_node : A → nat → string) (nodes : list A) (offset : nat) : string :=
  offset2string offset +:+ "LIST" +:+ newline +:+ foldr (λ x s, print_node x (offset + 2)%nat +:+ s) EmptyString nodes.

(** What [print_node] writes first: the indented name of the node's class. *)
Definition heading (name : string) (offset : nat) : string := offset2string offset +:+ name +:+ newline.

(** [print_node], by the class of the node. *)
Definition print_TypeLen (x : TypeLen) (offset : nat) : string :=
  heading "TYPE_LEN" offset +:+ print_val (type2str (tl_type x)) (offset + 2) +:+ print_val (to_string (tl_len x)) (offset + 2).

Definition print_ColDef (x : ColDef) (offset : nat) : string :=
  heading "COL_DEF" offset +:+ print_val (cd_name x) (offset + 2) +:+ print_TypeLen (cd_type_len x) (offset + 2).

Definition print_Col (x : Col) (offset : nat) : string :=
  heading "COL" offset +:+ print_val (c_tab_name x) (offset + 2) +:+ print_val (c_col_name x) (offset + 2).

Definition print_Value (x : Value) (offset : nat) : string :=
  match x with
  | IntLit v => heading "INT_LIT" offset +:+ print_val (to_string v) (offset + 2)
  | FloatLit b => heading "FLOAT_LIT" offset +:+ print_val (show_float b) (offset + 2)
  | StringLit v => heading "STRING_LIT" offset +:+ print_val v (offset + 2)
  end.

Definition print_Expr (x : Expr) (offset : nat) : string :=
  match x with EValue v => print_Value v offset | ECol c => print_Col c offset end.

Definition print_SetClause (x : SetClause) (offset : nat) : string :=
  heading "SET_CLAUSE" offset +:+ print_val (sc_col_name x) (offset + 2) +:+ print_Value (sc_val x) (offset + 2).

Definition print_BinaryExpr (x : BinaryExpr) (offset : nat) : string :=
  heading "BINARY_EXPR" offset +:+ print_Col (be_lhs x) (offset + 2) +:+ print_val (op2str (be_op x)) (offset + 2)
  +:+ print_Expr (be_rhs x) (offset + 2).

(** A statement; [None] is the failed [assert(0)] of a node of no class above. *)
Definition print_node (node : TreeNode) (offset : nat) : option string :=
  let o := (offset + 2)%nat in
  match node with
  | Help => Some (heading "HELP" offset)
  | ShowTables => Some (heading "SHOW_TABLES" offset)
  | CreateTable t fields =>
      Some (heading "CREATE_TABLE" offset +:+ print_val t o +:+ print_node_list print_ColDef fields o)
  | DropTable t => Some (heading "DROP_TABLE" offset +:+ print_val t o)
  | DescTable t => Some (heading "DESC_TABLE" offset +:+ print_val t o)
  | CreateIndex t c => Some (heading "CREATE_INDEX" offset +:+ print_val t o +:+ print_val c o)
  | DropIndex t c => Some (heading "DROP_INDEX" offset +:+ print_val t o +:+ print_val c o)
  | InsertStmt t vals => Some (heading "INSERT" offset +:+ print_val t o +:+ print_node_list print_Value vals o)
  | DeleteStmt t conds => Some (heading "DELETE" offset +:+ print_val t o +:+ print_node_list print_BinaryExpr conds o)
  | UpdateStmt t sets conds =>
      Some (heading "UPDATE" offset +:+ print_val t o +:+ print_node_list print_SetClause sets o
            +:+ print_node_list print_BinaryExpr conds o)
  | SelectStmt cols tabs conds =>
      Some (heading "SELECT" offset +:+ print_node_list print_Col cols o +:+ print_val_list tabs o
            +:+ print_node_list print_BinaryExpr conds o)
  | TxnBegin => Some (heading "BEGIN" offset)
  | TxnCommit => Some (heading "COMMIT" offset)
  | TxnAbort => Some (heading "ABORT" offset)
  | TxnRollback => Some (heading "ROLLBACK" offset)
  | OtherNode => None
  end.

Definition print (node : TreeNode) : option string := print_node node 0.

(** ** One line each *)

Definition eol : ascii := "010"%char.
Definition one_line (s : string) : Prop := eol ∉ chars s.

Lemma one_line_check s : forallb (λ c, negb (Ascii.eqb c eol)) (chars s) = true → one_line s.
Proof.
  rewrite forallb_forall. intros H Hin%list_elem_of_In. specialize (H _ Hin). by rewrite Ascii.eqb_refl in H.
Qed.

Lemma one_line_app a b : one_line a → one_line b → one_line (a +:+ b).
Proof. unfold one_line. rewrite chars_app, not_elem_of_app. done. Qed.

Lemma one_line_to_string z : one_line (to_string z).
Proof.
  assert (Hd : ∀ n : N, one_line (pretty n)).
  { intros n Hin. destruct (pretty_digits n) as (_ & H & _). rewrite Forall_forall in H. by specialize (H _ Hin). }
  unfold one_line, to_string. destruct z as [|p|p].
  - by apply one_line_check.
  - apply (Hd (Npos p)).
  - change (eol ∉ "-"%char :: chars (pretty (Npos p))). apply not_elem_of_cons. split; [done|apply Hd].
Qed.

Lemma digits_of_line n z : eol ∉ digits_of n z.
Proof.
  revert z. induction n as [|n IH]; intros z; simpl; [apply not_elem_of_nil|]. rewrite not_elem_of_app, list_elem_of_singleton.
  split; [apply IH|]. pose proof (Z.mod_pos_bound z 10 ltac:(lia)) as Hm. intros E. apply (f_equal nat_of_ascii) in E.
  rewrite nat_ascii_embedding in E by lia. change (nat_of_ascii eol) with 10%nat in E. lia.
Qed.

Lemma strip_zeros_sub c l : c ∈ strip_zeros l → c ∈ l.
Proof.
  induction l as [|d l IH]; simpl; [done|]. destruct (strip_zeros l) as [|e r].
  - destruct (ascii_dec d "0"); [by intros ?%elem_of_nil|]. intros ->%list_elem_of_singleton. by left.
  - intros [->|Hin]%elem_of_cons; [by left|]. right. by apply IH.
Qed.

Lemma one_line_fraction n z : one_line (fraction n z).
Proof.
  unfold fraction. destruct (strip_zeros (digits_of n z)) as [|d r] eqn:E; [by apply one_line_check|]. rewrite <- E.
  apply one_line_app; [by apply one_line_check|]. unfold one_line. rewrite chars_string_of. intros Hin%strip_zeros_sub.
  by apply digits_of_line in Hin.
Qed.

Create HintDb lines.
#[local] Hint Resolve one_line_app one_line_to_string one_line_fraction : lines.
#[local] Hint Extern 1 (one_line _) => by apply one_line_check : lines.

Lemma one_line_show_float b : one_line (show_float b).
Proof.
  unfold show_float. apply one_line_app; [by destruct (Z.testbit b 31); apply one_line_check|].
  destruct (float_of_bits b) as [| | |? m e]; [by apply one_line_check..|]. unfold show_general.
  destruct (six_digits (Zpos m) e) as [q X]. destruct (_ && _); [auto with lines|].
  repeat apply one_line_app; auto with lines; [by destruct (X <? 0); apply one_line_check|by destruct (Z.abs X <? 10); apply one_line_check].
Qed.
#[local] Hint Resolve one_line_show_float : lines.

Lemma one_line_type t : one_line (type2str t).
Proof. by destruct t; apply one_line_check. Qed.
Lemma one_line_op o : one_line (op2str o).
Proof. by destruct o; apply one_line_check. Qed.
#[local] Hint Resolve one_line_type one_line_op : lines.

(** ** The listing determines the tree *)

(** What follows a printed value can be told from the value. *)
Definition uniq {A} (P : A → Prop) (enc : A → nat → string) : Prop :=
  ∀ o a a' r r', P a → P a' → chars (enc a o) ++ r = chars (enc a' o) ++ r' → a = a' ∧ r = r'.

Lemma line_split (a a' r r' : list ascii) :
  eol ∉ a → eol ∉ a' → a ++ eol :: r = a' ++ eol :: r' → a = a' ∧ r = r'.
Proof.
  revert a'. induction a as [|c a IH]; intros [|c' a'] Ha Ha' E; simpl in E; simplify_eq; try done.
  - destruct Ha'. left.
  - destruct Ha. left.
  - apply not_elem_of_cons in Ha as [_ Ha], Ha' as [_ Ha']. by destruct (IH a' Ha Ha') as [-> ->].
Qed.

Lemma chars_val v o : chars (print_val v o) = replicate o " "%char ++ chars v ++ [eol].
Proof. unfold print_val, offset2string. by rewrite !chars_app, chars_string_of. Qed.

Lemma uniq_val : uniq one_line print_val.
Proof.
  intros o v v' r r' Hv Hv'. rewrite !chars_val, <- !app_assoc. intros E%app_inv_head. simpl in E.
  apply line_split in E as [E ->]; try done. split; [|done]. rewrite <- (string_of_chars v), <- (string_of_chars v'). by rewrite E.
Qed.

(** Take the first line off both sides. *)
Lemma peel v v' o s s' r r' :
  one_line v → one_line v' → chars (print_val v o +:+ s) ++ r = chars (print_val v' o +:+ s') ++ r' →
  v = v' ∧ chars s ++ r = chars s' ++ r'.
Proof. intros Hv Hv'. rewrite !chars_app, <- !app_assoc. by apply uniq_val. Qed.

Lemma peel_head n n' o s s' r r' :
  one_line n → one_line n' → chars (heading n o +:+ s) ++ r = chars (heading n' o +:+ s') ++ r' →
  n = n' ∧ chars s ++ r = chars s' ++ r'.
Proof. apply (peel n n' o). Qed.

Lemma uniq_app {A} (P : A → Prop) enc o a a' s s' r r' :
  uniq P enc → P a → P a' → chars (enc a o +:+ s) ++ r = chars (enc a' o +:+ s') ++ r' → a = a' ∧ chars s ++ r = chars s' ++ r'.
Proof. intros Hu Ha Ha'. rewrite !chars_app, <- !app_assoc. by apply Hu. Qed.

Section Listing.
Context (F : Z → Prop) (HF : ∀ b b', F b → F b' → show_float b = show_float b' → b = b').

Definition value_ok (v : Value) : Prop := match v with IntLit _ => True | FloatLit b => F b | StringLit s => one_line s end.
Definition col_ok (c : Col) : Prop := one_line (c_tab_name c) ∧ one_line (c_col_name c).
Definition expr_ok (e : Expr) : Prop := match e with EValue v => value_ok v | ECol c => col_ok c end.
Definition field_ok (d : ColDef) : Prop := one_line (cd_name d).
Definition set_ok (c : SetClause) : Prop := one_line (sc_col_name c) ∧ value_ok (sc_val c).
Definition cond_ok (b : BinaryExpr) : Prop := col_ok (be_lhs b) ∧ expr_ok (be_rhs b).

Lemma uniq_TypeLen : uniq (λ _, True) print_TypeLen.
Proof.
  intros o [t n] [t' n'] r r' _ _ E. unfold print_TypeLen in E. apply peel_head in E as [_ E]; [|by apply one_line_check..].
  apply peel in E as [Et E]; [|apply one_line_type..]. apply uniq_val in E as [En ->]; [|apply one_line_to_string..].
  simpl in Et, En. apply (inj pretty) in En. subst n'. split; [|done]. f_equal. by destruct t, t'.
Qed.

Lemma uniq_ColDef : uniq field_ok print_ColDef.
Proof.
  intros o [n t] [n' t'] r r' H H' E. unfold print_ColDef in E. apply peel_head in E as [_ E]; [|by apply one_line_check..].
  apply peel in E as [En E]; [|done..]. apply uniq_TypeLen in E as [Et ->]; [|done..]. simpl in *. by subst.
Qed.

Lemma uniq_Col : uniq col_ok print_Col.
Proof.
  intros o [t c] [t' c'] r r' [H1 H2] [H1' H2'] E. unfold print_Col in E. apply peel_head in E as [_ E]; [|by apply one_line_check..].
  apply peel in E as [Et E]; [|done..]. apply uniq_val in E as [Ec ->]; [|done..]. simpl in *. by subst.
Qed.

Lemma uniq_Value : uniq value_ok print_Value.
Proof using HF.
  intros o v v' r r' H H' E. destruct v as [n|b|s], v' as [n'|b'|s']; simpl in *;
    (apply peel_head in E as [Eh E]; [|by apply one_line_check..]); try done; apply uniq_val in E as [Ev ->]; auto with lines.
  - by apply (inj pretty) in Ev as ->.
  - by rewrite (HF b b' H H' Ev).
  - by subst.
Qed.

Lemma uniq_Expr : uniq expr_ok print_Expr.
Proof using HF.
  intros o e e' r r' H H' E. destruct e as [v|c], e' as [v'|c']; simpl in *.
  - by apply uniq_Value in E as [-> ->].
  - unfold print_Col in E. destruct v; simpl in E; apply peel_head in E as [? _]; done || by apply one_line_check.
  - unfold print_Col in E. destruct v'; simpl in E; apply peel_head in E as [? _]; done || by apply one_line_check.
  - by apply uniq_Col in E as [-> ->].
Qed.

Lemma uniq_SetClause : uniq set_ok print_SetClause.
Proof using HF.
  intros o [c v] [c' v'] r r' [H1 H2] [H1' H2'] E. unfold print_SetClause in E.
  apply peel_head in E as [_ E]; [|by apply one_line_check..]. apply peel in E as [Ec E]; [|done..].
  apply uniq_Value in E as [Ev ->]; [|done..]. simpl in *. by subst.
Qed.

Lemma uniq_BinaryExpr : uniq cond_ok print_BinaryExpr.
Proof using HF.
  intros o [l p e] [l' p' e'] r r' [H1 H2] [H1' H2'] E. unfold print_BinaryExpr in E.
  apply peel_head in E as [_ E]; [|by apply one_line_check..]. apply (uniq_app col_ok print_Col) in E as [El E]; [|apply uniq_Col|done..].
  apply peel in E as [Ep E]; [|apply one_line_op..]. apply uniq_Expr in E as [Ee ->]; [|done..]. simpl in *. subst.
  split; [|done]. f_equal. by destruct p, p'.
Qed.

(** ** Lists

    The items of a list are indented further than what comes after the list. *)
Definition indented {A} (enc : A → nat → string) : Prop := ∀ a k, ∃ t, chars (enc a k) = replicate k " "%char ++ t.
Definition stops (k : nat) (r : list ascii) : Prop :=
  r = [] ∨ ∃ n c r0, (n < k)%nat ∧ r = replicate n " "%char ++ c :: r0 ∧ c ≠ " "%char.

Lemma stops_indented k r t : (0 < k)%nat → stops k r → r ≠ replicate k " "%char ++ t.
Proof.
  intros Hk [->|(n & c & r0 & Hn & -> & Hc)] E; [destruct k; [lia|done]|]. apply (f_equal (lookup n)) in E.
  rewrite lookup_app_r, length_replicate, Nat.sub_diag in E by (rewrite length_replicate; lia). simpl in E.
  rewrite lookup_app_l, lookup_replicate_2 in E by (rewrite ?length_replicate; lia). congruence.
Qed.

Lemma uniq_items {A} (P : A → Prop) enc k l l' r r' :
  uniq P enc → indented enc → (0 < k)%nat → Forall P l → Forall P l' → stops k r → stops k r' →
  chars (foldr (λ x s, enc x k +:+ s) EmptyString l) ++ r = chars (foldr (λ x s, enc x k +:+ s) EmptyString l') ++ r' →
  l = l' ∧ r = r'.
Proof.
  intros Hu Hi Hk Hl. revert l'. induction Hl as [|a l Ha _ IH]; intros l' Hl' Hr Hr' E; destruct Hl' as [|a' l' Ha' Hl']; simpl in E.
  - done.
  - exfalso. destruct (Hi a' k) as [t Ht]. rewrite chars_app, Ht, <- !app_assoc in E. by apply (stops_indented k r _ Hk Hr E).
  - exfalso. destruct (Hi a k) as [t Ht]. rewrite chars_app, Ht, <- !app_assoc in E. symmetry in E. by apply (stops_indented k r' _ Hk Hr' E).
  - apply (uniq_app P enc) in E as [-> E]; [|done..]. by apply IH in E as [-> ->].
Qed.

Lemma uniq_list {A} (P : A → Prop) enc o l l' s s' :
  uniq P enc → indented enc → Forall P l → Forall P l' → stops (o + 2) (chars s) → stops (o + 2) (chars s') →
  chars (print_node_list enc l o +:+ s) = chars (print_node_list enc l' o +:+ s') → l = l' ∧ chars s = chars s'.
Proof.
  intros Hu Hi Hl Hl' Hr Hr'. unfold print_node_list. rewrite !chars_app, <- !app_assoc.
  intros E%app_inv_head%app_inv_head%app_inv_head. exact (uniq_items P enc (o + 2) l l' _ _ Hu Hi ltac:(lia) Hl Hl' Hr Hr' E).
Qed.

Lemma indented_head n o s : ∃ t, chars (heading n o +:+ s) = replicate o " "%char ++ t.
Proof. rewrite chars_app. change (heading n o) with (print_val n o). rewrite chars_val, <- app_assoc. by eexists. Qed.

Lemma indented_val : indented print_val.
Proof. intros v k. rewrite chars_val. by eexists. Qed.
Lemma indented_ColDef : indented print_ColDef.
Proof. intros x k. apply indented_head. Qed.
Lemma indented_Col : indented print_Col.
Proof. intros x k. apply indented_head. Qed.
Lemma indented_Value : indented print_Value.
Proof. intros [] k; apply indented_head. Qed.
Lemma indented_SetClause : indented print_SetClause.
Proof. intros x k. apply indented_head. Qed.
Lemma indented_BinaryExpr : indented print_BinaryExpr.
Proof. intros x k. apply indented_head. Qed.

(** The end of the listing, or the next list. *)
Lemma stops_at_end k : stops k (chars EmptyString).
Proof. by left. Qed.

Lemma stops_next_list {A} (enc : A → nat → string) l o s : stops (o + 2) (chars (print_node_list enc l o +:+ s)).
Proof.
  right. unfold print_node_list, offset2string. rewrite !chars_app, chars_string_of, <- !app_assoc.
  eexists o, "L"%char, _. split; [lia|]. split; [|done]. by apply (f_equal (app _)).
Qed.

Lemma uniq_list_end {A} (P : A → Prop) enc o l l' :
  uniq P enc → indented enc → Forall P l → Forall P l' →
  chars (print_node_list enc l o) ++ [] = chars (print_node_list enc l' o) ++ [] → l = l'.
Proof.
  intros Hu Hi Hl Hl' E. apply (uniq_list P enc o l l' EmptyString EmptyString Hu Hi Hl Hl'); [apply stops_at_end..|].
  rewrite !chars_app. exact E.
Qed.

(** ** Trees *)

Definition title (t : TreeNode) : string :=
  match t with
  | Help => "HELP" | ShowTables => "SHOW_TABLES" | TxnBegin => "BEGIN" | TxnCommit => "COMMIT" | TxnAbort => "ABORT"
  | TxnRollback => "ROLLBACK" | CreateTable _ _ => "CREATE_TABLE" | DropTable _ => "DROP_TABLE" | DescTable _ => "DESC_TABLE"
  | CreateIndex _ _ => "CREATE_INDEX" | DropIndex _ _ => "DROP_INDEX" | InsertStmt _ _ => "INSERT" | DeleteStmt _ _ => "DELETE"
  | UpdateStmt _ _ _ => "UPDATE" | SelectStmt _ _ _ => "SELECT" | OtherNode => EmptyString
  end.

Definition body (t : TreeNode) : string :=
  match t with
  | CreateTable t l => print_val t 2 +:+ print_node_list print_ColDef l 2
  | DropTable t | DescTable t => print_val t 2
  | CreateIndex t c | DropIndex t c => print_val t 2 +:+ print_val c 2
  | InsertStmt t l => print_val t 2 +:+ print_node_list print_Value l 2
  | DeleteStmt t w => print_val t 2 +:+ print_node_list print_BinaryExpr w 2
  | UpdateStmt t l w => print_val t 2 +:+ print_node_list print_SetClause l 2 +:+ print_node_list print_BinaryExpr w 2
  | SelectStmt c t w => print_node_list print_Col c 2 +:+ print_node_list print_val t 2 +:+ print_node_list print_BinaryExpr w 2
  | _ => EmptyString
  end.

Lemma print_parts t s : print t = Some s → t ≠ OtherNode ∧ chars s = chars (print_val (title t) 0) ++ chars (body t).
Proof.
  assert (Hnil : ∀ l : list ascii, l = l ++ chars EmptyString) by (intros; unfold chars; simpl; by rewrite app_nil_r).
  destruct t; simpl; intros [= <-]; split; try done; apply Hnil || apply chars_app.
Qed.

(** The names and strings of a tree are lines, its floats lie in [F]. *)
Definition listable (t : TreeNode) : Prop :=
  match t with
  | CreateTable t l => one_line t ∧ Forall field_ok l
  | DropTable t | DescTable t => one_line t
  | CreateIndex t c | DropIndex t c => one_line t ∧ one_line c
  | InsertStmt t l => one_line t ∧ Forall value_ok l
  | DeleteStmt t w => one_line t ∧ Forall cond_ok w
  | UpdateStmt t l w => one_line t ∧ Forall set_ok l ∧ Forall cond_ok w
  | SelectStmt c t w => Forall col_ok c ∧ Forall one_line t ∧ Forall cond_ok w
  | _ => True
  end.

Lemma uniq_where w w' : Forall cond_ok w → Forall cond_ok w' →
  chars (print_node_list print_BinaryExpr w 2) ++ [] = chars (print_node_list print_BinaryExpr w' 2) ++ [] → w = w'.
Proof using HF. intros H H'. apply (uniq_list_end cond_ok); [apply uniq_BinaryExpr|apply indented_BinaryExpr|done..]. Qed.

Lemma stops_conds (w : list BinaryExpr) : stops (2 + 2) (chars (print_node_list print_BinaryExpr w 2)).
Proof.
  pose proof (stops_next_list print_BinaryExpr w 2 EmptyString) as H. rewrite chars_app in H. unfold chars at 2 in H. simpl in H.
  by rewrite app_nil_r in H.
Qed.

Lemma body_inj t t' :
  title t = title t' → listable t → listable t' → t ≠ OtherNode → chars (body t) ++ [] = chars (body t') ++ [] → t = t'.
Proof using HF.
  intros Ht H H' Hne E. destruct t, t'; try done; cbn [body listable] in *; clear Ht Hne.
  - destruct H as [H1 H2], H' as [H1' H2']. apply peel in E as [-> E]; [|done..].
    by apply (uniq_list_end field_ok) in E as ->; [|apply uniq_ColDef|apply indented_ColDef|..].
  - by apply uniq_val in E as [-> _].
  - by apply uniq_val in E as [-> _].
  - destruct H, H'. apply peel in E as [-> E]; [|done..]. by apply uniq_val in E as [-> _].
  - destruct H, H'. apply peel in E as [-> E]; [|done..]. by apply uniq_val in E as [-> _].
  - destruct H, H'. apply peel in E as [-> E]; [|done..].
    by apply (uniq_list_end value_ok) in E as ->; [|apply uniq_Value|apply indented_Value|..].
  - destruct H, H'. apply peel in E as [-> E]; [|done..]. by apply uniq_where in E as ->.
  - destruct H as (? & ? & ?), H' as (? & ? & ?). apply peel in E as [-> E]; [|done..]. rewrite !app_nil_r in E.
    apply (uniq_list set_ok) in E as [-> E]; [|apply uniq_SetClause|apply indented_SetClause|done|done|apply stops_conds..].
    apply (f_equal (.++ [])), uniq_where in E as ->; done.
  - destruct H as (? & ? & ?), H' as (? & ? & ?). rewrite !app_nil_r in E.
    apply (uniq_list col_ok) in E as [-> E]; [|apply uniq_Col|apply indented_Col|done|done|apply stops_next_list..].
    apply (uniq_list one_line) in E as [-> E]; [|apply uniq_val|apply indented_val|done|done|apply stops_conds..].
    apply (f_equal (.++ [])), uniq_where in E as ->; done.
Qed.

(** The listing [TreePrinter::print] writes determines the tree, for trees whose
    names and strings hold no line end and whose [float] literals no two print
    alike. *)
Theorem listing_determines_tree t t' s :
  listable t → listable t' → print t = Some s → print t' = Some s → t = t'.
Proof using HF.
  intros H H' [Hne E]%print_parts [_ E']%print_parts. rewrite E in E'.
  assert (Hl : ∀ u, one_line (title u)) by (intros []; by apply one_line_check).
  apply uniq_val in E' as [Et Eb]; [|apply Hl..]. apply body_inj; try done. by rewrite !app_nil_r.
Qed.

End Listing.

(** A run, and what the listing cannot tell: two [float]s that agree in six digits. *)
Lemma print_run :
  print (SelectStmt [MkCol "a" "x"] ["a"] [MkBinaryExpr (MkCol "a" "x") SV_OP_LE (EValue (IntLit 5))])
  = Some (foldr (λ l s, l +:+ newline +:+ s) EmptyString
      ["SELECT"; "  LIST"; "    COL"; "      a"; "      x"; "  LIST"; "    a"; "  LIST"; "    BINARY_EXPR"; "      COL"; "        a";
       "        x"; "      <="; "      INT_LIT"; "        5"])%string.
Proof. by vm_compute. Qed.

Lemma floats_print_alike :
  print (InsertStmt "t" [FloatLit 1065353216]) = print (InsertStmt "t" [FloatLit 1065353217]).
Proof. by vm_compute. Qed.
