(* ===== verification/Server.v ===== *)
(** The server's side of a connection: [client_handler] of [rucbase.cpp].

    What [read] delivers is the input; whether a [write] succeeds comes with it.
    The text goes through [yyparse]; the global [ast::parse_tree] and the scanner's
    start condition outlive the request.  What goes to the server's own console is
    left out.  The requests of one client are handled one after the other; other
    clients' threads run in between, which is not modelled. *)
From Stdlib Require Import Ascii String.
From S2P Require Import Prelude Config Posix Disk Replacer BufferPool Record Printer Meta Catalog Query Txn Ast Interp Regex Lexer LexText Parser ParserSpec ParserText.

Definition NUL : ascii := "000"%char.

(** [read(fd, data_recv, BUFFER_LENGTH)]. *)
Inductive received : Set := RClosed | RError | RData (d : list ascii).

(** [data_recv], zeroed before the read, as a C string; [None] when it has no end. *)
Fixpoint c_string (buf : list ascii) : option (list ascii) :=
  match buf with
  | [] => None
  | c :: buf' => if decide (c = NUL) then Some [] else (c ::.) <$> c_string buf'
  end.

Definition recv_text (d : list ascii) : option (list ascii) :=
  c_string (take (Z.to_nat BUFFER_LENGTH) (d ++ replicate (Z.to_nat BUFFER_LENGTH) NUL)).

(** [memset(data_send, 0, BUFFER_LENGTH); offset = 0]. *)
Definition fresh_reply : Reply := MkReply (Some (replicate (Z.to_nat BUFFER_LENGTH) NUL)) 0.

Section Server.
Context {OS R : Type} {PX : Posix OS} {RP : Replacer R}.
Context (this_thread : Z).
Abbreviation Session := (Session (OS := OS) (R := R)).

Record Server : Type := MkServer { sv_session : Session; parse_tree : option ast.TreeNode; sv_start : start }.

Definition on_session {A} (m : M Session A) : M Server A :=
  zoom sv_session (λ s sv, MkServer s (parse_tree sv) (sv_start sv)) m.

Definition with_reply (r : Reply) (s : Session) : Session := MkSession (ss_sm s) (ss_txn_mgr s) r (ss_txn_id s).

(** [memcpy(data_send, str, len); data_send[len] = '\0']: at the start of the
    reply, and the offset stays as it is. *)
Definition put_message (str : list ascii) : M Reply unit := λ r,
  match data_send_ r with
  | None => (Crash NullDeref, r)
  | Some buf =>
      if (length str <? length buf)%nat then (Ok tt, MkReply (Some (splice 0 (str ++ [NUL]) buf)) (offset_ r))
      else (Crash OutOfBounds, r)
  end.

(** The two [catch] clauses. [Abort] does nothing, whatever [context->txn_] is. *)
Definition report (e : exn) : M Server unit :=
  match e with
  | TransactionAbortException txn_id reason =>
      on_session (on_reply (put_message (chars (GetInfo txn_id reason)))) ;;
      on_session (on_txn (Abort_txn None))
  | RedBase _ => ret tt
  | StdOutOfRange => throw StdOutOfRange
  | StdLengthError => throw StdLengthError
  end.

(** What [write(fd, data_send, offset + 1)] sends. *)
Definition sent (r : Reply) : M Server (list ascii) :=
  match data_send_ r with
  | None => crash_with NullDeref
  | Some buf =>
      if (0 <=? offset_ r + 1) && (offset_ r + 1 <=? Z.of_nat (length buf))
      then ret (take (Z.to_nat (offset_ r + 1)) buf) else crash_with OutOfBounds
  end.

(** [yyparse] and the interpretation of the tree it leaves. *)
Definition run_text (text : list ascii) : M Server unit :=
  sv ← get_st;
  match yyparse (sv_start sv) text (parse_tree sv) with
  | None => crash_with OutOfFuel
  | Some r =>
      modify (λ sv, MkServer (sv_session sv) (tree_after r) (start_after r)) ;;
      if accepted r then
        match tree_after r with
        | Some root => st_catch (on_session (interp_sql this_thread root)) report
        | None => ret tt
        end
      else ret tt
  end.

(** One round of the loop; [None] ends the connection. *)
Definition serve (r : received) : M Server (option (list ascii)) :=
  match r with
  | RClosed | RError => ret None
  | RData d =>
      match recv_text d with
      | None => crash_with OutOfBounds
      | Some text =>
          if decide (text = chars "exit") then ret None
          else
            on_session (modify (with_reply fresh_reply)) ;;
            run_text text ;;
            sv ← get_st;
            bs ← sent (ss_reply (sv_session sv));
            ret (Some bs)
      end
  end.

(** The requests with the results of the writes; a failed write ends the
    connection too. *)
Fixpoint client_handler (requests : list (received * bool)) : M Server (list (list ascii)) :=
  match requests with
  | [] => ret []
  | (r, written) :: rest =>
      o ← serve r;
      match o with
      | None => ret []
      | Some bs => if written : bool then outs ← client_handler rest; ret (bs :: outs) else ret []
      end
  end.

(** ** Replies *)

(** What a reply buffer holds below its offset. *)
Definition printed (r : Reply) (txt : list ascii) : Prop :=
  ∃ rest, data_send_ r = Some (txt ++ NUL :: rest) ∧ offset_ r = Z.of_nat (length txt).

Lemma sent_printed r txt (sv : Server) : printed r txt → sent r sv = (Ok (txt ++ [NUL]), sv).
Proof.
  intros (rest & Hb & Ho). unfold sent. rewrite Hb, Ho, length_app. simpl.
  rewrite (proj2 (Z.leb_le _ _)), (proj2 (Z.leb_le _ _)) by lia. simpl.
  replace (Z.to_nat (Z.of_nat (length txt) + 1)) with (length txt + 1)%nat by lia.
  by rewrite take_app_add, firstn_cons.
Qed.

Lemma printed_send_zeros n txt :
  (length txt < n)%nat → Z.of_nat n ≤ int_max →
  ∃ r, send_chars txt (MkReply (Some (replicate n NUL)) 0) = (Ok tt, r) ∧ printed r txt.
Proof.
  intros Hl Hn. rewrite send_chars_ok by (rewrite ?length_replicate; lia). eexists. split; [done|].
  exists (replicate (n - length txt - 1) NUL). split; [|done]. simpl. f_equal.
  unfold splice. simpl. f_equal. rewrite drop_replicate.
  destruct (n - length txt)%nat as [|k] eqn:E; [lia|]. simpl. by rewrite Nat.sub_0_r.
Qed.

Lemma printed_send txt :
  (length txt < Z.to_nat BUFFER_LENGTH)%nat → ∃ r, send_chars txt fresh_reply = (Ok tt, r) ∧ printed r txt.
Proof. intros Hl. by apply printed_send_zeros. Qed.

Lemma printed_nothing : printed fresh_reply [].
Proof.
  exists (replicate (Z.to_nat BUFFER_LENGTH - 1) NUL). split; [|done]. unfold fresh_reply. cbn [data_send_].
  by vm_compute.
Qed.

Lemma reply_room (txt : list ascii) : (length txt < Z.to_nat BUFFER_LENGTH)%nat → room (length txt) fresh_reply ∧ reply_ok fresh_reply.
Proof.
  intros Hl. unfold room, reply_ok, fresh_reply. cbn [data_send_ offset_]. rewrite length_replicate.
  change BUFFER_LENGTH with 8192 in *. unfold int_max. lia.
Qed.

(** The text of a statement is a request for it. *)
Lemma recv_short d : (length d < Z.to_nat BUFFER_LENGTH)%nat → NUL ∉ d → recv_text d = Some d.
Proof.
  intros Hl Hn. unfold recv_text. rewrite take_app_ge by lia.
  destruct (Z.to_nat BUFFER_LENGTH - length d)%nat as [|k] eqn:Ek; [lia|].
  destruct (Z.to_nat BUFFER_LENGTH) as [|m]; [lia|]. simpl take. clear -Hn.
  induction d as [|c d IH]; simpl; [done|]. apply not_elem_of_cons in Hn as [Hc Hn].
  by rewrite decide_False, IH by congruence.
Qed.

(** Once the scanner is inside a comment, a request that does not end it is
    answered with nothing and has no effect, whoever sends it. *)
Lemma open_comment_mutes sv d :
  sv_start sv = STATE_COMMENT → (length d < Z.to_nat BUFFER_LENGTH)%nat → NUL ∉ d → d ≠ chars "exit" → has_close d = false →
  serve (RData d) sv = (Ok (Some [NUL]), MkServer (with_reply fresh_reply (sv_session sv)) None STATE_COMMENT).
Proof.
  intros Hs Hl Hn Hx Hc. unfold serve. rewrite recv_short, decide_False by done.
  assert (H0 : on_session (modify (with_reply fresh_reply)) sv
    = (Ok tt, MkServer (with_reply fresh_reply (sv_session sv)) (parse_tree sv) (sv_start sv))) by done.
  mstep H0. set (sv1 := MkServer (with_reply fresh_reply (sv_session sv)) None STATE_COMMENT).
  assert (H1 : run_text d (MkServer (with_reply fresh_reply (sv_session sv)) (parse_tree sv) (sv_start sv)) = (Ok tt, sv1)).
  { unfold run_text. rewrite st_get_bind. cbn [parse_tree sv_start]. rewrite Hs.
    destruct (comment_swallows d loc0 Hc) as [l Hl']. unfold yyparse. by rewrite Hl'. }
  mstep H1. rewrite st_get_bind. by mstep (sent_printed fresh_reply [] sv1 printed_nothing).
Qed.

(** The help text goes to a cleared buffer whole. *)
Lemma send_help_printed : ∃ r, send_help fresh_reply = (Ok tt, r) ∧ printed r (chars help_info).
Proof.
  destruct (printed_send (chars help_info)) as (r & Hr & rest & Hb & Ho); [by apply Nat.ltb_lt; vm_compute|].
  exists (MkReply (data_send_ r) (Z.of_nat (String.length help_info))). split.
  - unfold send_help, send. by mstep Hr.
  - exists rest. split; [done|]. by vm_compute.
Qed.

(** A request up to the reply: the reply buffer is cleared and the text is run. *)
Lemma serve_data d text sv r1 sv1 :
  recv_text d = Some text → text ≠ chars "exit" →
  run_text text (MkServer (with_reply fresh_reply (sv_session sv)) (parse_tree sv) (sv_start sv)) = (r1, sv1) →
  ∀ txt, r1 = Ok tt → printed (ss_reply (sv_session sv1)) txt → serve (RData d) sv = (Ok (Some (txt ++ [NUL])), sv1).
Proof.
  intros Ht Hx H1 txt -> Hp. unfold serve. rewrite Ht, decide_False by done.
  assert (H0 : on_session (modify (with_reply fresh_reply)) sv
    = (Ok tt, MkServer (with_reply fresh_reply (sv_session sv)) (parse_tree sv) (sv_start sv))) by done.
  mstep H0. mstep H1. rewrite st_get_bind. by mstep (sent_printed _ txt sv1 Hp).
Qed.

(** [C39] Requests that run no statement, in every state of the server.  A closed
    connection, a failed read and the text [exit] end the connection and change
    nothing.  Any other text is parsed in the scanner's start condition; when it is
    refused, or is empty to the parser, the client is sent an empty reply, one zero
    byte, and the database and its session are as before; when it is [help], the
    client is sent the help text, whole and with its terminating zero, whatever
    was in the reply buffer before. *)
Theorem plain_requests_answered (sv : Server) (d text : list ascii) :
  serve RClosed sv = (Ok None, sv) ∧ serve RError sv = (Ok None, sv) ∧
  (recv_text d = Some text →
     (text = chars "exit" → serve (RData d) sv = (Ok None, sv)) ∧
     (text ≠ chars "exit" →
        ∃ res, yyparse (sv_start sv) text (parse_tree sv) = Some res ∧
          (accepted res = false ∨ tree_after res = None →
             serve (RData d) sv
             = (Ok (Some [NUL]), MkServer (with_reply fresh_reply (sv_session sv)) (tree_after res) (start_after res))) ∧
          (accepted res = true → tree_after res = Some ast.Help →
             ∃ r, serve (RData d) sv
               = (Ok (Some (chars help_info ++ [NUL])), MkServer (with_reply r (sv_session sv)) (Some ast.Help) (start_after res))))).
Proof.
  split; [done|]. split; [done|]. intros Ht. split; [intros ->; unfold serve; by rewrite Ht|]. intros Hx.
  destruct (yyparse_total (sv_start sv) text (parse_tree sv)) as [res Hp]. exists res. split; [done|].
  split.
  - intros Hno. apply (serve_data d text sv (Ok tt) _ Ht Hx) with (txt := []); [|done|exact printed_nothing].
    unfold run_text. rewrite st_get_bind. cbn [sv_start parse_tree]. rewrite Hp. unfold st_bind, modify. simpl.
    destruct (accepted res); [|done]. by destruct Hno as [| ->].
  - intros Ha Hh. destruct send_help_printed as (r & Hr & Hpr). exists r.
    apply (serve_data d text sv (Ok tt) _ Ht Hx) with (txt := chars help_info); [|done|exact Hpr].
    unfold run_text. rewrite st_get_bind. cbn [sv_start parse_tree]. rewrite Hp, Ha, Hh.
    unfold st_bind, modify, st_catch, on_session, zoom. cbn [sv_session interp_sql]. unfold on_reply, zoom.
    change (ss_reply (with_reply fresh_reply (sv_session sv))) with fresh_reply. by rewrite Hr.
Qed.

End Server.

(** ** On concrete requests *)

Module ServerRuns.
Import InterpRuns.
#[local] Existing Instance MemFS.mem_posix.

Definition server1 : Server (OS := fs_view) (R := LRUReplacer) :=
  MkServer (MkSession CatalogRuns.sm1 mgr0 fresh_reply 0) None INITIAL.

Lemma plain_requests_answered_witness :
  ∃ r sv', serve 7 (RData (chars "HELP;")) server1 = (Ok (Some (chars help_info ++ [NUL])), MkServer (with_reply r sv') (Some ast.Help) INITIAL).
Proof.
  destruct (plain_requests_answered 7 server1 (chars "HELP;") (chars "HELP;")) as (_ & _ & H).
  destruct (H eq_refl) as [_ H']. destruct (H' ltac:(done)) as (res & Hp & _ & Hh). vm_compute in Hp. injection Hp as <-.
  destruct (Hh eq_refl eq_refl) as [r Hr]. exists r. eexists. exact Hr.
Defined.

(** The second creation of a table is answered as the first is: with nothing. *)
Lemma duplicate_table_silent :
  let d := RData (chars "create table student (id int, name char(32));") in
  (client_handler 7 [(d, true); (d, true); (RData (chars "exit"), true)]
     (MkServer (MkSession CatalogRuns.sm0 mgr0 fresh_reply 0) None INITIAL : Server (OS := fs_view) (R := LRUReplacer))).1
  = Ok [[NUL]; [NUL]].
Proof. by vm_compute. Qed.

(** The message of an aborted transaction is put at the start of the reply, but
    the offset says how much is sent: one byte of it. *)
Lemma abort_message_truncated :
  (report (TransactionAbortException 3 DEADLOCK_PREVENTION) ;;
   sv ← get_st; sent (ss_reply (sv_session sv))) server1 =
  (Ok ["T"%char], (report (TransactionAbortException 3 DEADLOCK_PREVENTION) server1).2).
Proof. by vm_compute. Qed.

(** The first statement of a new client finds no transaction. *)
Lemma first_statement_crashes :
  (serve 7 (RData (chars "show tables;"))
     (MkServer session_new None INITIAL : Server (OS := fs_view) (R := LRUReplacer))).1 = Crash NullDeref.
Proof. by vm_compute. Qed.

End ServerRuns.
