(* ===== verification/Listener.v ===== *)
(** The listening thread: [sigint_handler], [start_server] and [main] of
    [rucbase.cpp].

    What the system calls answer, and when a client thread gets to run, is the
    input: a list of events.  A client thread is handed the address of the local
    variable [sockfd], which the next [accept] overwrites; the model keeps the
    variable apart from the copies the threads take of it.  What is written to
    the console is left out. *)
From Stdlib Require Import Ascii String.
From S2P Require Import Prelude Config Posix Disk Replacer BufferPool Record Printer Meta Catalog Log.

(** ** The loop *)

Inductive event : Set :=
  | Accept (fd : Z)                (* [accept] returns; -1 is an error *)
  | Create (done : bool)           (* [pthread_create] returns, 0 or an error *)
  | Start (i : nat)                (* thread [i] runs [int fd = *sock_fd] *)
  | Finish (i : nat)               (* thread [i] closes its descriptor and exits *)
  | Interrupt (here : bool).       (* Ctrl-C, delivered to the listening thread or to another *)

(** [Crashed]: the process is gone, or what it does is undefined. *)
Inductive phase : Set := Waiting | Creating | Left | Crashed.

(** A client thread: which answer of [accept] it was created for, and the
    descriptor it has read. *)
Record thread : Set := MkThread { origin : nat; served : option Z; over : bool }.

Record Listener : Type := MkListener {
  ph : phase;
  sockfd : option Z;               (* unset before the first [accept] *)
  should_exit : bool;
  answers : list Z;                (* what [accept] has answered so far *)
  threads : list thread
}.

Definition new_Listener : Listener := MkListener Waiting None false [] [].

Definition with_phase (p : phase) (l : Listener) : Listener := MkListener p (sockfd l) (should_exit l) (answers l) (threads l).
Definition with_threads (ts : list thread) (l : Listener) : Listener := MkListener (ph l) (sockfd l) (should_exit l) (answers l) ts.

(** [sigint_handler] while the loop runs: with the log on [StopFlushThread] joins a
    thread that was never made; else [longjmp] goes to the [break] when the
    handler runs in the listening thread, which called [setjmp], and into the stack
    of another thread when the signal was delivered to a client's. *)
Definition sigint_handler (lm : LogManager) (here : bool) (l : Listener) : Listener :=
  let landing := if here then Left else Crashed in
  let p := if GetLogMode lm then match StopFlushThread lm with (Crash _, _) => Crashed | _ => landing end else landing in
  MkListener p (sockfd l) true (answers l) (threads l).

(** One event of a process that runs; [None] when it cannot happen. *)
Definition live_step (lm : LogManager) (l : Listener) (e : event) : option Listener :=
  match e, ph l with
  | Accept fd, Waiting =>
      let l' := MkListener Waiting (Some fd) (should_exit l) (answers l ++ [fd]) (threads l) in
      Some (if fd =? -1 then l' else with_phase Creating l')
  | Create true, Creating =>
      Some (with_phase Waiting (with_threads (threads l ++ [MkThread (length (answers l) - 1) None false]) l))
  | Create false, Creating => Some (with_phase Left l)
  | Interrupt here, (Waiting | Creating) => Some (sigint_handler lm here l)
  | Start i, _ =>
      match threads l !! i with
      | Some (MkThread o None b) => Some (with_threads (<[i := MkThread o (sockfd l) b]> (threads l)) l)
      | _ => None
      end
  | Finish i, _ =>
      match threads l !! i with
      | Some (MkThread o (Some fd) false) => Some (with_threads (<[i := MkThread o (Some fd) true]> (threads l)) l)
      | _ => None
      end
  | _, _ => None
  end.

Definition listen_step (lm : LogManager) (l : Listener) (e : event) : option Listener :=
  match ph l with Crashed => None | _ => live_step lm l e end.

Fixpoint listen_run (lm : LogManager) (l : Listener) (es : list event) : option Listener :=
  match es with
  | [] => Some l
  | e :: es' => match listen_step lm l e with Some l' => listen_run lm l' es' | None => None end
  end.

(** ** start_server and main *)

(** How the process ends, or the listener when it serves; [NoRun] when the events
    cannot happen in this order. *)
Inductive server_end : Type := Exit (code : Z) | Served (l : Listener) | NoRun.

Section Main.
Context {OS R : Type} {PX : Posix OS} {RP : Replacer R}.

Record Process : Type := MkProcess { pr_sm : SmManager OS R; pr_log : LogManager; pr_recovery : LogRecovery }.

Definition on_pr_sm {A} (m : M (SmManager OS R) A) : M Process A := zoom pr_sm (λ s p, MkProcess s (pr_log p) (pr_recovery p)) m.
Definition on_pr_log {A} (m : M LogManager A) : M Process A := zoom pr_log (λ l p, MkProcess (pr_sm p) l (pr_recovery p)) m.
Definition on_pr_recovery {A} (m : M LogRecovery A) : M Process A := zoom pr_recovery (λ r p, MkProcess (pr_sm p) (pr_log p) r) m.

(** [socket], [bind] and [listen] with their answers, then the loop. *)
Definition start_server (socket bind listen : Z) (es : list event) : M Process server_end :=
  assert_ (negb (socket =? -1)) ;;
  if bind =? -1 then ret (Exit 1)
  else if listen =? -1 then ret (Exit 1)
  else
    p ← get_st;
    (if GetRecoveryMode (pr_recovery p) then on_pr_recovery Redo ;; on_pr_recovery Undo else ret tt) ;;
    (if GetLogMode (pr_log p) then on_pr_log RunFlushThread else ret tt) ;;
    match listen_run (pr_log p) new_Listener es with
    | None => ret NoRun
    | Some l =>
        match ph l with
        | Left => on_pr_sm close_db ;; ret (Served l)
        | Crashed => crash_with Uninitialised
        | _ => ret (Served l)
        end
    end.

(** [main]: [args] are the arguments after the program's name. *)
Definition main (chdir : string → OS → Z * OS) (ifstream : OS → string → istream) (args : list string)
    (socket bind listen : Z) (es : list event) : M Process server_end :=
  match args with
  | [db_name] =>
      st_catch
        (b ← on_pr_sm (sm_is_dir db_name);
         (if negb b then on_pr_sm (create_db db_name) else ret tt) ;;
         on_pr_sm (open_db chdir ifstream db_name) ;;
         start_server socket bind listen es)
        (λ e, match e with RedBase _ => ret (Exit 1) | _ => throw e end)
  | _ => ret (Exit 1)
  end.
End Main.

(** ** What a thread serves *)

(** A thread that has read a descriptor has one that [accept] answered when the
    thread was created or later. *)
Definition reads_later (l : Listener) : Prop :=
  ∀ i t fd, threads l !! i = Some t → served t = Some fd → ∃ j, (origin t ≤ j)%nat ∧ answers l !! j = Some fd.

(** Each thread was created for a connection of its own, in order. *)
Definition own_connection (l : Listener) : Prop :=
  StronglySorted lt (origin <$> threads l) ∧
  Forall (λ t, ∃ fd, answers l !! origin t = Some fd ∧ fd ≠ -1) (threads l).

(** While a connection waits for its thread, it is the last answer; [sockfd] is
    always the last answer. *)
Record listen_inv (l : Listener) : Prop := {
  li_sock : sockfd l = last (answers l);
  li_new : ph l = Creating → ∃ fd, last (answers l) = Some fd ∧ fd ≠ -1 ∧
             Forall (λ t, (origin t < length (answers l) - 1)%nat) (threads l);
  li_below : Forall (λ t, (origin t < length (answers l))%nat) (threads l);
  li_reads : reads_later l;
  li_own : own_connection l
}.

Lemma listen_inv_new : listen_inv new_Listener.
Proof. split; try done; try constructor. all: constructor. Qed.

(** A thread moves on. *)
Lemma own_update l i o v b v' b' :
  threads l !! i = Some (MkThread o v b) → own_connection l → own_connection (with_threads (<[i := MkThread o v' b']> (threads l)) l).
Proof.
  intros Hi [Hs Hf]. split; simpl.
  - rewrite list_fmap_insert, list_insert_id; [done|]. by rewrite list_lookup_fmap, Hi.
  - apply Forall_insert; [done|]. by apply (Forall_lookup_1 _ _ _ _ Hf Hi).
Qed.

Lemma threads_update (P : nat → Prop) l i o v b v' b' :
  threads l !! i = Some (MkThread o v b) → Forall (λ t, P (origin t)) (threads l) →
  Forall (λ t, P (origin t)) (<[i := MkThread o v' b']> (threads l)).
Proof. intros Hi Hf. apply Forall_insert; [done|]. by apply (Forall_lookup_1 _ _ _ _ Hf Hi). Qed.

Lemma last_index {A} (l : list A) x : last l = Some x → l !! (length l - 1)%nat = Some x ∧ (0 < length l)%nat.
Proof. rewrite last_lookup. intros H. rewrite <- (Nat.sub_1_r (length l)) in H. split; [done|]. destruct l; [done|simpl; lia]. Qed.

(** The thread at [i] reads or ends: the rest of the invariant. *)
Lemma listen_inv_update l i o v b v' b' :
  listen_inv l → threads l !! i = Some (MkThread o v b) →
  (∀ fd, v' = Some fd → ∃ j, (o ≤ j)%nat ∧ answers l !! j = Some fd) →
  listen_inv (with_threads (<[i := MkThread o v' b']> (threads l)) l).
Proof.
  intros [I1 I2 I3 I4 I5] Hi Hv. split; simpl; try done.
  - intros Hp. destruct (I2 Hp) as (fd & H1 & H2 & H3). exists fd. split_and!; try done.
    by apply (threads_update (λ o, (o < length (answers l) - 1)%nat) l i o v b).
  - by apply (threads_update (λ o, (o < length (answers l))%nat) l i o v b).
  - intros k t fd Hk Hfd. simpl in *. apply list_lookup_insert_Some in Hk as [(-> & <- & _)|[_ Hk]]; [by apply Hv|].
    by apply (I4 k t).
  - by apply (own_update l i o v b).
Qed.

Lemma listen_step_live lm l e l' : listen_step lm l e = Some l' → live_step lm l e = Some l'.
Proof. unfold listen_step. by destruct (ph l). Qed.

Lemma listen_inv_step lm l e l' : listen_inv l → listen_step lm l e = Some l' → listen_inv l'.
Proof.
  intros I H%listen_step_live. revert H. pose proof I as [I1 I2 I3 I4 I5]. destruct e as [fd|d|i|i|here]; simpl.
  - destruct (ph l) eqn:Hp; try done. intros [= <-].
    assert (Hi : listen_inv (MkListener Waiting (Some fd) (should_exit l) (answers l ++ [fd]) (threads l))).
    { split; simpl; try done.
      - by rewrite last_snoc.
      - apply (Forall_impl _ _ _ I3). intros t Ht. rewrite length_app. simpl. lia.
      - intros i t fd' Hi Hfd. destruct (I4 i t fd' Hi Hfd) as (j & Hj & Hl). exists j. split; [done|]. by apply lookup_app_l_Some.
      - destruct I5 as [Hs Hf]. split; [done|]. apply (Forall_impl _ _ _ Hf). intros t (fd' & Hl & Hne). exists fd'.
        split; [by apply lookup_app_l_Some|done]. }
    destruct (Z.eqb_spec fd (-1)) as [|Hne]; [done|]. destruct Hi as [J1 J2 J3 J4 J5]. split; simpl; try done.
    intros _. exists fd. split_and!; [by rewrite last_snoc|done|]. apply (Forall_impl _ _ _ I3). intros t Ht. rewrite length_app. simpl. lia.
  - destruct d, (ph l) eqn:Hp; try done; intros [= <-].
    + destruct (I2 eq_refl) as (fd & Hl & Hne & Hlt). apply last_index in Hl as [Hl Hpos]. split; simpl; try done.
      * apply Forall_app. split; [done|]. constructor; [simpl; lia|constructor].
      * intros i t fd' Hi Hfd. simpl in *. apply lookup_app_Some in Hi as [Hi|[_ Hi]]; [by apply (I4 i t)|].
        by apply list_lookup_singleton_Some in Hi as [_ <-].
      * destruct I5 as [Hs Hf]. split; simpl.
        -- rewrite fmap_app. apply StronglySorted_app. split_and!; [|done|by repeat constructor].
           intros a b' Ha Hb. simpl in Hb. apply list_elem_of_singleton in Hb as ->. simpl.
           apply list_elem_of_fmap in Ha as (t & -> & Ht). rewrite Forall_forall in Hlt. by apply Hlt.
        -- apply Forall_app. split; [done|]. constructor; [|constructor]. by exists fd.
    + by split.
  - destruct (threads l !! i) as [[o [fd|] b]|] eqn:Hi; try done. intros [= <-]. apply (listen_inv_update l i o None b); try done.
    intros fd Hfd. rewrite I1 in Hfd. apply last_index in Hfd as [Hfd Hpos]. exists (length (answers l) - 1)%nat. split; [|done].
    pose proof (Forall_lookup_1 _ _ _ _ I3 Hi) as Ho. simpl in Ho. lia.
  - destruct (threads l !! i) as [[o [fd|] []]|] eqn:Hi; try done. intros [= <-]. apply (listen_inv_update l i o (Some fd) false); try done.
    intros fd' [= <-]. by apply (I4 i _ fd Hi).
  - destruct (ph l); try done; intros [= <-]; by (split; try done; simpl; destruct (GetLogMode lm), here).
Qed.

Lemma listen_inv_run lm l es l' : listen_inv l → listen_run lm l es = Some l' → listen_inv l'.
Proof.
  revert l. induction es as [|e es IH]; intros l I; simpl; [by intros [= <-]|].
  destruct (listen_step lm l e) as [l1|] eqn:E; [|done]. apply IH. by apply (listen_inv_step lm l e).
Qed.

(** A run in which every thread reads its descriptor before the next [accept]
    answers. *)
Fixpoint prompt (lm : LogManager) (l : Listener) (es : list event) : Prop :=
  match es with
  | [] => True
  | e :: es' =>
      match e with Accept _ => Forall (λ t, is_Some (served t)) (threads l) | _ => True end ∧
      match listen_step lm l e with Some l' => prompt lm l' es' | None => True end
  end.

Definition serves_own (l : Listener) : Prop :=
  Forall (λ t, match served t with
               | Some fd => answers l !! origin t = Some fd
               | None => S (origin t) = length (answers l)
               end) (threads l).

Lemma serves_own_step lm l e l' :
  listen_inv l → serves_own l → (match e with Accept _ => Forall (λ t, is_Some (served t)) (threads l) | _ => True end) →
  listen_step lm l e = Some l' → serves_own l'.
Proof.
  intros I Hs Hp H%listen_step_live. revert H. unfold serves_own in *. destruct e as [fd|d|i|i|here]; simpl.
  - assert (Hgoal : Forall (λ t, match served t with
        | Some fd' => (answers l ++ [fd]) !! origin t = Some fd' | None => S (origin t) = length (answers l ++ [fd]) end) (threads l)).
    { apply Forall_lookup. intros i t Hi. pose proof (Forall_lookup_1 _ _ _ _ Hs Hi) as Ht.
      destruct (Forall_lookup_1 _ _ _ _ Hp Hi) as [fd' E]. simpl in Ht. rewrite E in Ht |- *. by apply lookup_app_l_Some. }
    destruct (ph l); try done. intros [= <-]. by destruct (fd =? -1).
  - destruct d, (ph l) eqn:Hph; try done; intros [= <-]; [|done]. simpl. apply Forall_app. split; [done|]. constructor; [|constructor].
    simpl. destruct (li_new _ I Hph) as (fd & Hl & _). apply last_index in Hl as [_ Hpos]. lia.
  - destruct (threads l !! i) as [[o [fd|] b]|] eqn:Hi; try done. intros [= <-]. simpl. apply Forall_insert; [done|]. simpl.
    pose proof (Forall_lookup_1 _ _ _ _ Hs Hi) as Ho. simpl in Ho. rewrite (li_sock _ I).
    destruct (last (answers l)) as [fd|] eqn:E; [|done]. apply last_index in E as [E _]. by replace o with (length (answers l) - 1)%nat by lia.
  - destruct (threads l !! i) as [[o [fd|] []]|] eqn:Hi; try done. intros [= <-]. simpl. apply Forall_insert; [done|].
    by apply (Forall_lookup_1 _ _ _ _ Hs Hi).
  - destruct (ph l); try done; intros [= <-]; done.
Qed.

Lemma serves_own_run lm l es l' :
  listen_inv l → serves_own l → prompt lm l es → listen_run lm l es = Some l' → serves_own l'.
Proof.
  revert l. induction es as [|e es IH]; intros l I Hs Hp; simpl in *; [by intros [= <-]|]. destruct Hp as [Hp Hrest].
  destruct (listen_step lm l e) as [l1|] eqn:E; [|done]. apply IH; [by apply (listen_inv_step lm l e)|by apply (serves_own_step lm l e)|done].
Qed.

(** [C40] Connections and threads.  However the answers of [accept], the creation and
    the progress of threads and an interrupt are interleaved: each thread is
    created for an accepted connection of its own, in order; the descriptor a
    thread reads is what [accept] answered when the thread was created or what it
    answered later, which may be the error -1 ([error_served]); and if every
    thread reads before the next answer of [accept], each thread serves exactly
    the connection it was created for. *)
Theorem connections_served lm es l :
  listen_run lm new_Listener es = Some l →
  own_connection l ∧ reads_later l ∧
  (prompt lm new_Listener es →
     ∀ i t fd, threads l !! i = Some t → served t = Some fd → answers l !! origin t = Some fd).
Proof.
  intros Hrun. pose proof (listen_inv_run _ _ _ _ listen_inv_new Hrun) as I. split_and!; [apply I|apply I|].
  intros Hp i t fd Hi Hfd. pose proof (serves_own_run _ _ _ _ listen_inv_new ltac:(constructor) Hp Hrun) as Hs.
  pose proof (Forall_lookup_1 _ _ _ _ Hs Hi) as Ht. simpl in Ht. by rewrite Hfd in Ht.
Qed.

Module ListenerRuns.

Definition lm0 : LogManager := new_LogManager 8.
Definition quick : list event := [Accept 5; Create true; Start 0; Accept 6; Create true; Start 1; Finish 0; Interrupt true].
Definition late : list event := [Accept 5; Create true; Accept 6; Create true; Start 0; Start 1].

Lemma connections_served_witness :
  ∃ l, listen_run lm0 new_Listener quick = Some l ∧ should_exit l = true ∧
    (∀ i t fd, threads l !! i = Some t → served t = Some fd → answers l !! origin t = Some fd).
Proof.
  destruct (listen_run lm0 new_Listener quick) as [l|] eqn:E; [|by vm_compute in E]. exists l. split; [done|].
  destruct (connections_served lm0 quick l E) as (_ & _ & H). split; [|apply H].
  - vm_compute in E. by injection E as <-.
  - unfold quick. simpl. repeat (split; [by repeat constructor|]). done.
Defined.

(** When the second connection is accepted before the first thread has read, both
    threads serve the second connection and nobody the first. *)
Lemma connection_lost :
  (λ l, served <$> threads l) <$> listen_run lm0 new_Listener late = Some [Some 6; Some 6].
Proof. by vm_compute. Qed.

(** An error of [accept] reaches a thread that has not read yet. *)
Lemma error_served :
  (λ l, served <$> threads l) <$> listen_run lm0 new_Listener [Accept 5; Create true; Accept (-1); Start 0] = Some [Some (-1)].
Proof. by vm_compute. Qed.

(** With the log switched on, Ctrl-C stops the process in the handler: the loop is
    never left and the database not closed. *)
Lemma interrupt_crashes :
  ph <$> listen_run (SetLogMode true lm0) new_Listener [Accept 5; Create true; Interrupt true] = Some Crashed.
Proof. by vm_compute. Qed.

(** A process-directed signal may be delivered to a client's thread, from which
    [longjmp] leaves for a stack that is not its own. *)
Lemma interrupt_in_client_thread :
  ph <$> listen_run lm0 new_Listener [Accept 5; Create true; Start 0; Interrupt false] = Some Crashed.
Proof. by vm_compute. Qed.

End ListenerRuns.

Section MainRun.
Context {OS R : Type} {PX : Posix OS} {RP : Replacer R}.

(** A database that does not exist is created by a [create_db] with an empty body, and
    [open_db] then throws: the server never serves a new database. *)
Theorem new_database_refused chdir ifstream db_name socket bind listen es (p : Process (OS := OS) (R := R)) s' :
  sm_is_dir db_name (pr_sm p) = (Ok false, s') → sm_is_dir db_name s' = (Ok false, s') →
  main chdir ifstream [db_name] socket bind listen es p = (Ok (Exit 1), MkProcess s' (pr_log p) (pr_recovery p)).
Proof.
  intros H1 H2. set (p' := MkProcess s' (pr_log p) (pr_recovery p)).
  assert (A1 : on_pr_sm (sm_is_dir db_name) p = (Ok false, p')) by (unfold on_pr_sm, zoom; by rewrite H1).
  assert (A2 : on_pr_sm (create_db db_name) p' = (Ok tt, p')) by done.
  assert (A3 : on_pr_sm (open_db chdir ifstream db_name) p' = (Throw (RedBase (DatabaseNotFoundError db_name)), p')).
  { assert (Ho : open_db chdir ifstream db_name s' = (Throw (RedBase (DatabaseNotFoundError db_name)), s')) by (unfold open_db; by mstep H2).
    unfold on_pr_sm, zoom. change (pr_sm p') with s'. by rewrite Ho. }
  unfold main, st_catch. mstep A1. mstep A2. by rewrite (st_bind_throw _ _ _ _ _ A3).
Qed.

(** Recovery, the flush thread and [close_db] are empty: a server that has served and
    left its loop has written neither pages nor log of its own accord. *)
Theorem shutdown_writes_nothing socket bind listen es l (p : Process (OS := OS) (R := R)) :
  socket ≠ -1 → bind ≠ -1 → listen ≠ -1 → listen_run (pr_log p) new_Listener es = Some l → ph l ≠ Crashed →
  start_server socket bind listen es p = (Ok (Served l), p).
Proof.
  intros Hs Hb Hl Hrun Hc. unfold start_server. rewrite (proj2 (Z.eqb_neq socket _)) by done.
  unfold assert_, st_bind at 1. simpl. rewrite (proj2 (Z.eqb_neq bind _)), (proj2 (Z.eqb_neq listen _)) by done.
  rewrite st_get_bind. unfold st_bind, on_pr_recovery, on_pr_log, on_pr_sm, zoom, Redo, Undo, RunFlushThread, close_db, st_ret.
  rewrite Hrun. destruct p as [sm lm rc]. simpl. destruct (GetRecoveryMode rc), (GetLogMode lm); simpl; by destruct (ph l).
Qed.

End MainRun.
