(* ===== verification/ExecSql.v ===== *)
(** The command-line driver: [execution/interp_test.h] and [exec_sql.cpp].

    [InterpForTest] is an interpreter without transactions; [exec_sql] runs one
    statement through it and returns the reply buffer.  The theorem follows texts
    all the way through it: scanner, parser, interpreter, catalogue, record file
    and printer. *)
From Stdlib Require Import Ascii String.
From S2P Require Import Prelude Config Posix Disk Replacer BufferPool Record Printer Meta Catalog Query Txn Ast Interp Regex Lexer LexText Parser ParserText Server.

Section ExecSql.
Context {OS R : Type} {PX : Posix OS} {RP : Replacer R}.
Abbreviation Session := (Session (OS := OS) (R := R)).
Abbreviation Server := (Server (OS := OS) (R := R)).

(** [InterpForTest::interp_sql]; the helpers it calls are the ones of [interp.h],
    word for word. *)
Definition test_interp_sql (root : ast.TreeNode) : M Session unit :=
  match root with
  | ast.Help => on_reply send_help
  | ast.ShowTables => with_catalog (λ db, on_reply (Catalog.show_tables db))
  | ast.DescTable tab => with_catalog (λ db, on_reply (Catalog.desc_table db tab))
  | ast.CreateTable tab fields =>
      let col_defs := interp_field <$> fields in
      on_sm (create_table tab col_defs)
  | ast.DropTable tab => on_sm (drop_table tab)
  | ast.CreateIndex tab col => on_sm (create_index_sm tab col)
  | ast.DropIndex tab col => on_sm (drop_index_sm tab col)
  | ast.InsertStmt tab vals =>
      let values := interp_sv_value <$> vals in
      insert_into tab values
  | ast.DeleteStmt tab conds =>
      let conds := interp_where_clause conds in
      with_catalog (λ db, delete_from db tab conds)
  | ast.UpdateStmt tab set_clauses conds =>
      let conds := interp_where_clause conds in
      let set_clauses := interp_set_clause <$> set_clauses in
      with_catalog (λ db, update_set db tab set_clauses conds)
  | ast.SelectStmt cols tabs conds =>
      let conds := interp_where_clause conds in
      let sel_cols := interp_col <$> cols in
      with_catalog (λ db, on_reply (select_from db sel_cols tabs conds))
  | _ => throw_db (InternalError "Unexpected AST root")
  end.

(** [exec_sql]: parse, clear [result], interpret, return [result].  [assert] is on
    in this file. *)
Definition exec_sql (sql : list ascii) : M Server (list ascii) :=
  sv ← get_st;
  match yyparse (sv_start sv) sql (parse_tree sv) with
  | None => crash_with OutOfFuel
  | Some r =>
      modify (λ sv, MkServer (sv_session sv) (tree_after r) (start_after r)) ;;
      assert_ (accepted r) ;;
      match tree_after r with
      | None => crash_with AssertFail
      | Some root =>
          on_session (modify (with_reply fresh_reply)) ;;
          on_session (test_interp_sql root) ;;
          sv ← get_st;
          match data_send_ (ss_reply (sv_session sv)) with
          | Some result => ret result
          | None => crash_with NullDeref
          end
      end
  end.

(** [main]: what it prints, when it is given a statement. *)
Definition exec_main (chdir : string → OS → Z * OS) (ifstream : OS → string → istream) (args : list (list ascii)) :
    M Server (option (list ascii)) :=
  match args with
  | [sql] =>
      b ← on_session (on_sm (sm_is_dir "ExecutorTest_db"));
      (if negb b then on_session (on_sm (create_db "ExecutorTest_db")) else ret tt) ;;
      on_session (on_sm (open_db chdir ifstream "ExecutorTest_db")) ;;
      result ← exec_sql sql;
      on_session (on_sm close_db) ;;
      ret (c_string result)
  | _ => on_session (on_sm close_db) ;; ret None
  end.

(** [begin], [commit], [abort] and [rollback] are no statements to it. *)
Lemma test_interp_txn root (s : Session) :
  root ∈ [ast.TxnBegin; ast.TxnCommit; ast.TxnAbort; ast.TxnRollback] →
  test_interp_sql root s = (Throw (RedBase (InternalError "Unexpected AST root")), s).
Proof.
  intros H. repeat (apply elem_of_cons in H as [->|H]; [done|]). by apply elem_of_nil in H.
Qed.

Lemma exec_sql_run (sv : Server) text root s' r s1 :
  yyparse (sv_start sv) text (parse_tree sv) = Some (MkResult true (Some root) s' None) →
  test_interp_sql root (with_reply fresh_reply (sv_session sv)) = (r, s1) →
  exec_sql text sv
  = (match r with
     | Ok _ => match data_send_ (ss_reply s1) with Some b => Ok b | None => Crash NullDeref end
     | Throw e => Throw e
     | Crash c => Crash c
     end, MkServer s1 (Some root) s').
Proof.
  intros Hp Hr. unfold exec_sql. rewrite st_get_bind, Hp. unfold st_bind, modify, on_session, zoom, assert_. simpl. rewrite Hr.
  destruct r as [[]| |]; [|done..]. unfold get_st. simpl. by destruct (data_send_ (ss_reply s1)).
Qed.

(** ** From a text to the catalogue and back *)

(** A statement that lists something of the catalogue. *)
Lemma exec_listing (sv : Server) text root (listing : DbMeta → M Reply unit) txt :
  sv_start sv = INITIAL → is_statement root → spelling root text →
  test_interp_sql root = with_catalog (λ db, on_reply (listing db)) →
  emits (listing (db_ (ss_sm (sv_session sv)))) txt → (length txt < Z.to_nat BUFFER_LENGTH)%nat →
  ∃ rest sv', exec_sql text sv = (Ok (txt ++ NUL :: rest), sv') ∧ ss_sm (sv_session sv') = ss_sm (sv_session sv).
Proof.
  intros Hs Hr Hsp Hi He Hfit. destruct (printed_send txt Hfit) as (r & Hr' & rest & Hb & _).
  destruct (reply_room _ Hfit) as [Hroom Hok]. specialize (He _ Hok). rewrite decide_True, Hr' in He by done.
  set (s0 := with_reply fresh_reply (sv_session sv)).
  assert (Hrun : test_interp_sql root s0 = (Ok tt, with_reply r s0)).
  { rewrite Hi. unfold with_catalog. rewrite st_get_bind. unfold on_reply, zoom. change (ss_reply s0) with fresh_reply.
    change (db_ (ss_sm s0)) with (db_ (ss_sm (sv_session sv))). by rewrite He. }
  pose proof (yyparse_spelling root text (parse_tree sv) Hr Hsp) as Hp. rewrite <- Hs in Hp at 1.
  exists rest. eexists. rewrite (exec_sql_run sv text root INITIAL _ _ Hp Hrun). simpl. by rewrite Hb.
Qed.

Lemma exec_create (sv : Server) text tab fields r sv1 :
  sv_start sv = INITIAL → is_statement (ast.CreateTable tab fields) → spelling (ast.CreateTable tab fields) text →
  exec_sql text sv = (r, sv1) →
  ∃ r0, create_table tab (interp_field <$> fields) (ss_sm (sv_session sv)) = (r0, ss_sm (sv_session sv1)) ∧
    sv_start sv1 = INITIAL ∧
    match r0 with Ok _ => r = Ok (replicate (Z.to_nat BUFFER_LENGTH) NUL) | Throw e => r = Throw e | Crash c => r = Crash c end.
Proof.
  intros Hs Hr Hsp. set (s0 := with_reply fresh_reply (sv_session sv)).
  pose proof (yyparse_spelling _ text (parse_tree sv) Hr Hsp) as Hp. rewrite <- Hs in Hp at 1.
  destruct (create_table tab (interp_field <$> fields) (ss_sm (sv_session sv))) as [r0 sm'] eqn:E.
  assert (Hrun : test_interp_sql (ast.CreateTable tab fields) s0
    = (r0, MkSession sm' (ss_txn_mgr s0) (ss_reply s0) (ss_txn_id s0))).
  { cbn [test_interp_sql]. unfold on_sm, zoom. change (ss_sm s0) with (ss_sm (sv_session sv)). by rewrite E. }
  rewrite (exec_sql_run sv text _ INITIAL _ _ Hp Hrun). intros [= <- <-]. exists r0. split; [done|]. split; [done|]. by destruct r0.
Qed.


End ExecSql.

Module ExecRuns.
Import InterpRuns ServerRuns.
#[local] Existing Instance MemFS.mem_posix.

Definition student_fields : list ast.ColDef :=
  [ast.MkColDef "id" (ast.MkTypeLen ast.SV_TYPE_INT 4); ast.MkColDef "name" (ast.MkTypeLen ast.SV_TYPE_STRING 32)].
Definition driver0 : Server (OS := fs_view) (R := LRUReplacer) := MkServer session_new None INITIAL.
Definition driver1 : Server (OS := fs_view) (R := LRUReplacer) := (exec_sql (print create_student) driver0).2.


End ExecRuns.
