(* ===== verification/Logger.v ===== *)
(** The console logger: [common/logger.h].

    What a logging macro writes, and for which levels it writes at all.  A level
    is compared in the preprocessor, where a name that is no macro counts as 0;
    the levels of this file are constants of the language, not macros. *)
From Stdlib Require Import Ascii String.
From S2P Require Import Prelude Config.

Definition LOG_LEVEL_OFF : Z := 1000.
Definition LOG_LEVEL_ERROR : Z := 500.
Definition LOG_LEVEL_WARN : Z := 400.
Definition LOG_LEVEL_INFO : Z := 300.
Definition LOG_LEVEL_DEBUG : Z := 200.
Definition LOG_LEVEL_TRACE : Z := 100.
Definition LOG_LEVEL_ALL : Z := 0.

(** ** The file name *)

Definition slash : ascii := "/"%char.

(** [PastLastSlash(a, b)], on the characters from each pointer to the end of the
    string.  Both point into one string, [b] not after [a]; [*b] past the end is
    the terminating zero. *)
Fixpoint PastLastSlash2 (a b : list ascii) : list ascii :=
  match a with
  | [] => b
  | _ :: a' => if decide (head b = Some slash) then PastLastSlash2 a' a' else PastLastSlash2 a' b
  end.

Definition PastLastSlash (a : list ascii) : list ascii := PastLastSlash2 a a.

(** [b] moves on only while it points at a slash: what is left out is the slashes
    at the beginning, and nothing up to the last slash. *)
Fixpoint past_leading (a : list ascii) : list ascii :=
  match a with
  | [] => []
  | c :: a' => if decide (c = slash) then past_leading a' else a
  end.

Lemma PastLastSlash2_stuck a b : head b ≠ Some slash → PastLastSlash2 a b = b.
Proof. intros Hb. induction a as [|c a IH]; simpl; [done|]. by rewrite decide_False. Qed.

Theorem PastLastSlash_leading a : PastLastSlash a = past_leading a.
Proof.
  unfold PastLastSlash. induction a as [|c a IH]; simpl; [done|]. destruct (decide (c = slash)) as [->|Hc].
  - by rewrite decide_True.
  - rewrite decide_False by congruence. apply PastLastSlash2_stuck. simpl. congruence.
Qed.

(** The name meant is the part after the last slash. *)
Lemma short_file_is_whole_path :
  PastLastSlash (chars "/root/src/storage/page.h") = chars "root/src/storage/page.h".
Proof. by vm_compute. Qed.

(** ** The header of a message *)

Definition level_type (level : Z) : string :=
  if level =? LOG_LEVEL_ERROR then "ERROR" else if level =? LOG_LEVEL_WARN then "WARN "
  else if level =? LOG_LEVEL_INFO then "INFO " else if level =? LOG_LEVEL_DEBUG then "DEBUG"
  else if level =? LOG_LEVEL_TRACE then "TRACE" else "UNKWN".

(** [OutputLogHeader]; [time_str] is what [strftime] makes of the current time. *)
Definition OutputLogHeader (time_str file : string) (line : Z) (func : string) (level : Z) : string :=
  time_str +:+ " [" +:+ file +:+ ":" +:+ to_string line +:+ ":" +:+ func +:+ "] " +:+ level_type level +:+ " - ".

(** ** Which macros are on *)

(** A name in an [#if]: the value of the macro, 0 when it is none. *)
Definition pp_value (macro : option Z) : Z := default 0 macro.

(** [#if LOG_LEVEL <= LOG_LEVEL_ERROR] and the four like it: [LOG_LEVEL] is a macro
    when the compiler is given one, the name on the right never is. *)
Definition LOG_ENABLED (option_given : option Z) (level : Z) : bool := pp_value option_given <=? pp_value None.

(** [LOG_ERROR(...)] and the others: what is written for a message that formats to
    [text]. *)
Definition LOG (option_given : option Z) (time_str file : string) (line : Z) (func : string) (level : Z) (text : string) : string :=
  if LOG_ENABLED option_given level then
    OutputLogHeader time_str (string_of_list_ascii (PastLastSlash (chars file))) line func level +:+ text +:+ newline
  else EmptyString.

(** Without a compile option every message is written, in a release too, and with
    a level given to the compiler none is (none is above [LOG_LEVEL_ALL]). *)
Theorem log_level_ignored level level' :
  LOG_ENABLED None level = true ∧
  (∀ n, 0 < n → LOG_ENABLED (Some n) level = false) ∧
  (∀ o, LOG_ENABLED o level = LOG_ENABLED o level').
Proof.
  split_and!; [done| |done]. intros n Hn. unfold LOG_ENABLED, pp_value. simpl. by apply Z.leb_gt.
Qed.

Lemma log_run :
  LOG None "2024-01-01 10:00:00" "disk.cpp" 12 "f" LOG_LEVEL_TRACE "hello"
  = ("2024-01-01 10:00:00 [disk.cpp:12:f] TRACE - hello" +:+ newline)%string.
Proof. by vm_compute. Qed.
